(** * Wan2.1 Gradio front-end ([App.py]): a shallow embedding

    The application shell of [App.py] is modelled function by function:
    the resource tables and [update_vram_and_resolution], the handlers of
    the interface built on them ([update_model_settings],
    [update_width_height], [update_vram_on_change]), the crop helpers
    [auto_crop_image] and [auto_crop_video], the output naming of
    [get_next_filename], the loader [load_wan_pipeline], the listing of
    LoRA files ([get_lora_choices], [refresh_lora_list]), and the two
    orchestration loops [generate_videos] and [batch_process_videos].
    Python values are modelled as follows:
    [int] is [Z], [str] is [string] (ASCII), [float] is an IEEE-754
    binary64 number ([spec_float] with precision 53), the file system is an
    association list from paths to nodes, the module globals are fields of
    a [world] record threaded through a state-and-exception monad.

    The file has three parts: the embedding of the code; the vocabulary
    in which its properties are stated (monitors over the trace of
    events, outcomes of calls, worlds to run the functions on); the
    properties and their proofs. *)

From Stdlib Require Import ZArith QArith Qcanon Ascii String List Bool Lia.
From Stdlib Require Import DecimalString DecimalN DecimalPos DecimalFacts.
From Stdlib Require Import Floats.SpecFloat.
From stdpp Require Import base decidable option list strings gmap sorting.

Local Open Scope Z_scope.

(** ** Python built-ins on strings and integers *)

Module Py.

Definition chars (s : string) : list ascii := list_ascii_of_string s.
Definition str (l : list ascii) : string := string_of_list_ascii l.

(** [s.endswith(suffix)] *)
Definition endswith (s suffix : string) : bool :=
  bool_decide (chars suffix `suffix_of` chars s).

(** [s.startswith(prefix)] *)
Definition startswith (s pre : string) : bool :=
  bool_decide (chars pre `prefix_of` chars s).

(** Whitespace removed by [str.strip()]: the ASCII characters for which
    [str.isspace()] holds (tab to carriage return, the four separators
    28 to 31, and the blank). *)
Definition is_strip_space (c : ascii) : bool :=
  Ascii.is_space c ||
  match c with
  | "028" | "029" | "030" | "031" => true
  | _ => false
  end%char.

Fixpoint lstrip_with (sp : ascii -> bool) (l : list ascii) : list ascii :=
  match l with
  | c :: r => if sp c then lstrip_with sp r else l
  | [] => []
  end.

Definition strip_with (sp : ascii -> bool) (l : list ascii) : list ascii :=
  rev (lstrip_with sp (rev (lstrip_with sp l))).

(** [s.strip()] *)
Definition strip (s : string) : string :=
  str (strip_with is_strip_space (chars s)).

(** [s.lower()] on ASCII letters *)
Definition lower_ascii (c : ascii) : ascii :=
  let n := nat_of_ascii c in
  if (65 <=? n)%nat && (n <=? 90)%nat then ascii_of_nat (n + 32) else c.

Definition lower (s : string) : string := str (map lower_ascii (chars s)).

(** [s.splitlines()]: the line boundaries among ASCII characters are
    line feed, carriage return (a following line feed belongs to it),
    vertical tab, form feed and the separators 28 to 30. *)
Definition is_linebreak (c : ascii) : bool :=
  match c with
  | "010" | "011" | "012" | "013" | "028" | "029" | "030" => true
  | _ => false
  end%char.

Fixpoint splitlines_go (cur : list ascii) (l : list ascii) : list string :=
  match l with
  | [] => match cur with [] => [] | _ => [str (rev cur)] end
  | c :: r =>
      if is_linebreak c then
        str (rev cur) ::
          match c, r with
          | "013"%char, "010"%char :: r' => splitlines_go [] r'
          | _, _ => splitlines_go [] r
          end
      else splitlines_go (c :: cur) r
  end.

Definition splitlines (s : string) : list string := splitlines_go [] (chars s).

(** *** [int(s)] for a string argument (base 10) *)

Definition digit_value (c : ascii) : option Z := Z.of_nat <$> Ascii.is_nat c.

Definition is_underscore (c : ascii) : bool := bool_decide (c = "_"%char).

(** The digit scan of [PyLong_FromString]: digits, with single
    underscores allowed between digits only. *)
Fixpoint scan_digits (prev_us : bool) (acc : Z) (l : list ascii) : option Z :=
  match l with
  | [] => if prev_us then None else Some acc
  | c :: r =>
      match digit_value c with
      | Some d => scan_digits false (10 * acc + d) r
      | None =>
          if is_underscore c && negb prev_us then scan_digits true acc r
          else None
      end
  end.

Definition parse_unsigned (l : list ascii) : option Z :=
  match l with
  | [] => None
  | c :: _ => if is_underscore c then None else scan_digits false 0 l
  end.

(** [int(s)]: [None] stands for [ValueError]. Surrounding whitespace
    is skipped, one sign is accepted. *)
Definition int (s : string) : option Z :=
  match strip_with Ascii.is_space (chars s) with
  | "+"%char :: r => parse_unsigned r
  | "-"%char :: r => Z.opp <$> parse_unsigned r
  | l => parse_unsigned l
  end.

(** *** Formatting integers *)

Definition digits (n : Z) : string :=
  NilZero.string_of_uint (N.to_uint (Z.to_N (Z.abs n))).

Definition sign (n : Z) : string := if n <? 0 then "-" else "".

(** [str(n)] *)
Definition str_int (n : Z) : string := sign n +:+ digits n.

Fixpoint zeros (k : nat) : string :=
  match k with O => "" | S k' => String "0" (zeros k') end.

(** [f"{n:05d}"]: sign-aware zero padding to a minimum width of five. *)
Definition format_05d (n : Z) : string :=
  let body := digits n in
  let used := (String.length (sign n) + String.length body)%nat in
  sign n +:+ zeros (5 - used) +:+ body.

(** *** [os.path] (posixpath) *)

Definition is_sep (c : ascii) : bool := bool_decide (c = "/"%char).
Definition is_dot (c : ascii) : bool := bool_decide (c = "."%char).

(** Splits the reversed path: the characters after the last dot
    (reversed) and the rest, provided the dot lies in the last
    component. *)
Fixpoint split_last_dot (rl : list ascii) (ext_rev : list ascii)
  : option (list ascii * list ascii) :=
  match rl with
  | [] => None
  | c :: r =>
      if is_sep c then None
      else if is_dot c then Some (r, c :: ext_rev)
      else split_last_dot r (c :: ext_rev)
  end.

(** The basename has a character other than a dot before the last dot. *)
Fixpoint has_non_dot_before_sep (rl : list ascii) : bool :=
  match rl with
  | [] => false
  | c :: r =>
      if is_sep c then false
      else if is_dot c then has_non_dot_before_sep r
      else true
  end.

(** [os.path.splitext(p)] *)
Definition splitext (p : string) : string * string :=
  match split_last_dot (rev (chars p)) [] with
  | Some (root_rev, ext) =>
      if has_non_dot_before_sep root_rev
      then (str (rev root_rev), str ext)
      else (p, "")
  | None => (p, "")
  end.

Fixpoint take_until_sep (rl : list ascii) : list ascii :=
  match rl with
  | [] => []
  | c :: r => if is_sep c then [] else c :: take_until_sep r
  end.

(** [os.path.basename(p)] *)
Definition basename (p : string) : string :=
  str (rev (take_until_sep (rev (chars p)))).

(** [os.path.join(a, b)] *)
Definition join (a b : string) : string :=
  if startswith b "/" then b
  else if bool_decide (a = "") || endswith a "/" then a +:+ b
  else a +:+ "/" +:+ b.

(** *** [sorted(l)] for a list of strings *)

(** [a <= b] on [str]: by code point, which on UTF-8 text is the order
    of the bytes. *)
Definition str_le (a b : string) : Prop := String.leb a b = true.

Global Instance str_le_dec : RelDecision str_le :=
  fun a b => decide (String.leb a b = true).

Definition sorted (l : list string) : list string := merge_sort str_le l.

End Py.

(** ** Exceptions *)

Inductive exn :=
| ZeroDivisionError
| OverflowError
| ValueError
| TypeError
| UnboundLocalError
| OSError
| Cv2Error
| CalledProcessError.

(** A computation that either yields a value or raises. *)
Inductive exc (A : Type) :=
| Ok (a : A)
| Err (e : exn).
Arguments Ok {A} a.
Arguments Err {A} e.

Global Instance exc_ret : MRet exc := fun A a => Ok a.
Global Instance exc_bind : MBind exc := fun A B f m =>
  match m with
  | Ok a => f a
  | Err e => Err e
  end.

(** ** Python floats: IEEE-754 binary64 *)

Module F64.

Definition prec : Z := 53.
Definition emax : Z := 1024.

(** The integer [n] as an unrounded mantissa with exponent zero. *)
Definition exact (n : Z) : spec_float :=
  match n with
  | Z0 => S754_zero false
  | Zpos p => S754_finite false p 0
  | Zneg p => S754_finite true p 0
  end.

Definition is_finite (x : spec_float) : bool :=
  match x with
  | S754_zero _ | S754_finite _ _ _ => true
  | _ => false
  end.

Definition is_zero (x : spec_float) : bool :=
  match x with
  | S754_zero _ => true
  | _ => false
  end.

(** The double nearest to the integer [n]. *)
Definition round_int (n : Z) : spec_float := binary_normalize prec emax n 0 false.

(** [float(n)] for an int: correctly rounded, [OverflowError] beyond the
    largest finite double. *)
Definition of_int (n : Z) : exc spec_float :=
  let x := round_int n in
  if is_finite x then Ok x else Err OverflowError.

(** [a / b] for two ints: the correctly rounded quotient. *)
Definition int_truediv (a b : Z) : exc spec_float :=
  if b =? 0 then Err ZeroDivisionError
  else
    let q := SFdiv prec emax (exact a) (exact b) in
    if is_finite q then Ok q else Err OverflowError.

(** [x * y] and [x / y] on floats. *)
Definition mul (x y : spec_float) : spec_float := SFmul prec emax x y.

Definition div (x y : spec_float) : exc spec_float :=
  if is_zero y then Err ZeroDivisionError else Ok (SFdiv prec emax x y).

Definition sub (x y : spec_float) : spec_float := SFsub prec emax x y.

(** [x < y] *)
Definition ltb (x y : spec_float) : bool := SFltb x y.

(** The literal [1.0]. *)
Definition one : spec_float := Eval cbv in SFone prec emax.

(** [int(x)]: truncation toward zero; infinities and NaN raise. *)
Definition to_int (x : spec_float) : exc Z :=
  match x with
  | S754_zero _ => Ok 0
  | S754_finite s m e =>
      let a := if 0 <=? e then Zpos m * 2 ^ e else Zpos m / 2 ^ (- e) in
      Ok (if s then - a else a)
  | S754_infinity _ => Err OverflowError
  | S754_nan => Err ValueError
  end.

(** [min(x, y, z)]: the first of the smallest arguments. *)
Definition min3 (x y z : spec_float) : spec_float :=
  let m := if ltb y x then y else x in
  if ltb z m then z else m.

End F64.

(** ** Pictures (PIL) *)

(** A picture is recorded by the operations that produced it; [size]
    gives its width and height as PIL reports them. *)
Inductive Image :=
| Picture (name : string) (w h : Z)
| Crop (left upper right lower : Z) (i : Image)
| Resize (w h : Z) (i : Image)
| Rgb (i : Image).

Fixpoint size (i : Image) : Z * Z :=
  match i with
  | Picture _ w h => (w, h)
  | Crop x0 y0 x1 y1 _ => (x1 - x0, y1 - y0)
  | Resize w h _ => (w, h)
  | Rgb i' => size i'
  end.

(** [image.crop((left, upper, right, lower))] *)
Definition crop (box : Z * Z * Z * Z) (i : Image) : exc Image :=
  let '(x0, y0, x1, y1) := box in
  if (x1 <? x0) || (y1 <? y0) then Err ValueError
  else Ok (Crop x0 y0 x1 y1 i).

(** [image.resize((w, h), Image.LANCZOS)] *)
Definition resize (sz : Z * Z) (i : Image) : exc Image :=
  let '(w, h) := sz in
  if (w <? 1) || (h <? 1) then Err ValueError else Ok (Resize w h i).

Definition auto_crop_image (image : Image) (target_width target_height : Z)
  : exc Image :=
  let '(w, h) := size image in
  target_ratio ← F64.int_truediv target_width target_height;
  current_ratio ← F64.int_truediv w h;
  image ←
    (if F64.ltb target_ratio current_ratio then
       hf ← F64.of_int h;
       new_width ← F64.to_int (F64.mul hf target_ratio);
       let left := (w - new_width) / 2 in
       let right := left + new_width in
       crop (left, 0, right, h) image
     else if F64.ltb current_ratio target_ratio then
       wf ← F64.of_int w;
       q ← F64.div wf target_ratio;
       new_height ← F64.to_int q;
       let top := (h - new_height) / 2 in
       let bottom := top + new_height in
       crop (0, top, w, bottom) image
     else Ok image);
  resize (target_width, target_height) image.

(** ** Video frames (OpenCV, numpy) *)

(** A frame is recorded by the operations that produced it: decoded from
    a file, generated by the diffusion pipeline, resized, or sliced. *)
Inductive frame :=
| Decoded (index : nat) (rows cols : Z)
| Generated (seed : Z) (index : nat) (rows cols : Z)
| Scaled (cols rows : Z) (f : frame)
| Sliced (top bottom left right : Z) (f : frame).

(** Length of [range(n)[a:b]] as Python and numpy compute it. *)
Definition slice_len (n a b : Z) : Z :=
  let clamp i := if i <? 0 then Z.max (i + n) 0 else Z.min i n in
  Z.max 0 (clamp b - clamp a).

(** [frame.shape[:2]]: rows and columns. *)
Fixpoint shape (f : frame) : Z * Z :=
  match f with
  | Decoded _ rows cols => (rows, cols)
  | Generated _ _ rows cols => (rows, cols)
  | Scaled cols rows _ => (rows, cols)
  | Sliced y0 y1 x0 x1 f' =>
      let '(rows, cols) := shape f' in
      (slice_len rows y0 y1, slice_len cols x0 x1)
  end.

(** [cv2.resize(frame, (w, h), interpolation=cv2.INTER_AREA)]: an empty
    source or an empty destination size fails OpenCV's assertion. *)
Definition cv2_resize (f : frame) (dsize : Z * Z) : exc frame :=
  let '(w, h) := dsize in
  let '(rows, cols) := shape f in
  if (w <=? 0) || (h <=? 0) || (rows <=? 0) || (cols <=? 0) then Err Cv2Error
  else Ok (Scaled w h f).

(** A video file: the properties a capture reports and its frames. *)
Record video := {
  v_fps : spec_float;
  v_width : Z;
  v_height : Z;
  v_frame_count : Z;
  v_frames : list frame
}.

(** ** Resource tables *)

(** A dict literal, in insertion order. *)
Definition dict (V : Type) : Type := list (string * V).

Fixpoint dict_get {V} (d : dict V) (k : string) (default : V) : V :=
  match d with
  | [] => default
  | (k', v) :: d' => if bool_decide (k' = k) then v else dict_get d' k default
  end.

Definition keys {V} (d : dict V) : list string := map fst d.

Definition ASPECT_RATIOS_1_3b : dict (Z * Z) :=
  [ ("1:1", (640, 640)); ("4:3", (736, 544)); ("3:4", (544, 736));
    ("3:2", (768, 512)); ("2:3", (512, 768)); ("16:9", (832, 480));
    ("9:16", (480, 832)); ("21:9", (960, 416)); ("9:21", (416, 960));
    ("4:5", (560, 704)); ("5:4", (704, 560)) ].

Definition ASPECT_RATIOS_14b : dict (Z * Z) :=
  [ ("1:1", (960, 960)); ("4:3", (1104, 832)); ("3:4", (832, 1104));
    ("3:2", (1152, 768)); ("2:3", (768, 1152)); ("16:9", (1280, 720));
    ("16:9_low", (832, 480)); ("9:16", (720, 1280)); ("9:16_low", (832, 480));
    ("21:9", (1472, 624)); ("9:21", (624, 1472)); ("4:5", (864, 1072));
    ("5:4", (1072, 864)) ].

Definition MODEL_1_3B : string := "WAN 2.1 1.3B (Text/Video-to-Video)".
Definition MODEL_14B_TEXT : string := "WAN 2.1 14B Text-to-Video".
Definition MODEL_14B_IMAGE_720P : string := "WAN 2.1 14B Image-to-Video 720P".
Definition MODEL_14B_IMAGE_480P : string := "WAN 2.1 14B Image-to-Video 480P".

(** The [mapping] literal of each branch of [update_vram_and_resolution]. *)
Definition mapping_1_3b : dict string :=
  [ ("4GB", "0"); ("6GB", "500000000"); ("8GB", "1000000000");
    ("10GB", "7000000000"); ("12GB", "7000000000"); ("16GB", "7000000000");
    ("24GB", "7000000000"); ("32GB", "7000000000"); ("48GB", "12000000000");
    ("80GB", "12000000000") ].

Definition mapping_14b_text : dict string :=
  [ ("4GB", "0"); ("6GB", "0"); ("8GB", "0"); ("10GB", "0"); ("12GB", "0");
    ("16GB", "0"); ("24GB", "3000000000"); ("32GB", "6500000000");
    ("48GB", "22000000000"); ("80GB", "70000000000") ].

Definition mapping_14b_image_720p : dict string :=
  [ ("4GB", "0"); ("6GB", "0"); ("8GB", "0"); ("10GB", "0"); ("12GB", "0");
    ("16GB", "0"); ("24GB", "0"); ("32GB", "3500000000");
    ("48GB", "12000000000"); ("80GB", "70000000000") ].

Definition mapping_14b_image_480p : dict string :=
  [ ("4GB", "0"); ("6GB", "0"); ("8GB", "0"); ("10GB", "0"); ("12GB", "0");
    ("16GB", "1200000000"); ("24GB", "5000000000"); ("32GB", "9500000000");
    ("48GB", "20000000000"); ("80GB", "70000000000") ].

Definition mapping_other : dict string :=
  [ ("4GB", "0"); ("6GB", "0"); ("8GB", "0"); ("10GB", "0"); ("12GB", "0");
    ("16GB", "0"); ("24GB", "0"); ("32GB", "12000000000");
    ("48GB", "12000000000"); ("80GB", "70000000000") ].

(** ** The world: module globals, devices and environment *)

(** Values stored in the configuration dict. *)
Inductive pyval :=
| PNone
| PStr (s : string)
| PNum (q : Qc).

Global Instance pyval_eq_dec : EqDecision pyval.
Proof. solve_decision. Defined.

(** The object built by [load_wan_pipeline]: what it was loaded with,
    and a serial number telling one load from the next. *)
Record pipeline := {
  pipe_serial : nat;
  pipe_model : string;
  pipe_fp8 : bool;
  pipe_lora : option (string * Qc);
  pipe_num_persistent : option Z
}.

(** Keyword arguments of one call of the pipeline. *)
Record call_args := {
  arg_prompt : string;
  arg_negative_prompt : string;
  arg_num_inference_steps : Z;
  arg_seed : Z;
  arg_tiled : bool;
  arg_width : Z;
  arg_height : Z;
  arg_num_frames : Z;
  arg_cfg_scale : option Qc;
  arg_sigma_shift : option Qc;
  arg_input_image : option Image;
  arg_input_video : option string;
  arg_denoising_strength : option Qc
}.

Inductive content :=
| Text (s : string)
| ImageFile (i : Image)
| VideoFile (v : video)
| Binary.

Inductive node :=
| Dir
| File (c : content).

(** Clicks handled by the interface while a call is running. *)
Inductive ui_event :=
| PressCancel
| PressCancelBatch.

(** The trace is a record kept alongside the program, to state what it
    does in which order: the calls it makes to the outside (loading the
    pipeline, calling it, saving a video, a picture or a text file,
    running RIFE) and each read of a cancellation flag, with the value
    read. *)
Inductive event :=
| EvLoad (p : pipeline)
| EvPoll (flag : bool)
| EvBatchPoll (image_file : string) (flag : bool)
| EvGenerate (p : pipeline) (a : call_args)
| EvSaveVideo (path : string)
| EvSaveImage (path : string)
| EvWriteText (path : string)
| EvRife (video_in video_out multiplier : string).

Record globals := {
  loaded_pipeline : option pipeline;
  loaded_pipeline_config : gmap string pyval;
  cancel_flag : bool;
  cancel_batch_flag : bool
}.

Record devices := {
  fs : list (string * node);
  stdout : list string;
  trace : list event
}.

(** What the run reads from outside: the clicks delivered during each
    long-running call, the results of [random.randint], the readings of
    [time.time], the exit statuses of subprocesses, and the renderings
    of floats in f-strings. *)
Record environment := {
  ui_events : list (list ui_event);
  random_source : list Z;
  clock : list spec_float;
  subprocess_status : list Z;
  show_num : Qc -> string;
  show_float : spec_float -> string;
  show_2f : spec_float -> string;
  show_exn : exn -> string
}.

Record world := {
  py : globals;
  io : devices;
  env : environment
}.

(** ** Statements: state, exceptions, [return], [break], [continue] *)

(** How a statement ends.  [R] is the type returned by the enclosing
    function; [S] holds the local variables a loop body hands over when
    it leaves an iteration with [break] or [continue]. *)
Inductive ctl (R S A : Type) :=
| Normal (a : A)
| Returns (r : R)
| Breaks (s : S)
| Continues (s : S)
| Raises (e : exn).
Arguments Normal {R S A} a.
Arguments Returns {R S A} r.
Arguments Breaks {R S A} s.
Arguments Continues {R S A} s.
Arguments Raises {R S A} e.

Definition M (R S A : Type) : Type := world -> ctl R S A * world.

Global Instance M_ret R S : MRet (M R S) := fun A a w => (Normal a, w).
Global Instance M_bind R S : MBind (M R S) := fun A B f m w =>
  match m w with
  | (Normal a, w') => f a w'
  | (Returns r, w') => (Returns r, w')
  | (Breaks s, w') => (Breaks s, w')
  | (Continues s, w') => (Continues s, w')
  | (Raises e, w') => (Raises e, w')
  end.
Global Typeclasses Opaque M.

Section Statements.
Context {R S : Type}.

Definition get_world : M R S world := fun w => (Normal w, w).
Definition modify (f : world -> world) : M R S unit := fun w => (Normal tt, f w).
Definition return_ {A} (r : R) : M R S A := fun w => (Returns r, w).
Definition break_ {A} (s : S) : M R S A := fun w => (Breaks s, w).
Definition continue_ {A} (s : S) : M R S A := fun w => (Continues s, w).
Definition raise {A} (e : exn) : M R S A := fun w => (Raises e, w).

Definition lift {A} (x : exc A) : M R S A :=
  match x with
  | Ok a => mret a
  | Err e => raise e
  end.

(** Calling a function: its [return] ends the call, not the caller. *)
Definition call {A} (m : M A Empty_set A) : M R S A := fun w =>
  match m w with
  | (Normal a, w') | (Returns a, w') => (Normal a, w')
  | (Breaks s, _) | (Continues s, _) => match s with end
  | (Raises e, w') => (Raises e, w')
  end.

(** [try: m  except Exception: handler] *)
Definition try_except {A} (m : M R S A) (handler : exn -> M R S A) : M R S A :=
  fun w =>
    match m w with
    | (Raises e, w') => handler e w'
    | r => r
    end.

(** [for x in l: body], the loop's locals threaded through. *)
Fixpoint for_each {R' S' A} (l : list A) (body : A -> S' -> M R' S' S') (s : S')
  : M R' S S' :=
  match l with
  | [] => mret s
  | x :: l' => fun w =>
      match body x s w with
      | (Normal s', w') | (Continues s', w') => for_each l' body s' w'
      | (Breaks s', w') => (Normal s', w')
      | (Returns r, w') => (Returns r, w')
      | (Raises e, w') => (Raises e, w')
      end
  end.

End Statements.

(** [range(n)] *)
Definition range (n : Z) : list Z := map Z.of_nat (seq 0 (Z.to_nat n)).

(** *** Updating the world *)

Definition set_py (f : globals -> globals) (w : world) : world :=
  {| py := f (py w); io := io w; env := env w |}.
Definition set_io (f : devices -> devices) (w : world) : world :=
  {| py := py w; io := f (io w); env := env w |}.
Definition set_env (f : environment -> environment) (w : world) : world :=
  {| py := py w; io := io w; env := f (env w) |}.

Definition with_loaded_pipeline (p : option pipeline) (g : globals) : globals :=
  {| loaded_pipeline := p;
     loaded_pipeline_config := loaded_pipeline_config g;
     cancel_flag := cancel_flag g;
     cancel_batch_flag := cancel_batch_flag g |}.
Definition with_loaded_pipeline_config (c : gmap string pyval) (g : globals) : globals :=
  {| loaded_pipeline := loaded_pipeline g;
     loaded_pipeline_config := c;
     cancel_flag := cancel_flag g;
     cancel_batch_flag := cancel_batch_flag g |}.
Definition with_cancel_flag (b : bool) (g : globals) : globals :=
  {| loaded_pipeline := loaded_pipeline g;
     loaded_pipeline_config := loaded_pipeline_config g;
     cancel_flag := b;
     cancel_batch_flag := cancel_batch_flag g |}.
Definition with_cancel_batch_flag (b : bool) (g : globals) : globals :=
  {| loaded_pipeline := loaded_pipeline g;
     loaded_pipeline_config := loaded_pipeline_config g;
     cancel_flag := cancel_flag g;
     cancel_batch_flag := b |}.

Definition with_fs (f : list (string * node)) (d : devices) : devices :=
  {| fs := f; stdout := stdout d; trace := trace d |}.
Definition with_stdout (o : list string) (d : devices) : devices :=
  {| fs := fs d; stdout := o; trace := trace d |}.
Definition with_trace (t : list event) (d : devices) : devices :=
  {| fs := fs d; stdout := stdout d; trace := t |}.

Definition with_ui_events (u : list (list ui_event)) (e : environment) : environment :=
  {| ui_events := u; random_source := random_source e; clock := clock e;
     subprocess_status := subprocess_status e; show_num := show_num e;
     show_float := show_float e; show_2f := show_2f e;
     show_exn := show_exn e |}.
Definition with_random_source (r : list Z) (e : environment) : environment :=
  {| ui_events := ui_events e; random_source := r; clock := clock e;
     subprocess_status := subprocess_status e; show_num := show_num e;
     show_float := show_float e; show_2f := show_2f e;
     show_exn := show_exn e |}.
Definition with_clock (c : list spec_float) (e : environment) : environment :=
  {| ui_events := ui_events e; random_source := random_source e; clock := c;
     subprocess_status := subprocess_status e; show_num := show_num e;
     show_float := show_float e; show_2f := show_2f e;
     show_exn := show_exn e |}.
Definition with_subprocess_status (s : list Z) (e : environment) : environment :=
  {| ui_events := ui_events e; random_source := random_source e; clock := clock e;
     subprocess_status := s; show_num := show_num e;
     show_float := show_float e; show_2f := show_2f e;
     show_exn := show_exn e |}.

(** *** The file system *)

(** A path as the file system looks it up: trailing separators do not
    count (the root apart). *)
Definition norm_path (p : string) : string :=
  match rev (Py.lstrip_with Py.is_sep (rev (Py.chars p))) with
  | [] => if bool_decide (p = "") then "" else "/"
  | l => Py.str l
  end.

Fixpoint assoc {V} (k : string) (l : list (string * V)) : option V :=
  match l with
  | [] => None
  | (k', v) :: l' => if bool_decide (k' = k) then Some v else assoc k l'
  end.

Fixpoint assoc_set {V} (k : string) (v : V) (l : list (string * V))
  : list (string * V) :=
  match l with
  | [] => [(k, v)]
  | (k', v') :: l' =>
      if bool_decide (k' = k) then (k, v) :: l' else (k', v') :: assoc_set k v l'
  end.

Definition fs_lookup (p : string) (f : list (string * node)) : option node :=
  assoc (norm_path p) f.

Definition fs_write (p : string) (n : node) (f : list (string * node))
  : list (string * node) :=
  assoc_set (norm_path p) n f.

Fixpoint strip_prefix (pre l : list ascii) : option (list ascii) :=
  match pre, l with
  | [], _ => Some l
  | c :: pre', c' :: l' => if bool_decide (c = c') then strip_prefix pre' l' else None
  | _ :: _, [] => None
  end.

(** The name under which the entry [key] appears in directory [d], if
    it lies directly in it. *)
Definition child_name (d key : string) : option string :=
  match strip_prefix (Py.chars (Py.join (norm_path d) "")) (Py.chars key) with
  | Some (c :: name) =>
      if forallb (fun x => negb (Py.is_sep x)) (c :: name)
      then Some (Py.str (c :: name)) else None
  | _ => None
  end.

Definition fs_children (d : string) (f : list (string * node)) : list string :=
  omap (fun e => child_name d (fst e)) f.

Section Devices.
Context {R S : Type}.

(** [print(s)] *)
Definition print (s : string) : M R S unit :=
  modify (set_io (fun d => with_stdout (stdout d ++ [s]) d)).

Definition emit (e : event) : M R S unit :=
  modify (set_io (fun d => with_trace (trace d ++ [e]) d)).

(** [os.path.exists(p)], [os.path.isdir(p)] *)
Definition os_path_exists (p : string) : M R S bool :=
  w ← get_world; mret (bool_decide (is_Some (fs_lookup p (fs (io w))))).

Definition os_path_isdir (p : string) : M R S bool :=
  w ← get_world;
  mret (match fs_lookup p (fs (io w)) with Some Dir => true | _ => false end).

(** [os.makedirs(p)] *)
Definition os_makedirs (p : string) : M R S unit :=
  w ← get_world;
  match fs_lookup p (fs (io w)) with
  | Some _ => raise OSError
  | None => modify (set_io (fun d => with_fs (fs_write p Dir (fs d)) d))
  end.

(** [os.listdir(p)] *)
Definition os_listdir (p : string) : M R S (list string) :=
  w ← get_world;
  match fs_lookup p (fs (io w)) with
  | Some Dir => mret (fs_children p (fs (io w)))
  | _ => raise OSError
  end.

(** Writing a whole file ([open(p, "w")], [save_video], [Image.save],
    [cv2.VideoWriter]). *)
Definition write_file (p : string) (c : content) : M R S unit :=
  w ← get_world;
  match fs_lookup p (fs (io w)) with
  | Some Dir => raise OSError
  | _ => modify (set_io (fun d => with_fs (fs_write p (File c) (fs d)) d))
  end.

(** [open(p, "r", encoding="utf-8").read()] *)
Definition read_text (p : string) : M R S string :=
  w ← get_world;
  match fs_lookup p (fs (io w)) with
  | Some (File (Text s)) => mret s
  | _ => raise OSError
  end.

(** [Image.open(p)] *)
Definition Image_open (p : string) : M R S Image :=
  w ← get_world;
  match fs_lookup p (fs (io w)) with
  | Some (File (ImageFile i)) => mret i
  | _ => raise OSError
  end.

(** [cv2.VideoCapture(p)]: [None] when [isOpened()] is false. *)
Definition cv2_VideoCapture (p : string) : M R S (option video) :=
  w ← get_world;
  match fs_lookup p (fs (io w)) with
  | Some (File (VideoFile v)) => mret (Some v)
  | _ => mret None
  end.

(** [time.time()] *)
Definition time_time : M R S spec_float :=
  w ← get_world;
  match clock (env w) with
  | [] => mret (S754_zero false)
  | t :: rest => modify (set_env (with_clock rest));; mret t
  end.

(** [random.randint(a, b)]: some integer of the closed range. *)
Definition random_randint (a b : Z) : M R S Z :=
  w ← get_world;
  match random_source (env w) with
  | [] => mret a
  | r :: rest =>
      modify (set_env (with_random_source rest));;
      mret (a + r `mod` (b - a + 1))
  end.

(** [subprocess.run(cmd, shell=True, check=True)] *)
Definition subprocess_run : M R S unit :=
  w ← get_world;
  match subprocess_status (env w) with
  | [] => mret tt
  | st :: rest =>
      modify (set_env (with_subprocess_status rest));;
      if st =? 0 then mret tt else raise CalledProcessError
  end.

End Devices.

(** ** The application *)

Definition nl : string := String "010" "".

(** [str(x)] for an optional int ([None] prints as its name). *)
Definition str_opt_int (x : option Z) : string :=
  match x with
  | Some n => Py.str_int n
  | None => "None"
  end.

(** [gr.update(choices=..., value=...)] *)
Record gr_update := {
  upd_choices : list string;
  upd_value : string
}.

(** [gr.Slider(minimum=..., maximum=..., step=..., value=...)] *)
Record slider := {
  slider_minimum : Z;
  slider_maximum : Z;
  slider_step : Z;
  slider_value : Z
}.

(** The two sliders the handlers write to. *)
Definition width_slider : slider :=
  {| slider_minimum := 320; slider_maximum := 1536; slider_step := 16;
     slider_value := 832 |}.
Definition height_slider : slider :=
  {| slider_minimum := 320; slider_maximum := 1536; slider_step := 16;
     slider_value := 480 |}.

Definition update_width_height (aspect_ratio model_choice : string) : Z * Z :=
  if bool_decide (model_choice = MODEL_1_3B)
     || bool_decide (model_choice = MODEL_14B_IMAGE_480P)
  then dict_get ASPECT_RATIOS_1_3b aspect_ratio (832, 480)
  else dict_get ASPECT_RATIOS_14b aspect_ratio (1280, 720).

Section Application.
Context {R S : Type}.

Definition update_vram_and_resolution (model_choice preset : string)
  : M R S (string * list string * string) :=
  print model_choice;;
  let '(mapping, resolution_choices, default_aspect) :=
    if bool_decide (model_choice = MODEL_1_3B) then
      (mapping_1_3b, keys ASPECT_RATIOS_1_3b, "16:9")
    else if bool_decide (model_choice = MODEL_14B_TEXT) then
      (mapping_14b_text, keys ASPECT_RATIOS_14b, "16:9")
    else if bool_decide (model_choice = MODEL_14B_IMAGE_720P) then
      (mapping_14b_image_720p, keys ASPECT_RATIOS_14b, "16:9")
    else if bool_decide (model_choice = MODEL_14B_IMAGE_480P) then
      (mapping_14b_image_480p, keys ASPECT_RATIOS_1_3b, "16:9")
    else
      (mapping_other, keys ASPECT_RATIOS_14b, "16:9") in
  mret (dict_get mapping preset "12000000000", resolution_choices, default_aspect).

Definition update_model_settings (model_choice current_vram_preset : string)
  : M R S (gr_update * Z * Z * string) :=
  '(num_persistent_val, aspect_options, default_aspect) ←
    update_vram_and_resolution model_choice current_vram_preset;
  let '(default_width, default_height) :=
    if bool_decide (model_choice = MODEL_1_3B)
       || bool_decide (model_choice = MODEL_14B_IMAGE_480P)
    then dict_get ASPECT_RATIOS_1_3b default_aspect (832, 480)
    else dict_get ASPECT_RATIOS_14b default_aspect (1280, 720) in
  mret ({| upd_choices := aspect_options; upd_value := default_aspect |},
        default_width, default_height, num_persistent_val).

Definition update_vram_on_change (preset model_choice : string) : M R S string :=
  '(num_persistent_val, _, _) ← update_vram_and_resolution model_choice preset;
  mret num_persistent_val.

Definition cancel_generation : M R S string :=
  modify (set_py (with_cancel_flag true));;
  print "[CMD] Cancel button pressed.";;
  mret "Cancelling generation...".

Definition cancel_batch_process : M R S string :=
  modify (set_py (with_cancel_batch_flag true));;
  print "[CMD] Batch process cancel button pressed.";;
  mret "Cancelling batch process...".

(** The interface handles the clicks that arrive while the caller is
    inside a long-running external call. *)
Definition handle_click (e : ui_event) : M R S unit :=
  match e with
  | PressCancel => cancel_generation;; mret tt
  | PressCancelBatch => cancel_batch_process;; mret tt
  end.

Fixpoint handle_clicks (l : list ui_event) : M R S unit :=
  match l with
  | [] => mret tt
  | e :: l' => handle_click e;; handle_clicks l'
  end.

Definition interface_runs : M R S unit :=
  w ← get_world;
  match ui_events (env w) with
  | [] => mret tt
  | clicks :: rest => modify (set_env (with_ui_events rest));; handle_clicks clicks
  end.

Definition is_load (e : event) : bool :=
  match e with
  | EvLoad _ => true
  | _ => false
  end.

Definition known_model (model_choice : string) : bool :=
  bool_decide (model_choice = "1.3B") || bool_decide (model_choice = "14B_text")
  || bool_decide (model_choice = "14B_image_720p")
  || bool_decide (model_choice = "14B_image_480p").

Definition load_wan_pipeline (model_choice torch_dtype_str num_persistent : string)
    (lora_path : option string) (lora_alpha : Qc) : M R S pipeline :=
  print ("[CMD] Loading model: " +:+ model_choice +:+ " with torch dtype: "
         +:+ torch_dtype_str +:+ " and num_persistent_param_in_dit: "
         +:+ num_persistent);;
  let fp8 := bool_decide (torch_dtype_str = "torch.float8_e4m3fn") in
  (if known_model model_choice then mret tt else raise ValueError);;
  w ← get_world;
  match lora_path with
  | Some path =>
      print ("[CMD] Loading LoRA from " +:+ path +:+ " with alpha "
             +:+ show_num (env w) lora_alpha)
  | None => mret tt
  end;;
  interface_runs;;
  num_persistent_val ←
    (if bool_decide (Py.lower (Py.strip num_persistent) = "none") then mret None
     else
       try_except
         (match Py.int num_persistent with
          | Some n => mret (Some n)
          | None => raise ValueError
          end)
         (fun _ =>
            print ("[CMD] Warning: could not parse num_persistent_param_in_dit "
                   +:+ "value, defaulting to 6000000000");;
            mret (Some 6000000000)));
  print ("num_persistent_val " +:+ str_opt_int num_persistent_val);;
  w ← get_world;
  let pipe :=
    {| pipe_serial := length (List.filter is_load (trace (io w)));
       pipe_model := model_choice;
       pipe_fp8 := fp8;
       pipe_lora := (fun path => (path, lora_alpha)) <$> lora_path;
       pipe_num_persistent := num_persistent_val |} in
  emit (EvLoad pipe);;
  print "[CMD] Model loaded successfully.";;
  mret pipe.

(** [max(l, default=d)] *)
Definition max_default (l : list Z) (d : Z) : Z :=
  match l with
  | [] => d
  | x :: l' => fold_left Z.max l' x
  end.

Definition get_next_filename (extension : string) : M R S string :=
  let outputs_dir := "outputs" in
  present ← os_path_exists outputs_dir;
  (if negb present then os_makedirs outputs_dir else mret tt);;
  listing ← os_listdir outputs_dir;
  let existing_files := List.filter (fun f => Py.endswith f extension) listing in
  let current_numbers :=
    omap (fun file => Py.int (fst (Py.splitext file))) existing_files in
  let next_number := max_default current_numbers 0 + 1 in
  mret (Py.join outputs_dir (Py.format_05d next_number +:+ extension)).

Definition get_lora_choices : M R S (list string) :=
  let lora_folder := "LoRAs" in
  present ← os_path_exists lora_folder;
  (if negb present then
     os_makedirs lora_folder;;
     print ("[CMD] 'LoRAs' folder not found. Created 'LoRAs' folder. "
            +:+ "Please add your LoRA .safetensors files.")
   else mret tt);;
  listing ← os_listdir lora_folder;
  let files := List.filter (fun f => Py.endswith f ".safetensors") listing in
  let choices := "None" :: Py.sorted files in
  mret choices.

Definition refresh_lora_list : M R S gr_update :=
  choices ← get_lora_choices;
  mret {| upd_choices := choices; upd_value := "None" |}.

(** The loop of [auto_crop_video]: one iteration per frame read. *)
Fixpoint crop_frames (target_width target_height desired_frame_count : Z)
    (scale : spec_float) (new_width new_height : Z)
    (frames : list frame) (frame_count : Z) (written : list frame)
  : M R S (Z * list frame) :=
  if frame_count <? desired_frame_count then
    match frames with
    | [] =>
        print "[CMD] No more frames available from the video.";;
        mret (frame_count, written)
    | frame :: rest =>
        frame ← (if F64.ltb scale F64.one
                 then lift (cv2_resize frame (new_width, new_height))
                 else mret frame);
        let '(h, w) := shape frame in
        frame ←
          (if (target_width <? w) || (target_height <? h) then
             let x0 := (w - target_width) / 2 in
             let y0 := (h - target_height) / 2 in
             print ("[CMD] Cropped frame " +:+ Py.str_int (frame_count + 1)
                    +:+ ": left=" +:+ Py.str_int x0 +:+ ", top=" +:+ Py.str_int y0);;
             mret (Sliced y0 (y0 + target_height) x0 (x0 + target_width) frame)
           else
             resized ← lift (cv2_resize frame (target_width, target_height));
             print ("[CMD] Resized frame " +:+ Py.str_int (frame_count + 1)
                    +:+ " to target resolution.");;
             mret resized);
        crop_frames target_width target_height desired_frame_count scale
          new_width new_height rest (frame_count + 1) (written ++ [frame])
    end
  else mret (frame_count, written).

End Application.

Definition auto_crop_video (video_path : string)
    (target_width target_height desired_frame_count desired_fps : Z)
  : M string Empty_set string :=
  print ("[CMD] Starting video processing for file: " +:+ video_path);;
  cap ← cv2_VideoCapture video_path;
  match cap with
  | None =>
      print ("[CMD] Failed to open video: " +:+ video_path);;
      return_ video_path
  | Some v =>
      w ← get_world;
      let orig_fps := v_fps v in
      print ("[CMD] Original video FPS: " +:+ show_float (env w) orig_fps);;
      let orig_width := v_width v in
      let orig_height := v_height v in
      print ("[CMD] Original video resolution: " +:+ Py.str_int orig_width
             +:+ "x" +:+ Py.str_int orig_height);;
      rw ← lift (F64.int_truediv target_width orig_width);
      rh ← lift (F64.int_truediv target_height orig_height);
      let scale := F64.min3 F64.one rw rh in
      ow ← lift (F64.of_int orig_width);
      new_width ← lift (F64.to_int (F64.mul ow scale));
      oh ← lift (F64.of_int orig_height);
      new_height ← lift (F64.to_int (F64.mul oh scale));
      print ("[CMD] Scaling factor: " +:+ show_float (env w) scale
             +:+ ". New intermediate resolution: " +:+ Py.str_int new_width
             +:+ "x" +:+ Py.str_int new_height);;
      let '(base, ext) := Py.splitext video_path in
      let out_path := base +:+ "_cropped.mp4" in
      let out frames :=
        VideoFile {| v_fps := F64.round_int desired_fps;
                     v_width := target_width; v_height := target_height;
                     v_frame_count := Z.of_nat (length frames);
                     v_frames := frames |} in
      write_file out_path (out []);;
      '(frame_count, written) ←
        crop_frames target_width target_height desired_frame_count scale
          new_width new_height (v_frames v) 0 [];
      write_file out_path (out written);;
      print ("[CMD] Finished processing video. Total frames written: "
             +:+ Py.str_int frame_count);;
      seconds ← lift (F64.int_truediv frame_count desired_fps);
      print ("[CMD] Set output FPS to " +:+ Py.str_int desired_fps
             +:+ ". Final video duration: " +:+ show_2f (env w) seconds
             +:+ " seconds.");;
      print ("[CMD] Output video saved to: " +:+ out_path);;
      return_ out_path
  end.

(** *** Statements shared by the two generation functions *)

Section Shared.
Context {R S : Type}.

(** Seed selection, the same statements in both loops:
    [random.randint(0, 2**32 - 1)] or the parsed text box, [0] when the
    box is blank or [int] raises. *)
Definition select_seed (use_random_seed : bool) (seed_input : string) : M R S Z :=
  if use_random_seed then random_randint 0 (2 ^ 32 - 1)
  else
    try_except
      (if bool_decide (Py.strip seed_input <> "") then
         match Py.int seed_input with
         | Some n => mret n
         | None => raise ValueError
         end
       else mret 0)
      (fun _ => mret 0).

(** [str(seed or "")] *)
Definition seed_or_empty (seed : option Z) : string :=
  match seed with
  | Some n => if n =? 0 then "" else Py.str_int n
  | None => ""
  end.

(** [lora_model] as given to the loader. *)
Definition effective_lora (lora_model : option string) : option string :=
  match lora_model with
  | None => None
  | Some l =>
      if bool_decide (l = "None") || bool_decide (l = "") then None
      else Some (Py.join "LoRAs" l)
  end.

(** The [current_config] dict. *)
Definition make_config (model_choice torch_dtype vram_value : string)
    (lora : option string) (lora_alpha : Qc) : gmap string pyval :=
  list_to_map
    [ ("model_choice", PStr model_choice);
      ("torch_dtype", PStr torch_dtype);
      ("num_persistent", PStr vram_value);
      ("lora_model", from_option PStr PNone lora);
      ("lora_alpha", PNum lora_alpha) ].

Definition is_none {A} (x : option A) : bool :=
  match x with
  | None => true
  | Some _ => false
  end.

(** The cache check both functions make before their loop; they differ
    in the two messages only. *)
Definition reload_if_changed (msg_lora msg_base : string)
    (model_choice torch_dtype vram_value : string)
    (effective_lora_model : option string) (lora_alpha : Qc) : M R S unit :=
  let current_config :=
    make_config model_choice torch_dtype vram_value effective_lora_model lora_alpha in
  w ← get_world;
  if is_none (loaded_pipeline (py w))
     || bool_decide (loaded_pipeline_config (py w) <> current_config)
  then
    match effective_lora_model with
    | Some path =>
        print (msg_lora +:+ path +:+ " with scale " +:+ show_num (env w) lora_alpha)
    | None => print msg_base
    end;;
    pipe ← load_wan_pipeline model_choice torch_dtype vram_value
              effective_lora_model lora_alpha;
    modify (set_py (with_loaded_pipeline (Some pipe)));;
    modify (set_py (with_loaded_pipeline_config current_config))
  else mret tt.

(** [loaded_pipeline = None; loaded_pipeline_config = {}] *)
Definition unload_pipeline : M R S unit :=
  modify (set_py (with_loaded_pipeline None));;
  modify (set_py (with_loaded_pipeline_config ∅)).

(** A call of [loaded_pipeline] with keyword arguments [args]: the
    frames the pipeline hands back. *)
Definition run_pipeline (args : call_args) : M R S (list frame) :=
  w ← get_world;
  match loaded_pipeline (py w) with
  | None => raise TypeError
  | Some pipe =>
      interface_runs;;
      emit (EvGenerate pipe args);;
      mret (map (fun k => Generated (arg_seed args) k (arg_height args) (arg_width args))
                (seq 0 (Z.to_nat (arg_num_frames args))))
  end.

(** [save_video(video_data, path, fps=fps, quality=quality)] *)
Definition save_video (video_data : list frame) (path : string) (fps quality : Z)
  : M R S unit :=
  let '(rows, cols) := match video_data with f :: _ => shape f | [] => (0, 0) end in
  write_file path
    (VideoFile {| v_fps := F64.round_int fps; v_width := cols; v_height := rows;
                  v_frame_count := Z.of_nat (length video_data);
                  v_frames := video_data |});;
  emit (EvSaveVideo path).

(** [processed_image.save(path)] *)
Definition save_image (image : Image) (path : string) : M R S unit :=
  write_file path (ImageFile image);;
  emit (EvSaveImage path).

(** [with open(path, "w", encoding="utf-8") as f: f.write(text)] *)
Definition write_text (path text : string) : M R S unit :=
  write_file path (Text text);;
  emit (EvWriteText path).

(** The interpreter and the model directory named on the command line of
    the frame interpolation. *)
Definition sys_executable : string := "python".
Definition rife_model_dir : string := "Practical-RIFE/train_log".

(** The Practical-RIFE subprocess, run with [check=True]. *)
Definition run_rife (pr_rife_radio video improved_video : string) : M R S string :=
  print ("[CMD] Applying Practical-RIFE with multiplier " +:+ pr_rife_radio
         +:+ " on video " +:+ video);;
  let multiplier_val := if bool_decide (pr_rife_radio = "2x FPS") then "2" else "4" in
  let cmd :=
    String "034" sys_executable +:+ String "034" " " +:+ String "034" "Practical-RIFE/inference_video.py"
    +:+ String "034" " --model=" +:+ String "034" rife_model_dir +:+ String "034" " --multi="
    +:+ multiplier_val +:+ " --video=" +:+ String "034" video +:+ String "034" " --output="
    +:+ String "034" improved_video +:+ String "034" "" in
  print ("[CMD] Running command: " +:+ cmd);;
  interface_runs;;
  emit (EvRife video improved_video multiplier_val);;
  subprocess_run;;
  write_file improved_video Binary;;
  print ("[CMD] Practical-RIFE finished. Improved video saved to: " +:+ improved_video);;
  mret multiplier_val.

End Shared.

(** *** [generate_videos] *)

Module Gen.

(** The parameters of [generate_videos]. *)
Record inputs := {
  prompt : string;
  tar_lang : string;
  negative_prompt : string;
  input_image : option Image;
  input_video : option string;
  denoising_strength : Qc;
  num_generations : Z;
  save_prompt : bool;
  multi_line : bool;
  use_random_seed : bool;
  seed_input : string;
  quality : Z;
  fps : Z;
  model_choice_radio : string;
  vram_preset : string;
  num_persistent_input : string;
  torch_dtype : string;
  num_frames : Z;
  aspect_ratio : string;
  width : Z;
  height : Z;
  auto_crop : bool;
  tiled : bool;
  inference_steps : Z;
  pr_rife_enabled : bool;
  pr_rife_radio : string;
  cfg_scale : Qc;
  sigma_shift : Qc;
  lora_model : option string;
  lora_alpha : Qc
}.

(** What [generate_videos] returns: video path, log, last seed. *)
Definition result : Type := string * string * string.

(** The local variables the loop updates. *)
Record locals := {
  log_text : string;
  last_used_seed : option Z;
  last_video_path : string;
  iteration : Z
}.

(** What the loop body reads and the preamble computed. *)
Record frame_vars := {
  model_choice : string;
  target_width : Z;
  target_height : Z;
  effective_num_frames : Z;
  input_video_now : option string;
  original_image : option Image;
  vram_value : string;
  overall_start_time : spec_float;
  total_iterations : Z
}.

End Gen.

Definition is_image_model (model_choice : string) : bool :=
  bool_decide (model_choice = "14B_image_720p")
  || bool_decide (model_choice = "14B_image_480p").

Definition ERR_NO_IMAGE : string :=
  "[CMD] Error: Image model selected but no image provided.".
Definition ERR_INVALID_COMBINATION : string := "[CMD] Invalid combination of inputs.".
Definition ERR_INVALID_MODEL : string := "Invalid model choice.".

(** The text of the sidecar file written by [generate_videos]. *)
Definition generation_details (a : Gen.inputs) (v : Gen.frame_vars)
    (enhanced_prompt : string) (current_seed : Z) (w : world)
    (elapsed elapsed_minutes : spec_float) : string :=
  "Prompt: " +:+ enhanced_prompt +:+ nl
  +:+ "Negative Prompt: " +:+ Gen.negative_prompt a +:+ nl
  +:+ "Used Model: " +:+ Gen.model_choice_radio a +:+ nl
  +:+ "Number of Inference Steps: " +:+ Py.str_int (Gen.inference_steps a) +:+ nl
  +:+ "Seed: " +:+ Py.str_int current_seed +:+ nl
  +:+ "Number of Frames: " +:+ Py.str_int (Gen.effective_num_frames v) +:+ nl
  +:+ (if bool_decide (Gen.model_choice_radio a = MODEL_1_3B)
          && negb (is_none (Gen.input_video_now v))
       then "Denoising Strength: "
            +:+ show_num (env w) (Gen.denoising_strength a) +:+ nl
       else "Denoising Strength: N/A" +:+ nl)
  +:+ (match Gen.lora_model a with
       | Some l =>
           if bool_decide (l <> "") && bool_decide (l <> "None")
           then "LoRA Model: " +:+ l +:+ " with scale "
                +:+ show_num (env w) (Gen.lora_alpha a) +:+ nl
           else "LoRA Model: None" +:+ nl
       | None => "LoRA Model: None" +:+ nl
       end)
  +:+ "Precision: "
  +:+ (if bool_decide (Gen.torch_dtype a = "torch.float8_e4m3fn") then "FP8" else "BF16")
  +:+ nl
  +:+ "Auto Crop: " +:+ (if Gen.auto_crop a then "Enabled" else "Disabled") +:+ nl
  +:+ "Generation Duration: " +:+ show_2f (env w) elapsed +:+ " seconds / "
  +:+ show_2f (env w) elapsed_minutes +:+ " minutes" +:+ nl.

(** One iteration of the inner loop of [generate_videos], for prompt [p]. *)
Definition generate_iteration (a : Gen.inputs) (v : Gen.frame_vars)
    (p : string) (loc : Gen.locals) : M Gen.result Gen.locals Gen.locals :=
  w ← get_world;
  (* [if cancel_flag:], the one read of the flag in the iteration *)
  emit (EvPoll (cancel_flag (py w)));;
  if cancel_flag (py w) then
    let log_text := Gen.log_text loc +:+ "[CMD] Generation cancelled by user." +:+ nl in
    print "[CMD] Generation cancelled by user.";;
    now ← time_time;
    let duration := F64.sub now (Gen.overall_start_time v) in
    let log_text :=
      log_text +:+ nl +:+ "[CMD] Used VRAM Setting: " +:+ Gen.vram_value v +:+ nl in
    let log_text :=
      log_text +:+ "[CMD] Generation complete. Duration: "
      +:+ show_2f (env w) duration +:+ " seconds. Last used seed: "
      +:+ str_opt_int (Gen.last_used_seed loc) +:+ nl in
    unload_pipeline;;
    return_ ("", log_text, seed_or_empty (Gen.last_used_seed loc))
  else
    let iteration := Gen.iteration loc + 1 in
    iter_start ← time_time;
    let progress :=
      Py.str_int iteration +:+ " of " +:+ Py.str_int (Gen.total_iterations v) in
    let log_text :=
      Gen.log_text loc +:+ "[CMD] Generating video " +:+ progress
      +:+ " with prompt: " +:+ p +:+ nl in
    print ("[CMD] Generating video " +:+ Py.str_int iteration +:+ "/"
           +:+ Py.str_int (Gen.total_iterations v) +:+ " with prompt: " +:+ p);;
    let enhanced_prompt := p in
    current_seed ← select_seed (Gen.use_random_seed a) (Gen.seed_input a);
    let last_used_seed := Some current_seed in
    print ("[CMD] Using resolution: width=" +:+ Py.str_int (Gen.target_width v)
           +:+ "  height=" +:+ Py.str_int (Gen.target_height v));;
    let common_args image video strength :=
      {| arg_prompt := enhanced_prompt;
         arg_negative_prompt := Gen.negative_prompt a;
         arg_num_inference_steps := Gen.inference_steps a;
         arg_seed := current_seed;
         arg_tiled := Gen.tiled a;
         arg_width := Gen.target_width v;
         arg_height := Gen.target_height v;
         arg_num_frames := Gen.effective_num_frames v;
         arg_cfg_scale := Some (Gen.cfg_scale a);
         arg_sigma_shift := Some (Gen.sigma_shift a);
         arg_input_image := image;
         arg_input_video := video;
         arg_denoising_strength := strength |} in
    '(video_data, video_filename, log_text) ←
      (if bool_decide (Gen.model_choice v = "1.3B") then
         video_data ←
           match Gen.input_video_now v with
           | Some input_video_path =>
               print ("[CMD] Processing video-to-video with input video: "
                      +:+ input_video_path);;
               run_pipeline (common_args None (Some input_video_path)
                               (Some (Gen.denoising_strength a)))
           | None => run_pipeline (common_args None None None)
           end;
         video_filename ← get_next_filename ".mp4";
         mret (video_data, video_filename, log_text)
       else if bool_decide (Gen.model_choice v = "14B_text") then
         video_data ← run_pipeline (common_args None None None);
         video_filename ← get_next_filename ".mp4";
         mret (video_data, video_filename, log_text)
       else if is_image_model (Gen.model_choice v) then
         match Gen.input_image a with
         | None =>
             let err_msg := ERR_NO_IMAGE in
             print err_msg;;
             unload_pipeline;;
             return_ ("", err_msg, seed_or_empty last_used_seed)
         | Some _ =>
             original ← match Gen.original_image v with
                        | Some i => mret i
                        | None => raise UnboundLocalError
                        end;
             processed_image ←
               (if Gen.auto_crop a
                then lift (auto_crop_image original (Gen.target_width v)
                             (Gen.target_height v))
                else mret original);
             video_filename ← get_next_filename ".mp4";
             let preprocessed_folder := "auto_pre_processed_images" in
             present ← os_path_exists preprocessed_folder;
             (if negb present then os_makedirs preprocessed_folder else mret tt);;
             let base_name := fst (Py.splitext (Py.basename video_filename)) in
             let preprocessed_image_filename :=
               Py.join preprocessed_folder (base_name +:+ ".png") in
             save_image processed_image preprocessed_image_filename;;
             let log_text :=
               log_text +:+ "[CMD] Saved auto processed image: "
               +:+ preprocessed_image_filename +:+ nl in
             print ("[CMD] Saved auto processed image: " +:+ preprocessed_image_filename);;
             video_data ← run_pipeline (common_args (Some processed_image) None None);
             mret (video_data, video_filename, log_text)
         end
       else
         let err_msg := ERR_INVALID_COMBINATION in
         print err_msg;;
         unload_pipeline;;
         return_ ("", err_msg, seed_or_empty last_used_seed));
    save_video video_data video_filename (Gen.fps a) (Gen.quality a);;
    let log_text := log_text +:+ "[CMD] Saved video: " +:+ video_filename +:+ nl in
    print ("[CMD] Saved video: " +:+ video_filename);;
    log_text ←
      (if Gen.save_prompt a then
         let text_filename := fst (Py.splitext video_filename) +:+ ".txt" in
         t1 ← time_time;
         t2 ← time_time;
         minutes ← lift (F64.div (F64.sub t2 iter_start) (F64.round_int 60));
         w ← get_world;
         write_text text_filename
           (generation_details a v enhanced_prompt current_seed w
              (F64.sub t1 iter_start) minutes);;
         print ("[CMD] Saved prompt and parameters: " +:+ text_filename);;
         mret (log_text +:+ "[CMD] Saved prompt and parameters: "
               +:+ text_filename +:+ nl)
       else mret log_text);
    mret {| Gen.log_text := log_text;
            Gen.last_used_seed := last_used_seed;
            Gen.last_video_path := video_filename;
            Gen.iteration := iteration |}.

(** [[line.strip() for line in prompt.splitlines() if line.strip()]] or
    [[prompt.strip()]] *)
Definition prompts_list (multi_line : bool) (prompt : string) : list string :=
  if multi_line then
    List.filter (fun line => bool_decide (line <> ""))
      (map Py.strip (Py.splitlines prompt))
  else [Py.strip prompt].

Definition generate_videos (a : Gen.inputs) : M Gen.result Empty_set Gen.result :=
  modify (set_py (with_cancel_flag false));;
  let log_text := "" in
  let last_used_seed : option Z := None in
  let last_video_path := "" in
  overall_start_time ← time_time;
  '(model_choice, d) ←
    (if bool_decide (Gen.model_choice_radio a = MODEL_1_3B) then
       mret ("1.3B", ASPECT_RATIOS_1_3b)
     else if bool_decide (Gen.model_choice_radio a = MODEL_14B_TEXT) then
       mret ("14B_text", ASPECT_RATIOS_14b)
     else if bool_decide (Gen.model_choice_radio a = MODEL_14B_IMAGE_720P) then
       mret ("14B_image_720p", ASPECT_RATIOS_14b)
     else if bool_decide (Gen.model_choice_radio a = MODEL_14B_IMAGE_480P) then
       mret ("14B_image_480p", ASPECT_RATIOS_1_3b)
     else return_ ("", ERR_INVALID_MODEL, ""));
  let target_width := Gen.width a in
  let target_height := Gen.height a in
  effective_num_frames ←
    match bool_decide (model_choice = "1.3B"), Gen.input_video a with
    | true, Some original_video_path =>
        cap ← cv2_VideoCapture original_video_path;
        match cap with
        | Some video =>
            let total_frames := v_frame_count video in
            let effective_num_frames := Z.min (Gen.num_frames a) total_frames in
            print ("[CMD] Detected input video frame count: "
                   +:+ Py.str_int total_frames +:+ ", using effective frame count: "
                   +:+ Py.str_int effective_num_frames);;
            mret effective_num_frames
        | None =>
            print ("[CMD] Could not open input video to determine frame count, "
                   +:+ "using provided frame count");;
            mret (Gen.num_frames a)
        end
    | _, _ => mret (Gen.num_frames a)
    end;
  '(input_video, original_image) ←
    (if Gen.auto_crop a then
       match bool_decide (model_choice = "1.3B"), Gen.input_video a with
       | true, Some input_video_path =>
           print ("[CMD] Auto cropping input video: " +:+ input_video_path);;
           input_video_path ←
             call (auto_crop_video input_video_path target_width target_height
                     effective_num_frames 16);
           mret (Some input_video_path, None)
       | _, _ =>
           match Gen.input_image a with
           | Some image =>
               if is_image_model model_choice
               then mret (Gen.input_video a, Some image)
               else mret (Gen.input_video a, None)
           | None => mret (Gen.input_video a, None)
           end
       end
     else mret (Gen.input_video a, Gen.input_image a));
  let vram_value := Gen.num_persistent_input a in
  let effective_lora_model := effective_lora (Gen.lora_model a) in
  reload_if_changed "[CMD] Applying LoRA: " "[CMD] No LoRA selected. Using base model."
    model_choice (Gen.torch_dtype a) vram_value effective_lora_model (Gen.lora_alpha a);;
  let prompts := prompts_list (Gen.multi_line a) (Gen.prompt a) in
  let total_iterations := Z.of_nat (length prompts) * Gen.num_generations a in
  let v :=
    {| Gen.model_choice := model_choice;
       Gen.target_width := target_width;
       Gen.target_height := target_height;
       Gen.effective_num_frames := effective_num_frames;
       Gen.input_video_now := input_video;
       Gen.original_image := original_image;
       Gen.vram_value := vram_value;
       Gen.overall_start_time := overall_start_time;
       Gen.total_iterations := total_iterations |} in
  loc ←
    for_each prompts
      (fun p loc =>
         for_each (range (Gen.num_generations a))
           (fun i loc => generate_iteration a v p loc) loc)
      {| Gen.log_text := log_text; Gen.last_used_seed := last_used_seed;
         Gen.last_video_path := last_video_path; Gen.iteration := 0 |};
  '(last_video_path, log_text) ←
    (if Gen.pr_rife_enabled a && bool_decide (Gen.last_video_path loc <> "") then
       let improved_video :=
         Py.join "outputs" ("improved_" +:+ Py.basename (Gen.last_video_path loc)) in
       multiplier_val ←
         run_rife (Gen.pr_rife_radio a) (Gen.last_video_path loc) improved_video;
       mret (improved_video,
             Gen.log_text loc +:+ "[CMD] Applied Practical-RIFE with multiplier "
             +:+ multiplier_val +:+ "x. Improved video saved to "
             +:+ improved_video +:+ nl)
     else mret (Gen.last_video_path loc, Gen.log_text loc));
  now ← time_time;
  let overall_duration := F64.sub now overall_start_time in
  minutes ← lift (F64.div overall_duration (F64.round_int 60));
  w ← get_world;
  let log_text := log_text +:+ nl +:+ "[CMD] Used VRAM Setting: " +:+ vram_value +:+ nl in
  let log_text :=
    log_text +:+ "[CMD] Generation complete. Overall Duration: "
    +:+ show_2f (env w) overall_duration +:+ " seconds ("
    +:+ show_2f (env w) minutes +:+ " minutes). Last used seed: "
    +:+ str_opt_int (Gen.last_used_seed loc) +:+ nl in
  print ("[CMD] Generation complete. Overall Duration: "
         +:+ show_2f (env w) overall_duration +:+ " seconds. Last used seed: "
         +:+ str_opt_int (Gen.last_used_seed loc));;
  unload_pipeline;;
  return_ (last_video_path, log_text, seed_or_empty (Gen.last_used_seed loc)).

(** *** [batch_process_videos] *)

Module Batch.

(** The parameters of [batch_process_videos]. *)
Record inputs := {
  default_prompt : string;
  folder_path : string;
  batch_output_folder : string;
  skip_overwrite : bool;
  tar_lang : string;
  negative_prompt : string;
  denoising_strength : Qc;
  use_random_seed : bool;
  seed_input : string;
  quality : Z;
  fps : Z;
  model_choice_radio : string;
  vram_preset : string;
  num_persistent_input : string;
  torch_dtype : string;
  num_frames : Z;
  inference_steps : Z;
  aspect_ratio : string;
  width : Z;
  height : Z;
  auto_crop : bool;
  save_prompt : bool;
  pr_rife_enabled : bool;
  pr_rife_radio : string;
  lora_model : option string;
  lora_alpha : Qc
}.

End Batch.

(** The output path of an image file: batch output folder, same base
    name, extension [.mp4]. *)
Definition batch_output_filename (a : Batch.inputs) (image_file : string) : string :=
  Py.join (Batch.batch_output_folder a) (fst (Py.splitext image_file) +:+ ".mp4").

(** The text of the sidecar file written by [batch_process_videos]. *)
Definition batch_generation_details (a : Batch.inputs) (prompt_content : string)
    (current_seed : Z) (w : world) (generation_duration minutes : spec_float)
  : string :=
  "Prompt: " +:+ prompt_content +:+ nl
  +:+ "Negative Prompt: " +:+ Batch.negative_prompt a +:+ nl
  +:+ "Used Model: " +:+ Batch.model_choice_radio a +:+ nl
  +:+ "Number of Inference Steps: " +:+ Py.str_int (Batch.inference_steps a) +:+ nl
  +:+ "Seed: " +:+ Py.str_int current_seed +:+ nl
  +:+ "Number of Frames: " +:+ Py.str_int (Batch.num_frames a) +:+ nl
  +:+ "Denoising Strength: " +:+ show_num (env w) (Batch.denoising_strength a) +:+ nl
  +:+ (match Batch.lora_model a with
       | Some l =>
           if bool_decide (l <> "") && bool_decide (l <> "None")
           then "LoRA Model: " +:+ l +:+ " with scale "
                +:+ show_num (env w) (Batch.lora_alpha a) +:+ nl
           else "LoRA Model: None" +:+ nl
       | None => "LoRA Model: None" +:+ nl
       end)
  +:+ "Precision: "
  +:+ (if bool_decide (Batch.torch_dtype a = "torch.float8_e4m3fn") then "FP8" else "BF16")
  +:+ nl
  +:+ "Auto Crop: " +:+ (if Batch.auto_crop a then "Enabled" else "Disabled") +:+ nl
  +:+ "Generation Duration: " +:+ show_2f (env w) generation_duration
  +:+ " seconds / " +:+ show_2f (env w) minutes +:+ " minutes" +:+ nl.

(** One iteration of the loop of [batch_process_videos]; the local
    variable handed from one iteration to the next is [log_text]. *)
Definition batch_iteration (a : Batch.inputs)
    (target_width target_height : Z) (image_file : string) (log_text : string)
  : M string string string :=
  w ← get_world;
  (* [if cancel_batch_flag:], the one read of the flag in the iteration *)
  emit (EvBatchPoll image_file (cancel_batch_flag (py w)));;
  if cancel_batch_flag (py w) then
    print "[CMD] Batch processing cancelled by user.";;
    break_ (log_text +:+ "[CMD] Batch processing cancelled by user." +:+ nl)
  else
    iter_start ← time_time;
    let '(base, ext) := Py.splitext image_file in
    let prompt_path := Py.join (Batch.folder_path a) (base +:+ ".txt") in
    has_prompt ← os_path_exists prompt_path;
    '(prompt_content, log_text) ←
      (if negb has_prompt then
         let msg := "[CMD] No prompt txt found for " +:+ image_file
                    +:+ ", using user entered prompt: " +:+ Batch.default_prompt a in
         print msg;;
         mret (Batch.default_prompt a, log_text +:+ msg +:+ nl)
       else
         text ← read_text prompt_path;
         let prompt_content := Py.strip text in
         if bool_decide (prompt_content = "") then
           let msg := "[CMD] Prompt txt " +:+ base +:+ ".txt"
                      +:+ " is empty, using user entered prompt: "
                      +:+ Batch.default_prompt a in
           print msg;;
           mret (Batch.default_prompt a, log_text +:+ msg +:+ nl)
         else
           let msg := "[CMD] Using user made prompt txt for " +:+ image_file
                      +:+ ": " +:+ prompt_content in
           print msg;;
           mret (prompt_content, log_text +:+ msg +:+ nl));
    let output_filename := Py.join (Batch.batch_output_folder a) (base +:+ ".mp4") in
    output_present ← os_path_exists output_filename;
    if Batch.skip_overwrite a && output_present then
      print ("[CMD] Output video " +:+ output_filename +:+ " already exists, skipping "
             +:+ image_file +:+ ".");;
      continue_ (log_text +:+ "[CMD] Output video " +:+ output_filename
                 +:+ " already exists, skipping " +:+ image_file
                 +:+ " due to skip overwrite." +:+ nl)
    else
      current_seed ← select_seed (Batch.use_random_seed a) (Batch.seed_input a);
      let common_args image :=
        {| arg_prompt := prompt_content;
           arg_negative_prompt := Batch.negative_prompt a;
           arg_num_inference_steps := Batch.inference_steps a;
           arg_seed := current_seed;
           arg_tiled := true;
           arg_width := target_width;
           arg_height := target_height;
           arg_num_frames := Batch.num_frames a;
           arg_cfg_scale := None;
           arg_sigma_shift := None;
           arg_input_image := Some image;
           arg_input_video := None;
           arg_denoising_strength := None |} in
      let msg := "[CMD] Processing " +:+ image_file +:+ " with prompt from "
                 +:+ base +:+ ".txt" +:+ " (or user entered prompt) and seed "
                 +:+ Py.str_int current_seed in
      let log_text := log_text +:+ msg +:+ nl in
      print msg;;
      image_obj ←
        try_except
          (let image_path := Py.join (Batch.folder_path a) image_file in
           opened ← Image_open image_path;
           mret (Rgb opened))
          (fun e =>
             w ← get_world;
             let msg := "[CMD] Failed to open image " +:+ image_file +:+ ": "
                        +:+ show_exn (env w) e in
             print msg;;
             continue_ (log_text +:+ msg +:+ nl));
      processed_image ←
        (if Batch.auto_crop a
         then lift (auto_crop_image image_obj target_width target_height)
         else mret image_obj);
      video_data ← run_pipeline (common_args processed_image);
      save_video video_data output_filename (Batch.fps a) (Batch.quality a);;
      let log_text :=
        log_text +:+ "[CMD] Saved batch generated video: " +:+ output_filename +:+ nl in
      print ("[CMD] Saved batch generated video: " +:+ output_filename);;
      log_text ←
        (if Batch.auto_crop a then
           let preprocessed_folder := "auto_pre_processed_images" in
           present ← os_path_exists preprocessed_folder;
           (if negb present then os_makedirs preprocessed_folder else mret tt);;
           let base_name := fst (Py.splitext (Py.basename output_filename)) in
           let preprocessed_image_filename :=
             Py.join preprocessed_folder (base_name +:+ ".png") in
           save_image processed_image preprocessed_image_filename;;
           print ("[CMD] Saved auto processed image: " +:+ preprocessed_image_filename);;
           mret (log_text +:+ "[CMD] Saved auto processed image: "
                 +:+ preprocessed_image_filename +:+ nl)
         else mret log_text);
      now ← time_time;
      let generation_duration := F64.sub now iter_start in
      log_text ←
        (if Batch.save_prompt a then
           let text_filename := fst (Py.splitext output_filename) +:+ ".txt" in
           minutes ← lift (F64.div generation_duration (F64.round_int 60));
           w ← get_world;
           write_text text_filename
             (batch_generation_details a prompt_content current_seed w
                generation_duration minutes);;
           print ("[CMD] Saved prompt and parameters: " +:+ text_filename);;
           mret (log_text +:+ "[CMD] Saved prompt and parameters: "
                 +:+ text_filename +:+ nl)
         else mret log_text);
      if Batch.pr_rife_enabled a then
        let improved_video :=
          Py.join (Batch.batch_output_folder a)
            ("improved_" +:+ Py.basename output_filename) in
        multiplier_val ← run_rife (Batch.pr_rife_radio a) output_filename improved_video;
        mret (log_text +:+ "[CMD] Applied Practical-RIFE with multiplier "
              +:+ multiplier_val +:+ "x. Improved video saved to "
              +:+ improved_video +:+ nl)
      else mret log_text.

Definition is_image_file (f : string) : bool :=
  let ext := Py.lower (snd (Py.splitext f)) in
  bool_decide (ext = ".jpg") || bool_decide (ext = ".png") || bool_decide (ext = ".jpeg").

Definition batch_process_videos (a : Batch.inputs) : M string Empty_set string :=
  modify (set_py (with_cancel_batch_flag false));;
  let log_text := "" in
  (if negb (bool_decide (Batch.model_choice_radio a = MODEL_14B_IMAGE_720P)
            || bool_decide (Batch.model_choice_radio a = MODEL_14B_IMAGE_480P))
   then
     return_ (log_text +:+ "[CMD] Batch processing currently only supports the "
              +:+ "WAN 2.1 14B Image-to-Video models." +:+ nl)
   else mret tt);;
  let target_width := Batch.width a in
  let target_height := Batch.height a in
  let vram_value := Batch.num_persistent_input a in
  let model_choice :=
    if bool_decide (Batch.model_choice_radio a = MODEL_14B_IMAGE_720P)
    then "14B_image_720p" else "14B_image_480p" in
  let effective_lora_model := effective_lora (Batch.lora_model a) in
  reload_if_changed "[CMD] Applying LoRA in batch: "
    "[CMD] No LoRA selected for batch. Using base model."
    model_choice (Batch.torch_dtype a) vram_value effective_lora_model
    (Batch.lora_alpha a);;
  is_dir ← os_path_isdir (Batch.folder_path a);
  (if negb is_dir then
     return_ (log_text +:+ "[CMD] Provided folder path does not exist: "
              +:+ Batch.folder_path a +:+ nl)
   else mret tt);;
  present ← os_path_exists (Batch.batch_output_folder a);
  log_text ←
    (if negb present then
       os_makedirs (Batch.batch_output_folder a);;
       mret (log_text +:+ "[CMD] Created batch processing outputs folder: "
             +:+ Batch.batch_output_folder a +:+ nl)
     else mret log_text);
  files ← os_listdir (Batch.folder_path a);
  let images := List.filter is_image_file files in
  let total_files := Z.of_nat (length images) in
  let log_text :=
    log_text +:+ "[CMD] Found " +:+ Py.str_int total_files
    +:+ " image files in folder " +:+ Batch.folder_path a +:+ nl in
  log_text ← for_each images (batch_iteration a target_width target_height) log_text;
  unload_pipeline;;
  return_ log_text.

(** Running a function from a given world: its result or the exception
    that escapes it, and the world it leaves. *)
Definition run {A} (m : M A Empty_set A) (w : world) : exc A * world :=
  match m w with
  | (Normal a, w') | (Returns a, w') => (Ok a, w')
  | (Breaks s, _) | (Continues s, _) => match s with end
  | (Raises e, w') => (Err e, w')
  end.

(** * Vocabulary of the properties *)

(** ** Names of output files *)

(** The decimal digits. *)
Definition is_digit (c : ascii) : bool := bool_decide (is_Some (Py.digit_value c)).

(** An extension as [os.path.splitext] yields it: a dot followed by
    characters that are neither dots nor separators. *)
Definition is_extension (e : string) : bool :=
  match Py.chars e with
  | c :: body =>
      Py.is_dot c && forallb (fun x => negb (Py.is_sep x) && negb (Py.is_dot x)) body
  | [] => false
  end.

(** The listed file [f] has the extension and the integer stem [k]. *)
Definition integer_named (extension f : string) (k : Z) : Prop :=
  Py.endswith f extension = true /\ Py.int (fst (Py.splitext f)) = Some k.

(** What [os.listdir] finds in the outputs directory. *)
Definition outputs_listing (w : world) : list string :=
  fs_children "outputs" (fs (io w)).

(** [outputs] is a directory or is not there (it is then created). *)
Definition outputs_not_a_file (w : world) : bool :=
  match fs_lookup "outputs" (fs (io w)) with
  | Some (File _) => false
  | _ => true
  end.

(** The integer stems of the listed files with the extension. *)
Definition current_numbers (names : list string) (extension : string) : list Z :=
  omap (fun file => Py.int (fst (Py.splitext file)))
       (List.filter (fun f => Py.endswith f extension) names).


(** ** Cropped pictures *)

(** What [auto_crop_image] gives for a picture of size [(w, h)]: the
    ratios compared, the band kept, and the resized result. *)
Definition center_cropped_and_resized (image : Image)
    (w h target_width target_height : Z) : Prop :=
  exists target_ratio current_ratio cropped,
    F64.int_truediv target_width target_height = Ok target_ratio
    /\ F64.int_truediv w h = Ok current_ratio
    /\ auto_crop_image image target_width target_height
       = Ok (Resize target_width target_height cropped)
    /\ size (Resize target_width target_height cropped) = (target_width, target_height)
    /\ ((F64.ltb target_ratio current_ratio = true
         /\ exists hf new_width x0,
             F64.of_int h = Ok hf
             /\ F64.to_int (F64.mul hf target_ratio) = Ok new_width
             /\ cropped = Crop x0 0 (x0 + new_width) h image
             /\ 0 <= new_width
             /\ 0 <= (w - (x0 + new_width)) - x0 <= 1)
        \/ (F64.ltb target_ratio current_ratio = false
            /\ F64.ltb current_ratio target_ratio = true
            /\ exists wf quotient new_height y0,
                F64.of_int w = Ok wf
                /\ F64.div wf target_ratio = Ok quotient
                /\ F64.to_int quotient = Ok new_height
                /\ cropped = Crop 0 y0 w (y0 + new_height) image
                /\ 0 <= new_height
                /\ 0 <= (h - (y0 + new_height)) - y0 <= 1)
        \/ (F64.ltb target_ratio current_ratio = false
            /\ F64.ltb current_ratio target_ratio = false
            /\ cropped = image)).

(** ** Resource tables and seeds *)

(** The presets offered by the interface. *)
Definition VRAM_PRESETS : list string :=
  ["4GB"; "6GB"; "8GB"; "10GB"; "12GB"; "16GB"; "24GB"; "32GB"; "48GB"; "80GB"].

(** What [update_vram_and_resolution] hands back for a model and each of
    a list of presets, and what it prints. *)
Definition vram_column (model_choice : string) (presets : list string) (w : world)
  : list (ctl unit unit (string * list string * string)) :=
  map (fun preset => fst (update_vram_and_resolution model_choice preset w)) presets.

(** The answers expected, value by value. *)
Definition answers (values : list string) (choices : list string)
  : list (ctl unit unit (string * list string * string)) :=
  map (fun value => Normal (value, choices, "16:9")) values.

(** The seed the text box stands for: its integer, [0] when it is blank
    or not a number. *)
Definition seed_of_input (seed_input : string) : Z :=
  if bool_decide (Py.strip seed_input <> "") then default 0 (Py.int seed_input) else 0.

(** The range of [random.randint(0, 2**32 - 1)]. *)
Definition seed_in_range (seed : Z) : Prop := 0 <= seed <= 2 ^ 32 - 1.

(** The seed [select_seed] may answer. *)
Definition seed_ok (use_random_seed : bool) (seed_input : string) (seed : Z) : Prop :=
  if use_random_seed then seed_in_range seed else seed = seed_of_input seed_input.

(** ** Statements and what they change *)

(** [wp m Q w]: run from [w], the statement [m] ends in a way and in a
    world that satisfy [Q]. *)
Definition wp {R S A} (m : M R S A) (Q : ctl R S A -> world -> Prop) (w : world)
  : Prop :=
  Q (m w).1 (m w).2.

(** What is asked of a statement followed by others: [k] when it ends
    normally, [Q] when it leaves. *)
Definition after {R S A B} (k : A -> world -> Prop) (Q : ctl R S B -> world -> Prop)
    (c : ctl R S A) (w : world) : Prop :=
  match c with
  | Normal a => k a w
  | Returns r => Q (Returns r) w
  | Breaks s => Q (Breaks s) w
  | Continues s => Q (Continues s) w
  | Raises e => Q (Raises e) w
  end.

(** What is asked of one iteration of a loop followed by the others. *)
Definition after_iteration {R S S'} (k : S' -> world -> Prop)
    (Q : ctl R S S' -> world -> Prop) (c : ctl R S' S') (w : world) : Prop :=
  match c with
  | Normal s | Continues s => k s w
  | Breaks s => Q (Normal s) w
  | Returns r => Q (Returns r) w
  | Raises e => Q (Raises e) w
  end.

(** What a step leaves as it was: the cached pipeline and its
    configuration; what it only adds to: the trace, by [t], and the
    files; a cancellation flag that was set stays set. *)
Record evolves (t : list event) (w w' : world) : Prop := {
  ev_trace : trace (io w') = trace (io w) ++ t;
  ev_pipe : loaded_pipeline (py w') = loaded_pipeline (py w);
  ev_config : loaded_pipeline_config (py w') = loaded_pipeline_config (py w);
  ev_fs : forall p, is_Some (fs_lookup p (fs (io w))) ->
                    is_Some (fs_lookup p (fs (io w')));
  ev_cancel : cancel_flag (py w) = true -> cancel_flag (py w') = true;
  ev_cancel_batch : cancel_batch_flag (py w) = true -> cancel_batch_flag (py w') = true
}.

(** ** Monitors over the trace of events *)

(** Where a run is: before its loop, inside an iteration (has it called
    the pipeline, has it saved the video), or past a poll that found the
    cancellation flag set. *)
Inductive phase :=
| Preparing
| Iterating (generated saved : bool)
| Cancelled.

(** The poll an event stands for, in [generate_videos] and in
    [batch_process_videos]. *)
Definition gen_poll (e : event) : option bool :=
  match e with
  | EvPoll flag => Some flag
  | _ => None
  end.

(** The same for the batch loop. *)
Definition batch_poll (e : event) : option bool :=
  match e with
  | EvBatchPoll _ flag => Some flag
  | _ => None
  end.

(** The cooperative cancellation discipline as a monitor: a poll opens
    an iteration or, finding the flag set, ends the run; the pipeline is
    loaded before the loop only; within an iteration the pipeline is
    called at most once and a video saved at most once, after that call;
    anything else is refused. *)
Definition monitor_step (poll : event -> option bool) (s : phase) (e : event)
  : option phase :=
  match s with
  | Cancelled => None
  | _ =>
      match poll e with
      | Some true => Some Cancelled
      | Some false => Some (Iterating false false)
      | None =>
          match s, e with
          | Preparing, EvLoad _ => Some Preparing
          | Iterating false saved, EvGenerate _ _ => Some (Iterating true saved)
          | Iterating true false, EvSaveVideo _ => Some (Iterating true true)
          | Iterating g saved, (EvSaveImage _ | EvWriteText _ | EvRife _ _ _) =>
              Some (Iterating g saved)
          | _, _ => None
          end
      end
  end.

(** The phase reached after the events [t]; [None] when one of them is
    refused. *)
Fixpoint monitor (poll : event -> option bool) (s : phase) (t : list event)
  : option phase :=
  match t with
  | [] => Some s
  | e :: t' =>
      match monitor_step poll s e with
      | Some s' => monitor poll s' t'
      | None => None
      end
  end.

(** An event of the body of an iteration: no poll, no load; a call of
    the pipeline uses the cached pipeline [pipe] and a seed that [ok]
    accepts. *)
Definition in_iteration (pipe : option pipeline) (ok : Z -> Prop) (e : event) : Prop :=
  match e with
  | EvPoll _ | EvBatchPoll _ _ | EvLoad _ => False
  | EvGenerate p args => pipe = Some p /\ ok (arg_seed args)
  | _ => True
  end.

(** The cache is empty: no pipeline, no configuration. *)
Definition unloaded (w : world) : Prop :=
  loaded_pipeline (py w) = None /\ loaded_pipeline_config (py w) = ∅.

(** The cache of [w'] is the cache of [w]. *)
Definition same_cache (w w' : world) : Prop :=
  loaded_pipeline (py w') = loaded_pipeline (py w)
  /\ loaded_pipeline_config (py w') = loaded_pipeline_config (py w).

(** The seeds a call of [generate_videos] with inputs [a] may use. *)
Definition gen_seed_ok (a : Gen.inputs) : Z -> Prop :=
  seed_ok (Gen.use_random_seed a) (Gen.seed_input a).

(** The error [generate_videos] detects inside its loop: an
    image-to-video model and no image. *)
Definition needs_image (a : Gen.inputs) (model_choice : string) : Prop :=
  is_image_model model_choice = true /\ Gen.input_image a = None.

(** How one iteration of [generate_videos] ends, from the world [w]. *)
Definition gen_iteration_post (a : Gen.inputs) (v : Gen.frame_vars) (loc : Gen.locals)
    (w : world) (c : ctl Gen.result Gen.locals Gen.locals) (w' : world) : Prop :=
  exists body,
    trace (io w') = trace (io w) ++ EvPoll (cancel_flag (py w)) :: body
    /\ Forall (in_iteration (loaded_pipeline (py w)) (gen_seed_ok a)) body
    /\ if cancel_flag (py w) then
         body = [] /\ unloaded w'
         /\ exists log, c = Returns ("", log, seed_or_empty (Gen.last_used_seed loc))
       else
         exists generated saved,
           monitor gen_poll (Iterating false false) body = Some (Iterating generated saved)
           /\ match c with
              | Normal loc' =>
                  generated = true /\ saved = true /\ same_cache w w'
                  /\ ~ needs_image a (Gen.model_choice v)
              | Returns r =>
                  body = [] /\ unloaded w'
                  /\ exists msg seed,
                       r = ("", msg, seed)
                       /\ last (stdout (io w')) = Some msg
                       /\ (msg = ERR_NO_IMAGE /\ is_image_model (Gen.model_choice v) = true
                           /\ Gen.input_image a = None
                           \/ msg = ERR_INVALID_COMBINATION
                              /\ Gen.model_choice v <> "1.3B"
                              /\ Gen.model_choice v <> "14B_text"
                              /\ is_image_model (Gen.model_choice v) = false)
              | Raises e => same_cache w w' /\ ~ needs_image a (Gen.model_choice v)
              | Breaks _ | Continues _ => False
              end.

(** ** The loop of [generate_videos] *)

(** The number of polls in a trace. *)
Definition polls (poll : event -> option bool) (t : list event) : nat :=
  length (omap poll t).

(** An event of a loop: a poll, or an event of the body of an
    iteration. *)
Definition in_loop (poll : event -> option bool) (pipe : option pipeline)
    (ok : Z -> Prop) (e : event) : Prop :=
  is_Some (poll e) \/ in_iteration pipe ok e.

(** The two ways [generate_videos] returns from inside its loop with an
    error message. *)
Definition gen_error (a : Gen.inputs) (model_choice msg : string) : Prop :=
  msg = ERR_NO_IMAGE /\ needs_image a model_choice
  \/ msg = ERR_INVALID_COMBINATION
     /\ model_choice <> "1.3B" /\ model_choice <> "14B_text"
     /\ is_image_model model_choice = false.

(** How a run of at most [budget] iterations of [generate_videos] ends,
    from the world [w] and the locals [loc]. *)
Definition gen_loop_post {S} (a : Gen.inputs) (model_choice : string)
    (loc : Gen.locals) (w : world) (budget : nat) (c : ctl Gen.result S Gen.locals)
    (w' : world) : Prop :=
  exists t,
    trace (io w') = trace (io w) ++ t
    /\ Forall (in_loop gen_poll (loaded_pipeline (py w)) (gen_seed_ok a)) t
    /\ (polls gen_poll t <= budget)%nat
    /\ forall s, s <> Cancelled ->
       exists s',
         monitor gen_poll s t = Some s'
         /\ match c with
            | Normal loc' =>
                same_cache w w' /\ polls gen_poll t = budget
                /\ (t = [] /\ loc' = loc /\ s' = s
                    \/ s' = Iterating true true /\ ~ needs_image a model_choice)
            | Returns r =>
                unloaded w'
                /\ (exists msg seed,
                      r = ("", msg, seed)
                      /\ (s' = Cancelled
                          \/ s' = Iterating false false
                             /\ last (stdout (io w')) = Some msg
                             /\ gen_error a model_choice msg))
                /\ (needs_image a model_choice -> exists flag, t = [EvPoll flag])
            | Raises e =>
                s' <> Cancelled /\ same_cache w w' /\ ~ needs_image a model_choice
            | Breaks _ | Continues _ => False
            end.

(** ** The pipeline cache *)

(** The configuration check made before the loop: is there no pipeline,
    or one loaded for another configuration. *)
Definition stale (config : gmap string pyval) (w : world) : bool :=
  is_none (loaded_pipeline (py w))
  || bool_decide (loaded_pipeline_config (py w) <> config).

(** ** A call of [generate_videos] *)

(** The model identifier [generate_videos] derives from the choice made
    in the interface; [None] when it recognises none. *)
Definition gen_model_choice (model_choice_radio : string) : option string :=
  if bool_decide (model_choice_radio = MODEL_1_3B) then Some "1.3B"
  else if bool_decide (model_choice_radio = MODEL_14B_TEXT) then Some "14B_text"
  else if bool_decide (model_choice_radio = MODEL_14B_IMAGE_720P)
  then Some "14B_image_720p"
  else if bool_decide (model_choice_radio = MODEL_14B_IMAGE_480P)
  then Some "14B_image_480p"
  else None.

(** The configuration record of a call of [generate_videos]. *)
Definition gen_current_config (a : Gen.inputs) (model_choice : string)
  : gmap string pyval :=
  make_config model_choice (Gen.torch_dtype a) (Gen.num_persistent_input a)
    (effective_lora (Gen.lora_model a)) (Gen.lora_alpha a).

(** The number of iterations [generate_videos] is asked for. *)
Definition gen_budget (a : Gen.inputs) : nat :=
  (length (prompts_list (Gen.multi_line a) (Gen.prompt a))
   * Z.to_nat (Gen.num_generations a))%nat.

(** How a call of [generate_videos] ends, from the world [w]. *)
Definition gen_call_post (a : Gen.inputs) (w : world)
    (c : ctl Gen.result Empty_set Gen.result) (w' : world) : Prop :=
  match gen_model_choice (Gen.model_choice_radio a) with
  | None =>
      c = Returns ("", ERR_INVALID_MODEL, "")
      /\ stdout (io w') = stdout (io w) /\ trace (io w') = trace (io w)
      /\ same_cache w w'
  | Some model_choice =>
      exists t,
        trace (io w') = trace (io w) ++ t
        /\ ((exists e, c = Raises e /\ t = [] /\ same_cache w w'
                        /\ model_choice = "1.3B")
            \/ exists pipe loads rest,
                 t = loads ++ rest
                 /\ (if stale (gen_current_config a model_choice) w
                     then loads = [EvLoad pipe]
                     else loads = [] /\ loaded_pipeline (py w) = Some pipe)
                 /\ Forall (in_loop gen_poll (Some pipe) (gen_seed_ok a)) rest
                 /\ (polls gen_poll rest <= gen_budget a)%nat
                 /\ exists s,
                      monitor gen_poll Preparing rest = Some s
                      /\ match c with
                         | Returns (path, log, seed) =>
                             unloaded w'
                             /\ match s with
                                | Cancelled => path = ""
                                | Iterating false false =>
                                    path = "" /\ log = ERR_NO_IMAGE
                                    /\ needs_image a model_choice
                                    /\ last (stdout (io w')) = Some log
                                | _ =>
                                    polls gen_poll rest = gen_budget a
                                    /\ (rest = [] /\ path = ""
                                        \/ ~ needs_image a model_choice)
                                end
                             /\ (needs_image a model_choice ->
                                 rest = [] \/ exists flag, rest = [EvPoll flag])
                         | Raises e =>
                             s <> Cancelled
                             /\ loaded_pipeline (py w') = Some pipe
                             /\ loaded_pipeline_config (py w')
                                = gen_current_config a model_choice
                             /\ ~ needs_image a model_choice
                         | _ => False
                         end)
  end.

(** ** The loop of [batch_process_videos] *)

(** The seeds a call of [batch_process_videos] with inputs [a] may
    use. *)
Definition batch_seed_ok (a : Batch.inputs) : Z -> Prop :=
  seed_ok (Batch.use_random_seed a) (Batch.seed_input a).

(** The image file a poll of the batch loop was made for. *)
Definition batch_poll_file (e : event) : option string :=
  match e with
  | EvBatchPoll image_file _ => Some image_file
  | _ => None
  end.

(** Skipping as a monitor: after the poll of an image file whose output
    is there ([present]), nothing happens until the next poll. *)
Inductive skip_phase :=
| Free
| Skipping.

(** A poll opens the iteration of a file, skipped or not; a skipped
    file allows no other event. *)
Definition skip_step (present : string -> bool) (s : skip_phase) (e : event)
  : option skip_phase :=
  match e with
  | EvBatchPoll image_file _ => Some (if present image_file then Skipping else Free)
  | _ => match s with Free => Some Free | Skipping => None end
  end.

(** The skipping phase reached after the events [t]; [None] when one
    of them is refused. *)
Fixpoint skip_monitor (present : string -> bool) (s : skip_phase) (t : list event)
  : option skip_phase :=
  match t with
  | [] => Some s
  | e :: t' =>
      match skip_step present s e with
      | Some s' => skip_monitor present s' t'
      | None => None
      end
  end.

(** How one iteration of [batch_process_videos] ends, from the world
    [w]. *)
Definition batch_iteration_post (a : Batch.inputs) (image_file : string) (w : world)
    (c : ctl string string string) (w' : world) : Prop :=
  exists body,
    evolves (EvBatchPoll image_file (cancel_batch_flag (py w)) :: body) w w'
    /\ Forall (in_iteration (loaded_pipeline (py w)) (batch_seed_ok a)) body
    /\ if cancel_batch_flag (py w) then
         body = [] /\ exists log, c = Breaks log
       else
         exists generated saved,
           monitor batch_poll (Iterating false false) body
           = Some (Iterating generated saved)
           /\ (Batch.skip_overwrite a = true ->
               is_Some (fs_lookup (batch_output_filename a image_file) (fs (io w))) ->
               body = []
               /\ match c with
                  | Continues _ | Raises OSError => True
                  | _ => False
                  end)
           /\ match c with
              | Normal _ => generated = true /\ saved = true
              | Continues _ => body = []
              | Raises _ => True
              | Returns _ | Breaks _ => False
              end.

(** How the loop of [batch_process_videos] over the image files [l]
    ends, from the world [w]. *)
Definition batch_loop_post {S} (a : Batch.inputs) (present : string -> bool)
    (l : list string) (w : world) (c : ctl string S string) (w' : world) : Prop :=
  exists t,
    evolves t w w'
    /\ Forall (in_loop batch_poll (loaded_pipeline (py w)) (batch_seed_ok a)) t
    /\ omap batch_poll_file t `prefix_of` l
    /\ (forall s, s <> Cancelled ->
        exists s',
          monitor batch_poll s t = Some s'
          /\ match c with
             | Normal _ => s' = Cancelled \/ omap batch_poll_file t = l
             | Raises _ => s' <> Cancelled
             | _ => False
             end)
    /\ (Batch.skip_overwrite a = true -> forall s0, is_Some (skip_monitor present s0 t)).

(** The model identifier [batch_process_videos] derives from the choice
    made in the interface; [None] when it refuses the choice. *)
Definition batch_model_choice (model_choice_radio : string) : option string :=
  if bool_decide (model_choice_radio = MODEL_14B_IMAGE_720P) then Some "14B_image_720p"
  else if bool_decide (model_choice_radio = MODEL_14B_IMAGE_480P)
  then Some "14B_image_480p"
  else None.

Definition batch_current_config (a : Batch.inputs) (model_choice : string)
  : gmap string pyval :=
  make_config model_choice (Batch.torch_dtype a) (Batch.num_persistent_input a)
    (effective_lora (Batch.lora_model a)) (Batch.lora_alpha a).

(** The image files whose output video is there in the world [w]. *)
Definition batch_present (a : Batch.inputs) (w : world) (image_file : string) : bool :=
  bool_decide (is_Some (fs_lookup (batch_output_filename a image_file) (fs (io w)))).

(** How a call of [batch_process_videos] ends, from the world [w]. *)
Definition batch_call_post (a : Batch.inputs) (w : world)
    (c : ctl string Empty_set string) (w' : world) : Prop :=
  match batch_model_choice (Batch.model_choice_radio a) with
  | None =>
      (exists log, c = Returns log)
      /\ stdout (io w') = stdout (io w) /\ trace (io w') = trace (io w)
      /\ same_cache w w'
  | Some model_choice =>
      exists pipe loads rest,
        trace (io w') = trace (io w) ++ loads ++ rest
        /\ (if stale (batch_current_config a model_choice) w
            then loads = [EvLoad pipe]
            else loads = [] /\ loaded_pipeline (py w) = Some pipe)
        /\ Forall (in_loop batch_poll (Some pipe) (batch_seed_ok a)) rest
        /\ (exists images,
              Forall (fun f => is_image_file f = true) images
              /\ omap batch_poll_file rest `prefix_of` images)
        /\ (exists s,
              monitor batch_poll Preparing rest = Some s
              /\ match c with
                 | Returns _ => True
                 | Raises _ => s <> Cancelled
                 | _ => False
                 end)
        /\ (Batch.skip_overwrite a = true ->
            is_Some (skip_monitor (batch_present a w) Free rest))
        /\ match c with
           | Returns _ =>
               unloaded w'
               \/ rest = []
                  /\ loaded_pipeline (py w') = Some pipe
                  /\ loaded_pipeline_config (py w')
                     = batch_current_config a model_choice
           | Raises _ =>
               loaded_pipeline (py w') = Some pipe
               /\ loaded_pipeline_config (py w') = batch_current_config a model_choice
           | _ => False
           end
  end.

(** ** Worlds and inputs to run the functions on *)

(** The module globals as the module sets them when it is loaded. *)
Definition initial_globals : globals :=
  {| loaded_pipeline := None; loaded_pipeline_config := ∅;
     cancel_flag := false; cancel_batch_flag := false |}.

(** An environment in which nobody clicks and every subprocess
    succeeds. *)
Definition still_environment : environment :=
  {| ui_events := []; random_source := [7]; clock := [];
     subprocess_status := [];
     show_num := fun _ => "?"; show_float := fun _ => "?";
     show_2f := fun _ => "?"; show_exn := fun _ => "?" |}.

Definition fresh_world (files : list (string * node)) : world :=
  {| py := initial_globals;
     io := {| fs := files; stdout := []; trace := [] |};
     env := still_environment |}.

Definition gen_inputs_for (model_choice_radio : string) (image : option Image)
    (num_generations : Z) : Gen.inputs :=
  {| Gen.prompt := "a cat"; Gen.tar_lang := "EN"; Gen.negative_prompt := "";
     Gen.input_image := image; Gen.input_video := None;
     Gen.denoising_strength := 1%Qc; Gen.num_generations := num_generations;
     Gen.save_prompt := true; Gen.multi_line := false;
     Gen.use_random_seed := false; Gen.seed_input := " 42 ";
     Gen.quality := 5; Gen.fps := 16; Gen.model_choice_radio := model_choice_radio;
     Gen.vram_preset := "24GB"; Gen.num_persistent_input := "12000000000";
     Gen.torch_dtype := "torch.bfloat16"; Gen.num_frames := 3;
     Gen.aspect_ratio := "16:9"; Gen.width := 832; Gen.height := 480;
     Gen.auto_crop := false; Gen.tiled := true; Gen.inference_steps := 50;
     Gen.pr_rife_enabled := false; Gen.pr_rife_radio := "2x FPS";
     Gen.cfg_scale := 1%Qc; Gen.sigma_shift := 1%Qc;
     Gen.lora_model := Some "None"; Gen.lora_alpha := 1%Qc |}.

Definition batch_inputs_for (model_choice_radio folder_path : string)
    (skip_overwrite : bool) : Batch.inputs :=
  {| Batch.default_prompt := "a cat"; Batch.folder_path := folder_path;
     Batch.batch_output_folder := "batch_outputs";
     Batch.skip_overwrite := skip_overwrite; Batch.tar_lang := "EN";
     Batch.negative_prompt := ""; Batch.denoising_strength := 1%Qc;
     Batch.use_random_seed := false; Batch.seed_input := "";
     Batch.quality := 5; Batch.fps := 16;
     Batch.model_choice_radio := model_choice_radio;
     Batch.vram_preset := "24GB"; Batch.num_persistent_input := "12000000000";
     Batch.torch_dtype := "torch.bfloat16"; Batch.num_frames := 3;
     Batch.inference_steps := 50; Batch.aspect_ratio := "16:9";
     Batch.width := 832; Batch.height := 480; Batch.auto_crop := false;
     Batch.save_prompt := false; Batch.pr_rife_enabled := false;
     Batch.pr_rife_radio := "2x FPS"; Batch.lora_model := None;
     Batch.lora_alpha := 1%Qc |}.

(** A folder with one picture whose video is already there. *)
Definition batch_files : list (string * node) :=
  [ ("in", Dir); ("in/cat.png", File (ImageFile (Picture "cat" 1920 1080)));
    ("batch_outputs", Dir); ("batch_outputs/cat.mp4", File Binary) ].

(** A video of [count] frames of [width] by [height] pixels. *)
Definition video_of (width height : Z) (count : nat) : video :=
  {| v_fps := F64.round_int 30; v_width := width; v_height := height;
     v_frame_count := Z.of_nat count;
     v_frames := map (fun k => Decoded k height width) (seq 0 count) |}.

Definition clip_world (v : video) : world :=
  fresh_world [("clip.avi", File (VideoFile v))].

(** The frames of the video file at [path], if there is one. *)
Definition frames_at (path : string) (w : world) : option (list frame) :=
  match fs_lookup path (fs (io w)) with
  | Some (File (VideoFile v)) => Some (v_frames v)
  | _ => None
  end.

(** An outputs directory with two numbered videos, a text file and a
    video that has no number. *)
Definition outputs_files : list (string * node) :=
  [ ("outputs", Dir); ("outputs/00007.mp4", File Binary);
    ("outputs/00002.mp4", File Binary); ("outputs/00031.txt", File (Text ""));
    ("outputs/improved_00007.mp4", File Binary) ].

(** A click on Cancel while the pipeline computes the first of two
    videos. *)
Definition cancelling_world : world :=
  set_env (with_ui_events [[]; [PressCancel]]) (fresh_world []).

(** ** The handlers of the interface *)

(** A position the slider [s] can take. *)
Definition on_slider (s : slider) (v : Z) : Prop :=
  slider_minimum s <= v <= slider_maximum s
  /\ (v - slider_minimum s) mod slider_step s = 0.

(** The table of resolutions [update_width_height] reads for a model. *)
Definition aspect_table (model_choice : string) : dict (Z * Z) :=
  if bool_decide (model_choice = MODEL_1_3B)
     || bool_decide (model_choice = MODEL_14B_IMAGE_480P)
  then ASPECT_RATIOS_1_3b else ASPECT_RATIOS_14b.

(** The LoRA files of a world: the names listed in [LoRAs] that end
    with the extension. *)
Definition lora_files (w : world) : list string :=
  List.filter (fun f => Py.endswith f ".safetensors")
    (fs_children "LoRAs" (fs (io w))).

(** ** Settings and output names *)

(** The five settings the cache is keyed by. *)
Record settings := {
  s_model_choice : string;
  s_torch_dtype : string;
  s_vram_value : string;
  s_lora : option string;
  s_lora_alpha : Qc
}.

Definition config_of (s : settings) : gmap string pyval :=
  make_config (s_model_choice s) (s_torch_dtype s) (s_vram_value s) (s_lora s)
    (s_lora_alpha s).

(** Asking for a name twice, with or without a file written at the
    first name in between. *)
Definition two_names {R S} (extension : string) (written : option content)
  : M R S (string * string) :=
  first ← get_next_filename extension;
  match written with
  | Some c => write_file first c
  | None => mret tt
  end;;
  second ← get_next_filename extension;
  mret (first, second).

(** The path in [outputs] numbered [k], with the extension. *)
Definition numbered (extension : string) (k : Z) : string :=
  "outputs/" +:+ Py.format_05d k +:+ extension.

(** ** The arguments of the pipeline *)

(** The prompt [batch_process_videos] uses for an image file in the
    world [w]: the text of the file of the same base name in the input
    folder, without the blanks around it; the prompt of the prompt box
    when there is no such file or it holds only blanks. *)
Definition batch_prompt (a : Batch.inputs) (image_file : string) (w : world) : string :=
  let prompt_path :=
    Py.join (Batch.folder_path a) (fst (Py.splitext image_file) +:+ ".txt") in
  match fs_lookup prompt_path (fs (io w)) with
  | Some (File (Text text)) =>
      if bool_decide (Py.strip text = "") then Batch.default_prompt a
      else Py.strip text
  | _ => Batch.default_prompt a
  end.

(** The keyword arguments of a pipeline call of the batch, for the
    prompt [prompt]. *)
Definition batch_call_args (a : Batch.inputs) (target_width target_height : Z)
    (prompt : string) (args : call_args) : Prop :=
  arg_prompt args = prompt
  /\ arg_negative_prompt args = Batch.negative_prompt a
  /\ arg_num_inference_steps args = Batch.inference_steps a
  /\ arg_num_frames args = Batch.num_frames a
  /\ arg_width args = target_width /\ arg_height args = target_height
  /\ arg_tiled args = true
  /\ arg_cfg_scale args = None /\ arg_sigma_shift args = None
  /\ is_Some (arg_input_image args)
  /\ arg_input_video args = None /\ arg_denoising_strength args = None.

(** The calls of the pipeline among the events [t] satisfy [P]. *)
Definition calls_satisfy (P : call_args -> Prop) (t : list event) : Prop :=
  forall pipe args, EvGenerate pipe args ∈ t -> P args.

(** From [w] to [w'] the trace has grown by events that satisfy [P]. *)
Definition grows (P : event -> Prop) (w w' : world) : Prop :=
  exists t, trace (io w') = trace (io w) ++ t /\ Forall P t.

(** [P] asked of the calls of the pipeline only. *)
Definition on_calls (P : call_args -> Prop) (e : event) : Prop :=
  match e with
  | EvGenerate _ args => P args
  | _ => True
  end.

(** The keyword arguments of a pipeline call made by an iteration of
    [generate_videos] for the prompt [p]. *)
Definition gen_iteration_args (a : Gen.inputs) (v : Gen.frame_vars) (p : string)
    (args : call_args) : Prop :=
  arg_prompt args = p
  /\ arg_negative_prompt args = Gen.negative_prompt a
  /\ arg_num_inference_steps args = Gen.inference_steps a
  /\ arg_tiled args = Gen.tiled a
  /\ arg_width args = Gen.target_width v
  /\ arg_height args = Gen.target_height v
  /\ arg_num_frames args = Gen.effective_num_frames v
  /\ arg_cfg_scale args = Some (Gen.cfg_scale a)
  /\ arg_sigma_shift args = Some (Gen.sigma_shift a)
  /\ (is_Some (arg_input_image args) ->
      is_image_model (Gen.model_choice v) = true /\ is_Some (Gen.input_image a))
  /\ (is_Some (arg_input_video args) ->
      Gen.model_choice v = "1.3B" /\ arg_input_video args = Gen.input_video_now v)
  /\ (Gen.model_choice v = "1.3B" -> arg_input_video args = Gen.input_video_now v)
  /\ arg_denoising_strength args
     = match arg_input_video args with
       | Some _ => Some (Gen.denoising_strength a)
       | None => None
       end.

(** The keyword arguments of a pipeline call of [generate_videos]. *)
Definition gen_call_args (a : Gen.inputs) (args : call_args) : Prop :=
  arg_prompt args ∈ prompts_list (Gen.multi_line a) (Gen.prompt a)
  /\ arg_negative_prompt args = Gen.negative_prompt a
  /\ arg_num_inference_steps args = Gen.inference_steps a
  /\ arg_tiled args = Gen.tiled a
  /\ arg_width args = Gen.width a
  /\ arg_height args = Gen.height a
  /\ arg_cfg_scale args = Some (Gen.cfg_scale a)
  /\ arg_sigma_shift args = Some (Gen.sigma_shift a)
  /\ arg_num_frames args <= Gen.num_frames a
  /\ (arg_input_video args = None -> arg_num_frames args = Gen.num_frames a)
  /\ (is_Some (arg_input_image args) ->
      is_Some (Gen.input_image a)
      /\ (Gen.model_choice_radio a = MODEL_14B_IMAGE_720P
          \/ Gen.model_choice_radio a = MODEL_14B_IMAGE_480P))
  /\ (is_Some (arg_input_video args) ->
      is_Some (Gen.input_video a) /\ Gen.model_choice_radio a = MODEL_1_3B)
  /\ arg_denoising_strength args
     = match arg_input_video args with
       | Some _ => Some (Gen.denoising_strength a)
       | None => None
       end.

(** ** More worlds and inputs *)

(** The settings of the interface as it starts, and the same with
    another LoRA scale. *)
Definition default_settings : settings :=
  {| s_model_choice := "1.3B"; s_torch_dtype := "torch.bfloat16";
     s_vram_value := "12000000000"; s_lora := None; s_lora_alpha := 1%Qc |}.

Definition rescaled_settings : settings :=
  {| s_model_choice := "1.3B"; s_torch_dtype := "torch.bfloat16";
     s_vram_value := "12000000000"; s_lora := None; s_lora_alpha := 0%Qc |}.

(** A world whose cache holds a pipeline for the default settings. *)
Definition loaded_world : world :=
  set_py (fun g =>
            with_loaded_pipeline_config (config_of default_settings)
              (with_loaded_pipeline
                 (Some {| pipe_serial := 0; pipe_model := "1.3B"; pipe_fp8 := false;
                          pipe_lora := None;
                          pipe_num_persistent := Some 12000000000 |}) g))
    (fresh_world []).


(** The same box in single-line mode: one generation, with the empty
    prompt. *)
Definition blank_single_inputs : Gen.inputs :=
  {| Gen.prompt := String "010" (String "009" " "); Gen.tar_lang := "EN";
     Gen.negative_prompt := "";
     Gen.input_image := None; Gen.input_video := None;
     Gen.denoising_strength := 1%Qc; Gen.num_generations := 1;
     Gen.save_prompt := false; Gen.multi_line := false;
     Gen.use_random_seed := false; Gen.seed_input := "";
     Gen.quality := 5; Gen.fps := 16; Gen.model_choice_radio := MODEL_14B_TEXT;
     Gen.vram_preset := "24GB"; Gen.num_persistent_input := "12000000000";
     Gen.torch_dtype := "torch.bfloat16"; Gen.num_frames := 3;
     Gen.aspect_ratio := "16:9"; Gen.width := 832; Gen.height := 480;
     Gen.auto_crop := false; Gen.tiled := true; Gen.inference_steps := 50;
     Gen.pr_rife_enabled := false; Gen.pr_rife_radio := "2x FPS";
     Gen.cfg_scale := 1%Qc; Gen.sigma_shift := 1%Qc;
     Gen.lora_model := None; Gen.lora_alpha := 1%Qc |}.

(** ** Files a call writes *)

(** From [w] to [w'] no entry of the file system has changed, the one
    at [path] apart. *)
Definition only_writes (path : string) (w w' : world) : Prop :=
  forall p, norm_path p <> norm_path path ->
            fs_lookup p (fs (io w')) = fs_lookup p (fs (io w)).

(** ** The video a call returns *)

(** The paths of the videos saved among the events [t], in order. *)
Definition saved_videos (t : list event) : list string :=
  omap (fun e => match e with EvSaveVideo path => Some path | _ => None end) t.

(** The events [t] end with a poll of the cancellation flag of
    [generate_videos]: the call left its loop from inside an
    iteration, right after the poll. *)
Definition ends_with_poll (t : list event) : bool :=
  match last t with
  | Some (EvPoll _) => true
  | _ => false
  end.

(** How an iteration of [generate_videos] ends, for the video it
    returns or hands to the next iteration. *)
Definition gen_iteration_video (w : world)
    (c : ctl Gen.result Gen.locals Gen.locals) (w' : world) : Prop :=
  exists body,
    trace (io w') = trace (io w) ++ body
    /\ match c with
       | Normal loc' =>
           last (saved_videos body) = Some (Gen.last_video_path loc')
           /\ ends_with_poll body = false
       | Returns (path, _, _) => path = "" /\ ends_with_poll body = true
       | Raises _ => True
       | _ => False
       end.

(** How a loop of [generate_videos] ends: the locals it hands over
    hold the last video saved in it, or the path they held when it
    began. *)
Definition gen_loop_video {S} (w : world) (before : string)
    (c : ctl Gen.result S Gen.locals) (w' : world) : Prop :=
  exists t,
    trace (io w') = trace (io w) ++ t
    /\ match c with
       | Normal loc' =>
           match last (saved_videos t) with
           | Some path => Gen.last_video_path loc' = path
           | None => Gen.last_video_path loc' = before
           end
           /\ ends_with_poll t = false
       | Returns (path, _, _) => path = "" /\ ends_with_poll t = true
       | Raises _ => True
       | _ => False
       end.

(** The video path [generate_videos] returns, given the events [t] of
    the call. *)
Definition gen_returns_video (a : Gen.inputs) (t : list event) (path : string) : Prop :=
  if ends_with_poll t then path = ""
  else
    match last (saved_videos t) with
    | None => path = ""
    | Some saved =>
        path = (if Gen.pr_rife_enabled a && bool_decide (saved <> "")
                then Py.join "outputs" ("improved_" +:+ Py.basename saved)
                else saved)
    end.

(** An event that is neither the saving of a video nor a poll. *)
Definition no_save (e : event) : Prop :=
  match e with
  | EvSaveVideo _ | EvPoll _ => False
  | _ => True
  end.

(** ** Files the batch cannot read *)

(** From [w] to [w'] the trace has grown by [t] and the files are as
    they were. *)
Definition reads_only (t : list event) (w w' : world) : Prop :=
  trace (io w') = trace (io w) ++ t /\ fs (io w') = fs (io w).

(** The file of the prompt of an image, and the file of the image. *)
Definition batch_prompt_path (a : Batch.inputs) (image_file : string) : string :=
  Py.join (Batch.folder_path a) ((Py.splitext image_file).1 +:+ ".txt").

Definition batch_image_path (a : Batch.inputs) (image_file : string) : string :=
  Py.join (Batch.folder_path a) image_file.

(** A folder where a directory stands in the place of the prompt of
    the picture. *)
Definition prompt_directory_files : list (string * node) :=
  [ ("in", Dir); ("in/cat.png", File (ImageFile (Picture "cat" 1920 1080)));
    ("in/cat.txt", Dir) ].

(** A folder whose picture is a file of another kind. *)
Definition broken_picture_files : list (string * node) :=
  [ ("in", Dir); ("in/cat.png", File Binary) ].

(** ** The parameters file of a video *)

(** The paths of the text files written among the events [t], in
    order. *)
Definition written_texts (t : list event) : list string :=
  omap (fun e => match e with EvWriteText path => Some path | _ => None end) t.

(** The text file that goes with a video: the same path with the
    extension replaced. *)
Definition sidecar_path (video : string) : string :=
  (Py.splitext video).1 +:+ ".txt".

(** Among the events [t] the text files written are those of the
    videos saved, in the same order, but for the videos [missing] at
    the end; without [save_prompt] no text file is written. *)
Definition sidecars (save_prompt : bool) (t : list event) (missing : list string)
  : Prop :=
  if save_prompt
  then map sidecar_path (saved_videos t) = written_texts t ++ missing
  else written_texts t = [].

(** An event that is neither the saving of a video nor the writing of
    a text. *)
Definition no_output (e : event) : Prop :=
  match e with
  | EvSaveVideo _ | EvWriteText _ => False
  | _ => True
  end.

(** How a piece of [generate_videos] ends, for the text files: only an
    exception can leave a video without its text. *)
Definition gen_sidecars {R S A} (save_prompt : bool) (w : world)
    (c : ctl R S A) (w' : world) : Prop :=
  exists t,
    trace (io w') = trace (io w) ++ t
    /\ match c with
       | Raises _ =>
           exists missing, sidecars save_prompt t missing /\ (length missing <= 1)%nat
       | _ => sidecars save_prompt t []
       end.

(** ** The two cancel buttons *)

(** The flag a button sets. *)
Definition flag_of (c : ui_event) (g : globals) : bool :=
  match c with
  | PressCancel => cancel_flag g
  | PressCancelBatch => cancel_batch_flag g
  end.

(** The button [c] is not among the clicks still to be delivered. *)
Definition no_click (c : ui_event) (e : environment) : Prop :=
  Forall (Forall (fun click => click <> c)) (ui_events e).

(** The flag of [c] is unset and no click on [c] is to come. *)
Definition unheard (c : ui_event) (w : world) : Prop :=
  flag_of c (py w) = false /\ no_click c (env w).

(** An event that is not a poll that found the flag of [c] set. *)
Definition not_cancelled (c : ui_event) (e : event) : Prop :=
  match c, e with
  | PressCancel, EvPoll b => b = false
  | PressCancelBatch, EvBatchPoll _ b => b = false
  | _, _ => True
  end.

(** From [w0] to [w] no poll has found the flag of [c] set, and in [w]
    it is still unset with no click on [c] to come. *)
Definition calm (c : ui_event) (w0 w : world) : Prop :=
  unheard c w /\ grows (not_cancelled c) w0 w.

(** A statement that, run without a click on [c], leaves the flag of
    [c] unset and reads it unset whenever it polls it. *)
Definition deaf {R S A} (c : ui_event) (m : M R S A) : Prop :=
  forall w0 w, calm c w0 w -> calm c w0 (m w).2.

(** A world where both flags are set from earlier clicks and the
    clicks [clicks] arrive during the calls to come. *)
Definition clicked_world (files : list (string * node))
    (clicks : list (list ui_event)) : world :=
  set_py (with_cancel_flag true)
    (set_py (with_cancel_batch_flag true)
       (set_env (with_ui_events clicks) (fresh_world files))).

(** ** The parameters file of a batch video *)

(** A statement whose events all satisfy [P], however it ends. *)
Definition emits {R S A} (P : event -> Prop) (m : M R S A) : Prop :=
  forall w, grows P w (m w).2.

(** A batch that writes into the folder it reads, with [save_prompt]. *)
Definition same_folder_inputs : Batch.inputs :=
  {| Batch.default_prompt := "a cat"; Batch.folder_path := "in";
     Batch.batch_output_folder := "in";
     Batch.skip_overwrite := false; Batch.tar_lang := "EN";
     Batch.negative_prompt := ""; Batch.denoising_strength := 1%Qc;
     Batch.use_random_seed := false; Batch.seed_input := "";
     Batch.quality := 5; Batch.fps := 16;
     Batch.model_choice_radio := MODEL_14B_IMAGE_480P;
     Batch.vram_preset := "24GB"; Batch.num_persistent_input := "12000000000";
     Batch.torch_dtype := "torch.bfloat16"; Batch.num_frames := 3;
     Batch.inference_steps := 50; Batch.aspect_ratio := "16:9";
     Batch.width := 832; Batch.height := 480; Batch.auto_crop := false;
     Batch.save_prompt := true; Batch.pr_rife_enabled := false;
     Batch.pr_rife_radio := "2x FPS"; Batch.lora_model := None;
     Batch.lora_alpha := 1%Qc |}.

(** A folder with a picture and its prompt, and a pipeline loaded. *)
Definition same_folder_world : world :=
  set_py (with_loaded_pipeline
            (Some {| pipe_serial := 0; pipe_model := "14B_image_480p";
                     pipe_fp8 := false; pipe_lora := None;
                     pipe_num_persistent := Some 12000000000 |}))
    (fresh_world [ ("in", Dir);
                   ("in/cat.png", File (ImageFile (Picture "cat" 1920 1080)));
                   ("in/cat.txt", File (Text "a cat on a sofa")) ]).

(** ** Names that are always bound *)

(** The two exceptions of a name used before it holds a value: calling
    [loaded_pipeline] while it is [None], reading [original_image]
    before any assignment. *)
Definition unbound_name (e : exn) : Prop :=
  e = TypeError \/ e = UnboundLocalError.

(** A computation on values that raises neither. *)
Definition bound {A} (x : exc A) : Prop :=
  match x with
  | Err e => ~ unbound_name e
  | Ok _ => True
  end.

(** The pipeline is loaded, where [loaded] asks for it. *)
Definition kept (loaded : bool) (w : world) : Prop :=
  if loaded then is_Some (loaded_pipeline (py w)) else True.

(** How a statement ends when it uses no name before it is bound: it
    raises neither exception, and leaves the pipeline loaded unless it
    returns from the function. *)
Definition sound_end {R S A} (loaded : bool) (c : ctl R S A) (w : world) : Prop :=
  match c with
  | Returns _ => True
  | Raises e => ~ unbound_name e /\ kept loaded w
  | _ => kept loaded w
  end.

Definition sound {R S A} (loaded : bool) (m : M R S A) : Prop :=
  forall w, kept loaded w -> sound_end loaded (m w).1 (m w).2.

(** [original_image] is bound where the loop reads it. *)
Definition image_bound (a : Gen.inputs) (v : Gen.frame_vars) : Prop :=
  is_image_model (Gen.model_choice v) = true -> is_Some (Gen.input_image a) ->
  is_Some (Gen.original_image v).

(** What is asked of the two functions: they end without either
    exception. *)
Definition no_unbound_name {R S A} (c : ctl R S A) : Prop :=
  match c with
  | Raises e => ~ unbound_name e
  | _ => True
  end.

(** ** The runs of Practical-RIFE *)

(** The runs of Practical-RIFE among the events [t]: the video read
    and the video written. *)
Definition rife_runs (t : list event) : list (string * string) :=
  omap (fun e => match e with EvRife v o _ => Some (v, o) | _ => None end) t.

Definition no_rife (e : event) : Prop :=
  match e with
  | EvRife _ _ _ => False
  | _ => True
  end.

(** The loading of a pipeline, the only event before the loops. *)
Definition only_load (e : event) : Prop :=
  match e with
  | EvLoad _ => True
  | _ => False
  end.

(** The runs of Practical-RIFE of a call of [generate_videos] that
    returns, given its events [t]. *)
Definition gen_rife_runs (a : Gen.inputs) (t : list event) : list (string * string) :=
  if Gen.pr_rife_enabled a && negb (ends_with_poll t) then
    match last (saved_videos t) with
    | Some v =>
        if bool_decide (v <> "")
        then [(v, Py.join "outputs" ("improved_" +:+ Py.basename v))]
        else []
    | None => []
    end
  else [].

(** The video Practical-RIFE writes for the video [v] of the batch. *)
Definition batch_improved (a : Batch.inputs) (v : string) : string * string :=
  (v, Py.join (Batch.batch_output_folder a) ("improved_" +:+ Py.basename v)).

(** Among the events [t] every video saved has been interpolated, in
    the same order, but for the videos [missing] at the end; without
    [pr_rife_enabled] Practical-RIFE has not run. *)
Definition interpolated (a : Batch.inputs) (t : list event)
    (missing : list (string * string)) : Prop :=
  if Batch.pr_rife_enabled a
  then map (batch_improved a) (saved_videos t) = rife_runs t ++ missing
  else rife_runs t = [].

(** How a piece of [batch_process_videos] ends, for Practical-RIFE:
    only an exception can leave a video without its interpolation. *)
Definition batch_interpolated {R S A} (a : Batch.inputs) (w : world)
    (c : ctl R S A) (w' : world) : Prop :=
  exists t,
    trace (io w') = trace (io w) ++ t
    /\ match c with
       | Raises _ => exists missing, interpolated a t missing /\ (length missing <= 1)%nat
       | _ => interpolated a t []
       end.

(** * Properties *)

Example int_plain : Py.int "00012" = Some 12.
Proof. reflexivity. Qed.
Example int_spaces_sign : Py.int "  -7 " = Some (-7).
Proof. reflexivity. Qed.
Example int_underscore : Py.int "1_000" = Some 1000.
Proof. reflexivity. Qed.
Example int_bad : Py.int "12a" = None /\ Py.int "" = None /\ Py.int "_1" = None
                  /\ Py.int "1__0" = None /\ Py.int "1_" = None /\ Py.int "+" = None.
Proof. repeat split; reflexivity. Qed.
Example format_examples :
  Py.format_05d 1 = "00001" /\ Py.format_05d 123456 = "123456" /\
  Py.format_05d (-4) = "-0004" /\ Py.format_05d 0 = "00000".
Proof. repeat split; reflexivity. Qed.
Example splitext_examples :
  Py.splitext "00001.mp4" = ("00001", ".mp4") /\
  Py.splitext ".mp4" = (".mp4", "") /\
  Py.splitext "..mp4" = ("..mp4", "") /\
  Py.splitext "a.b/c" = ("a.b/c", "") /\
  Py.splitext "outputs/00001.tar.mp4" = ("outputs/00001.tar", ".mp4").
Proof. repeat split; reflexivity. Qed.
Example join_examples :
  Py.join "outputs" "00001.mp4" = "outputs/00001.mp4" /\
  Py.join "in/" "a.txt" = "in/a.txt" /\ Py.join "x" "/abs" = "/abs".
Proof. repeat split; reflexivity. Qed.
Example splitlines_examples :
  Py.splitlines ("a" +:+ String "010" "b" +:+ String "013" (String "010" "")) = ["a"; "b"] /\
  Py.splitlines "" = [] /\ Py.strip "  x y  " = "x y".
Proof. repeat split; reflexivity. Qed.

(** The structure of a statement is unfolded by [cbn]; the functions on
    strings, paths and files are not. *)
#[global] Arguments fs_lookup : simpl never.
#[global] Arguments fs_write : simpl never.
#[global] Arguments fs_children : simpl never.
#[global] Arguments norm_path : simpl never.
#[global] Arguments Py.join : simpl never.
#[global] Arguments Py.splitext : simpl never.
#[global] Arguments Py.basename : simpl never.
#[global] Arguments Py.format_05d : simpl never.
#[global] Arguments Py.str_int : simpl never.
#[global] Arguments Py.int : simpl never.
#[global] Arguments Py.strip : simpl never.
#[global] Arguments Py.lower : simpl never.
#[global] Arguments Py.endswith : simpl never.
#[global] Arguments Py.startswith : simpl never.
#[global] Arguments max_default : simpl never.

(** Unfolds the sequencing of statements down to the state function. *)
Ltac munfold :=
  unfold mbind, mret, M_bind, M_ret, get_world, modify, raise, return_,
    break_, continue_ in *.
Ltac mstep := munfold; cbn.

(** ** Strings *)

Lemma chars_app (a b : string) : Py.chars (a +:+ b) = Py.chars a ++ Py.chars b.
Proof.
  induction a as [|c a IH]; [reflexivity|].
  change (String c a +:+ b) with (String c (a +:+ b)).
  unfold Py.chars in *. simpl. by rewrite IH.
Qed.

Lemma str_chars (s : string) : Py.str (Py.chars s) = s.
Proof. apply string_of_list_ascii_of_string. Qed.

Lemma chars_str (l : list ascii) : Py.chars (Py.str l) = l.
Proof. apply list_ascii_of_string_of_list_ascii. Qed.

Lemma chars_inj (a b : string) : Py.chars a = Py.chars b -> a = b.
Proof. intros H. rewrite <- (str_chars a), <- (str_chars b). by rewrite H. Qed.

Lemma endswith_app (a e : string) : Py.endswith (a +:+ e) e = true.
Proof.
  unfold Py.endswith. apply bool_decide_eq_true. rewrite chars_app.
  by apply suffix_app_r.
Qed.

Lemma lstrip_with_id sp (l : list ascii) :
  match l with c :: _ => sp c = false | [] => True end -> Py.lstrip_with sp l = l.
Proof. destruct l as [|c l]; simpl; [done|]. by intros ->. Qed.

Lemma uint_chars_digits (d : Decimal.uint) :
  Forall (fun c => is_digit c = true) (Py.chars (NilEmpty.string_of_uint d)).
Proof.
  induction d; simpl; constructor; try assumption; reflexivity.
Qed.

Lemma scan_uint_acc (d : Decimal.uint) (acc : positive) :
  Py.scan_digits false (Zpos acc) (Py.chars (NilEmpty.string_of_uint d))
  = Some (Zpos (Pos.of_uint_acc d acc)).
Proof.
  revert acc. induction d; intros acc; simpl; [done|..];
    rewrite <- IHd; f_equal; lia.
Qed.

Lemma scan_uint (d : Decimal.uint) :
  Py.scan_digits false 0 (Py.chars (NilEmpty.string_of_uint d))
  = Some (Z.of_N (Pos.of_uint d)).
Proof.
  induction d; simpl; [done|assumption|..]; apply (scan_uint_acc d).
Qed.

Lemma scan_zeros (k : nat) (l : list ascii) :
  Py.scan_digits false 0 (Py.chars (Py.zeros k) ++ l) = Py.scan_digits false 0 l.
Proof. induction k; simpl; [done|]. apply IHk. Qed.

Lemma digits_nonempty (n : Z) : Py.digits n <> "".
Proof.
  unfold Py.digits, NilZero.string_of_uint.
  destruct (N.to_uint (Z.to_N (Z.abs n))) eqn:E; try discriminate.
Qed.

Lemma digits_chars (n : Z) : Forall (fun c => is_digit c = true) (Py.chars (Py.digits n)).
Proof.
  unfold Py.digits, NilZero.string_of_uint.
  destruct (N.to_uint (Z.to_N (Z.abs n))) eqn:E;
    [repeat constructor | rewrite <- E; apply uint_chars_digits ..].
Qed.

Lemma scan_digits_of (n : Z) :
  Py.scan_digits false 0 (Py.chars (Py.digits n)) = Some (Z.abs n).
Proof.
  unfold Py.digits, NilZero.string_of_uint.
  pose proof (DecimalN.Unsigned.of_to (Z.to_N (Z.abs n))) as H.
  destruct (N.to_uint (Z.to_N (Z.abs n))) eqn:E.
  - simpl in H. simpl. f_equal. lia.
  - rewrite scan_uint. unfold N.of_uint in H. rewrite H. f_equal. lia.
  - rewrite scan_uint. unfold N.of_uint in H. rewrite H. f_equal. lia.
  - rewrite scan_uint. unfold N.of_uint in H. rewrite H. f_equal. lia.
  - rewrite scan_uint. unfold N.of_uint in H. rewrite H. f_equal. lia.
  - rewrite scan_uint. unfold N.of_uint in H. rewrite H. f_equal. lia.
  - rewrite scan_uint. unfold N.of_uint in H. rewrite H. f_equal. lia.
  - rewrite scan_uint. unfold N.of_uint in H. rewrite H. f_equal. lia.
  - rewrite scan_uint. unfold N.of_uint in H. rewrite H. f_equal. lia.
  - rewrite scan_uint. unfold N.of_uint in H. rewrite H. f_equal. lia.
  - rewrite scan_uint. unfold N.of_uint in H. rewrite H. f_equal. lia.
Qed.

Lemma digit_not_special (c : ascii) :
  is_digit c = true ->
  Ascii.is_space c = false /\ Py.is_sep c = false /\ Py.is_dot c = false
  /\ Py.is_underscore c = false /\ c <> "+"%char /\ c <> "-"%char.
Proof.
  destruct c as [[] [] [] [] [] [] [] []]; intros H; try discriminate H;
    repeat split; discriminate.
Qed.

Lemma strip_with_none sp (l : list ascii) :
  Forall (fun c => sp c = false) l -> Py.strip_with sp l = l.
Proof.
  intros H. unfold Py.strip_with.
  assert (forall l', Forall (fun c => sp c = false) l' -> Py.lstrip_with sp l' = l') as Hl.
  { intros [|c l'] Hc; [done|]. simpl. by rewrite (Forall_inv Hc). }
  rewrite (Hl l H), Hl; [apply rev_involutive|].
  by apply Forall_rev.
Qed.

Lemma zeros_chars (k : nat) : Forall (fun c => is_digit c = true) (Py.chars (Py.zeros k)).
Proof. induction k; simpl; constructor; [reflexivity|assumption]. Qed.

Lemma sign_cases (n : Z) :
  (n < 0 /\ Py.sign n = "-") \/ (0 <= n /\ Py.sign n = "").
Proof. unfold Py.sign. destruct (Z.ltb_spec n 0); [left|right]; done. Qed.

Lemma parse_unsigned_digits (l : list ascii) (v : Z) :
  l <> [] -> Forall (fun c => is_digit c = true) l ->
  Py.scan_digits false 0 l = Some v -> Py.parse_unsigned l = Some v.
Proof.
  intros Hne Hd Hs. destruct l as [|c l]; [done|]. unfold Py.parse_unsigned.
  destruct (digit_not_special c (Forall_inv Hd)) as (_ & _ & _ & -> & _). done.
Qed.

Lemma int_format_05d (n : Z) : Py.int (Py.format_05d n) = Some n.
Proof.
  unfold Py.int, Py.format_05d.
  set (k := (5 - _)%nat). clearbody k.
  assert (Hbody : Py.parse_unsigned (Py.chars (Py.zeros k) ++ Py.chars (Py.digits n))
                  = Some (Z.abs n)).
  { apply parse_unsigned_digits.
    - intros E. apply app_eq_nil in E as [_ E].
      apply (digits_nonempty n). apply chars_inj. by rewrite E.
    - apply Forall_app; split; [apply zeros_chars|apply digits_chars].
    - rewrite scan_zeros. apply scan_digits_of. }
  assert (Hz : Forall (fun c => Ascii.is_space c = false)
                 (Py.chars (Py.zeros k) ++ Py.chars (Py.digits n))).
  { eapply Forall_impl; [apply Forall_app; split; [apply zeros_chars|apply digits_chars]|].
    intros c Hc. by destruct (digit_not_special c Hc). }
  rewrite !chars_app.
  destruct (sign_cases n) as [[Hn ->]|[Hn ->]].
  - rewrite strip_with_none by (constructor; [reflexivity|exact Hz]).
    simpl. rewrite Hbody. simpl. f_equal. lia.
  - simpl. rewrite strip_with_none by exact Hz.
    destruct (Py.chars (Py.zeros k) ++ Py.chars (Py.digits n)) as [|c l] eqn:E.
    { discriminate Hbody. }
    assert (Hc : is_digit c = true).
    { assert (Hall : Forall (fun c => is_digit c = true) (c :: l)).
      { rewrite <- E. apply Forall_app; split; [apply zeros_chars|apply digits_chars]. }
      exact (Forall_inv Hall). }
    destruct (digit_not_special c Hc) as (_ & _ & _ & _ & Hp & Hm).
    transitivity (Py.parse_unsigned (c :: l)); [|rewrite Hbody; f_equal; lia].
    destruct c as [[] [] [] [] [] [] [] []]; try reflexivity; congruence.
Qed.

Lemma split_last_dot_app (l r acc : list ascii) :
  Forall (fun x => Py.is_sep x = false /\ Py.is_dot x = false) l ->
  Py.split_last_dot (l ++ "."%char :: r) acc = Some (r, "."%char :: rev l ++ acc).
Proof.
  revert acc. induction l as [|c l IH]; intros acc Hl; [reflexivity|].
  apply Forall_cons in Hl as [[Hs Hd] Hl]. simpl. rewrite Hs, Hd, IH by done.
  by rewrite <- app_assoc.
Qed.

Lemma is_extension_inv (e : string) :
  is_extension e = true ->
  exists body, Py.chars e = "."%char :: body
    /\ Forall (fun x => Py.is_sep x = false /\ Py.is_dot x = false) body.
Proof.
  unfold is_extension. destruct (Py.chars e) as [|c body]; [done|].
  intros [Hc Hb]%andb_true_iff. exists body. split.
  - f_equal. unfold Py.is_dot in Hc. by apply bool_decide_eq_true in Hc.
  - apply Forall_forall. intros x Hx%list_elem_of_In.
    rewrite forallb_forall in Hb. specialize (Hb x Hx).
    apply andb_true_iff in Hb as [H1 H2]. by destruct (Py.is_sep x), (Py.is_dot x).
Qed.

Lemma splitext_app (stem e : string) (c : ascii) (l : list ascii) :
  is_extension e = true ->
  rev (Py.chars stem) = c :: l -> Py.is_sep c = false -> Py.is_dot c = false ->
  Py.splitext (stem +:+ e) = (stem, e).
Proof.
  intros (body & He & Hb)%is_extension_inv Hrev Hs Hd.
  unfold Py.splitext. rewrite chars_app, He, rev_app_distr. simpl rev.
  rewrite <- app_assoc. simpl.
  rewrite split_last_dot_app by (by apply Forall_rev).
  rewrite Hrev. cbn [Py.has_non_dot_before_sep]. rewrite Hs, Hd. f_equal.
  - rewrite <- Hrev, rev_involutive. apply str_chars.
  - rewrite rev_involutive, app_nil_r, <- He. apply str_chars.
Qed.

(** ** The next output file name *)

Lemma current_numbers_spec names extension k :
  k ∈ current_numbers names extension
  <-> exists f, f ∈ names /\ integer_named extension f k.
Proof.
  unfold current_numbers, integer_named. rewrite list_elem_of_omap. split.
  - intros (f & Hf & Hk). apply list_elem_of_In, filter_In in Hf as [Hf He].
    exists f. by rewrite list_elem_of_In.
  - intros (f & Hf & He & Hk). exists f. split; [|done].
    apply list_elem_of_In, filter_In. by rewrite <- list_elem_of_In.
Qed.

Lemma fold_left_max_spec (l : list Z) (x : Z) :
  x <= fold_left Z.max l x /\ (forall y, y ∈ l -> y <= fold_left Z.max l x)
  /\ fold_left Z.max l x ∈ x :: l.
Proof.
  revert x. induction l as [|a l IH]; intros x; simpl.
  - split; [lia|]. split; [intros y Hy; by apply elem_of_nil in Hy|left].
  - destruct (IH (Z.max x a)) as (H1 & H2 & H3). split; [lia|]. split.
    + intros y [->|Hy]%elem_of_cons; [lia|by apply H2].
    + apply elem_of_cons in H3 as [H3|H3].
      * rewrite H3. destruct (Z.max_spec x a) as [[_ ->]|[_ ->]];
          [right; left|left].
      * right. by right.
Qed.

Lemma max_default_ge (l : list Z) (d k : Z) : k ∈ l -> k <= max_default l d.
Proof.
  destruct l as [|x l]; [intros H; by apply elem_of_nil in H|].
  simpl. destruct (fold_left_max_spec l x) as (H1 & H2 & _).
  intros [->|Hk]%elem_of_cons; [done|by apply H2].
Qed.

Lemma max_default_cases (l : list Z) (d : Z) :
  (l = [] /\ max_default l d = d) \/ max_default l d ∈ l.
Proof.
  destruct l as [|x l]; [by left|right].
  simpl. by destruct (fold_left_max_spec l x) as (_ & _ & H).
Qed.

Lemma strip_prefix_app (pre l : list ascii) : strip_prefix pre (pre ++ l) = Some l.
Proof. induction pre as [|c pre IH]; [done|]. simpl. by rewrite bool_decide_eq_true_2. Qed.

Lemma assoc_Some_elem {V} (k : string) (v : V) (l : list (string * V)) :
  assoc k l = Some v -> (k, v) ∈ l.
Proof.
  induction l as [|[k' v'] l IH]; simpl; [done|].
  case_bool_decide as E; [intros [= ->]; subst; left|intros H; right; auto].
Qed.

Lemma assoc_set_fresh {V} (k : string) (v : V) (l : list (string * V)) :
  assoc k l = None -> assoc_set k v l = l ++ [(k, v)].
Proof.
  induction l as [|[k' v'] l IH]; simpl; [done|].
  case_bool_decide; [done|]. intros Hl. by rewrite IH.
Qed.

Lemma assoc_app_Some {V} (k : string) (v : V) (l l' : list (string * V)) :
  assoc k l = Some v -> assoc k (l ++ l') = Some v.
Proof.
  induction l as [|[k' v'] l IH]; simpl; [done|]. by case_bool_decide.
Qed.

Lemma assoc_set_same {V} (k : string) (v : V) (l : list (string * V)) :
  assoc k (assoc_set k v l) = Some v.
Proof.
  induction l as [|[k' v'] l IH]; simpl.
  - by rewrite bool_decide_eq_true_2.
  - case_bool_decide as E; simpl.
    + by rewrite bool_decide_eq_true_2.
    + by rewrite bool_decide_eq_false_2.
Qed.

(** The file name [name] carries no separator, so it is listed under
    its directory. *)
Lemma child_name_outputs (name : string) (c : ascii) (l : list ascii) :
  Py.chars name = c :: l ->
  Forall (fun x => Py.is_sep x = false) (c :: l) ->
  Py.join "outputs" name = "outputs/" +:+ name
  /\ child_name "outputs" (Py.join "outputs" name) = Some name.
Proof.
  intros Hn Hsep.
  assert (Hj : Py.join "outputs" name = "outputs/" +:+ name).
  { unfold Py.join, Py.startswith. case_bool_decide as Hp; [|reflexivity].
    rewrite Hn in Hp. destruct Hp as [k Hk]. simpl in Hk.
    injection Hk as Hk _. apply Forall_inv in Hsep.
    unfold Py.is_sep in Hsep. apply bool_decide_eq_false in Hsep. congruence. }
  split; [exact Hj|]. rewrite Hj. unfold child_name.
  change (Py.chars (Py.join (norm_path "outputs") "")) with (Py.chars "outputs/").
  rewrite chars_app, strip_prefix_app, Hn.
  rewrite (proj2 (forallb_forall _ _)).
  - by rewrite <- Hn, str_chars.
  - intros x Hx%list_elem_of_In. rewrite Forall_forall in Hsep.
    by rewrite (Hsep x Hx).
Qed.

Lemma fs_children_elem (d key name : string) (nd : node) (f : list (string * node)) :
  (key, nd) ∈ f -> child_name d key = Some name -> name ∈ fs_children d f.
Proof.
  intros Hk Hc. unfold fs_children. apply list_elem_of_omap.
  by exists (key, nd).
Qed.

Lemma fs_children_app_dir (f : list (string * node)) :
  fs_children "outputs" (f ++ [("outputs", Dir)]) = fs_children "outputs" f.
Proof. unfold fs_children. rewrite omap_app. simpl. apply app_nil_r. Qed.

Lemma format_05d_chars (n : Z) :
  Forall (fun x => Py.is_sep x = false) (Py.chars (Py.format_05d n))
  /\ exists c l, rev (Py.chars (Py.format_05d n)) = c :: l /\ is_digit c = true.
Proof.
  unfold Py.format_05d. set (k := (5 - _)%nat). clearbody k.
  rewrite !chars_app. split.
  - repeat (apply Forall_app; split).
    + destruct (sign_cases n) as [[_ ->]|[_ ->]]; repeat constructor.
    + eapply Forall_impl; [apply zeros_chars|].
      intros c Hc. by destruct (digit_not_special c Hc) as (_ & ? & _).
    + eapply Forall_impl; [apply digits_chars|].
      intros c Hc. by destruct (digit_not_special c Hc) as (_ & ? & _).
  - rewrite !rev_app_distr.
    pose proof (digits_chars n) as Hd. apply Forall_rev in Hd.
    destruct (rev (Py.chars (Py.digits n))) as [|c l] eqn:E.
    + exfalso. apply (digits_nonempty n), chars_inj.
      by rewrite <- (rev_involutive (Py.chars (Py.digits n))), E.
    + exists c. eexists. split; [reflexivity|]. exact (Forall_inv Hd).
Qed.

Section NextFilename.
Context {R S : Type}.


End NextFilename.

Lemma strip_prefix_Some (pre l r : list ascii) :
  strip_prefix pre l = Some r -> l = pre ++ r.
Proof.
  revert l. induction pre as [|c pre IH]; intros [|c' l]; simpl; try congruence.
  case_bool_decide; [|done]. intros Hr. subst. f_equal. by apply IH.
Qed.

Lemma child_name_inv (d key name : string) :
  child_name d key = Some name ->
  key = Py.join (norm_path d) "" +:+ name
  /\ exists c l, Py.chars name = c :: l /\ Forall (fun x => Py.is_sep x = false) (c :: l).
Proof.
  unfold child_name.
  destruct (strip_prefix _ _) as [[|c l]|] eqn:E; try done.
  destruct (forallb _ _) eqn:F; [|done]. intros Hn.
  assert (Hname : Py.chars name = c :: l).
  { injection Hn as <-. apply (chars_str (c :: l)). }
  clear Hn. apply strip_prefix_Some in E. split.
  - apply chars_inj. by rewrite chars_app, Hname.
  - exists c, l. split; [done|].
    apply Forall_forall. intros x Hx%list_elem_of_In.
    rewrite forallb_forall in F. specialize (F x Hx). by destruct (Py.is_sep x).
Qed.

Lemma last_not_sep (pre l : list ascii) :
  l <> [] -> Forall (fun x => Py.is_sep x = false) l ->
  exists c l', rev (pre ++ l) = c :: l' /\ Py.is_sep c = false.
Proof.
  intros Hne Hl. rewrite rev_app_distr. apply Forall_rev in Hl.
  destruct (rev l) as [|c l'] eqn:E.
  - exfalso. apply Hne. by rewrite <- (rev_involutive l), E.
  - exists c. eexists. split; [reflexivity|]. exact (Forall_inv Hl).
Qed.

Lemma norm_path_id (p : string) (c : ascii) (l : list ascii) :
  rev (Py.chars p) = c :: l -> Py.is_sep c = false -> norm_path p = p.
Proof.
  intros Hr Hs. unfold norm_path. rewrite Hr. cbn [Py.lstrip_with]. rewrite Hs.
  rewrite <- Hr, rev_involutive.
  destruct (Py.chars p) as [|a q] eqn:E; [discriminate Hr|].
  rewrite <- E. apply str_chars.
Qed.

Lemma assoc_None_elem {V} (k : string) (v : V) (l : list (string * V)) :
  assoc k l = None -> (k, v) ∉ l.
Proof.
  induction l as [|[k' v'] l IH]; simpl; [intros _ H; by apply elem_of_nil in H|].
  case_bool_decide as E; [done|]. intros Hl [[= -> ->]|H]%elem_of_cons; [done|].
  by apply IH.
Qed.


(** ** Binary64 arithmetic stays finite on the sizes at hand *)

Lemma digits2_pos_size (p : positive) : digits2_pos p = Pos.size p.
Proof. induction p; simpl; congruence. Qed.

Lemma Zdigits2_log2 (p : positive) : Zdigits2 (Zpos p) = Z.log2 (Zpos p) + 1.
Proof.
  unfold Zdigits2. rewrite digits2_pos_size.
  destruct p; simpl; lia.
Qed.

Lemma Zdigits2_bounds (m : Z) :
  0 < m -> 2 ^ (Zdigits2 m - 1) <= m < 2 ^ Zdigits2 m.
Proof.
  intros Hm. destruct m as [|p|p]; try lia.
  rewrite Zdigits2_log2. replace (Z.log2 (Z.pos p) + 1 - 1) with (Z.log2 (Z.pos p)) by lia.
  pose proof (Z.log2_spec (Z.pos p) Hm). lia.
Qed.

Lemma Zdigits2_unique (m d : Z) :
  2 ^ (d - 1) <= m < 2 ^ d -> 0 < d -> Zdigits2 m = d.
Proof.
  intros Hm Hd. assert (0 < m) by (pose proof (Z.pow_pos_nonneg 2 (d - 1)); lia).
  destruct m as [|p|p]; try lia.
  rewrite Zdigits2_log2. rewrite (Z.log2_unique (Z.pos p) (d - 1)); [lia|lia|].
  replace (Z.succ (d - 1)) with d by lia. exact Hm.
Qed.

Lemma pow2_xO (p : positive) : 2 ^ Z.pos p~0 = 2 ^ Z.pos p * 2 ^ Z.pos p.
Proof. rewrite <- Z.pow_add_r by lia. f_equal. lia. Qed.

Lemma pow2_xI (p : positive) : 2 ^ Z.pos p~1 = 2 * (2 ^ Z.pos p * 2 ^ Z.pos p).
Proof.
  rewrite <- Z.pow_add_r by lia. rewrite <- Z.pow_succ_r by lia. f_equal. lia.
Qed.

Lemma shr_1_m (r : shr_record) :
  0 <= shr_m r -> shr_m (shr_1 r) = shr_m r / 2.
Proof.
  destruct r as [m b s]. simpl. intros Hm. rewrite <- Z.div2_div.
  destruct m as [|[p|p|]|p]; try reflexivity; lia.
Qed.

Lemma iter_shr_m (p : positive) (r : shr_record) :
  0 <= shr_m r -> shr_m (SpecFloat.iter_pos shr_1 p r) = shr_m r / 2 ^ Zpos p.
Proof.
  revert r. induction p as [p IH|p IH|]; intros r Hr; simpl SpecFloat.iter_pos.
  - assert (H1 : 0 <= shr_m (shr_1 r)) by (rewrite shr_1_m by done; apply Z.div_pos; lia).
    assert (H2 : 0 <= shr_m (SpecFloat.iter_pos shr_1 p (shr_1 r)))
      by (rewrite IH by done; apply Z.div_pos; lia).
    rewrite IH, IH, shr_1_m by done.
    rewrite !Z.div_div by lia. f_equal.
    symmetry. apply pow2_xI.
  - assert (H2 : 0 <= shr_m (SpecFloat.iter_pos shr_1 p r))
      by (rewrite IH by done; apply Z.div_pos; lia).
    rewrite IH, IH by done. rewrite Z.div_div by lia. f_equal.
    symmetry. apply pow2_xO.
  - rewrite shr_1_m by done. reflexivity.
Qed.

Lemma shr_record_of_loc_m (m : Z) (l : location) : shr_m (shr_record_of_loc m l) = m.
Proof. by destruct l as [|[]]. Qed.

(** Shifting to precision 53: the mantissa and exponent after [shr_fexp]. *)
Lemma shr_fexp_m (m e : Z) (l : location) :
  0 < m -> - 1074 <= Zdigits2 m + e - 53 ->
  let k := Z.max 0 (Zdigits2 m - 53) in
  exists r, shr_fexp F64.prec F64.emax m e l = (r, e + k) /\ shr_m r = m / 2 ^ k.
Proof.
  intros Hm He k. unfold shr_fexp, shr, fexp, emin, F64.prec, F64.emax.
  replace (Z.max (Zdigits2 m + e - 53) (3 - 1024 - 53) - e) with (Zdigits2 m - 53) by lia.
  subst k. destruct (Zdigits2 m - 53) as [|p|p] eqn:E.
  - change (Z.max 0 0) with 0. rewrite Z.add_0_r. eexists. split; [reflexivity|].
    rewrite shr_record_of_loc_m. change (2 ^ 0) with 1. by rewrite Z.div_1_r.
  - change (Z.max 0 (Z.pos p)) with (Z.pos p). eexists. split; [reflexivity|].
    rewrite iter_shr_m by (rewrite shr_record_of_loc_m; lia).
    by rewrite shr_record_of_loc_m.
  - change (Z.max 0 (Z.neg p)) with 0. rewrite Z.add_0_r. eexists. split; [reflexivity|].
    rewrite shr_record_of_loc_m. change (2 ^ 0) with 1. by rewrite Z.div_1_r.
Qed.

Lemma round_nearest_even_cases (m : Z) (l : location) :
  round_nearest_even m l = m \/ round_nearest_even m l = m + 1.
Proof. destruct l as [|[]]; simpl; auto. destruct (Z.even m); auto. Qed.

(** A mantissa of at least 53 bits, in the normal exponent range, rounds
    to a normal finite number. *)
Lemma binary_round_aux_finite (sx : bool) (mx ex : Z) (lx : location) :
  0 < mx -> 53 <= Zdigits2 mx ->
  - 1074 <= Zdigits2 mx + ex - 53 -> Zdigits2 mx + ex <= 1000 ->
  exists m e,
    binary_round_aux F64.prec F64.emax sx mx ex lx = S754_finite sx m e
    /\ Zdigits2 (Zpos m) = 53
    /\ ex + (Zdigits2 mx - 53) <= e <= ex + (Zdigits2 mx - 53) + 1.
Proof.
  intros Hm Hd Hlo Hhi. unfold binary_round_aux.
  destruct (shr_fexp_m mx ex lx Hm Hlo) as (r1 & -> & Hr1).
  replace (Z.max 0 (Zdigits2 mx - 53)) with (Zdigits2 mx - 53) in * by lia.
  set (k := Zdigits2 mx - 53) in *.
  pose proof (Zdigits2_bounds mx Hm) as [Hb1 Hb2].
  assert (Hk : 0 < 2 ^ k) by (apply Z.pow_pos_nonneg; lia).
  assert (Hm1 : 2 ^ 52 <= shr_m r1 < 2 ^ 53).
  { rewrite Hr1. split.
    - apply Z.div_le_lower_bound; [lia|].
      rewrite <- Z.pow_add_r by lia. replace (k + 52) with (Zdigits2 mx - 1) by lia. lia.
    - apply Z.div_lt_upper_bound; [lia|].
      rewrite <- Z.pow_add_r by lia. replace (k + 53) with (Zdigits2 mx) by lia. lia. }
  set (m' := round_nearest_even (shr_m r1) (loc_of_shr_record r1)).
  assert (Hm' : 2 ^ 52 <= m' <= 2 ^ 53).
  { subst m'. destruct (round_nearest_even_cases (shr_m r1) (loc_of_shr_record r1)) as [-> | ->]; lia. }
  assert (Hd' : Zdigits2 m' = 53 \/ (m' = 2 ^ 53 /\ Zdigits2 m' = 54)).
  { destruct (Z.eq_dec m' (2 ^ 53)) as [E|E].
    - right. split; [done|]. apply Zdigits2_unique; [|lia]. rewrite E. split; [|reflexivity..].
      change (54 - 1) with 53. lia.
    - left. apply Zdigits2_unique; lia. }
  assert (Hpos : 0 < m') by lia.
  destruct (shr_fexp_m m' (ex + k) loc_Exact Hpos) as (r2 & -> & Hr2); [lia|].
  destruct Hd' as [Hd53 | [E Hd54]].
  - rewrite Hd53 in *. change (Z.max 0 (53 - 53)) with 0 in *.
    change (2 ^ 0) with 1 in Hr2. rewrite Z.div_1_r in Hr2. rewrite Hr2.
    destruct m' as [|p|p]; try lia.
    unfold F64.emax, F64.prec. rewrite (proj2 (Z.leb_le _ _)) by lia.
    exists p, (ex + k + 0). repeat split; try lia; done.
  - rewrite Hd54 in *. change (Z.max 0 (54 - 53)) with 1 in *.
    rewrite E in Hr2. change (2 ^ 53 / 2 ^ 1) with (2 ^ 52) in Hr2. rewrite Hr2.
    change (2 ^ 52) with (Z.pos (2 ^ 52)%positive).
    unfold F64.emax, F64.prec. rewrite (proj2 (Z.leb_le _ _)) by lia.
    exists (2 ^ 52)%positive, (ex + k + 1). repeat split; try lia; reflexivity.
Qed.

Lemma Zdigits2_pos (p : positive) : 0 < Zdigits2 (Zpos p).
Proof. rewrite Zdigits2_log2. pose proof (Z.log2_nonneg (Zpos p)). lia. Qed.

(** Dividing two finite numbers whose quotient is in the normal range. *)
Lemma SFdiv_finite (s1 s2 : bool) (m1 m2 : positive) (e1 e2 : Z) :
  let d := Zdigits2 (Zpos m1) + e1 - (Zdigits2 (Zpos m2) + e2) in
  Zdigits2 (Zpos m1) <= Zdigits2 (Zpos m2) + 52 ->
  - 1074 <= d - 53 -> d <= 900 ->
  exists m e,
    SFdiv F64.prec F64.emax (S754_finite s1 m1 e1) (S754_finite s2 m2 e2)
    = S754_finite (xorb s1 s2) m e
    /\ Zdigits2 (Zpos m) = 53 /\ d - 53 <= e <= d - 51.
Proof.
  intros d Hd Hlo Hhi. unfold SFdiv, SFdiv_core_binary.
  set (d1 := Zdigits2 (Zpos m1)) in *. set (d2 := Zdigits2 (Zpos m2)) in *.
  pose proof (Zdigits2_pos m1) as Hd1. pose proof (Zdigits2_pos m2) as Hd2.
  fold d1 in Hd1. fold d2 in Hd2.
  assert (He' : Z.min (fexp F64.prec F64.emax (d1 + e1 - (d2 + e2))) (e1 - e2) = d - 53).
  { unfold fexp, emin, F64.prec, F64.emax. subst d. lia. }
  rewrite He'.
  replace (e1 - e2 - (d - 53)) with (53 + d2 - d1) by (subst d; lia).
  destruct (53 + d2 - d1) as [|s|s] eqn:Es; try lia.
  rewrite Z.shiftl_mul_pow2 by lia.
  pose proof (Zdigits2_bounds (Zpos m1) eq_refl) as [Ha1 Ha2].
  pose proof (Zdigits2_bounds (Zpos m2) eq_refl) as [Hb1 Hb2].
  fold d1 in Ha1, Ha2. fold d2 in Hb1, Hb2.
  set (m' := Z.pos m1 * 2 ^ Z.pos s).
  assert (Hs : 0 < 2 ^ Z.pos s) by (apply Z.pow_pos_nonneg; lia).
  assert (Hm'1 : 2 ^ (52 + d2) <= m').
  { subst m'. replace (52 + d2) with ((d1 - 1) + Z.pos s) by lia.
    rewrite Z.pow_add_r by lia. apply Z.mul_le_mono_nonneg_r; lia. }
  assert (Hm'2 : m' < 2 ^ (53 + d2)).
  { subst m'. replace (53 + d2) with (d1 + Z.pos s) by lia.
    rewrite Z.pow_add_r by lia. apply Z.mul_lt_mono_pos_r; lia. }
  pose proof (Z.div_eucl_eq m' (Zpos m2) ltac:(lia)) as Hq.
  pose proof (Z.mod_pos_bound m' (Zpos m2) ltac:(lia)) as Hr.
  unfold Z.modulo in Hr. destruct (Z.div_eucl m' (Z.pos m2)) as [q r].
  assert (Hq1 : 2 ^ 52 <= q).
  { assert (2 ^ 52 * Zpos m2 < (q + 1) * Zpos m2); [|nia].
    rewrite Z.pow_add_r in Hm'1 by lia.
    assert (2 ^ 52 * Z.pos m2 < 2 ^ 52 * 2 ^ d2) by (apply Z.mul_lt_mono_pos_l; lia).
    lia. }
  assert (Hq2 : q < 2 ^ 54).
  { assert (q * Zpos m2 < 2 ^ 54 * Zpos m2); [|nia].
    replace (53 + d2) with (54 + (d2 - 1)) in Hm'2 by lia.
    rewrite Z.pow_add_r in Hm'2 by lia.
    assert (2 ^ 54 * 2 ^ (d2 - 1) <= 2 ^ 54 * Z.pos m2) by (apply Z.mul_le_mono_nonneg_l; lia).
    lia. }
  assert (Hdq : Zdigits2 q = 53 \/ Zdigits2 q = 54).
  { destruct (Z_lt_le_dec q (2 ^ 53)); [left|right]; apply Zdigits2_unique; lia. }
  destruct (binary_round_aux_finite (xorb s1 s2) q (d - 53)
              (new_location (Z.pos m2) r)) as (m & e & -> & Hm & He); try lia.
  exists m, e. repeat split; try done; lia.
Qed.

Lemma exact_pos (a : Z) : 0 < a -> F64.exact a = S754_finite false (Z.to_pos a) 0.
Proof. destruct a; try lia. reflexivity. Qed.

(** [a / b] on positive ints below [2^53] is a normal finite number. *)
Lemma int_truediv_finite (a b : Z) :
  0 < a < 2 ^ 53 -> 0 < b < 2 ^ 53 ->
  exists m e, F64.int_truediv a b = Ok (S754_finite false m e)
    /\ Zdigits2 (Zpos m) = 53 /\ - 106 <= e <= 2.
Proof.
  intros Ha Hb. unfold F64.int_truediv.
  rewrite (proj2 (Z.eqb_neq b 0)) by lia.
  rewrite !exact_pos by lia.
  pose proof (Zdigits2_bounds a ltac:(lia)) as [Ha1 Ha2].
  pose proof (Zdigits2_bounds b ltac:(lia)) as [Hb1 Hb2].
  assert (Hda : 0 < Zdigits2 a <= 53).
  { destruct a as [|p|p]; try lia. split; [apply Zdigits2_pos|].
    destruct (Z_le_gt_dec (Zdigits2 (Z.pos p)) 53); [done|].
    assert (2 ^ 53 <= 2 ^ (Zdigits2 (Z.pos p) - 1)) by (apply Z.pow_le_mono_r; lia). lia. }
  assert (Hdb : 0 < Zdigits2 b <= 53).
  { destruct b as [|p|p]; try lia. split; [apply Zdigits2_pos|].
    destruct (Z_le_gt_dec (Zdigits2 (Z.pos p)) 53); [done|].
    assert (2 ^ 53 <= 2 ^ (Zdigits2 (Z.pos p) - 1)) by (apply Z.pow_le_mono_r; lia). lia. }
  destruct (SFdiv_finite false false (Z.to_pos a) (Z.to_pos b) 0 0)
    as (m & e & -> & Hm & He); rewrite ?Z2Pos.id by lia; try lia.
  exists m, e. rewrite Z2Pos.id in He by lia. rewrite Z2Pos.id in He by lia.
  repeat split; try done; lia.
Qed.

Lemma iter_xO (p d : positive) : Zpos (Pos.iter xO p d) = Zpos p * 2 ^ Zpos d.
Proof.
  revert p. induction d as [d IH|d IH|]; intros p; simpl Pos.iter.
  - rewrite Pos2Z.inj_xO, IH, IH, pow2_xI. lia.
  - rewrite IH, IH, pow2_xO. lia.
  - rewrite Pos2Z.inj_xO. change (2 ^ 1) with 2. lia.
Qed.

(** [float(n)] for a positive int below [2^53]. *)
Lemma of_int_finite (n : Z) :
  0 < n < 2 ^ 53 ->
  exists m e, F64.of_int n = Ok (S754_finite false m e)
    /\ Zdigits2 (Zpos m) = 53 /\ - 52 <= e <= 1.
Proof.
  intros Hn. unfold F64.of_int, F64.round_int, binary_normalize.
  destruct n as [|p|p]; try lia. unfold binary_round.
  pose proof (Zdigits2_bounds (Zpos p) eq_refl) as [H1 H2].
  pose proof (Zdigits2_pos p) as Hd0.
  assert (Hd : Zdigits2 (Z.pos p) <= 53).
  { destruct (Z_le_gt_dec (Zdigits2 (Z.pos p)) 53); [done|].
    assert (2 ^ 53 <= 2 ^ (Zdigits2 (Z.pos p) - 1)) by (apply Z.pow_le_mono_r; lia). lia. }
  change (Z.pos (digits2_pos p)) with (Zdigits2 (Z.pos p)).
  assert (Hf : fexp F64.prec F64.emax (Zdigits2 (Z.pos p) + 0) = Zdigits2 (Z.pos p) - 53).
  { unfold fexp, emin, F64.prec, F64.emax. lia. }
  rewrite Hf. unfold shl_align.
  destruct (Zdigits2 (Z.pos p) - 53 - 0) as [|d|d] eqn:E; try lia.
  - destruct (binary_round_aux_finite false (Z.pos p) 0 loc_Exact) as (m & e & -> & Hm & He);
      try lia.
    exists m, e. simpl. repeat split; try done; lia.
  - assert (Hz : Zdigits2 (Z.pos (Pos.iter xO p d)) = 53).
    { apply Zdigits2_unique; [|lia]. rewrite iter_xO.
      assert (Hp : 0 < 2 ^ Z.pos d) by (apply Z.pow_pos_nonneg; lia).
      replace 53 with (Zdigits2 (Z.pos p) + Z.pos d) at 2 by lia.
      replace (53 - 1) with (Zdigits2 (Z.pos p) - 1 + Z.pos d) by lia.
      rewrite !Z.pow_add_r by lia. split.
      + apply Z.mul_le_mono_nonneg_r; lia.
      + apply Z.mul_lt_mono_pos_r; lia. }
    destruct (binary_round_aux_finite false (Z.pos (Pos.iter xO p d))
                (Zdigits2 (Z.pos p) - 53) loc_Exact) as (m & e & -> & Hm & He); try lia.
    exists m, e. simpl. repeat split; try done; lia.
Qed.

(** The product of two normal finite numbers of moderate exponent. *)
Lemma mul_finite (s1 s2 : bool) (m1 m2 : positive) (e1 e2 : Z) :
  Zdigits2 (Zpos m1) = 53 -> Zdigits2 (Zpos m2) = 53 ->
  - 500 <= e1 + e2 <= 500 ->
  exists m e, F64.mul (S754_finite s1 m1 e1) (S754_finite s2 m2 e2)
              = S754_finite (xorb s1 s2) m e.
Proof.
  intros H1 H2 He. unfold F64.mul, SFmul.
  pose proof (Zdigits2_bounds (Zpos m1) eq_refl) as [Ha1 Ha2].
  pose proof (Zdigits2_bounds (Zpos m2) eq_refl) as [Hb1 Hb2].
  rewrite H1 in *. rewrite H2 in *. change (53 - 1) with 52 in *.
  rewrite Pos2Z.inj_mul.
  assert (Hp1 : 2 ^ 104 <= Z.pos m1 * Z.pos m2).
  { change (2 ^ 104) with (2 ^ 52 * 2 ^ 52). apply Z.mul_le_mono_nonneg; lia. }
  assert (Hp2 : Z.pos m1 * Z.pos m2 < 2 ^ 106).
  { change (2 ^ 106) with (2 ^ 53 * 2 ^ 53). apply Z.mul_lt_mono_nonneg; lia. }
  assert (Hd : Zdigits2 (Z.pos m1 * Z.pos m2) = 105 \/ Zdigits2 (Z.pos m1 * Z.pos m2) = 106).
  { destruct (Z_lt_le_dec (Z.pos m1 * Z.pos m2) (2 ^ 105)); [left|right];
      apply Zdigits2_unique; lia. }
  destruct (binary_round_aux_finite (xorb s1 s2) (Z.pos m1 * Z.pos m2) (e1 + e2) loc_Exact)
    as (m & e & -> & _); try lia.
  by exists m, e.
Qed.

Lemma to_int_finite (m : positive) (e : Z) :
  exists n, F64.to_int (S754_finite false m e) = Ok n /\ 0 <= n.
Proof.
  unfold F64.to_int. eexists. split; [reflexivity|].
  destruct (0 <=? e) eqn:E.
  - apply Z.leb_le in E. apply Z.mul_nonneg_nonneg; [lia|]. by apply Z.pow_nonneg.
  - apply Z.div_pos; [lia|]. apply Z.pow_pos_nonneg; [lia|]. apply Z.leb_gt in E. lia.
Qed.

Lemma centered (total part : Z) :
  let lo := (total - part) / 2 in
  0 <= (total - (lo + part)) - lo <= 1.
Proof.
  intros lo. subst lo.
  pose proof (Z.div_mod (total - part) 2 ltac:(lia)).
  pose proof (Z.mod_pos_bound (total - part) 2 ltac:(lia)). lia.
Qed.

(** C1.  For a picture and a target of positive sizes (below [2^31], as
    PIL holds them), [auto_crop_image] first crops centrally and then
    resizes: when the aspect ratio [w / h] exceeds
    [target_width / target_height] (both computed as the code does, as
    binary64 quotients) it keeps the full height and a band of columns
    whose left and right margins differ by at most one; when it is
    below, it keeps the full width and a band of rows whose top and
    bottom margins differ by at most one; otherwise the picture is left
    as it is.  The result always has size
    [(target_width, target_height)]. *)
Theorem auto_crop_image_exact (image : Image) (w h target_width target_height : Z) :
  size image = (w, h) ->
  0 < w < 2 ^ 31 -> 0 < h < 2 ^ 31 ->
  0 < target_width < 2 ^ 31 -> 0 < target_height < 2 ^ 31 ->
  center_cropped_and_resized image w h target_width target_height.
Proof.
  intros Hsize Hw Hh Htw Hth. unfold center_cropped_and_resized.
  assert (H31 : 2 ^ 31 < 2 ^ 53) by reflexivity.
  destruct (int_truediv_finite target_width target_height) as (mt & et & Ht & Hmt & Het);
    [lia..|].
  destruct (int_truediv_finite w h) as (mc & ec & Hc & Hmc & Hec); [lia..|].
  unfold auto_crop_image. rewrite Hsize, Ht, Hc. cbn [mbind exc_bind].
  assert (Hresize : forall i, resize (target_width, target_height) i
                              = Ok (Resize target_width target_height i)).
  { intros i. unfold resize.
    rewrite (proj2 (Z.ltb_ge target_width 1)), (proj2 (Z.ltb_ge target_height 1)) by lia.
    reflexivity. }
  exists (S754_finite false mt et), (S754_finite false mc ec).
  destruct (F64.ltb (S754_finite false mt et) (S754_finite false mc ec)) eqn:Hwide.
  - destruct (of_int_finite h) as (mh & eh & Hof & Hmh & Heh); [lia|].
    rewrite Hof. cbn [mbind exc_bind].
    destruct (mul_finite false false mh mt eh et Hmh Hmt) as (mp & ep & Hmul); [lia|].
    rewrite Hmul. cbn [xorb] in *.
    destruct (to_int_finite mp ep) as (new_width & Hto & Hnw).
    rewrite Hto. cbn [mbind exc_bind xorb].
    unfold crop.
    rewrite (proj2 (Z.ltb_ge _ _)) by lia.
    rewrite (proj2 (Z.ltb_ge h 0)) by lia.
    cbn [orb mbind exc_bind]. rewrite Hresize.
    eexists. repeat split; [done..|]. left. split; [done|].
    exists (S754_finite false mh eh), new_width, ((w - new_width) / 2).
    split; [done|]. split; [by rewrite Hmul|].
    split; [reflexivity|]. split; [exact Hnw|]. apply centered.
  - destruct (F64.ltb (S754_finite false mc ec) (S754_finite false mt et)) eqn:Htall.
    + destruct (of_int_finite w) as (mw & ew & Hof & Hmw & Hew); [lia|].
      rewrite Hof. cbn [mbind exc_bind].
      unfold F64.div. cbn [F64.is_zero mbind exc_bind].
      destruct (SFdiv_finite false false mw mt ew et) as (mq & eq & Hdiv & _);
        rewrite ?Hmw, ?Hmt; try lia.
      rewrite Hdiv. cbn [xorb] in *.
      destruct (to_int_finite mq eq) as (new_height & Hto & Hnh).
      rewrite Hto. cbn [mbind exc_bind xorb].
      unfold crop.
      rewrite (proj2 (Z.ltb_ge w 0)) by lia.
      rewrite (proj2 (Z.ltb_ge _ _)) by lia.
      cbn [orb mbind exc_bind]. rewrite Hresize.
      eexists. repeat split; [done..|]. right. left. split; [done|]. split; [done|].
      exists (S754_finite false mw ew), (S754_finite false mq eq), new_height,
        ((h - new_height) / 2).
      split; [done|]. split; [by rewrite Hdiv|]. split; [done|].
      split; [reflexivity|]. split; [exact Hnh|]. apply centered.
    + cbn [mbind exc_bind]. rewrite Hresize.
      eexists. repeat split; [done..|]. right. right. done.
Qed.

Lemma auto_crop_image_exact_witness :
  center_cropped_and_resized (Picture "cat" 1920 1080) 1920 1080 832 480.
Proof. apply auto_crop_image_exact; [reflexivity|lia..]. Defined.

(** ** The resource tables *)

Lemma dict_get_default {V} (d : dict V) (k : string) (default : V) :
  k ∉ keys d -> dict_get d k default = default.
Proof.
  induction d as [|[k' v] d IH]; intros Hk; [reflexivity|].
  cbn in *. case_bool_decide as Hkk.
  - exfalso. apply Hk. subst. left.
  - apply IH. intros Hin. apply Hk. by right.
Qed.

Lemma update_vram_and_resolution_prints {R S} (model_choice preset : string) (w : world) :
  snd (@update_vram_and_resolution R S model_choice preset w)
  = set_io (fun d => with_stdout (stdout d ++ [model_choice]) d) w.
Proof.
  unfold update_vram_and_resolution, print. mstep.
  repeat case_bool_decide; reflexivity.
Qed.

(** C7. The tables of [update_vram_and_resolution] are a fixed dispatch:
    for each of the four model choices it answers, preset by preset from
    4GB to 80GB, the numeric strings of that model's table, with the
    aspect-ratio keys of [ASPECT_RATIOS_1_3b] for the 1.3B and the 14B
    480P image models and of [ASPECT_RATIOS_14b] for the two others, and
    the default aspect 16:9; a preset outside the ten gets 12000000000
    whatever the model. *)
Theorem update_vram_and_resolution_table (w : world) :
  vram_column MODEL_1_3B VRAM_PRESETS w
  = answers ["0"; "500000000"; "1000000000"; "7000000000"; "7000000000";
             "7000000000"; "7000000000"; "7000000000"; "12000000000"; "12000000000"]
      ["1:1"; "4:3"; "3:4"; "3:2"; "2:3"; "16:9"; "9:16"; "21:9"; "9:21"; "4:5"; "5:4"]
  /\ vram_column MODEL_14B_TEXT VRAM_PRESETS w
  = answers ["0"; "0"; "0"; "0"; "0"; "0"; "3000000000"; "6500000000";
             "22000000000"; "70000000000"]
      ["1:1"; "4:3"; "3:4"; "3:2"; "2:3"; "16:9"; "16:9_low"; "9:16"; "9:16_low";
       "21:9"; "9:21"; "4:5"; "5:4"]
  /\ vram_column MODEL_14B_IMAGE_720P VRAM_PRESETS w
  = answers ["0"; "0"; "0"; "0"; "0"; "0"; "0"; "3500000000";
             "12000000000"; "70000000000"]
      ["1:1"; "4:3"; "3:4"; "3:2"; "2:3"; "16:9"; "16:9_low"; "9:16"; "9:16_low";
       "21:9"; "9:21"; "4:5"; "5:4"]
  /\ vram_column MODEL_14B_IMAGE_480P VRAM_PRESETS w
  = answers ["0"; "0"; "0"; "0"; "0"; "1200000000"; "5000000000"; "9500000000";
             "20000000000"; "70000000000"]
      ["1:1"; "4:3"; "3:4"; "3:2"; "2:3"; "16:9"; "9:16"; "21:9"; "9:21"; "4:5"; "5:4"]
  /\ keys ASPECT_RATIOS_1_3b
     = ["1:1"; "4:3"; "3:4"; "3:2"; "2:3"; "16:9"; "9:16"; "21:9"; "9:21"; "4:5"; "5:4"]
  /\ keys ASPECT_RATIOS_14b
     = ["1:1"; "4:3"; "3:4"; "3:2"; "2:3"; "16:9"; "16:9_low"; "9:16"; "9:16_low";
        "21:9"; "9:21"; "4:5"; "5:4"]
  /\ forall model_choice preset,
       preset ∉ VRAM_PRESETS ->
       exists choices,
         fst (@update_vram_and_resolution unit unit model_choice preset w)
         = Normal ("12000000000", choices, "16:9").
Proof.
  repeat split; try reflexivity.
  intros model_choice preset Hp.
  unfold update_vram_and_resolution, print. munfold.
  repeat case_bool_decide; eexists; cbv beta iota delta [fst];
    rewrite dict_get_default; try reflexivity; exact Hp.
Qed.

(** ** Seed selection *)

Lemma lstrip_with_nil (sp : ascii -> bool) (l : list ascii) :
  Py.lstrip_with sp l = [] -> Forall (fun c => sp c = true) l.
Proof.
  induction l as [|c l IH]; cbn; [constructor|].
  destruct (sp c) eqn:E; [|discriminate].
  intros H. constructor; auto.
Qed.



Lemma strip_with_nil (sp : ascii -> bool) (l : list ascii) :
  Py.strip_with sp l = [] -> Forall (fun c => sp c = true) l.
Proof.
  unfold Py.strip_with. intros H.
  apply (f_equal (@rev ascii)) in H. rewrite rev_involutive in H. cbn in H.
  apply lstrip_with_nil in H. apply Forall_rev in H. rewrite rev_involutive in H.
  induction l as [|c l IH]; [constructor|].
  cbn in H. destruct (sp c) eqn:E.
  - constructor; auto.
  - inversion H as [|? ? Hc]. congruence.
Qed.



Lemma select_seed_run {R S} (use_random_seed : bool) (seed_input : string) (w : world) :
  exists seed w',
    @select_seed R S use_random_seed seed_input w = (Normal seed, w')
    /\ seed_ok use_random_seed seed_input seed
    /\ py w' = py w /\ io w' = io w
    /\ (use_random_seed = false -> w' = w).
Proof.
  unfold select_seed, seed_ok, seed_of_input, seed_in_range.
  destruct use_random_seed.
  - unfold random_randint. mstep.
    destruct (random_source (env w)) as [|r rest]; mstep.
    + eexists _, _. split; [reflexivity|]. repeat split; try done; lia.
    + eexists _, _. split; [reflexivity|].
      assert (0 <= r `mod` (2 ^ 32 - 1 - 0 + 1) < 2 ^ 32 - 1 - 0 + 1)
        by (apply Z.mod_pos_bound; lia).
      repeat split; try done; lia.
  - unfold try_except. case_bool_decide as Hs.
    + destruct (Py.int seed_input) as [n|]; mstep;
        eexists _, _; (split; [reflexivity|]); repeat split; done.
    + mstep. eexists _, _. split; [reflexivity|]. repeat split; done.
Qed.

(** ** Reasoning about statements *)

Lemma evolves_refl (w : world) : evolves [] w w.
Proof. split; auto. by rewrite app_nil_r. Qed.

Lemma evolves_trans (t1 t2 : list event) (w0 w1 w2 : world) :
  evolves t1 w0 w1 -> evolves t2 w1 w2 -> evolves (t1 ++ t2) w0 w2.
Proof.
  intros [H1 H2 H3 H4 H5 H6] [K1 K2 K3 K4 K5 K6]. split; auto.
  - by rewrite K1, H1, app_assoc.
  - congruence.
  - congruence.
Qed.

Lemma evolves_io (f : devices -> devices) (t : list event) (w : world) :
  fs (f (io w)) = fs (io w) -> trace (f (io w)) = trace (io w) ++ t ->
  evolves t w (set_io f w).
Proof. intros Hf Ht. split; cbn; auto. intros p. by rewrite Hf. Qed.

Lemma evolves_env (f : environment -> environment) (w : world) :
  evolves [] w (set_env f w).
Proof. split; cbn; auto. by rewrite app_nil_r. Qed.

Lemma assoc_set_is_Some {V} (k k' : string) (v : V) (l : list (string * V)) :
  is_Some (assoc k l) -> is_Some (assoc k (assoc_set k' v l)).
Proof.
  induction l as [|[k0 v0] l IH]; cbn; [by intros [? [=]]|].
  repeat case_bool_decide; cbn; repeat case_bool_decide; subst; try done; eauto.
Qed.

Lemma evolves_write (p : string) (n : node) (w : world) :
  evolves [] w (set_io (fun d => with_fs (fs_write p n (fs d)) d) w).
Proof.
  split; cbn; auto; [by rewrite app_nil_r|].
  intros q. unfold fs_lookup, fs_write. apply assoc_set_is_Some.
Qed.

Section Rules.
Context {R S : Type}.
Implicit Types w : world.

Lemma wp_ret {A} (a : A) (Q : ctl R S A -> world -> Prop) w :
  Q (Normal a) w -> wp (mret a) Q w.
Proof. done. Qed.

Lemma wp_bind {A B} (m : M R S A) (f : A -> M R S B) (Q : ctl R S B -> world -> Prop) w :
  wp m (after (fun a => wp (f a) Q) Q) w -> wp (m ≫= f) Q w.
Proof. unfold wp, after. munfold. by destruct (m w) as [[] w']. Qed.

Lemma wp_mono {A} (m : M R S A) (Q Q' : ctl R S A -> world -> Prop) w :
  wp m Q w -> (forall c w', Q c w' -> Q' c w') -> wp m Q' w.
Proof. unfold wp. auto. Qed.

Lemma wp_run {A} (m : M R S A) (Q : ctl R S A -> world -> Prop) w c w' :
  wp m Q w -> m w = (c, w') -> Q c w'.
Proof. unfold wp. intros H E. by rewrite E in H. Qed.

Lemma wp_get_world (Q : ctl R S world -> world -> Prop) w :
  Q (Normal w) w -> wp get_world Q w.
Proof. done. Qed.

Lemma wp_modify (f : world -> world) (Q : ctl R S unit -> world -> Prop) w :
  Q (Normal tt) (f w) -> wp (modify f) Q w.
Proof. done. Qed.

Lemma wp_return {A} (r : R) (Q : ctl R S A -> world -> Prop) w :
  Q (Returns r) w -> wp (return_ r) Q w.
Proof. done. Qed.

Lemma wp_break {A} (s : S) (Q : ctl R S A -> world -> Prop) w :
  Q (Breaks s) w -> wp (break_ s) Q w.
Proof. done. Qed.

Lemma wp_continue {A} (s : S) (Q : ctl R S A -> world -> Prop) w :
  Q (Continues s) w -> wp (continue_ s) Q w.
Proof. done. Qed.

Lemma wp_raise {A} (e : exn) (Q : ctl R S A -> world -> Prop) w :
  Q (Raises e) w -> wp (raise e) Q w.
Proof. done. Qed.

Lemma wp_lift {A} (x : exc A) (Q : ctl R S A -> world -> Prop) w :
  match x with Ok a => Q (Normal a) w | Err e => Q (Raises e) w end ->
  wp (lift x) Q w.
Proof. by destruct x. Qed.

Lemma wp_call {A} (m : M A Empty_set A) (Q : ctl R S A -> world -> Prop) w :
  wp m (fun c w' => match c with
                    | Normal a | Returns a => Q (Normal a) w'
                    | Raises e => Q (Raises e) w'
                    | Breaks s | Continues s => True
                    end) w ->
  wp (call m) Q w.
Proof. unfold wp, call. by destruct (m w) as [[| |[]|[]|] w']. Qed.

Lemma wp_try_except {A} (m : M R S A) (handler : exn -> M R S A)
    (Q : ctl R S A -> world -> Prop) w :
  wp m (fun c w' => match c with
                    | Raises e => wp (handler e) Q w'
                    | _ => Q c w'
                    end) w ->
  wp (try_except m handler) Q w.
Proof. unfold wp, try_except. by destruct (m w) as [[] w']. Qed.

Lemma wp_for_each_nil {S' A} (body : A -> S' -> M R S' S') (s : S')
    (Q : ctl R S S' -> world -> Prop) w :
  Q (Normal s) w -> wp (for_each [] body s) Q w.
Proof. done. Qed.

Lemma wp_for_each_cons {S' A} (x : A) (l : list A) (body : A -> S' -> M R S' S')
    (s : S') (Q : ctl R S S' -> world -> Prop) w :
  wp (body x s) (after_iteration (fun s' => wp (for_each l body s') Q) Q) w ->
  wp (for_each (x :: l) body s) Q w.
Proof. unfold wp, after_iteration. cbn. by destruct (body x s w) as [[] w']. Qed.

(** *** The devices *)

Lemma wp_print (s : string) (Q : ctl R S unit -> world -> Prop) w :
  (forall w', evolves [] w w' -> stdout (io w') = stdout (io w) ++ [s] ->
              Q (Normal tt) w') ->
  wp (print s) Q w.
Proof. intros H. apply H; [|done]. apply evolves_io; cbn; [done|by rewrite app_nil_r]. Qed.

Lemma wp_emit (e : event) (Q : ctl R S unit -> world -> Prop) w :
  (forall w', evolves [e] w w' -> stdout (io w') = stdout (io w) -> Q (Normal tt) w') ->
  wp (emit e) Q w.
Proof. intros H. apply H; [|done]. by apply evolves_io. Qed.

Lemma wp_os_path_exists (p : string) (Q : ctl R S bool -> world -> Prop) w :
  Q (Normal (bool_decide (is_Some (fs_lookup p (fs (io w)))))) w ->
  wp (os_path_exists p) Q w.
Proof. done. Qed.

Lemma wp_os_path_isdir (p : string) (Q : ctl R S bool -> world -> Prop) w :
  Q (Normal (match fs_lookup p (fs (io w)) with Some Dir => true | _ => false end)) w ->
  wp (os_path_isdir p) Q w.
Proof. done. Qed.

Lemma wp_os_makedirs (p : string) (Q : ctl R S unit -> world -> Prop) w :
  Q (Raises OSError) w ->
  (forall w', evolves [] w w' -> stdout (io w') = stdout (io w) -> Q (Normal tt) w') ->
  wp (os_makedirs p) Q w.
Proof.
  intros H1 H2. unfold wp, os_makedirs. mstep.
  destruct (fs_lookup p (fs (io w))); [done|]. apply H2; [|done]. apply evolves_write.
Qed.

Lemma wp_os_listdir (p : string) (Q : ctl R S (list string) -> world -> Prop) w :
  Q (Raises OSError) w ->
  (fs_lookup p (fs (io w)) = Some Dir -> Q (Normal (fs_children p (fs (io w)))) w) ->
  wp (os_listdir p) Q w.
Proof.
  intros H1 H2. unfold wp, os_listdir. mstep.
  destruct (fs_lookup p (fs (io w))) as [[]|] eqn:E; cbn; auto.
Qed.

Lemma wp_write_file (p : string) (c : content) (Q : ctl R S unit -> world -> Prop) w :
  Q (Raises OSError) w ->
  (forall w', evolves [] w w' -> stdout (io w') = stdout (io w) -> Q (Normal tt) w') ->
  wp (write_file p c) Q w.
Proof.
  intros H1 H2. unfold wp, write_file. mstep.
  destruct (fs_lookup p (fs (io w))) as [[]|]; [done|..];
    (apply H2; [|done]); apply evolves_write.
Qed.

Lemma wp_read_text (p : string) (Q : ctl R S string -> world -> Prop) w :
  Q (Raises OSError) w -> (forall s, Q (Normal s) w) -> wp (read_text p) Q w.
Proof.
  intros H1 H2. unfold wp, read_text. mstep.
  destruct (fs_lookup p (fs (io w))) as [[|[]]|]; cbn; auto.
Qed.

Lemma wp_Image_open (p : string) (Q : ctl R S Image -> world -> Prop) w :
  Q (Raises OSError) w -> (forall i, Q (Normal i) w) -> wp (Image_open p) Q w.
Proof.
  intros H1 H2. unfold wp, Image_open. mstep.
  destruct (fs_lookup p (fs (io w))) as [[|[]]|]; cbn; auto.
Qed.

Lemma wp_cv2_VideoCapture (p : string) (Q : ctl R S (option video) -> world -> Prop) w :
  (forall cap, Q (Normal cap) w) -> wp (cv2_VideoCapture p) Q w.
Proof.
  intros H. unfold wp, cv2_VideoCapture. mstep.
  destruct (fs_lookup p (fs (io w))) as [[|[]]|]; cbn; auto.
Qed.

Lemma wp_time_time (Q : ctl R S spec_float -> world -> Prop) w :
  (forall now w', evolves [] w w' -> stdout (io w') = stdout (io w) ->
                  Q (Normal now) w') ->
  wp time_time Q w.
Proof.
  intros H. unfold wp, time_time. mstep.
  destruct (clock (env w)); cbn; apply H; try done;
    [apply evolves_refl|apply evolves_env].
Qed.

Lemma wp_subprocess_run (Q : ctl R S unit -> world -> Prop) w :
  (forall w', evolves [] w w' -> Q (Raises CalledProcessError) w') ->
  (forall w', evolves [] w w' -> stdout (io w') = stdout (io w) -> Q (Normal tt) w') ->
  wp subprocess_run Q w.
Proof.
  intros H1 H2. unfold wp, subprocess_run. mstep.
  destruct (subprocess_status (env w)) as [|st rest]; cbn.
  - apply H2; [apply evolves_refl|done].
  - destruct (st =? 0); cbn; [apply H2; [|done]|apply H1]; apply evolves_env.
Qed.

Lemma wp_select_seed (use_random_seed : bool) (seed_input : string)
    (Q : ctl R S Z -> world -> Prop) w :
  (forall seed w', evolves [] w w' -> stdout (io w') = stdout (io w) ->
                   seed_ok use_random_seed seed_input seed -> Q (Normal seed) w') ->
  wp (select_seed use_random_seed seed_input) Q w.
Proof.
  intros H. unfold wp.
  destruct (select_seed_run (R := R) (S := S) use_random_seed seed_input w)
    as (seed & w' & -> & Hs & Hpy & Hio & _).
  cbn. apply H; [|by rewrite Hio|done].
  split; rewrite ?Hpy, ?Hio, ?app_nil_r; auto.
Qed.

End Rules.

(** One step of a proof about a statement: the rule of its first
    instruction. *)
Ltac wp_step :=
  lazymatch goal with
  | |- wp (mbind _ _) _ _ => apply wp_bind
  | |- wp (mret _) _ _ => apply wp_ret
  | |- wp get_world _ _ => apply wp_get_world
  | |- wp (return_ _) _ _ => apply wp_return
  | |- wp (break_ _) _ _ => apply wp_break
  | |- wp (continue_ _) _ _ => apply wp_continue
  | |- wp (raise _) _ _ => apply wp_raise
  | |- wp (lift _) _ _ => apply wp_lift
  | |- wp (try_except _ _) _ _ => apply wp_try_except
  | |- wp (print _) _ _ => apply wp_print; intros ? ? ?
  | |- wp (emit _) _ _ => apply wp_emit; intros ? ? ?
  | |- wp time_time _ _ => apply wp_time_time; intros ? ? ? ?
  | |- wp (select_seed _ _) _ _ => apply wp_select_seed; intros ? ? ? ? ?
  | |- wp (os_path_exists _) _ _ => apply wp_os_path_exists
  | |- wp (os_path_isdir _) _ _ => apply wp_os_path_isdir
  | |- wp (os_makedirs _) _ _ => apply wp_os_makedirs; [|intros ? ? ?]
  | |- wp (write_file _ _) _ _ => apply wp_write_file; [|intros ? ? ?]
  | |- wp (read_text _) _ _ => apply wp_read_text; [|intros ?]
  | |- wp (Image_open _) _ _ => apply wp_Image_open; [|intros ?]
  | |- wp (cv2_VideoCapture _) _ _ => apply wp_cv2_VideoCapture; intros ?
  | |- wp subprocess_run _ _ => apply wp_subprocess_run; [intros ? ?|intros ? ? ?]
  | |- wp (modify _) _ _ => apply wp_modify
  end; cbn [after].

(** Joins what two successive steps add. *)
Ltac ev_merge :=
  repeat match goal with
  | Hacc : evolves ?t ?w0 ?w, Hev : evolves ?t' ?w ?w' |- _ =>
      let H := fresh "Hacc" in
      pose proof (evolves_trans _ _ _ _ _ Hacc Hev) as H;
      try rewrite (ev_pipe _ _ _ Hacc) in *;
      clear Hev Hacc; cbn [app] in H
  end.

Ltac wp_steps := repeat (wp_step; ev_merge).

Section Composite.
Context {R S : Type}.
Implicit Types w : world.

Lemma evolves_press_cancel w : evolves [] w (set_py (with_cancel_flag true) w).
Proof. split; cbn; auto. by rewrite app_nil_r. Qed.

Lemma evolves_press_cancel_batch w :
  evolves [] w (set_py (with_cancel_batch_flag true) w).
Proof. split; cbn; auto. by rewrite app_nil_r. Qed.

Lemma wp_handle_clicks (l : list ui_event) (Q : ctl R S unit -> world -> Prop) w :
  (forall w', evolves [] w w' -> Q (Normal tt) w') -> wp (handle_clicks l) Q w.
Proof.
  revert w. induction l as [|e l IH]; intros w H; cbn [handle_clicks].
  - apply wp_ret, H, evolves_refl.
  - destruct e; unfold handle_click, cancel_generation, cancel_batch_process;
      do 4 wp_step;
      [pose proof (evolves_press_cancel w) as Hacc
      |pose proof (evolves_press_cancel_batch w) as Hacc];
      wp_steps; apply IH; intros w2 Hev; ev_merge; by apply H.
Qed.

Lemma wp_interface_runs (Q : ctl R S unit -> world -> Prop) w :
  (forall w', evolves [] w w' -> Q (Normal tt) w') -> wp interface_runs Q w.
Proof.
  intros H. unfold interface_runs. wp_steps.
  destruct (ui_events (env w)) as [|clicks rest].
  - apply wp_ret, H, evolves_refl.
  - wp_steps. pose proof (evolves_env (with_ui_events rest) w) as Hacc.
    apply wp_handle_clicks. intros w2 Hev. ev_merge. by apply H.
Qed.

Lemma wp_get_next_filename (extension : string) (Q : ctl R S string -> world -> Prop) w :
  (forall w', evolves [] w w' -> Q (Raises OSError) w') ->
  (forall path w', evolves [] w w' -> Q (Normal path) w') ->
  wp (get_next_filename extension) Q w.
Proof.
  intros H1 H2. unfold get_next_filename.
  pose proof (evolves_refl w) as Hacc. wp_steps.
  destruct (negb _); wp_steps; try (by apply H1);
    (apply wp_os_listdir; [by apply H1|intros _]); wp_steps; by apply H2.
Qed.

Lemma wp_load_wan_pipeline (model_choice torch_dtype_str num_persistent : string)
    (lora_path : option string) (lora_alpha : Qc)
    (Q : ctl R S pipeline -> world -> Prop) w :
  (known_model model_choice = false ->
   forall w', evolves [] w w' -> Q (Raises ValueError) w') ->
  (known_model model_choice = true ->
   forall pipe w', evolves [EvLoad pipe] w w' -> Q (Normal pipe) w') ->
  wp (load_wan_pipeline model_choice torch_dtype_str num_persistent lora_path lora_alpha)
    Q w.
Proof.
  intros H1 H2. unfold load_wan_pipeline.
  pose proof (evolves_refl w) as Hacc. wp_steps.
  destruct (known_model model_choice); wp_steps; [|by apply H1].
  destruct lora_path; wp_steps.
  - apply wp_interface_runs. intros w2 Hev. ev_merge. cbn [after]. wp_steps.
    case_bool_decide; wp_steps.
    + by apply H2.
    + destruct (Py.int num_persistent); wp_steps; by apply H2.
  - apply wp_interface_runs. intros w2 Hev. ev_merge. cbn [after]. wp_steps.
    case_bool_decide; wp_steps.
    + by apply H2.
    + destruct (Py.int num_persistent); wp_steps; by apply H2.
Qed.

Lemma wp_unload_pipeline (Q : ctl R S unit -> world -> Prop) w :
  (forall w', trace (io w') = trace (io w) -> fs (io w') = fs (io w) ->
              stdout (io w') = stdout (io w) ->
              loaded_pipeline (py w') = None -> loaded_pipeline_config (py w') = ∅ ->
              Q (Normal tt) w') ->
  wp unload_pipeline Q w.
Proof. intros H. by apply H. Qed.

Lemma wp_run_pipeline (args : call_args) (Q : ctl R S (list frame) -> world -> Prop) w :
  (loaded_pipeline (py w) = None -> Q (Raises TypeError) w) ->
  (forall pipe frames w',
     loaded_pipeline (py w) = Some pipe -> evolves [EvGenerate pipe args] w w' ->
     Q (Normal frames) w') ->
  wp (run_pipeline args) Q w.
Proof.
  intros H1 H2. unfold run_pipeline. wp_steps.
  destruct (loaded_pipeline (py w)) as [pipe|] eqn:E; [|by apply wp_raise, H1].
  wp_step. apply wp_interface_runs. intros w2 Hacc. cbn [after]. wp_steps.
  by apply (H2 pipe).
Qed.

Lemma wp_save_video (video_data : list frame) (path : string) (fps quality : Z)
    (Q : ctl R S unit -> world -> Prop) w :
  Q (Raises OSError) w ->
  (forall w', evolves [EvSaveVideo path] w w' -> Q (Normal tt) w') ->
  wp (save_video video_data path fps quality) Q w.
Proof.
  intros H1 H2. unfold save_video. destruct (match video_data with [] => _ | _ => _ end).
  pose proof (evolves_refl w) as Hacc. wp_steps; [done|by apply H2].
Qed.

Lemma wp_save_image (image : Image) (path : string)
    (Q : ctl R S unit -> world -> Prop) w :
  Q (Raises OSError) w ->
  (forall w', evolves [EvSaveImage path] w w' -> Q (Normal tt) w') ->
  wp (save_image image path) Q w.
Proof.
  intros H1 H2. unfold save_image.
  pose proof (evolves_refl w) as Hacc. wp_steps; [done|by apply H2].
Qed.

Lemma wp_write_text (path text : string) (Q : ctl R S unit -> world -> Prop) w :
  Q (Raises OSError) w ->
  (forall w', evolves [EvWriteText path] w w' -> Q (Normal tt) w') ->
  wp (write_text path text) Q w.
Proof.
  intros H1 H2. unfold write_text.
  pose proof (evolves_refl w) as Hacc. wp_steps; [done|by apply H2].
Qed.

Lemma wp_run_rife (pr_rife_radio video improved_video : string)
    (Q : ctl R S string -> world -> Prop) w :
  (forall e m w', evolves [EvRife video improved_video m] w w' -> Q (Raises e) w') ->
  (forall m w', evolves [EvRife video improved_video m] w w' -> Q (Normal m) w') ->
  wp (run_rife pr_rife_radio video improved_video) Q w.
Proof.
  intros H1 H2. unfold run_rife.
  pose proof (evolves_refl w) as Hacc. wp_steps.
  apply wp_interface_runs. intros w2 Hev. ev_merge. cbn [after]. wp_steps.
  - by eapply H1.
  - by eapply H1.
  - by apply H2.
Qed.

End Composite.

(** The rule of the first instruction, the application's own
    functions included. *)
Ltac wp_op :=
  lazymatch goal with
  | |- wp interface_runs _ _ => apply wp_interface_runs; intros ? ?
  | |- wp (get_next_filename _) _ _ =>
      apply wp_get_next_filename; [intros ? ?|intros ? ? ?]
  | |- wp unload_pipeline _ _ => apply wp_unload_pipeline; intros ? ? ? ? ? ?
  | |- wp (run_pipeline _) _ _ => apply wp_run_pipeline; [intros ?|intros ? ? ? ? ?]
  | |- wp (save_video _ _ _ _) _ _ => apply wp_save_video; [|intros ? ?]
  | |- wp (save_image _ _) _ _ => apply wp_save_image; [|intros ? ?]
  | |- wp (write_text _ _) _ _ => apply wp_write_text; [|intros ? ?]
  | |- wp (run_rife _ _ _) _ _ => apply wp_run_rife; [intros ? ? ? ?|intros ? ? ?]
  | |- _ => wp_step
  end; cbn [after]; ev_merge.

Ltac wp_ops := repeat wp_op.

(** ** What a run may do, event by event *)

Ltac wp_case :=
  match goal with
  | |- wp (if ?b then _ else _) _ _ => destruct b eqn:?
  | |- wp (match ?x with _ => _ end) _ _ => destruct x eqn:?
  | |- match ?x with Ok _ => _ | Err _ => _ end => destruct x eqn:?
  end.

Ltac wp_auto := repeat first [wp_op | wp_case].

(** The trace of the world reached, from the steps joined so far. *)
Ltac ev_trace :=
  repeat match goal with
  | H : trace (io ?w') = trace (io ?w) |- _ => rewrite H; clear H
  end;
  match goal with
  | Hacc : evolves _ _ ?w' |- trace (io ?w') = _ => exact (ev_trace _ _ _ Hacc)
  end.

Ltac ev_cache :=
  match goal with
  | Hacc : evolves _ ?w ?w' |- same_cache ?w ?w' =>
      exact (conj (ev_pipe _ _ _ Hacc) (ev_config _ _ _ Hacc))
  end.

Ltac no_needs_image :=
  intros [Hm Hi];
  repeat match goal with
  | H : bool_decide (_ = _) = true |- _ => apply bool_decide_eq_true_1 in H
  end;
  try congruence;
  match goal with
  | H : Gen.model_choice _ = _ |- _ => rewrite H in Hm; discriminate Hm
  end.

Lemma last_snoc_eq {A} (l l' : list A) (x : A) : l' = l ++ [x] -> last l' = Some x.
Proof. intros ->. apply last_snoc. Qed.

Lemma generate_iteration_outcome (a : Gen.inputs) (v : Gen.frame_vars)
    (p : string) (loc : Gen.locals) (w : world) :
  wp (generate_iteration a v p loc) (gen_iteration_post a v loc w) w.
Proof.
  unfold generate_iteration. pose proof (evolves_refl w) as Hacc.
  wp_auto.
  all: unfold gen_iteration_post.
  all: match goal with H : cancel_flag _ = _ |- _ => rewrite H end.
  all: eexists; split; [ev_trace|].
  all: split; [repeat constructor; by cbn|].
  all: try (eexists _, _; split; [reflexivity|]; try (split; [ev_cache|no_needs_image])).
  all: try (split; [done|split; [done|split; [ev_cache|no_needs_image]]]).
  all: split; [done|]; split; [by split|].
  - by eexists.
  - eexists _, _. split; [reflexivity|]. split.
    + eapply last_snoc_eq. etrans; [eassumption|]. eassumption.
    + left. by repeat split.
  - eexists _, _. split; [reflexivity|]. split.
    + eapply last_snoc_eq. etrans; [eassumption|]. eassumption.
    + right. split; [done|]. split; [by eapply bool_decide_eq_false_1|].
      split; [by eapply bool_decide_eq_false_1|done].
Qed.

Lemma monitor_app (poll : event -> option bool) (s : phase) (t1 t2 : list event) :
  monitor poll s (t1 ++ t2)
  = match monitor poll s t1 with
    | Some s' => monitor poll s' t2
    | None => None
    end.
Proof.
  revert s. induction t1 as [|e t1 IH]; intros s; cbn; [reflexivity|].
  destruct (monitor_step poll s e); [apply IH|reflexivity].
Qed.

Lemma polls_app (poll : event -> option bool) (t1 t2 : list event) :
  polls poll (t1 ++ t2) = (polls poll t1 + polls poll t2)%nat.
Proof. unfold polls. by rewrite omap_app, length_app. Qed.

Lemma in_iteration_no_poll (pipe : option pipeline) (ok : Z -> Prop) (t : list event) :
  Forall (in_iteration pipe ok) t -> polls gen_poll t = 0%nat /\ polls batch_poll t = 0%nat.
Proof.
  induction 1 as [|e t He Ht [IH1 IH2]]; [done|].
  unfold polls in *. destruct e; cbn in *; done.
Qed.

Lemma same_cache_refl (w : world) : same_cache w w.
Proof. done. Qed.

Lemma same_cache_trans (w0 w1 w2 : world) :
  same_cache w0 w1 -> same_cache w1 w2 -> same_cache w0 w2.
Proof. intros [H1 H2] [K1 K2]. split; congruence. Qed.

Lemma gen_iteration_as_loop (a : Gen.inputs) (v : Gen.frame_vars) (loc : Gen.locals)
    (w : world) (c : ctl Gen.result Gen.locals Gen.locals) (w' : world) :
  gen_iteration_post a v loc w c w' ->
  gen_loop_post a (Gen.model_choice v) loc w 1 c w'.
Proof.
  intros (body & Ht & Hbody & Hc).
  exists (EvPoll (cancel_flag (py w)) :: body). split; [done|].
  destruct (in_iteration_no_poll _ _ _ Hbody) as [Hp _].
  split. { constructor; [by left|]. eapply Forall_impl; [done|]. by right. }
  assert (Hone : polls gen_poll (EvPoll (cancel_flag (py w)) :: body) = 1%nat).
  { change (S (polls gen_poll body) = 1%nat). by rewrite Hp. }
  split; [by rewrite Hone|].
  intros s Hs. destruct (cancel_flag (py w)).
  - destruct Hc as (-> & Hu & log & ->).
    exists Cancelled. split; [by destruct s|].
    split; [done|]. split; [|by eexists]. eexists _, _. split; [done|by left].
  - destruct Hc as (g & sv & Hm & Hc).
    exists (Iterating g sv). split; [by destruct s|].
    destruct c as [loc'|r| | |e]; try done.
    + destruct Hc as (-> & -> & Hcache & Hn). split; [done|]. split; [done|by right].
    + destruct Hc as (-> & Hu & msg & seed & -> & Hlast & Herr).
      cbn in Hm. injection Hm as <- <-.
      split; [done|]. split; [|by eexists].
      eexists _, _. split; [done|]. right. split; [done|]. split; [done|].
      destruct Herr as [(-> & Hi & Hn)|(-> & H1 & H2 & H3)]; [by left|by right].
Qed.

Lemma gen_loop_seq {S1 S2} (a : Gen.inputs) (model_choice : string)
    (loc loc1 : Gen.locals) (w w1 w2 : world) (k1 k2 : nat)
    (c : ctl Gen.result S2 Gen.locals) :
  gen_loop_post (S := S1) a model_choice loc w k1 (Normal loc1) w1 ->
  gen_loop_post a model_choice loc1 w1 k2 c w2 ->
  gen_loop_post a model_choice loc w (k1 + k2) c w2.
Proof.
  intros (t1 & Ht1 & Hf1 & Hp1 & Hm1) (t2 & Ht2 & Hf2 & Hp2 & Hm2).
  destruct (Hm1 Preparing ltac:(done)) as (s0 & _ & Hcache & Hk1 & _).
  exists (t1 ++ t2). split; [by rewrite Ht2, Ht1, app_assoc|].
  split. { apply Forall_app. split; [done|]. by rewrite <- (proj1 Hcache). }
  split; [rewrite polls_app; lia|].
  intros s Hs.
  destruct (Hm1 s Hs) as (s1 & Hs1 & _ & _ & Hcase1).
  assert (Hs1' : s1 <> Cancelled).
  { destruct Hcase1 as [(_ & _ & ->)|[-> _]]; done. }
  destruct (Hm2 s1 Hs1') as (s2 & Hs2 & Hc).
  exists s2. split; [by rewrite monitor_app, Hs1|].
  destruct c as [loc2|r| | |e]; try done.
  - destruct Hc as (Hcache2 & Hk2 & Hcase2).
    split; [by eapply same_cache_trans|]. split; [rewrite polls_app; lia|].
    destruct Hcase1 as [(-> & -> & ->)|[-> Hn]].
    + destruct Hcase2 as [(-> & -> & ->)|[-> Hn]]; [by left|by right].
    + right. split; [|done]. destruct Hcase2 as [(-> & -> & ->)|[-> _]]; done.
  - destruct Hc as (Hu & Hr & Hn). split; [done|]. split; [done|].
    intros Hneed. destruct Hcase1 as [(-> & _ & _)|[_ Hno]]; [by apply Hn|done].
  - destruct Hc as (Hne & Hcache2 & Hn). split; [done|].
    split; [by eapply same_cache_trans|done].
Qed.

Lemma gen_loop_returns {S1 S2} (a : Gen.inputs) (model_choice : string)
    (loc : Gen.locals) (w w1 : world) (k1 k2 : nat) (r : Gen.result) :
  gen_loop_post (S := S1) a model_choice loc w k1 (Returns r) w1 ->
  gen_loop_post (S := S2) a model_choice loc w (k1 + k2) (Returns r) w1.
Proof.
  intros (t1 & Ht1 & Hf1 & Hp1 & Hm1).
  exists t1. split; [done|]. split; [done|]. split; [lia|]. done.
Qed.

Lemma gen_loop_raises {S1 S2} (a : Gen.inputs) (model_choice : string)
    (loc : Gen.locals) (w w1 : world) (k1 k2 : nat) (e : exn) :
  gen_loop_post (S := S1) a model_choice loc w k1 (Raises e) w1 ->
  gen_loop_post (S := S2) a model_choice loc w (k1 + k2) (Raises e) w1.
Proof.
  intros (t1 & Ht1 & Hf1 & Hp1 & Hm1).
  exists t1. split; [done|]. split; [done|]. split; [lia|]. done.
Qed.

Lemma gen_loop_outcome {L A} (a : Gen.inputs) (model_choice : string) (l : list A)
    (body : A -> Gen.locals -> M Gen.result Gen.locals Gen.locals) (k : nat) :
  (forall x loc w, wp (body x loc) (gen_loop_post a model_choice loc w k) w) ->
  forall loc w,
    wp (for_each (S := L) l body loc)
      (gen_loop_post a model_choice loc w (length l * k)) w.
Proof.
  intros Hbody. induction l as [|x l IH]; intros loc w.
  - apply wp_for_each_nil. exists []. split; [by rewrite app_nil_r|].
    split; [constructor|]. split; [done|]. intros s Hs. exists s.
    split; [done|]. split; [done|]. split; [done|by left].
  - apply wp_for_each_cons. eapply wp_mono; [apply Hbody|].
    intros c w1 Hpost. cbn [length]. replace (S (length l) * k)%nat
      with (k + length l * k)%nat by lia.
    destruct c as [loc1|r|s0|s0|e]; cbn [after_iteration].
    + eapply wp_mono; [apply IH|]. intros c2 w2 H2. by eapply gen_loop_seq.
    + by eapply gen_loop_returns.
    + destruct Hpost as (t & _ & _ & _ & Hm).
      by destruct (Hm Preparing ltac:(done)) as (? & _ & ?).
    + destruct Hpost as (t & _ & _ & _ & Hm).
      by destruct (Hm Preparing ltac:(done)) as (? & _ & ?).
    + by eapply gen_loop_raises.
Qed.

Lemma wp_crop_frames {R S} (target_width target_height desired_frame_count : Z)
    (scale : spec_float) (new_width new_height : Z) (frames : list frame)
    (frame_count : Z) (written : list frame)
    (Q : ctl R S (Z * list frame) -> world -> Prop) (w0 w : world) :
  evolves [] w0 w ->
  (forall c w', evolves [] w0 w' -> Q c w') ->
  wp (crop_frames target_width target_height desired_frame_count scale
        new_width new_height frames frame_count written) Q w.
Proof.
  revert frame_count written w.
  induction frames as [|f frames IH]; intros frame_count written w Hacc H;
    cbn [crop_frames].
  - wp_auto; by apply H.
  - wp_auto; try (by apply H); by apply IH.
Qed.

Lemma wp_auto_crop_video {R S} (video_path : string)
    (target_width target_height desired_frame_count desired_fps : Z)
    (Q : ctl R S string -> world -> Prop) (w : world) :
  (forall e w', evolves [] w w' -> Q (Raises e) w') ->
  (forall path w', evolves [] w w' -> Q (Normal path) w') ->
  wp (call (auto_crop_video video_path target_width target_height
              desired_frame_count desired_fps)) Q w.
Proof.
  intros H1 H2. apply wp_call. unfold auto_crop_video.
  pose proof (evolves_refl w) as Hacc.
  wp_auto; try (by apply H1); try (by apply H2).
  all: eapply wp_crop_frames; [done|];
    match goal with H : evolves _ _ _ |- _ => clear H end;
    intros [[fc wr]| | | |] w2 Hacc; cbn [after]; try done; try (by apply H1).
  all: wp_auto; try (by apply H1); by apply H2.
Qed.

Section Reload.
Context {R S : Type}.

Lemma wp_reload_if_changed (msg_lora msg_base : string)
    (model_choice torch_dtype vram_value : string)
    (effective_lora_model : option string) (lora_alpha : Qc)
    (Q : ctl R S unit -> world -> Prop) (w : world) :
  let config :=
    make_config model_choice torch_dtype vram_value effective_lora_model lora_alpha in
  known_model model_choice = true ->
  (stale config w = false -> Q (Normal tt) w) ->
  (stale config w = true ->
   forall pipe w',
     trace (io w') = trace (io w) ++ [EvLoad pipe] ->
     loaded_pipeline (py w') = Some pipe ->
     loaded_pipeline_config (py w') = config ->
     (forall p, is_Some (fs_lookup p (fs (io w))) ->
                is_Some (fs_lookup p (fs (io w')))) ->
     Q (Normal tt) w') ->
  wp (reload_if_changed msg_lora msg_base model_choice torch_dtype vram_value
        effective_lora_model lora_alpha) Q w.
Proof.
  intros config Hk H1 H2. unfold reload_if_changed. fold config. do 2 wp_step.
  change (is_none (loaded_pipeline (py w))
          || bool_decide (loaded_pipeline_config (py w) <> config))
    with (stale config w).
  destruct (stale config w); [|by apply wp_ret, H1].
  specialize (H2 eq_refl). pose proof (evolves_refl w) as Hacc.
  wp_step.
  assert (Hload : forall w1, evolves [] w w1 ->
           wp (load_wan_pipeline (R := R) (S := S) model_choice torch_dtype vram_value
                 effective_lora_model lora_alpha)
             (after (fun pipe => wp (modify (set_py (with_loaded_pipeline (Some pipe)));;
                        modify (set_py (with_loaded_pipeline_config config))) Q) Q) w1).
  { intros w1 Hw1. apply wp_load_wan_pipeline; [congruence|].
    intros _ pipe w2 Hev. pose proof (evolves_trans _ _ _ _ _ Hw1 Hev) as Hall.
    clear Hw1 Hev Hacc. cbn [after]. wp_steps.
    apply (H2 pipe); cbn; try done.
    - apply (ev_trace _ _ _ Hall).
    - apply (ev_fs _ _ _ Hall). }
  destruct effective_lora_model; wp_steps; by apply Hload.
Qed.

End Reload.

Lemma gen_model_choice_known (radio model_choice : string) :
  gen_model_choice radio = Some model_choice ->
  known_model model_choice = true
  /\ ~ (model_choice <> "1.3B" /\ model_choice <> "14B_text"
        /\ is_image_model model_choice = false).
Proof.
  unfold gen_model_choice. repeat case_bool_decide; intros [= <-]; split; try done.
  all: intros (Ha & Hb & Hc); done.
Qed.

Lemma div_sixty (x : spec_float) :
  F64.div x (F64.round_int 60) = Ok (SFdiv F64.prec F64.emax x (F64.round_int 60)).
Proof. reflexivity. Qed.

Lemma range_length (n : Z) : length (range n) = Z.to_nat n.
Proof. unfold range. by rewrite length_map, length_seq. Qed.

Lemma generate_videos_outcome (a : Gen.inputs) (w : world) :
  wp (generate_videos a) (gen_call_post a w) w.
Proof.
  unfold generate_videos. do 2 wp_step.
  remember (set_py (with_cancel_flag false) w) as w1 eqn:Ew1.
  assert (Hio : io w1 = io w) by (by subst).
  assert (Hcache : same_cache w w1) by (by subst).
  clear Ew1. pose proof (evolves_refl w1) as Hacc.
  do 2 wp_op.
  (* the model *)
  wp_step. eapply wp_mono.
  { instantiate (1 := fun c w2 =>
      w2 = w' /\ match gen_model_choice (Gen.model_choice_radio a) with
                 | Some model_choice => exists d, c = Normal (model_choice, d)
                 | None => c = Returns ("", ERR_INVALID_MODEL, "")
                 end).
    unfold gen_model_choice. repeat case_bool_decide; wp_step; eauto. }
  intros c w2 [-> Hm]. unfold gen_call_post.
  destruct (gen_model_choice (Gen.model_choice_radio a)) as [model_choice|] eqn:Emc.
  2: { subst c. cbn [after]. split; [done|]. split; [congruence|].
       split; [rewrite (ev_trace _ _ _ Hacc0), app_nil_r; congruence|].
       eapply same_cache_trans; [done|].
       exact (conj (ev_pipe _ _ _ Hacc0) (ev_config _ _ _ Hacc0)). }
  destruct Hm as [d ->]. cbn [after].
  destruct (gen_model_choice_known _ _ Emc) as [Hknown Hvalid].
  (* the frame count *)
  wp_step. eapply wp_mono.
  { instantiate (1 := fun c w2 => w2 = w2 /\ exists n, c = Normal n /\ evolves [] w1 w2).
    wp_auto; eauto. }
  intros c w2 (_ & n & -> & Hacc1). cbn [after]. clear Hacc0 H0 w'.
  (* the crop of the input video *)
  wp_step. eapply wp_mono.
  { instantiate (1 := fun c w3 =>
      evolves [] w1 w3 /\ match c with
                          | Normal _ => True
                          | Raises _ => model_choice = "1.3B"
                          | _ => False
                          end).
    rename Hacc1 into Hacc. wp_auto; try done.
    all: apply wp_auto_crop_video; intros ? w3 Hev; ev_merge; cbn [after];
      wp_auto; (split; [done|]); try done; by eapply bool_decide_eq_true_1. }
  intros c w3 [Hacc2 Hc]. clear Hacc1 w2.
  assert (Htrace : trace (io w3) = trace (io w)).
  { rewrite (ev_trace _ _ _ Hacc2), app_nil_r. congruence. }
  assert (Hcache3 : same_cache w w3).
  { eapply same_cache_trans; [done|].
    exact (conj (ev_pipe _ _ _ Hacc2) (ev_config _ _ _ Hacc2)). }
  clear Hacc2 Hcache Hio w1.
  destruct c as [[input_video original_image]| | | |e]; try done; cbn [after].
  2: { exists []. split; [by rewrite app_nil_r|]. left. by exists e. }
  (* the cache *)
  wp_step.
  match goal with |- wp _ (after ?k _) _ => set (K := k) end.
  assert (HK : forall wr pipe loads,
             trace (io wr) = trace (io w) ++ loads ->
             loaded_pipeline (py wr) = Some pipe ->
             loaded_pipeline_config (py wr) = gen_current_config a model_choice ->
             (if stale (gen_current_config a model_choice) w
              then loads = [EvLoad pipe]
              else loads = [] /\ loaded_pipeline (py w) = Some pipe) ->
             K tt wr).
  2: { assert (Hst : stale (gen_current_config a model_choice) w3
                     = stale (gen_current_config a model_choice) w).
       { unfold stale. by rewrite (proj1 Hcache3), (proj2 Hcache3). }
       apply wp_reload_if_changed; [done|..]; fold (gen_current_config a model_choice);
         rewrite Hst; intros Hstale; cbn [after].
       - pose proof Hstale as Hs. unfold stale in Hs.
         apply orb_false_iff in Hs as [Hs1 Hs2].
         destruct (loaded_pipeline (py w)) as [pipe|] eqn:Ep; [|done].
         apply bool_decide_eq_false_1 in Hs2.
         apply (HK w3 pipe []).
         + by rewrite app_nil_r.
         + by rewrite (proj1 Hcache3).
         + rewrite (proj2 Hcache3). by destruct (decide
             (loaded_pipeline_config (py w) = gen_current_config a model_choice)).
         + by rewrite Hstale.
       - intros pipe wr Ht Hp Hcfg _. apply (HK wr pipe [EvLoad pipe]); try done.
         + by rewrite Ht, Htrace.
         + by rewrite Hstale. }
  intros wr pipe loads Htr Hpipe Hcfg Hloads. unfold K. clear K.
  wp_step. eapply wp_mono.
  { apply (gen_loop_outcome a model_choice _ _ (length (range (Gen.num_generations a)) * 1)).
    intros p loc wa.
    apply (gen_loop_outcome a model_choice _ _ 1).
    intros i loc0 wb. eapply wp_mono; [apply generate_iteration_outcome|].
    intros c wc Hc'. by apply gen_iteration_as_loop in Hc'. }
  rewrite range_length, Nat.mul_1_r. fold (gen_budget a).
  intros c wl (t & Ht & Hf & Hp & Hm).
  destruct (Hm Preparing ltac:(done)) as (s & Hs & Hcase). clear Hm.
  rewrite Hpipe in Hf.
  destruct c as [loc|[[path log] seed]| | |e]; try done; cbn [after].
  - (* the loop ran to its end *)
    destruct Hcase as (Hcache & Hpolls & Hcase).
    wp_step. eapply wp_mono.
    { instantiate (1 := fun c w4 =>
        exists tr,
          evolves tr wl w4
          /\ (tr = [] \/ (exists v iv m, tr = [EvRife v iv m])
                         /\ Gen.last_video_path loc <> "")
          /\ match c with
             | Normal (path, _) => tr = [] -> path = Gen.last_video_path loc
             | Raises _ => tr <> []
             | _ => False
             end).
      pose proof (evolves_refl wl) as Hacc.
      destruct (Gen.pr_rife_enabled a && bool_decide (Gen.last_video_path loc <> ""))
        eqn:Hr.
      - apply andb_true_iff in Hr as [_ Hr]. apply bool_decide_eq_true_1 in Hr.
        wp_auto; (eexists; split; [eassumption|]); (split; [right; eauto|]); done.
      - wp_step. exists []. split; [done|]. split; [by left|done]. }
    intros c w4 (tr & Hev & Htr' & Hc4).
    assert (Htail : exists s',
               monitor gen_poll Preparing (t ++ tr) = Some s'
               /\ polls gen_poll (t ++ tr) = polls gen_poll t
               /\ Forall (in_loop gen_poll (Some pipe) (gen_seed_ok a)) (t ++ tr)
               /\ (s' = Preparing /\ t ++ tr = [] /\ Gen.last_video_path loc = ""
                   \/ s' = Iterating true true /\ ~ needs_image a model_choice)).
    { destruct Htr' as [->|[(v & iv & m & ->) Hlast]].
      - rewrite app_nil_r. exists s. split; [done|]. split; [done|]. split; [done|].
        destruct Hcase as [(-> & -> & ->)|[-> Hn]]; [by left|by right].
      - destruct Hcase as [(-> & -> & ->)|[-> Hn]]; [done|].
        exists (Iterating true true). rewrite monitor_app, Hs. split; [done|].
        rewrite polls_app. split; [cbn; lia|].
        split; [|by right]. apply Forall_app. split; [done|].
        constructor; [by right|constructor]. }
    destruct Htail as (s' & Hs' & Hpolls' & Hf' & Hcase').
    assert (Hne : s' <> Cancelled) by (by destruct Hcase' as [[-> _]|[-> _]]).
    assert (Hcache4 : loaded_pipeline (py w4) = Some pipe
                      /\ loaded_pipeline_config (py w4)
                         = gen_current_config a model_choice).
    { rewrite (ev_pipe _ _ _ Hev), (ev_config _ _ _ Hev).
      rewrite (proj1 Hcache), (proj2 Hcache). done. }
    assert (Htrace4 : trace (io w4) = trace (io w) ++ loads ++ t ++ tr).
    { rewrite (ev_trace _ _ _ Hev), Ht, Htr. by rewrite <- !app_assoc. }
    destruct c as [[path log]| | | |e]; try done; cbn [after].
    + (* the closing report *)
      clear Hev. pose proof (evolves_refl w4) as Hacc.
      wp_op. wp_op. rewrite div_sixty. wp_auto.
      exists (loads ++ t ++ tr).
      split. { etrans; [ev_trace|]. by rewrite app_nil_r. }
      right. exists pipe, loads, (t ++ tr). split; [done|]. split; [done|].
      split; [done|]. split; [lia|]. exists s'. split; [done|].
      split; [done|]. split.
      * destruct Hcase' as [(-> & Hnil & Hlast)|[-> Hn]].
        -- split; [lia|]. left. split; [done|].
           apply app_eq_nil in Hnil as [_ ->]. by rewrite Hc4.
        -- split; [lia|]. by right.
      * intros Hneed. destruct Hcase' as [(_ & Hnil & _)|[_ Hn]]; [by left|done].
    + exists (loads ++ t ++ tr). split; [done|].
      right. exists pipe, loads, (t ++ tr). split; [done|]. split; [done|].
      split; [done|]. split; [lia|]. exists s'. split; [done|].
      split; [done|]. split; [apply Hcache4|]. split; [apply Hcache4|].
      destruct Hcase' as [(_ & Hnil & _)|[_ Hn]]; [|done].
      apply app_eq_nil in Hnil as [_ ->]. done.
  - (* a return from inside the loop *)
    destruct Hcase as (Hu & (msg & seed0 & [= -> -> ->] & Hwhy) & Hneed).
    exists (loads ++ t). split; [by rewrite Ht, Htr, app_assoc|].
    right. exists pipe, loads, t. split; [done|]. split; [done|].
    split; [done|]. split; [done|]. exists s. split; [done|].
    split; [done|]. split.
    + destruct Hwhy as [->|(-> & Hlast & [[-> Hn]|(_ & Hbad)])]; try done.
    + intros Hn. right. by apply Hneed.
  - (* an exception from inside the loop *)
    destruct Hcase as (Hne & Hcache & Hn).
    exists (loads ++ t). split; [by rewrite Ht, Htr, app_assoc|].
    right. exists pipe, loads, t. split; [done|]. split; [done|].
    split; [done|]. split; [done|]. exists s. split; [done|].
    split; [done|]. rewrite (proj1 Hcache), (proj2 Hcache). done.
Qed.

(** ** [batch_process_videos] *)

Lemma batch_iteration_outcome (a : Batch.inputs) (target_width target_height : Z)
    (image_file log_text : string) (w : world) :
  wp (batch_iteration a target_width target_height image_file log_text)
    (batch_iteration_post a image_file w) w.
Proof.
  unfold batch_iteration. pose proof (evolves_refl w) as Hacc.
  wp_ops. destruct (cancel_batch_flag (py w)) eqn:Hflag.
  { wp_auto. unfold batch_iteration_post. rewrite Hflag.
    exists []. split; [done|]. split; [constructor|]. split; [done|by eexists]. }
  wp_ops. destruct (Py.splitext image_file) as [base ext] eqn:Hsplit.
  wp_ops.
  (* the prompt *)
  eapply wp_mono.
  { instantiate (1 := fun c w2 =>
      evolves [EvBatchPoll image_file false] w w2
      /\ match c with
         | Normal _ | Raises OSError => True
         | _ => False
         end).
    wp_auto; done. }
  intros c w2 [Hacc2 Hc].
  repeat match goal with H : evolves _ w ?x |- _ => tryif unify x w2 then fail else clear H end.
  assert (Hpost : forall (c : ctl string string string),
             match c with Raises OSError => True | _ => False end ->
             batch_iteration_post a image_file w c w2).
  { intros c0 Hc0. unfold batch_iteration_post. rewrite Hflag.
    exists []. split; [done|]. split; [constructor|]. exists false, false.
    split; [done|]. destruct c0 as [| | | |[]]; done. }
  destruct c as [[prompt_content log]| | | |e]; try done; cbn [after].
  2: { destruct e; try done. by apply Hpost. }
  clear Hpost Hc. rename Hacc2 into Hacc.
  wp_ops.
  destruct (Batch.skip_overwrite a
            && bool_decide (is_Some (fs_lookup (Py.join (Batch.batch_output_folder a)
                                                 (base +:+ ".mp4")) (fs (io w2)))))
    eqn:Hskip.
  { wp_auto. unfold batch_iteration_post. rewrite Hflag.
    exists []. split; [done|]. split; [constructor|]. exists false, false. done. }
  assert (Hnoskip : Batch.skip_overwrite a = true ->
            is_Some (fs_lookup (batch_output_filename a image_file) (fs (io w))) ->
            False).
  { intros Hs Hex. unfold batch_output_filename in Hex. rewrite Hsplit in Hex.
    apply (ev_fs _ _ _ Hacc) in Hex. rewrite Hs in Hskip.
    by rewrite bool_decide_eq_true_2 in Hskip. }
  clear Hskip.
  wp_auto.
  all: unfold batch_iteration_post; rewrite Hflag.
  all: eexists; split; [eassumption|].
  all: split; [repeat constructor; by cbn|].
  all: eexists _, _; split; [reflexivity|].
  all: split; [intros Hs Hex; by destruct (Hnoskip Hs Hex)|].
  all: done.
Qed.

Lemma in_iteration_batch (pipe : option pipeline) (ok : Z -> Prop)
    (present : string -> bool) (t : list event) :
  Forall (in_iteration pipe ok) t ->
  omap batch_poll_file t = [] /\ skip_monitor present Free t = Some Free.
Proof.
  induction 1 as [|e t He Ht [IH1 IH2]]; [done|].
  destruct e; cbn in *; done.
Qed.

Lemma skip_monitor_app (present : string -> bool) (s : skip_phase) (t1 t2 : list event) :
  skip_monitor present s (t1 ++ t2)
  = match skip_monitor present s t1 with
    | Some s' => skip_monitor present s' t2
    | None => None
    end.
Proof.
  revert s. induction t1 as [|e t1 IH]; intros s; cbn; [reflexivity|].
  destruct (skip_step present s e); [apply IH|reflexivity].
Qed.

Lemma batch_loop_outcome {L} (a : Batch.inputs) (target_width target_height : Z)
    (present : string -> bool) (l : list string) (log_text : string) (w : world) :
  (forall f, present f = true ->
             is_Some (fs_lookup (batch_output_filename a f) (fs (io w)))) ->
  wp (for_each (S := L) l (batch_iteration a target_width target_height) log_text)
    (batch_loop_post a present l w) w.
Proof.
  revert log_text w. induction l as [|f l IH]; intros log_text w Hpresent.
  - apply wp_for_each_nil. exists []. split; [apply evolves_refl|].
    split; [constructor|]. split; [done|]. split.
    + intros s Hs. exists s. split; [done|by right].
    + intros _ s0. by eexists.
  - apply wp_for_each_cons. eapply wp_mono; [apply batch_iteration_outcome|].
    intros c w1 (body & Hev & Hbody & Hc).
    destruct (in_iteration_batch _ _ present _ Hbody) as [Hfiles Hfree].
    destruct (in_iteration_no_poll _ _ _ Hbody) as [_ Hpolls].
    assert (Hin : Forall (in_loop batch_poll (loaded_pipeline (py w)) (batch_seed_ok a))
                    (EvBatchPoll f (cancel_batch_flag (py w)) :: body)).
    { constructor; [by left|]. eapply Forall_impl; [done|]. by right. }
    destruct (cancel_batch_flag (py w)) eqn:Hflag.
    + destruct Hc as (-> & log & ->). cbn [after_iteration].
      exists [EvBatchPoll f true]. split; [done|]. split; [done|].
      split; [by apply prefix_cons, prefix_nil|]. split.
      * intros s Hs. exists Cancelled. split; [by destruct s|by left].
      * intros _ s0. cbn. by eexists.
    + destruct Hc as (g & sv & Hm & Hskip & Hc).
      assert (Hmon : forall s, s <> Cancelled ->
                monitor batch_poll s (EvBatchPoll f false :: body)
                = Some (Iterating g sv)) by (by intros []).
      assert (Hsk : Batch.skip_overwrite a = true -> forall s0,
                is_Some (skip_monitor present s0 (EvBatchPoll f false :: body))).
      { intros Hs s0. cbn. destruct (present f) eqn:Hp.
        - destruct (Hskip Hs (Hpresent f Hp)) as [-> _]. by eexists.
        - rewrite Hfree. by eexists. }
      assert (Hnext : forall log',
                wp (for_each (S := L) l (batch_iteration a target_width target_height) log')
                  (batch_loop_post a present (f :: l) w) w1).
      { intros log'. eapply wp_mono.
        { apply IH. intros f' Hf'. apply (ev_fs _ _ _ Hev). by apply Hpresent. }
        intros c2 w2 (t2 & Hev2 & Hf2 & Hpre2 & Hm2 & Hsk2).
        exists ((EvBatchPoll f false :: body) ++ t2).
        split; [by eapply evolves_trans|]. split.
        { apply Forall_app. split; [done|]. by rewrite <- (ev_pipe _ _ _ Hev). }
        rewrite omap_app.
        change (omap batch_poll_file (EvBatchPoll f false :: body))
          with (f :: omap batch_poll_file body).
        rewrite Hfiles. cbn [app].
        split; [by apply prefix_cons|]. split.
        - intros s Hs. destruct (Hm2 (Iterating g sv) ltac:(done)) as (s' & Hs' & Hc2).
          exists s'.
          change (EvBatchPoll f false :: body ++ t2)
            with ((EvBatchPoll f false :: body) ++ t2).
          rewrite monitor_app, (Hmon s Hs). split; [done|].
          destruct c2; try done. destruct Hc2 as [->| ->]; [by left|by right].
        - intros Hs s0.
          change (EvBatchPoll f false :: body ++ t2)
            with ((EvBatchPoll f false :: body) ++ t2).
          rewrite skip_monitor_app.
          destruct (Hsk Hs s0) as [s1 ->]. by apply Hsk2. }
      destruct c as [log'|r|log'|log'|e]; cbn [after_iteration];
        [apply Hnext|done|done|apply Hnext|].
      exists (EvBatchPoll f false :: body). split; [done|]. split; [done|].
      change (omap batch_poll_file (EvBatchPoll f false :: body))
        with (f :: omap batch_poll_file body).
      rewrite Hfiles.
      split; [by apply prefix_cons, prefix_nil|]. split; [|done].
      intros s Hs. exists (Iterating g sv). by rewrite (Hmon s Hs).
Qed.

Lemma batch_model_choice_known (radio model_choice : string) :
  batch_model_choice radio = Some model_choice -> known_model model_choice = true.
Proof. unfold batch_model_choice. repeat case_bool_decide; by intros [= <-]. Qed.

Lemma batch_process_videos_outcome (a : Batch.inputs) (w : world) :
  wp (batch_process_videos a) (batch_call_post a w) w.
Proof.
  unfold batch_process_videos. do 2 wp_step.
  remember (set_py (with_cancel_batch_flag false) w) as w1 eqn:Ew1.
  assert (Hio : io w1 = io w) by (by subst).
  assert (Hcache : same_cache w w1) by (by subst).
  clear Ew1. unfold batch_call_post.
  destruct (batch_model_choice (Batch.model_choice_radio a)) as [model_choice|] eqn:Emc.
  2: { unfold batch_model_choice in Emc.
       destruct (bool_decide (Batch.model_choice_radio a = MODEL_14B_IMAGE_720P));
         [done|].
       destruct (bool_decide (Batch.model_choice_radio a = MODEL_14B_IMAGE_480P));
         [done|].
       cbn [negb orb]. do 2 wp_step. split; [by eexists|].
       rewrite Hio. done. }
  assert (Hid : (if bool_decide (Batch.model_choice_radio a = MODEL_14B_IMAGE_720P)
                 then "14B_image_720p" else "14B_image_480p") = model_choice
                /\ negb (bool_decide (Batch.model_choice_radio a = MODEL_14B_IMAGE_720P)
                         || bool_decide (Batch.model_choice_radio a
                                         = MODEL_14B_IMAGE_480P)) = false).
  { unfold batch_model_choice in Emc. by repeat case_bool_decide; simplify_eq. }
  destruct Hid as [-> ->]. do 2 wp_step.
  pose proof (batch_model_choice_known _ _ Emc) as Hknown.
  wp_step.
  match goal with |- wp _ (after ?k _) _ => set (K := k) end.
  assert (HK : forall wr pipe loads,
             trace (io wr) = trace (io w) ++ loads ->
             loaded_pipeline (py wr) = Some pipe ->
             loaded_pipeline_config (py wr) = batch_current_config a model_choice ->
             (if stale (batch_current_config a model_choice) w
              then loads = [EvLoad pipe]
              else loads = [] /\ loaded_pipeline (py w) = Some pipe) ->
             (forall p, is_Some (fs_lookup p (fs (io w))) ->
                        is_Some (fs_lookup p (fs (io wr)))) ->
             K tt wr).
  2: { assert (Hst : stale (batch_current_config a model_choice) w1
                     = stale (batch_current_config a model_choice) w).
       { unfold stale. by rewrite (proj1 Hcache), (proj2 Hcache). }
       apply wp_reload_if_changed; [done|..];
         fold (batch_current_config a model_choice);
         rewrite Hst; intros Hstale; cbn [after].
       - pose proof Hstale as Hs. unfold stale in Hs.
         apply orb_false_iff in Hs as [Hs1 Hs2].
         destruct (loaded_pipeline (py w)) as [pipe|] eqn:Ep; [|done].
         apply bool_decide_eq_false_1 in Hs2.
         apply (HK w1 pipe []).
         + by rewrite app_nil_r, Hio.
         + by rewrite (proj1 Hcache).
         + rewrite (proj2 Hcache). by destruct (decide
             (loaded_pipeline_config (py w) = batch_current_config a model_choice)).
         + by rewrite Hstale.
         + by rewrite Hio.
       - intros pipe wr Ht Hp Hcfg Hfs. apply (HK wr pipe [EvLoad pipe]); try done.
         + by rewrite Ht, Hio.
         + by rewrite Hstale.
         + intros p Hp'. apply Hfs. by rewrite Hio. }
  intros wr pipe loads Htr Hpipe Hcfg Hloads Hfs. unfold K. clear K.
  pose proof (evolves_refl wr) as Hacc. wp_ops.
  destruct (negb _) eqn:Hdir.
  { (* the folder is not there *)
    wp_step. exists pipe, loads, []. rewrite app_nil_r.
    split; [done|]. split; [done|]. split; [constructor|].
    split. { exists []. split; [constructor|done]. }
    split; [by exists Preparing|]. split; [by eexists|]. by right. }
  wp_ops. clear Hdir.
  assert (Hraise : forall (e : exn) w4, evolves [] wr w4 ->
             exists pipe0 loads0 rest,
               trace (io w4) = trace (io w) ++ loads0 ++ rest
               /\ (if stale (batch_current_config a model_choice) w
                   then loads0 = [EvLoad pipe0]
                   else loads0 = [] /\ loaded_pipeline (py w) = Some pipe0)
               /\ Forall (in_loop batch_poll (Some pipe0) (batch_seed_ok a)) rest
               /\ (exists images,
                     Forall (fun f => is_image_file f = true) images
                     /\ omap batch_poll_file rest `prefix_of` images)
               /\ (exists s, monitor batch_poll Preparing rest = Some s
                             /\ s <> Cancelled)
               /\ (Batch.skip_overwrite a = true ->
                   is_Some (skip_monitor (batch_present a w) Free rest))
               /\ loaded_pipeline (py w4) = Some pipe0
               /\ loaded_pipeline_config (py w4) = batch_current_config a model_choice).
  { intros _ w4 Hev. exists pipe, loads, []. rewrite app_nil_r.
    split; [by rewrite (ev_trace _ _ _ Hev), app_nil_r|]. split; [done|].
    split; [constructor|]. split. { exists []. split; [constructor|done]. }
    split; [by exists Preparing|]. split; [by eexists|].
    by rewrite (ev_pipe _ _ _ Hev), (ev_config _ _ _ Hev). }
  eapply wp_mono.
  { instantiate (1 := fun c w4 =>
      evolves [] wr w4 /\ match c with
                          | Normal _ | Raises _ => True
                          | _ => False
                          end).
    wp_auto; done. }
  intros c w4 [Hacc4 Hc]. clear Hacc.
  destruct c as [log| | | |e]; try done; cbn [after].
  2: { by apply (Hraise e). }
  wp_step. apply wp_os_listdir; [by apply (Hraise OSError)|]. intros _. cbn [after].
  wp_step. eapply wp_mono.
  { apply (batch_loop_outcome a _ _ (batch_present a w)).
    intros f Hf. apply (ev_fs _ _ _ Hacc4), Hfs. by apply bool_decide_eq_true_1 in Hf. }
  intros c wl (t & Hev & Hf & Hpre & Hm & Hsk).
  destruct (Hm Preparing ltac:(done)) as (s & Hs & Hcase). clear Hm.
  pose proof (evolves_trans _ _ _ _ _ Hacc4 Hev) as Hall. cbn [app] in Hall.
  rewrite (ev_pipe _ _ _ Hacc4), Hpipe in Hf.
  assert (Himages : exists images,
             Forall (fun f => is_image_file f = true) images
             /\ omap batch_poll_file t `prefix_of` images).
  { eexists. split; [|done]. apply Forall_forall. intros f Hin.
    apply list_elem_of_In, filter_In in Hin. tauto. }
  assert (Hskip : Batch.skip_overwrite a = true ->
             is_Some (skip_monitor (batch_present a w) Free t)) by auto.
  destruct c as [log'| | | |e]; try done; cbn [after].
  - wp_ops. exists pipe, loads, t.
    split.
    { match goal with H : trace (io _) = trace (io wl) |- _ => rewrite H end.
      by rewrite (ev_trace _ _ _ Hall), Htr, app_assoc. }
    split; [done|]. split; [done|]. split; [done|].
    split; [by exists s|]. split; [done|]. by left.
  - exists pipe, loads, t.
    split; [by rewrite (ev_trace _ _ _ Hall), Htr, app_assoc|].
    split; [done|]. split; [done|]. split; [done|].
    split; [by exists s|]. split; [done|].
    by rewrite (ev_pipe _ _ _ Hall), (ev_config _ _ _ Hall).
Qed.

(** ** Views of the outcome of a call *)

Lemma in_loop_not_load (poll : event -> option bool) (pipe : option pipeline)
    (ok : Z -> Prop) (t : list event) :
  Forall (in_loop poll pipe ok) t ->
  (forall e, is_load e = true -> poll e = None) ->
  List.filter is_load t = [].
Proof.
  intros Ht Hpoll. induction Ht as [|e t He Ht IH]; [done|].
  cbn. destruct (is_load e) eqn:El; [|done]. exfalso.
  destruct He as [[b Hb]|He]; [by rewrite (Hpoll e El) in Hb|]. by destruct e.
Qed.

Lemma in_loop_generate (poll : event -> option bool) (pipe : option pipeline)
    (ok : Z -> Prop) (t : list event) (p : pipeline) (args : call_args) :
  Forall (in_loop poll pipe ok) t ->
  poll (EvGenerate p args) = None ->
  EvGenerate p args ∈ t -> pipe = Some p /\ ok (arg_seed args).
Proof.
  intros Ht Hpoll Hin. rewrite Forall_forall in Ht.
  destruct (Ht _ Hin) as [[b Hb]|He]; [by rewrite Hpoll in Hb|done].
Qed.

Lemma monitor_cancelled (poll : event -> option bool) (t : list event) (s : phase) :
  monitor poll Cancelled t = Some s -> t = [].
Proof. by destruct t. Qed.

(** A poll that finds the flag set is the last event of an accepted
    trace. *)
Lemma monitor_after_cancel (poll : event -> option bool) (s0 s : phase)
    (pre post : list event) (e : event) :
  monitor poll s0 (pre ++ e :: post) = Some s ->
  poll e = Some true -> post = [] /\ s = Cancelled.
Proof.
  rewrite monitor_app. destruct (monitor poll s0 pre) as [s1|]; [|done].
  cbn. intros Hm He. unfold monitor_step in Hm. rewrite He in Hm.
  destruct s1; try done.
  - pose proof (monitor_cancelled _ _ _ Hm) as ->. cbn in Hm. by injection Hm as <-.
  - pose proof (monitor_cancelled _ _ _ Hm) as ->. cbn in Hm. by injection Hm as <-.
Qed.

Lemma generate_videos_run (a : Gen.inputs) (w : world) :
  gen_call_post a w (generate_videos a w).1 (generate_videos a w).2.
Proof. apply generate_videos_outcome. Qed.

Lemma batch_process_videos_run (a : Batch.inputs) (w : world) :
  batch_call_post a w (batch_process_videos a w).1 (batch_process_videos a w).2.
Proof. apply batch_process_videos_outcome. Qed.

Lemma generate_iteration_run (a : Gen.inputs) (v : Gen.frame_vars) (p : string)
    (loc : Gen.locals) (w : world) :
  gen_iteration_post a v loc w (generate_iteration a v p loc w).1
    (generate_iteration a v p loc w).2.
Proof. apply generate_iteration_outcome. Qed.

Lemma batch_iteration_run (a : Batch.inputs) (target_width target_height : Z)
    (image_file log_text : string) (w : world) :
  batch_iteration_post a image_file w
    (batch_iteration a target_width target_height image_file log_text w).1
    (batch_iteration a target_width target_height image_file log_text w).2.
Proof. apply batch_iteration_outcome. Qed.

(** The events a call of [generate_videos] adds to the trace are
    accepted by the monitor. *)
Lemma generate_videos_monitored (a : Gen.inputs) (w : world) :
  exists t s,
    trace (io (generate_videos a w).2) = trace (io w) ++ t
    /\ monitor gen_poll Preparing t = Some s
    /\ (polls gen_poll t <= gen_budget a)%nat
    /\ (s = Cancelled ->
        exists log seed, (generate_videos a w).1 = Returns ("", log, seed)).
Proof.
  pose proof (generate_videos_run a w) as H. unfold gen_call_post in H.
  destruct (generate_videos a w) as [c w'] eqn:E. cbn [fst snd] in *.
  destruct (gen_model_choice (Gen.model_choice_radio a)) as [model_choice|].
  - destruct H as (t & Ht & [(e & -> & -> & _)|(pipe & loads & rest & -> & Hl & Hf & Hp & s & Hs & Hc)]).
    + exists [], Preparing. split; [done|]. split; [done|]. split; [cbn; lia|done].
    + exists (loads ++ rest), s. split; [done|].
      assert (Hloads : monitor gen_poll Preparing loads = Some Preparing
                       /\ polls gen_poll loads = 0%nat).
      { destruct (stale _ _); [by subst|by destruct Hl as [-> _]]. }
      destruct Hloads as [Hm0 Hp0].
      split; [by rewrite monitor_app, Hm0|]. split; [rewrite polls_app; lia|].
      intros ->. destruct c as [|[[path log] seed]| | |]; try done.
      * destruct Hc as (_ & -> & _). by eexists _, _.
      * by destruct Hc.
  - destruct H as (-> & _ & Ht & _). exists [], Preparing.
    rewrite app_nil_r. split; [done|]. split; [done|]. split; [cbn; lia|done].
Qed.

Lemma batch_process_videos_monitored (a : Batch.inputs) (w : world) :
  exists t s images,
    trace (io (batch_process_videos a w).2) = trace (io w) ++ t
    /\ monitor batch_poll Preparing t = Some s
    /\ Forall (fun f => is_image_file f = true) images
    /\ omap batch_poll_file t `prefix_of` images
    /\ (s = Cancelled -> exists log, (batch_process_videos a w).1 = Returns log).
Proof.
  pose proof (batch_process_videos_run a w) as H. unfold batch_call_post in H.
  destruct (batch_process_videos a w) as [c w'] eqn:E. cbn [fst snd] in *.
  destruct (batch_model_choice (Batch.model_choice_radio a)) as [model_choice|].
  - destruct H as (pipe & loads & rest & Ht & Hl & Hf & (images & Him & Hpre)
                   & (s & Hs & Hc) & _ & Hend).
    assert (Hloads : monitor batch_poll Preparing loads = Some Preparing
                     /\ omap batch_poll_file loads = []).
    { destruct (stale _ _); [by subst|by destruct Hl as [-> _]]. }
    destruct Hloads as [Hm0 Hp0].
    exists (loads ++ rest), s, images. split; [done|].
    split; [by rewrite monitor_app, Hm0|]. split; [done|].
    split; [by rewrite omap_app, Hp0|].
    intros ->. destruct c; try done. by eexists.
  - destruct H as ((log & ->) & _ & Ht & _). exists [], Preparing, [].
    rewrite app_nil_r. split; [done|]. split; [done|]. split; [done|].
    split; [done|]. by eexists.
Qed.

(** C2. Cancellation is cooperative.  An iteration of the loop of
    [generate_videos] reads [cancel_flag] once, before anything else it
    does to the outside, and one that finds it set does nothing more and
    returns with an empty video path.  Over a whole call, the events
    follow the monitor: the pipeline is called and a video saved at most
    once per poll, there are no more polls than iterations asked for,
    and a poll that finds the flag set is the last event of the call,
    which then returns an empty video path.  The same holds of
    [batch_process_videos] and [cancel_batch_flag], with one poll per
    image file, in the order of the files, and a break out of the loop
    in place of the return. *)
Theorem cancellation_is_polled_once_per_iteration :
  (forall a v p loc w,
     exists body,
       trace (io (generate_iteration a v p loc w).2)
       = trace (io w) ++ EvPoll (cancel_flag (py w)) :: body
       /\ polls gen_poll body = 0%nat
       /\ (cancel_flag (py w) = true ->
           body = []
           /\ exists log seed,
                (generate_iteration a v p loc w).1 = Returns ("", log, seed)))
  /\ (forall a w,
        exists t s,
          trace (io (generate_videos a w).2) = trace (io w) ++ t
          /\ monitor gen_poll Preparing t = Some s
          /\ (polls gen_poll t <= gen_budget a)%nat
          /\ forall pre post,
               t = pre ++ EvPoll true :: post ->
               post = []
               /\ exists log seed, (generate_videos a w).1 = Returns ("", log, seed))
  /\ (forall a target_width target_height image_file log_text w,
        exists body,
          trace (io (batch_iteration a target_width target_height image_file
                       log_text w).2)
          = trace (io w) ++ EvBatchPoll image_file (cancel_batch_flag (py w)) :: body
          /\ polls batch_poll body = 0%nat
          /\ (cancel_batch_flag (py w) = true ->
              body = []
              /\ exists log,
                   (batch_iteration a target_width target_height image_file
                      log_text w).1 = Breaks log))
  /\ (forall a w,
        exists t s images,
          trace (io (batch_process_videos a w).2) = trace (io w) ++ t
          /\ monitor batch_poll Preparing t = Some s
          /\ Forall (fun f => is_image_file f = true) images
          /\ omap batch_poll_file t `prefix_of` images
          /\ forall pre image_file post,
               t = pre ++ EvBatchPoll image_file true :: post ->
               post = []
               /\ exists log, (batch_process_videos a w).1 = Returns log).
Proof.
  split; [|split; [|split]].
  - intros a v p loc w. destruct (generate_iteration_run a v p loc w)
      as (body & Ht & Hbody & Hc).
    exists body. split; [done|].
    split; [by destruct (in_iteration_no_poll _ _ _ Hbody)|].
    intros Hflag. rewrite Hflag in Hc. destruct Hc as (-> & _ & log & ->).
    split; [done|]. by eexists _, _.
  - intros a w. destruct (generate_videos_monitored a w) as (t & s & Ht & Hm & Hp & Hc).
    exists t, s. split; [done|]. split; [done|]. split; [done|].
    intros pre post ->. destruct (monitor_after_cancel _ _ _ _ _ _ Hm eq_refl) as [-> ->].
    split; [done|]. by apply Hc.
  - intros a tw th f log w. destruct (batch_iteration_run a tw th f log w)
      as (body & Hev & Hbody & Hc).
    exists body. split; [apply (ev_trace _ _ _ Hev)|].
    split; [by destruct (in_iteration_no_poll _ _ _ Hbody)|].
    intros Hflag. rewrite Hflag in Hc. destruct Hc as (-> & log' & ->).
    split; [done|by eexists].
  - intros a w. destruct (batch_process_videos_monitored a w)
      as (t & s & images & Ht & Hm & Him & Hpre & Hc).
    exists t, s, images. split; [done|]. split; [done|]. split; [done|].
    split; [done|]. intros pre f post ->.
    destruct (monitor_after_cancel _ _ _ _ _ _ Hm eq_refl) as [-> ->].
    split; [done|]. by apply Hc.
Qed.

(** ** The pipeline cache *)

Lemma loads_of_call (poll : event -> option bool) (pipe : pipeline)
    (ok : Z -> Prop) (cond : bool) (loads rest : list event) :
  (forall e, is_load e = true -> poll e = None) ->
  (if cond then loads = [EvLoad pipe] else loads = []) ->
  Forall (in_loop poll (Some pipe) ok) rest ->
  List.filter is_load (loads ++ rest) = if cond then [EvLoad pipe] else [].
Proof.
  intros Hpoll Hl Hrest. rewrite List.filter_app, (in_loop_not_load _ _ _ _ Hrest Hpoll).
  rewrite app_nil_r. by destruct cond; subst.
Qed.

(** C3, as the code has it.  A call that gets as far as the check of
    the configuration loads the pipeline exactly when no pipeline is
    loaded or the cached configuration differs from the record of the
    call (model, torch dtype, persistent parameters, LoRA path, LoRA
    scale), and loads it once; every call of the pipeline made during
    the call then uses that pipeline, which is the cached one when
    nothing was loaded.  A call that ends before the check loads
    nothing: [generate_videos] on a model it does not recognise or when
    the crop of the input video of the 1.3B model raises,
    [batch_process_videos] on a model other than the two image-to-video
    ones. *)
Theorem pipeline_loaded_iff_configuration_changed :
  (forall a w,
     match gen_model_choice (Gen.model_choice_radio a) with
     | None => trace (io (generate_videos a w).2) = trace (io w)
     | Some model_choice =>
         exists t,
           trace (io (generate_videos a w).2) = trace (io w) ++ t
           /\ ((exists e, (generate_videos a w).1 = Raises e /\ t = []
                          /\ model_choice = "1.3B")
               \/ exists pipe,
                    List.filter is_load t
                    = (if stale (gen_current_config a model_choice) w
                       then [EvLoad pipe] else [])
                    /\ (stale (gen_current_config a model_choice) w = false ->
                        loaded_pipeline (py w) = Some pipe)
                    /\ forall p args, EvGenerate p args ∈ t -> p = pipe)
     end)
  /\ (forall a w,
        match batch_model_choice (Batch.model_choice_radio a) with
        | None => trace (io (batch_process_videos a w).2) = trace (io w)
        | Some model_choice =>
            exists t pipe,
              trace (io (batch_process_videos a w).2) = trace (io w) ++ t
              /\ List.filter is_load t
                 = (if stale (batch_current_config a model_choice) w
                    then [EvLoad pipe] else [])
              /\ (stale (batch_current_config a model_choice) w = false ->
                  loaded_pipeline (py w) = Some pipe)
              /\ forall p args, EvGenerate p args ∈ t -> p = pipe
        end).
Proof.
  split.
  - intros a w. pose proof (generate_videos_run a w) as H. unfold gen_call_post in H.
    destruct (gen_model_choice (Gen.model_choice_radio a)) as [model_choice|];
      [|by destruct H as (_ & _ & ? & _)].
    destruct H as (t & Ht & [(e & He & -> & _ & Hm)
                            |(pipe & loads & rest & -> & Hl & Hf & _)]).
    + exists []. split; [done|]. left. by exists e.
    + exists (loads ++ rest). split; [done|]. right. exists pipe.
      split; [|split].
      * apply (loads_of_call gen_poll pipe (gen_seed_ok a)); [by intros []| |done].
        destruct (stale _ _); [done|by destruct Hl].
      * intros Hs. rewrite Hs in Hl. by destruct Hl.
      * intros p args Hin. apply elem_of_app in Hin as [Hin|Hin].
        -- destruct (stale _ _); [|destruct Hl as [-> _]]; subst;
             by repeat (apply elem_of_cons in Hin as [?|Hin]; [done|]);
             apply elem_of_nil in Hin.
        -- destruct (in_loop_generate _ _ _ _ _ _ Hf eq_refl Hin) as [[= ->] _]. done.
  - intros a w. pose proof (batch_process_videos_run a w) as H.
    unfold batch_call_post in H.
    destruct (batch_model_choice (Batch.model_choice_radio a)) as [model_choice|];
      [|by destruct H as (_ & _ & ? & _)].
    destruct H as (pipe & loads & rest & Ht & Hl & Hf & _).
    exists (loads ++ rest), pipe. split; [done|]. split; [|split].
    + apply (loads_of_call batch_poll pipe (batch_seed_ok a)); [by intros []| |done].
      destruct (stale _ _); [done|by destruct Hl].
    + intros Hs. rewrite Hs in Hl. by destruct Hl.
    + intros p args Hin. apply elem_of_app in Hin as [Hin|Hin].
      * destruct (stale _ _); [|destruct Hl as [-> _]]; subst;
          by repeat (apply elem_of_cons in Hin as [?|Hin]; [done|]);
          apply elem_of_nil in Hin.
      * destruct (in_loop_generate _ _ _ _ _ _ Hf eq_refl Hin) as [[= ->] _]. done.
Qed.

(** A call that ends before the check: no pipeline is loaded when
    [batch_process_videos] is called for the 1.3B model, and it loads
    none. *)
Lemma no_load_before_the_check :
  let w := fresh_world [] in
  let a := batch_inputs_for MODEL_1_3B "in" false in
  loaded_pipeline (py w) = None
  /\ stale (batch_current_config a "14B_image_480p") w = true
  /\ List.filter is_load (trace (io (batch_process_videos a w).2)) = []
  /\ exists log, (batch_process_videos a w).1 = Returns log.
Proof. cbv zeta. split; [done|]. split; [done|]. split; [done|]. by eexists. Qed.

(** ** Errors detected by [generate_videos] *)

(** C5, as the code has it.  The errors [generate_videos] detects end
    the call with an empty video path and a message, without an
    exception and without a call of the pipeline, but only one of them
    is printed.  A model choice that is not recognised returns
    [Invalid model choice.] at once and prints nothing.  An
    image-to-video model without an image returns an empty video path
    with the pipeline unloaded, having called no pipeline and saved no
    video; if an iteration was started, the message is the one about
    the missing image and it is the last line printed.  Inside the
    loop, for the model identifiers [generate_videos] derives, that is
    the only error return: the branch for an invalid combination of
    inputs is never taken. *)
Theorem generate_videos_error_returns :
  (forall a w,
     gen_model_choice (Gen.model_choice_radio a) = None ->
     (generate_videos a w).1 = Returns ("", ERR_INVALID_MODEL, "")
     /\ stdout (io (generate_videos a w).2) = stdout (io w)
     /\ trace (io (generate_videos a w).2) = trace (io w))
  /\ (forall a w model_choice,
        gen_model_choice (Gen.model_choice_radio a) = Some model_choice ->
        needs_image a model_choice ->
        exists log seed t,
          (generate_videos a w).1 = Returns ("", log, seed)
          /\ unloaded (generate_videos a w).2
          /\ trace (io (generate_videos a w).2) = trace (io w) ++ t
          /\ (forall p args, EvGenerate p args ∉ t)
          /\ (forall path, EvSaveVideo path ∉ t)
          /\ (EvPoll false ∈ t ->
              log = ERR_NO_IMAGE
              /\ last (stdout (io (generate_videos a w).2)) = Some ERR_NO_IMAGE))
  /\ (forall a v p loc w radio r,
        gen_model_choice radio = Some (Gen.model_choice v) ->
        cancel_flag (py w) = false ->
        (generate_iteration a v p loc w).1 = Returns r ->
        needs_image a (Gen.model_choice v)
        /\ unloaded (generate_iteration a v p loc w).2
        /\ last (stdout (io (generate_iteration a v p loc w).2)) = Some ERR_NO_IMAGE
        /\ trace (io (generate_iteration a v p loc w).2)
           = trace (io w) ++ [EvPoll false]
        /\ exists seed, r = ("", ERR_NO_IMAGE, seed)).
Proof.
  split; [|split].
  - intros a w Hm. pose proof (generate_videos_run a w) as H.
    unfold gen_call_post in H. rewrite Hm in H. by destruct H as (? & ? & ? & _).
  - intros a w model_choice Hm Hneed. pose proof (generate_videos_run a w) as H.
    unfold gen_call_post in H. rewrite Hm in H.
    destruct H as (t & Ht & [(e & _ & _ & _ & ->)
                            |(pipe & loads & rest & -> & Hl & Hf & Hp & s & Hs & Hc)]).
    { by destruct Hneed. }
    destruct (generate_videos a w) as [c w'] eqn:E. cbn [fst snd] in *.
    destruct c as [|[[path log] seed]| | |e]; try done.
    2: { by destruct Hc as (_ & _ & _ & ?). }
    destruct Hc as (Hu & Hcase & Hrest). specialize (Hrest Hneed).
    assert (Hloads : forall e, e ∈ loads -> exists q, e = EvLoad q).
    { intros e He. destruct (stale _ _); [|destruct Hl as [-> _]]; subst.
      - apply list_elem_of_singleton in He. by eexists.
      - by apply elem_of_nil in He. }
    assert (Hshape : forall e, e ∈ loads ++ rest ->
              (exists q, e = EvLoad q) \/ exists flag, e = EvPoll flag /\ rest = [e]).
    { intros e He. apply elem_of_app in He as [He|He]; [left; by apply Hloads|].
      right. destruct Hrest as [->|[flag ->]]; [by apply elem_of_nil in He|].
      apply list_elem_of_singleton in He. subst e. by exists flag. }
    assert (Hpath : path = "").
    { destruct Hrest as [->|[flag ->]].
      - cbn in Hs. injection Hs as <-. by destruct Hcase as (_ & [[_ ->]|?]).
      - destruct flag; cbn in Hs; injection Hs as <-; [done|by destruct Hcase]. }
    subst path. exists log, seed, (loads ++ rest).
    split; [done|]. split; [done|]. split; [done|]. split; [|split].
    + intros p args Hin. by destruct (Hshape _ Hin) as [[q ?]|(flag & ? & _)].
    + intros path Hin. by destruct (Hshape _ Hin) as [[q ?]|(flag & ? & _)].
    + intros Hin. destruct (Hshape _ Hin) as [[q ?]|(flag & [= <-] & ->)]; [done|].
      cbn in Hs. injection Hs as <-. destruct Hcase as (_ & -> & _ & Hlast). done.
  - intros a v p loc w radio r Hm Hflag Hr.
    pose proof (generate_iteration_run a v p loc w) as H.
    destruct H as (body & Ht & _ & Hc). rewrite Hflag, Hr in *.
    destruct Hc as (g & sv & _ & -> & Hu & msg & seed & -> & Hlast & Hwhy).
    destruct (gen_model_choice_known _ _ Hm) as [_ Hvalid].
    destruct Hwhy as [(-> & Hn)|(_ & Hbad)]; [|done].
    split; [done|]. split; [done|]. split; [done|]. split; [done|]. by exists seed.
Qed.

(** A model choice that is not recognised: the message is returned, and
    nothing is printed. *)
Lemma unrecognised_model_prints_nothing :
  let w := fresh_world [] in
  let a := gen_inputs_for "WAN 3" None 1 in
  (generate_videos a w).1 = Returns ("", "Invalid model choice.", "")
  /\ stdout (io (generate_videos a w).2) = [].
Proof. cbv zeta. split; reflexivity. Qed.

Lemma generate_videos_error_returns_witness :
  let w := fresh_world [] in
  let a := gen_inputs_for MODEL_14B_IMAGE_720P None 1 in
  exists log seed t,
    (generate_videos a w).1 = Returns ("", log, seed)
    /\ unloaded (generate_videos a w).2
    /\ trace (io (generate_videos a w).2) = trace (io w) ++ t
    /\ (forall p args, EvGenerate p args ∉ t)
    /\ (forall path, EvSaveVideo path ∉ t)
    /\ (EvPoll false ∈ t ->
        log = ERR_NO_IMAGE
        /\ last (stdout (io (generate_videos a w).2)) = Some ERR_NO_IMAGE).
Proof.
  cbv zeta.
  apply (proj1 (proj2 generate_videos_error_returns) _ _ "14B_image_720p");
    [reflexivity|split; reflexivity].
Defined.

(** ** The cache at the end of a call *)

Lemma wp_conj {R S A} (m : M R S A) (Q1 Q2 : ctl R S A -> world -> Prop) (w : world) :
  wp m Q1 w -> wp m Q2 w -> wp m (fun c w' => Q1 c w' /\ Q2 c w') w.
Proof. unfold wp. auto. Qed.

Ltac wp_raw_step :=
  lazymatch goal with
  | |- wp interface_runs _ _ => fail
  | |- wp (mbind _ _) _ _ => apply wp_bind
  | |- wp (mret _) _ _ => apply wp_ret
  | |- wp get_world _ _ => apply wp_get_world
  | |- wp (modify _) _ _ => apply wp_modify
  | |- wp (raise _) _ _ => apply wp_raise
  | |- wp (try_except _ _) _ _ => apply wp_try_except
  | |- _ => wp_case
  end; cbn [after].

Ltac wp_raw := repeat wp_raw_step.

Section Files.
Context {R S : Type}.

(** Loading the pipeline reads and writes no file of the model's file
    system. *)
Lemma handle_clicks_files (l : list ui_event) (w : world) :
  fs (io (@handle_clicks R S l w).2) = fs (io w).
Proof.
  revert w. induction l as [|e l IH]; intros w; [done|].
  destruct e; cbn [handle_clicks handle_click];
    unfold cancel_generation, cancel_batch_process, print; mstep; by rewrite IH.
Qed.

Lemma interface_runs_files (w : world) :
  fs (io (@interface_runs R S w).2) = fs (io w).
Proof.
  unfold interface_runs. mstep. destruct (ui_events (env w)); [done|].
  cbn. by rewrite handle_clicks_files.
Qed.

Lemma wp_interface_runs_files (Q : ctl R S unit -> world -> Prop) (w : world) :
  (forall w', fs (io w') = fs (io w) -> Q (Normal tt) w') -> wp interface_runs Q w.
Proof.
  intros H. unfold wp.
  assert (Hn : (@interface_runs R S w).1 = Normal tt).
  { pose proof (wp_interface_runs (R := R) (S := S)
                  (fun c _ => c = Normal tt) w (fun _ _ => eq_refl)) as Hw. exact Hw. }
  rewrite Hn. apply H, interface_runs_files.
Qed.

Lemma reload_if_changed_files (msg_lora msg_base : string)
    (model_choice torch_dtype vram_value : string)
    (effective_lora_model : option string) (lora_alpha : Qc) (w : world) :
  wp (reload_if_changed (R := R) (S := S) msg_lora msg_base model_choice torch_dtype
        vram_value effective_lora_model lora_alpha)
    (fun _ w' => fs (io w') = fs (io w)) w.
Proof.
  unfold reload_if_changed, load_wan_pipeline, print, emit.
  wp_raw; try done.
  all: apply wp_interface_runs_files; intros w' Hw'; cbn [after]; wp_raw; done.
Qed.

End Files.

Lemma make_config_nonempty (model_choice torch_dtype vram_value : string)
    (lora : option string) (lora_alpha : Qc) :
  make_config model_choice torch_dtype vram_value lora lora_alpha <> ∅.
Proof.
  intros H. apply (f_equal (fun m => m !! "model_choice")) in H.
  unfold make_config in H. cbn [list_to_map foldr uncurry] in H.
  rewrite lookup_insert_eq, lookup_empty in H. discriminate H.
Qed.

(** C8 fails on one return path.  When [batch_process_videos] is asked
    for an image-to-video model and the input folder is not a
    directory, it returns after the check of the configuration without
    resetting the cache: the pipeline stays loaded, with the
    configuration of the call. *)
Theorem batch_missing_folder_keeps_pipeline (a : Batch.inputs) (w : world)
    (model_choice : string) :
  batch_model_choice (Batch.model_choice_radio a) = Some model_choice ->
  fs_lookup (Batch.folder_path a) (fs (io w)) <> Some Dir ->
  exists log pipe,
    (batch_process_videos a w).1 = Returns log
    /\ loaded_pipeline (py (batch_process_videos a w).2) = Some pipe
    /\ loaded_pipeline_config (py (batch_process_videos a w).2)
       = batch_current_config a model_choice
    /\ batch_current_config a model_choice <> ∅.
Proof.
  intros Hm Hdir.
  enough (Hwp : wp (batch_process_videos a)
            (fun c w' =>
               exists log pipe,
                 c = Returns log
                 /\ loaded_pipeline (py w') = Some pipe
                 /\ loaded_pipeline_config (py w') = batch_current_config a model_choice
                 /\ batch_current_config a model_choice <> ∅) w) by exact Hwp.
  unfold batch_process_videos. do 2 wp_step.
  remember (set_py (with_cancel_batch_flag false) w) as w1 eqn:Ew1.
  assert (Hio : io w1 = io w) by (by subst).
  assert (Hcache : same_cache w w1) by (by subst).
  clear Ew1.
  assert (Hid : (if bool_decide (Batch.model_choice_radio a = MODEL_14B_IMAGE_720P)
                 then "14B_image_720p" else "14B_image_480p") = model_choice
                /\ negb (bool_decide (Batch.model_choice_radio a = MODEL_14B_IMAGE_720P)
                         || bool_decide (Batch.model_choice_radio a
                                         = MODEL_14B_IMAGE_480P)) = false).
  { unfold batch_model_choice in Hm. by repeat case_bool_decide; simplify_eq. }
  destruct Hid as [-> ->]. do 2 wp_step.
  pose proof (batch_model_choice_known _ _ Hm) as Hknown.
  wp_step. eapply wp_mono.
  { apply (wp_conj _
             (fun c w' =>
                c = Normal tt
                /\ exists pipe,
                     loaded_pipeline (py w') = Some pipe
                     /\ loaded_pipeline_config (py w')
                        = batch_current_config a model_choice)
             (fun _ w' => fs (io w') = fs (io w1)));
      [|apply reload_if_changed_files].
    apply wp_reload_if_changed; [done|..]; fold (batch_current_config a model_choice).
    - intros Hs. unfold stale in Hs. apply orb_false_iff in Hs as [Hs1 Hs2].
      split; [done|]. destruct (loaded_pipeline (py w1)) as [pipe|]; [|done].
      exists pipe. split; [done|]. apply bool_decide_eq_false_1 in Hs2.
      by destruct (decide (loaded_pipeline_config (py w1)
                           = batch_current_config a model_choice)).
    - intros _ pipe w2 _ Hp Hc _. split; [done|]. by exists pipe. }
  intros c w2 [(-> & pipe & Hp & Hc) Hfs]. cbn [after].
  wp_ops. rewrite Hfs, Hio.
  destruct (fs_lookup (Batch.folder_path a) (fs (io w))) as [[|content]|]; [done|..];
    cbn [negb]; wp_ops; eexists _, pipe; (split; [done|]); (split; [done|]);
    (split; [done|]); apply make_config_nonempty.
Qed.

(** The call on which the cache is left loaded: an image-to-video model,
    a folder that is not there, and the globals as the module sets them
    at start. *)
Lemma batch_missing_folder_keeps_pipeline_witness :
  let a := batch_inputs_for MODEL_14B_IMAGE_720P "missing" false in
  let w := fresh_world [] in
  loaded_pipeline (py w) = None
  /\ exists log pipe,
       (batch_process_videos a w).1 = Returns log
       /\ loaded_pipeline (py (batch_process_videos a w).2) = Some pipe
       /\ loaded_pipeline_config (py (batch_process_videos a w).2)
          = batch_current_config a "14B_image_720p"
       /\ batch_current_config a "14B_image_720p" <> ∅.
Proof.
  cbv zeta. split; [reflexivity|].
  apply batch_missing_folder_keeps_pipeline; [reflexivity|discriminate].
Defined.

(** ** Seeds *)


(** ** Skipping existing outputs *)

(** C10. With [skip_overwrite] set, an image file whose output video
    (batch output folder, same base name, extension [.mp4]) is there is
    passed over.  Its iteration adds the poll to the trace and nothing
    else: no call of the pipeline, no video saved, no text file
    written; it goes on to the next file, unless reading its prompt
    file raised.  Over a whole call, for the files whose output was
    there when the call began, the poll of the file is followed by the
    next poll or by nothing. *)
Theorem skip_overwrite_skips_existing_outputs :
  (forall a target_width target_height image_file log_text w,
     Batch.skip_overwrite a = true ->
     cancel_batch_flag (py w) = false ->
     is_Some (fs_lookup (batch_output_filename a image_file) (fs (io w))) ->
     trace (io (batch_iteration a target_width target_height image_file log_text w).2)
     = trace (io w) ++ [EvBatchPoll image_file false]
     /\ match (batch_iteration a target_width target_height image_file log_text w).1 with
        | Continues _ | Raises OSError => True
        | _ => False
        end)
  /\ (forall a w,
        Batch.skip_overwrite a = true ->
        exists t,
          trace (io (batch_process_videos a w).2) = trace (io w) ++ t
          /\ is_Some (skip_monitor (batch_present a w) Free t)).
Proof.
  split.
  - intros a tw th f log w Hskip Hflag Hex.
    destruct (batch_iteration_run a tw th f log w) as (body & Hev & _ & Hc).
    rewrite Hflag in *. destruct Hc as (g & sv & _ & Hsk & _).
    destruct (Hsk Hskip Hex) as [-> Hc]. split; [apply (ev_trace _ _ _ Hev)|done].
  - intros a w Hskip. pose proof (batch_process_videos_run a w) as H.
    unfold batch_call_post in H.
    destruct (batch_model_choice (Batch.model_choice_radio a)) as [model_choice|].
    + destruct H as (pipe & loads & rest & Ht & Hl & _ & _ & _ & Hsk & _).
      exists (loads ++ rest). split; [done|]. rewrite skip_monitor_app.
      assert (Hloads : skip_monitor (batch_present a w) Free loads = Some Free).
      { destruct (stale _ _); [by subst|by destruct Hl as [-> _]]. }
      rewrite Hloads. by apply Hsk.
    + destruct H as (_ & _ & Ht & _). exists []. rewrite app_nil_r. split; [done|].
      by eexists.
Qed.

Lemma skip_overwrite_skips_existing_outputs_witness :
  let a := batch_inputs_for MODEL_14B_IMAGE_720P "in" true in
  let w := fresh_world batch_files in
  (trace (io (batch_iteration a 832 480 "cat.png" "" w).2)
   = trace (io w) ++ [EvBatchPoll "cat.png" false]
   /\ match (batch_iteration a 832 480 "cat.png" "" w).1 with
      | Continues _ | Raises OSError => True
      | _ => False
      end)
  /\ exists t,
       trace (io (batch_process_videos a w).2) = trace (io w) ++ t
       /\ is_Some (skip_monitor (batch_present a w) Free t).
Proof.
  cbv zeta. split.
  - apply (proj1 skip_overwrite_skips_existing_outputs); [reflexivity..|].
    vm_compute. by eexists.
  - apply (proj2 skip_overwrite_skips_existing_outputs). reflexivity.
Defined.

(** ** Videos to crop *)

(** C6 fails on videos whose frames scale down to nothing.  A video of
    1920 by 1080 is handled as the claim says: with two frames asked
    for, the file written next to the input has two frames of 832 by
    480 (each scaled to 832 by 468 and then resized).  A readable video
    of 1920 by 2 is scaled by 832/1920, the intermediate height is
    [int(2 * 0.4333)], which is 0, and the first [cv2.resize] raises:
    no path is returned, and the output file is left without a
    frame. *)
Theorem auto_crop_video_raises_on_thin_video :
  (let r := run (auto_crop_video "clip.avi" 832 480 2 16)
              (clip_world (video_of 1920 1080 3)) in
   r.1 = Ok "clip_cropped.mp4"
   /\ frames_at "clip_cropped.mp4" r.2
      = Some [Scaled 832 480 (Scaled 832 468 (Decoded 0 1080 1920));
              Scaled 832 480 (Scaled 832 468 (Decoded 1 1080 1920))]
   /\ (map shape <$> frames_at "clip_cropped.mp4" r.2) = Some [(480, 832); (480, 832)])
  /\ (let r := run (auto_crop_video "clip.avi" 832 480 2 16)
                 (clip_world (video_of 1920 2 3)) in
      r.1 = Err Cv2Error
      /\ last (stdout (io r.2))
         = Some "[CMD] Scaling factor: ?. New intermediate resolution: 832x0"
      /\ frames_at "clip_cropped.mp4" r.2 = Some []).
Proof. vm_compute. repeat split. Qed.

(** ** Instances *)


Example get_next_filename_numbered :
  (@get_next_filename unit unit ".mp4" (fresh_world outputs_files)).1
  = Normal "outputs/00008.mp4".
Proof. reflexivity. Qed.

Lemma update_vram_and_resolution_table_witness :
  exists choices,
    (@update_vram_and_resolution unit unit MODEL_14B_TEXT "20GB" (fresh_world [])).1
    = Normal ("12000000000", choices, "16:9").
Proof.
  apply (proj2 (proj2 (proj2 (proj2 (proj2 (proj2
           (update_vram_and_resolution_table (fresh_world [])))))))).
  unfold VRAM_PRESETS. intros H.
  repeat (apply elem_of_cons in H as [H|H]; [discriminate H|]).
  by apply elem_of_nil in H.
Defined.

Example cancel_during_first_generation :
  let r := run (generate_videos (gen_inputs_for MODEL_14B_TEXT None 2))
             cancelling_world in
  (exists log, r.1 = Ok ("", log, "42"))
  /\ (exists pipe args,
        trace (io r.2)
        = [EvLoad pipe; EvPoll false; EvGenerate pipe args;
           EvSaveVideo "outputs/00001.mp4"; EvWriteText "outputs/00001.txt";
           EvPoll true]
        /\ arg_seed args = 42)
  /\ loaded_pipeline (py r.2) = None.
Proof.
  vm_compute. split; [by eexists|]. split; [|done]. by eexists _, _.
Qed.

(** X1. Every return of [generate_videos] past the choice of the model
    leaves the cache empty, and so does every return of
    [batch_process_videos] that made at least one poll. *)
Theorem returns_leave_the_cache_empty :
  (forall a w model_choice r,
     gen_model_choice (Gen.model_choice_radio a) = Some model_choice ->
     (generate_videos a w).1 = Returns r ->
     unloaded (generate_videos a w).2)
  /\ (forall a w log image_file flag,
        (batch_process_videos a w).1 = Returns log ->
        EvBatchPoll image_file flag ∈ trace (io (batch_process_videos a w).2) ->
        EvBatchPoll image_file flag ∉ trace (io w) ->
        unloaded (batch_process_videos a w).2).
Proof.
  split.
  - intros a w model_choice r Hm Hr. pose proof (generate_videos_run a w) as H.
    unfold gen_call_post in H. rewrite Hm, Hr in H.
    destruct H as (t & _ & [(e & He & _)|(pipe & loads & rest & _ & _ & _ & _ & s & _ & Hc)]);
      [done|].
    destruct r as [[path log] seed]. by destruct Hc.
  - intros a w log f flag Hr Hin Hout. pose proof (batch_process_videos_run a w) as H.
    unfold batch_call_post in H. rewrite Hr in H.
    destruct (batch_model_choice (Batch.model_choice_radio a)) as [model_choice|].
    + destruct H as (pipe & loads & rest & Ht & Hl & _ & _ & _ & _ & [Hu|(-> & _)]);
        [done|].
      rewrite Ht, app_nil_r in Hin. apply elem_of_app in Hin as [Hin|Hin]; [done|].
      destruct (stale _ _); [|destruct Hl as [-> _]]; subst;
        by repeat (apply elem_of_cons in Hin as [?|Hin]; [done|]);
        apply elem_of_nil in Hin.
    + destruct H as (_ & _ & Ht & _). by rewrite Ht in Hin.
Qed.

Lemma returns_leave_the_cache_empty_witness :
  unloaded (generate_videos (gen_inputs_for MODEL_14B_TEXT None 1) (fresh_world [])).2.
Proof.
  eapply (proj1 returns_leave_the_cache_empty _ _ "14B_text");
    [reflexivity|vm_compute; reflexivity].
Defined.

(** X2. A video that cannot be opened: the path comes back as it was, and
    no file is written. *)
Theorem auto_crop_video_unopened (video_path : string)
    (target_width target_height desired_frame_count desired_fps : Z) (w : world) :
  (forall v, fs_lookup video_path (fs (io w)) <> Some (File (VideoFile v))) ->
  (run (auto_crop_video video_path target_width target_height desired_frame_count
          desired_fps) w).1 = Ok video_path
  /\ fs (io (run (auto_crop_video video_path target_width target_height
                    desired_frame_count desired_fps) w).2) = fs (io w).
Proof.
  intros Hv. unfold run, auto_crop_video, cv2_VideoCapture, print. mstep.
  destruct (fs_lookup video_path (fs (io w))) as [[|[]]|] eqn:E; try done.
  by destruct (Hv v).
Qed.

Lemma auto_crop_video_unopened_witness :
  (run (auto_crop_video "clip.avi" 832 480 2 16) (fresh_world [])).1 = Ok "clip.avi"
  /\ fs (io (run (auto_crop_video "clip.avi" 832 480 2 16) (fresh_world [])).2) = [].
Proof. apply auto_crop_video_unopened. intros v. discriminate. Defined.

(** The pipeline left loaded by a call for a folder that is not there is
    found by the next call, which loads nothing. *)
Example cache_persists_into_the_next_call :
  let first := batch_inputs_for MODEL_14B_IMAGE_720P "missing" true in
  let second := batch_inputs_for MODEL_14B_IMAGE_720P "in" true in
  let w1 := (batch_process_videos first (fresh_world batch_files)).2 in
  let w2 := (batch_process_videos second w1).2 in
  (exists pipe, trace (io w1) = [EvLoad pipe] /\ loaded_pipeline (py w1) = Some pipe)
  /\ stale (batch_current_config second "14B_image_720p") w1 = false
  /\ (exists pipe, trace (io w2) = [EvLoad pipe; EvBatchPoll "cat.png" false])
  /\ loaded_pipeline (py w2) = None.
Proof. vm_compute. split; [by eexists|]. split; [done|]. split; [by eexists|done]. Qed.

(** ** The handlers of the interface *)

Lemma dict_get_elem {V} (d : dict V) (k : string) (default : V) :
  k ∈ keys d -> (k, dict_get d k default) ∈ d.
Proof.
  induction d as [|[k' v] d IH]; cbn; [by intros ?%elem_of_nil|].
  intros H. case_bool_decide as E.
  - subst. apply elem_of_cons. by left.
  - apply elem_of_cons in H as [H|H]; [done|]. apply elem_of_cons. right. by apply IH.
Qed.

(** X3. Whatever aspect ratio and model it is given, [update_width_height]
    answers a width and a height that are positions of the two
    sliders it writes to: between 320 and 1536, in steps of 16. *)
Theorem update_width_height_on_sliders (aspect_ratio model_choice : string) :
  on_slider width_slider (update_width_height aspect_ratio model_choice).1
  /\ on_slider height_slider (update_width_height aspect_ratio model_choice).2.
Proof.
  unfold update_width_height.
  destruct (bool_decide (model_choice = MODEL_1_3B)
            || bool_decide (model_choice = MODEL_14B_IMAGE_480P)).
  - unfold ASPECT_RATIOS_1_3b. cbn [dict_get].
    repeat case_bool_decide; vm_compute; repeat split; discriminate.
  - unfold ASPECT_RATIOS_14b. cbn [dict_get].
    repeat case_bool_decide; vm_compute; repeat split; discriminate.
Qed.

(** X4. A change of model offers the aspect ratios of the table that
    [update_width_height] reads for that model, so that every ratio
    offered has a resolution of its own there; it selects 16:9, which
    is among them, sets the sliders to the resolution
    [update_width_height] gives for 16:9 and the text box to the value
    [update_vram_on_change] gives for the preset; it prints the model
    choice and changes nothing else. *)
Theorem update_model_settings_consistent {R S} (model_choice preset : string)
    (w : world) :
  exists choices width height num_persistent,
    update_model_settings (R := R) (S := S) model_choice preset w
    = (Normal ({| upd_choices := choices; upd_value := "16:9" |},
               width, height, num_persistent),
       set_io (fun d => with_stdout (stdout d ++ [model_choice]) d) w)
    /\ choices = keys (aspect_table model_choice)
    /\ "16:9" ∈ choices
    /\ (width, height) = update_width_height "16:9" model_choice
    /\ (update_vram_on_change (R := R) (S := S) preset model_choice w).1
       = Normal num_persistent
    /\ forall aspect_ratio,
         aspect_ratio ∈ choices ->
         (aspect_ratio, update_width_height aspect_ratio model_choice)
         ∈ aspect_table model_choice.
Proof.
  unfold update_model_settings, update_vram_on_change, update_vram_and_resolution,
    update_width_height, aspect_table, print.
  munfold.
  repeat case_bool_decide; cbn [orb fst snd];
    try (exfalso; unfold MODEL_1_3B, MODEL_14B_TEXT, MODEL_14B_IMAGE_720P,
           MODEL_14B_IMAGE_480P in *; congruence);
    eexists _, _, _, _; (split; [reflexivity|]);
    (split; [reflexivity|]); (split; [vm_compute; set_solver|]);
    (split; [reflexivity|]); (split; [reflexivity|]);
    intros aspect_ratio Hin; by apply dict_get_elem.
Qed.

(** X5. The value [update_vram_on_change] writes to the text box is,
    for every preset and model, the decimal text of an integer between
    0 and 70000000000 that [int] reads back; it is never the word
    none. *)
Theorem update_vram_on_change_parses {R S} (preset model_choice : string) (w : world) :
  exists text n,
    (update_vram_on_change (R := R) (S := S) preset model_choice w).1 = Normal text
    /\ Py.int text = Some n
    /\ text = Py.str_int n
    /\ 0 <= n <= 70000000000
    /\ Py.lower (Py.strip text) <> "none".
Proof.
  unfold update_vram_on_change, update_vram_and_resolution, print. munfold.
  repeat case_bool_decide; cbn [fst snd];
    unfold mapping_1_3b, mapping_14b_text, mapping_14b_image_720p,
      mapping_14b_image_480p, mapping_other; cbn [dict_get];
    repeat case_bool_decide;
    eexists _, _; (split; [reflexivity|]);
    (split; [vm_compute; reflexivity|]); (split; [vm_compute; reflexivity|]);
    (split; [lia|]); vm_compute; discriminate.
Qed.

(** ** The loader *)


(** ** The list of LoRA files *)

Lemma ascii_compare_trans (a b c : ascii) (x : comparison) :
  Ascii.compare a b = x -> Ascii.compare b c = x -> Ascii.compare a c = x.
Proof.
  unfold Ascii.compare. destruct x; intros H1 H2.
  - apply N.compare_eq in H1, H2. rewrite H1, H2. apply N.compare_refl.
  - rewrite N.compare_lt_iff in *. lia.
  - rewrite N.compare_gt_iff in *. lia.
Qed.

Lemma string_compare_lt_trans (a b c : string) :
  String.compare a b = Lt -> String.compare b c = Lt -> String.compare a c = Lt.
Proof.
  revert b c. induction a as [|x a IH]; intros [|y b] [|z c]; simpl; try done.
  destruct (Ascii.compare x y) eqn:Exy; try done;
    destruct (Ascii.compare y z) eqn:Eyz; try done; intros H1 H2.
  - apply Ascii.compare_eq_iff in Exy, Eyz. subst.
    assert (Ascii.compare z z = Eq) as -> by apply N.compare_refl. eauto.
  - apply Ascii.compare_eq_iff in Exy. subst. by rewrite Eyz.
  - apply Ascii.compare_eq_iff in Eyz. subst. by rewrite Exy.
  - by rewrite (ascii_compare_trans x y z Lt).
Qed.

Global Instance str_le_total : Total Py.str_le.
Proof. intros a b. apply String.leb_total. Qed.

Global Instance str_le_trans : Transitive Py.str_le.
Proof.
  intros a b c. unfold Py.str_le, String.leb.
  destruct (String.compare a b) eqn:Eab; [| |done].
  - apply String.compare_eq_iff in Eab. by subst.
  - destruct (String.compare b c) eqn:Ebc; [| |done]; intros _ _.
    + apply String.compare_eq_iff in Ebc. subst. by rewrite Eab.
    + by rewrite (string_compare_lt_trans a b c).
Qed.

(** A name listed in a directory is the name of an entry of it. *)
Lemma fs_children_lookup (d name : string) (f : list (string * node)) :
  name ∈ fs_children d f ->
  is_Some (fs_lookup (Py.join (norm_path d) "" +:+ name) f)
  /\ exists c l, Py.chars name = c :: l
                 /\ Forall (fun x => Py.is_sep x = false) (c :: l).
Proof.
  unfold fs_children. intros ([key nd] & Hin & Hc)%list_elem_of_omap.
  cbn [fst] in Hc. apply child_name_inv in Hc as (-> & c & l & Hn & Hsep).
  split; [|by eauto]. unfold fs_lookup.
  destruct (last_not_sep (Py.chars (Py.join (norm_path d) "")) (c :: l))
    as (c' & l' & Hrev & Hc'); [done|done|].
  rewrite (norm_path_id _ c' l'); [|by rewrite chars_app, Hn|done].
  destruct (assoc _ f) eqn:E; [done|].
  by apply (assoc_None_elem _ nd) in E.
Qed.

Lemma fs_children_app_self (d : string) (f : list (string * node)) (nd : node) :
  fs_children d (f ++ [(norm_path d, nd)]) = fs_children d f.
Proof.
  unfold fs_children. rewrite omap_app.
  destruct (child_name d (norm_path d)) as [name|] eqn:E;
    [|cbn -[child_name norm_path]; rewrite E; apply app_nil_r].
  apply child_name_inv in E as (E & c & l & Hn & _). exfalso.
  apply (f_equal Py.chars) in E. rewrite chars_app, Hn in E.
  apply (f_equal (@length ascii)) in E. revert E.
  unfold Py.join. change (Py.startswith "" "/") with false. cbv iota.
  destruct (bool_decide (norm_path d = "") || Py.endswith (norm_path d) "/");
    rewrite ?chars_app, ?length_app; cbn; lia.
Qed.

Lemma lora_file_path (f : string) (fs0 : list (string * node)) :
  f ∈ List.filter (fun f => Py.endswith f ".safetensors") (fs_children "LoRAs" fs0) ->
  Py.endswith f ".safetensors" = true
  /\ effective_lora (Some f) = Some ("LoRAs/" +:+ f)
  /\ is_Some (fs_lookup ("LoRAs/" +:+ f) fs0).
Proof.
  intros [Hin He]%list_elem_of_In%filter_In. apply list_elem_of_In in Hin.
  apply fs_children_lookup in Hin as (Hl & c & l & Hn & Hsep).
  split; [done|]. split; [|exact Hl].
  unfold effective_lora.
  rewrite (bool_decide_eq_false_2 (f = "None")) by (intros ->; discriminate He).
  rewrite (bool_decide_eq_false_2 (f = "")) by (intros ->; discriminate He).
  cbn [orb]. f_equal. unfold Py.join, Py.startswith.
  case_bool_decide as Hp; [|reflexivity].
  rewrite Hn in Hp. destruct Hp as [k Hk]. injection Hk as Hk _.
  apply Forall_inv in Hsep. unfold Py.is_sep in Hsep.
  apply bool_decide_eq_false in Hsep. congruence.
Qed.

(** X7. Refreshing the list of LoRAs offers the word None followed by
    the names listed in the folder [LoRAs] that end with
    [.safetensors], each once per listing and in ascending order, and
    selects None.  Every name offered is the name of an entry of the
    folder, and selecting it makes the generation functions load the
    path [LoRAs/name]; no file name can be taken for None.  A missing
    folder is created; a regular file in its place makes the listing
    fail with [OSError]. *)
Theorem refresh_lora_list_choices {R S} (w : world) :
  let r := refresh_lora_list (R := R) (S := S) w in
  match fs_lookup "LoRAs" (fs (io w)) with
  | Some (File _) => r.1 = Raises OSError /\ r.2 = w
  | _ =>
      exists files,
        r.1 = Normal {| upd_choices := "None" :: files; upd_value := "None" |}
        /\ files ≡ₚ lora_files w
        /\ StronglySorted Py.str_le files
        /\ fs_lookup "LoRAs" (fs (io r.2)) = Some Dir
        /\ forall f, f ∈ files ->
             Py.endswith f ".safetensors" = true
             /\ effective_lora (Some f) = Some ("LoRAs/" +:+ f)
             /\ is_Some (fs_lookup ("LoRAs/" +:+ f) (fs (io r.2)))
  end.
Proof.
  intros r. subst r.
  unfold refresh_lora_list, get_lora_choices, os_path_exists, os_makedirs, os_listdir,
    print, lora_files.
  munfold. cbn -[Py.sorted].
  destruct (fs_lookup "LoRAs" (fs (io w))) as [[|c]|] eqn:E; cbn -[Py.sorted].
  - rewrite E. cbn -[Py.sorted]. eexists. split; [reflexivity|]. unfold Py.sorted.
    split; [apply merge_sort_Permutation|].
    split; [apply StronglySorted_merge_sort; apply _|].
    split; [done|]. intros f Hf. rewrite merge_sort_Permutation in Hf.
    by apply lora_file_path.
  - rewrite E. cbn. by destruct w.
  - rewrite E. cbn -[Py.sorted]. unfold fs_lookup, fs_write in *.
    change (norm_path "LoRAs") with "LoRAs" in *.
    rewrite assoc_set_same. cbn -[Py.sorted]. rewrite assoc_set_fresh by exact E.
    pose proof (fs_children_app_self "LoRAs" (fs (io w)) Dir) as Hc.
    change (norm_path "LoRAs") with "LoRAs" in Hc. rewrite Hc.
    eexists. split; [reflexivity|]. unfold Py.sorted.
    split; [apply merge_sort_Permutation|].
    split; [apply StronglySorted_merge_sort; apply _|].
    split; [by rewrite <- (assoc_set_fresh _ _ _ E), assoc_set_same|].
    intros f Hf. rewrite merge_sort_Permutation in Hf.
    apply lora_file_path in Hf as (H1 & H2 & [nd H3]). split; [done|]. split; [done|].
    exists nd. unfold fs_lookup in *. by apply assoc_app_Some.
Qed.

(** ** The key of the pipeline cache *)

Lemma make_config_lookups (model_choice torch_dtype vram_value : string)
    (lora : option string) (lora_alpha : Qc) :
  let c := make_config model_choice torch_dtype vram_value lora lora_alpha in
  c !! "model_choice" = Some (PStr model_choice)
  /\ c !! "torch_dtype" = Some (PStr torch_dtype)
  /\ c !! "num_persistent" = Some (PStr vram_value)
  /\ c !! "lora_model" = Some (from_option PStr PNone lora)
  /\ c !! "lora_alpha" = Some (PNum lora_alpha).
Proof.
  unfold make_config. cbn [list_to_map foldr uncurry].
  repeat split;
    repeat (rewrite lookup_insert_ne by done); by rewrite lookup_insert_eq.
Qed.

Lemma make_config_inj (m d v m' d' v' : string) (l l' : option string) (a a' : Qc) :
  make_config m d v l a = make_config m' d' v' l' a'
  <-> m = m' /\ d = d' /\ v = v' /\ l = l' /\ a = a'.
Proof.
  split; [|by intros (-> & -> & -> & -> & ->)].
  intros H.
  destruct (make_config_lookups m d v l a) as (H1 & H2 & H3 & H4 & H5).
  destruct (make_config_lookups m' d' v' l' a') as (K1 & K2 & K3 & K4 & K5).
  cbv zeta in *. rewrite H in H1, H2, H3, H4, H5.
  rewrite K1 in H1. rewrite K2 in H2. rewrite K3 in H3. rewrite K4 in H4.
  rewrite K5 in H5.
  injection H1 as ->. injection H2 as ->. injection H3 as ->. injection H5 as ->.
  repeat split. destruct l, l'; cbn in H4; congruence.
Qed.

(** X8. With a pipeline cached for some settings, the check made before
    the loops loads nothing when it is asked for the same model, dtype,
    text of the persistent-parameters box, LoRA path and LoRA scale,
    and leaves the world as it is; when any of the five differs it
    loads a pipeline, once, and caches it under the new settings.  The
    scale counts even when no LoRA is selected, and the texts of the
    box are compared as texts. *)
Theorem reload_when_a_setting_changes {R S} (msg_lora msg_base : string)
    (old new : settings) (pipe : pipeline) (w : world) :
  loaded_pipeline (py w) = Some pipe ->
  loaded_pipeline_config (py w) = config_of old ->
  known_model (s_model_choice new) = true ->
  let r := reload_if_changed (R := R) (S := S) msg_lora msg_base
             (s_model_choice new) (s_torch_dtype new) (s_vram_value new)
             (s_lora new) (s_lora_alpha new) w in
  (old = new -> r = (Normal tt, w))
  /\ (old <> new ->
      exists pipe',
        r.1 = Normal tt
        /\ trace (io r.2) = trace (io w) ++ [EvLoad pipe']
        /\ loaded_pipeline (py r.2) = Some pipe'
        /\ loaded_pipeline_config (py r.2) = config_of new).
Proof.
  intros Hp Hc Hk r.
  assert (Hs : old = new <-> stale (config_of new) w = false).
  { unfold stale. rewrite Hp, Hc. cbn [is_none orb].
    rewrite bool_decide_eq_false. unfold config_of.
    split; [by intros -> ?|]. intros H.
    destruct (decide (make_config (s_model_choice old) (s_torch_dtype old)
                        (s_vram_value old) (s_lora old) (s_lora_alpha old)
                      = make_config (s_model_choice new) (s_torch_dtype new)
                          (s_vram_value new) (s_lora new) (s_lora_alpha new)))
      as [E|E]; [|done].
    apply make_config_inj in E. destruct old, new; cbn in E.
    by destruct E as (-> & -> & -> & -> & ->). }
  pose proof (wp_reload_if_changed (R := R) (S := S) msg_lora msg_base
    (s_model_choice new) (s_torch_dtype new) (s_vram_value new)
    (s_lora new) (s_lora_alpha new)
    (fun c w' =>
       c = Normal tt
       /\ if stale (config_of new) w
          then exists pipe', trace (io w') = trace (io w) ++ [EvLoad pipe']
                 /\ loaded_pipeline (py w') = Some pipe'
                 /\ loaded_pipeline_config (py w') = config_of new
          else w' = w) w Hk) as H.
  cbv zeta in H. unfold wp in H. fold r in H.
  destruct H as [H1 H2].
  - intros E. unfold config_of. by rewrite E.
  - intros E pipe' w' Ht Hl Hcfg _. unfold config_of. rewrite E. eauto.
  - split.
    + intros E. apply Hs in E. rewrite E in H2.
      destruct r as [c w']. cbn in *. by subst.
    + intros E. destruct (stale (config_of new) w); [|by destruct E; apply Hs].
      destruct H2 as (pipe' & ?). by exists pipe'.
Qed.

(** ** Successive output names *)

(** The name numbered [k] with the extension: where it is found, what
    it is listed as, and that its stem reads back as [k]. *)
Lemma numbered_name (extension : string) (k : Z) :
  is_extension extension = true ->
  let name := Py.format_05d k +:+ extension in
  Py.join "outputs" name = "outputs/" +:+ name
  /\ child_name "outputs" ("outputs/" +:+ name) = Some name
  /\ integer_named extension name k
  /\ norm_path ("outputs/" +:+ name) = "outputs/" +:+ name.
Proof.
  intros Hext name. subst name. set (stem := Py.format_05d k).
  destruct (format_05d_chars k) as (Hsep & c & l & Hrev & Hc).
  destruct (digit_not_special c Hc) as (_ & Hcs & Hcd & _).
  destruct (is_extension_inv extension Hext) as (body & Hbody & Hb).
  assert (Hsplit : Py.splitext (stem +:+ extension) = (stem, extension))
    by (eapply splitext_app; eauto).
  assert (Hnamesep : Forall (fun x => Py.is_sep x = false)
                       (Py.chars (stem +:+ extension))).
  { rewrite chars_app. apply Forall_app. split; [exact Hsep|].
    rewrite Hbody. constructor; [reflexivity|].
    eapply Forall_impl; [exact Hb|]. by intros x [? _]. }
  destruct (Py.chars (stem +:+ extension)) as [|c0 l0] eqn:Hname.
  { rewrite chars_app, Hbody in Hname. by destruct (Py.chars stem). }
  destruct (child_name_outputs _ c0 l0 Hname Hnamesep) as [Hjoin Hchild].
  rewrite Hjoin in Hchild. repeat split; try done.
  - apply endswith_app.
  - rewrite Hsplit. apply int_format_05d.
  - destruct (last_not_sep (Py.chars "outputs/") (c0 :: l0)) as (c1 & l1 & H1 & H2);
      [done|done|].
    eapply norm_path_id; [|exact H2]. rewrite chars_app, Hname. exact H1.
Qed.

(** The name [get_next_filename] picks is the name of no entry. *)
Lemma next_name_free (extension : string) (fs0 : list (string * node)) :
  is_extension extension = true ->
  let n := max_default (current_numbers (fs_children "outputs" fs0) extension) 0 in
  fs_lookup ("outputs/" +:+ Py.format_05d (n + 1) +:+ extension) fs0 = None.
Proof.
  intros Hext n.
  destruct (numbered_name extension (n + 1) Hext) as (_ & Hchild & Hnew & Hnorm).
  cbv zeta in *.
  destruct (fs_lookup _ _) as [nd|] eqn:E; [exfalso|done].
  unfold fs_lookup in E. rewrite Hnorm in E. apply assoc_Some_elem in E.
  pose proof (fs_children_elem "outputs" _ _ _ _ E Hchild) as Hin.
  assert (n + 1 <= n); [|lia].
  apply max_default_ge, current_numbers_spec. eauto.
Qed.

Lemma max_default_snoc (l : list Z) (d k : Z) :
  max_default l d <= k \/ l = [] -> max_default (l ++ [k]) d = k.
Proof.
  intros Hl. destruct l as [|x l]; [done|]. destruct Hl as [Hl|]; [|done].
  change (fold_left Z.max (l ++ [k]) x = k). change (fold_left Z.max l x <= k) in Hl.
  rewrite fold_left_app. cbn. lia.
Qed.

Lemma current_numbers_snoc (names : list string) (extension name : string) (k : Z) :
  integer_named extension name k ->
  current_numbers (names ++ [name]) extension
  = current_numbers names extension ++ [k].
Proof.
  intros [He Hk]. unfold current_numbers.
  rewrite List.filter_app, omap_app. cbn [List.filter]. rewrite He.
  cbn -[Py.int Py.splitext]. by rewrite Hk.
Qed.

Section Successive.
Context {R S : Type}.

(** [get_next_filename] creates the outputs directory when it is
    missing and changes nothing else. *)
Lemma get_next_filename_exact (extension : string) (w : world) :
  outputs_not_a_file w = true ->
  exists w',
    @get_next_filename R S extension w
    = (Normal (Py.join "outputs"
                 (Py.format_05d
                    (max_default (current_numbers (outputs_listing w) extension) 0 + 1)
                  +:+ extension)), w')
    /\ fs_lookup "outputs" (fs (io w')) = Some Dir
    /\ outputs_listing w' = outputs_listing w
    /\ (fs (io w') = fs (io w) \/ fs (io w') = fs (io w) ++ [("outputs", Dir)]).
Proof.
  unfold outputs_not_a_file, get_next_filename, outputs_listing, current_numbers.
  intros Hw. unfold os_path_exists, os_makedirs, os_listdir.
  mstep.
  destruct (fs_lookup "outputs" (fs (io w))) as [[|c]|] eqn:E; [|done|].
  - cbn. rewrite E. cbn. eexists. split; [reflexivity|]. auto.
  - cbn. rewrite E. cbn. unfold fs_lookup, fs_write in *.
    change (norm_path "outputs") with "outputs" in *.
    rewrite assoc_set_same. cbn. rewrite assoc_set_fresh by exact E.
    rewrite fs_children_app_dir.
    eexists. split; [reflexivity|]. cbn.
    rewrite assoc_set_fresh by exact E. rewrite fs_children_app_dir.
    split; [|by auto]. by rewrite <- (assoc_set_fresh _ _ _ E), assoc_set_same.
Qed.

End Successive.

(** X9. Names are handed out in sequence, and only a file makes the
    sequence advance: asked twice in a row, [get_next_filename] gives
    the same name twice; once a file has been written at the name it
    gave, it gives the name numbered one higher, which is a different
    path. *)
Theorem get_next_filename_advances {R S} (extension : string) (c : content)
    (w : world) :
  is_extension extension = true ->
  outputs_not_a_file w = true ->
  let n := max_default (current_numbers (outputs_listing w) extension) 0 in
  (two_names (R := R) (S := S) extension None w).1
  = Normal (numbered extension (n + 1), numbered extension (n + 1))
  /\ (two_names (R := R) (S := S) extension (Some c) w).1
     = Normal (numbered extension (n + 1), numbered extension (n + 2))
  /\ numbered extension (n + 1) <> numbered extension (n + 2).
Proof.
  intros Hext Hw n.
  destruct (get_next_filename_exact (R := R) (S := S) extension w Hw)
    as (w1 & Hrun1 & Hdir1 & Hlist1 & Hfs1).
  destruct (numbered_name extension (n + 1) Hext) as (Hjoin & Hchild & Hnamed & Hnorm).
  cbv zeta in *. fold n in Hrun1. rewrite Hjoin in Hrun1.
  fold (numbered extension (n + 1)) in Hrun1, Hchild, Hnorm.
  assert (Hw1 : outputs_not_a_file w1 = true)
    by (unfold outputs_not_a_file; by rewrite Hdir1).
  split; [|split].
  - destruct (get_next_filename_exact (R := R) (S := S) extension w1 Hw1)
      as (w2 & Hrun2 & _). rewrite Hlist1 in Hrun2. fold n in Hrun2.
    rewrite Hjoin in Hrun2. fold (numbered extension (n + 1)) in Hrun2.
    unfold two_names. munfold. rewrite Hrun1. cbv beta iota. by rewrite Hrun2.
  - assert (Hfree : fs_lookup (numbered extension (n + 1)) (fs (io w1)) = None).
    { pose proof (next_name_free extension (fs (io w1)) Hext) as H.
      cbv zeta in H. fold (outputs_listing w1) in H. by rewrite Hlist1 in H. }
    set (w2 := set_io (fun d => with_fs (fs (io w1)
                                 ++ [(numbered extension (n + 1), File c)]) d) w1).
    assert (Hwrite : @write_file R S (numbered extension (n + 1)) c w1
                     = (Normal tt, w2)).
    { unfold write_file. munfold. cbv beta iota. rewrite Hfree. unfold modify.
      unfold w2, fs_write, set_io. cbv beta.
      unfold fs_lookup in Hfree. rewrite Hnorm in *.
      by rewrite assoc_set_fresh. }
    assert (Hw2 : outputs_not_a_file w2 = true).
    { unfold outputs_not_a_file, w2, fs_lookup in *. cbn.
      by rewrite (assoc_app_Some _ _ _ _ Hdir1). }
    assert (Hlist2 : outputs_listing w2
                     = outputs_listing w ++ [Py.format_05d (n + 1) +:+ extension]).
    { unfold outputs_listing, w2 in *. cbn. unfold fs_children in *.
      rewrite omap_app, Hlist1. f_equal. cbn -[child_name].
      by rewrite Hchild. }
    destruct (get_next_filename_exact (R := R) (S := S) extension w2 Hw2)
      as (w3 & Hrun3 & _).
    rewrite Hlist2, (current_numbers_snoc _ _ _ _ Hnamed) in Hrun3.
    rewrite max_default_snoc in Hrun3.
    2:{ destruct (max_default_cases (current_numbers (outputs_listing w) extension) 0)
          as [[Hnil _]|_]; [by right|left; unfold n; lia]. }
    destruct (numbered_name extension (n + 1 + 1) Hext) as (Hjoin' & _).
    cbv zeta in Hjoin'. rewrite Hjoin' in Hrun3.
    fold (numbered extension (n + 1 + 1)) in Hrun3.
    unfold two_names. munfold. rewrite Hrun1. cbv beta iota. rewrite Hwrite.
    cbv beta iota. rewrite Hrun3. cbn [fst].
    by replace (n + 1 + 1) with (n + 2) by lia.
  - unfold numbered. intros E. apply String.app_inj in E.
    destruct (numbered_name extension (n + 2) Hext) as (_ & _ & [_ H2] & _).
    destruct Hnamed as [_ H1]. cbv zeta in H2. rewrite E in H1. rewrite H1 in H2.
    injection H2. lia.
Qed.

(** ** The prompts of a call *)

Lemma lstrip_with_head (sp : ascii -> bool) (l : list ascii) :
  match Py.lstrip_with sp l with c :: _ => sp c = false | [] => True end.
Proof.
  induction l as [|c l IH]; cbn; [done|]. by destruct (sp c) eqn:E.
Qed.

Lemma lstrip_with_suffix (sp : ascii -> bool) (l : list ascii) :
  exists pre, l = pre ++ Py.lstrip_with sp l.
Proof.
  induction l as [|c l [pre IH]]; cbn; [by exists []|].
  destruct (sp c); [|by exists []]. exists (c :: pre). cbn. by f_equal.
Qed.

Lemma lstrip_with_all (sp : ascii -> bool) (l : list ascii) :
  Forall (fun c => sp c = true) l -> Py.lstrip_with sp l = [].
Proof. induction 1 as [|c l Hc _ IH]; cbn; [done|]. by rewrite Hc. Qed.

Lemma strip_with_all (sp : ascii -> bool) (l : list ascii) :
  Forall (fun c => sp c = true) l -> Py.strip_with sp l = [].
Proof. intros H. unfold Py.strip_with. by rewrite (lstrip_with_all sp l H). Qed.

(** Stripping what is stripped changes nothing. *)
Lemma strip_with_idem (sp : ascii -> bool) (l : list ascii) :
  Py.strip_with sp (Py.strip_with sp l) = Py.strip_with sp l.
Proof.
  unfold Py.strip_with at 2.
  set (m := Py.lstrip_with sp l). set (k := Py.lstrip_with sp (rev m)).
  pose proof (lstrip_with_head sp l) as Hm. fold m in Hm.
  pose proof (lstrip_with_head sp (rev m)) as Hk. fold k in Hk.
  destruct (lstrip_with_suffix sp (rev m)) as [pre Hpre]. fold k in Hpre.
  assert (Hmk : m = rev k ++ rev pre).
  { by rewrite <- rev_app_distr, <- Hpre, rev_involutive. }
  unfold Py.strip_with.
  rewrite (lstrip_with_id sp (rev k)).
  - rewrite rev_involutive. by rewrite (lstrip_with_id sp k).
  - destruct (rev k) as [|c r] eqn:E; [done|]. rewrite Hmk in Hm. exact Hm.
Qed.

Lemma strip_idem (s : string) : Py.strip (Py.strip s) = Py.strip s.
Proof. unfold Py.strip. by rewrite chars_str, strip_with_idem. Qed.

Lemma strip_blank (s : string) :
  Py.strip s = "" <-> Forall (fun c => Py.is_strip_space c = true) (Py.chars s).
Proof.
  unfold Py.strip. split.
  - intros H. apply strip_with_nil.
    by rewrite <- (chars_str (Py.strip_with _ _)), H.
  - intros H. by rewrite strip_with_all.
Qed.

Lemma linebreak_is_space (c : ascii) :
  Py.is_linebreak c = true -> Py.is_strip_space c = true.
Proof. destruct c as [[] [] [] [] [] [] [] []]; intros H; try discriminate H; done. Qed.

(** Where [splitlines] goes on after a line boundary. *)
Lemma splitlines_after (c : ascii) (r : list ascii) :
  let rest := match c, r with
              | "013"%char, "010"%char :: r' => Py.splitlines_go [] r'
              | _, _ => Py.splitlines_go [] r
              end in
  rest = Py.splitlines_go [] r
  \/ exists r', r = "010"%char :: r' /\ rest = Py.splitlines_go [] r'.
Proof.
  destruct c as [[] [] [] [] [] [] [] []]; try (by left).
  destruct r as [|[[] [] [] [] [] [] [] []] r']; try (by left).
  right. by exists r'.
Qed.

Lemma Forall_rev_iff {A} (P : A -> Prop) (l : list A) :
  Forall P (rev l) <-> Forall P l.
Proof.
  split; intros H; [|by apply Forall_rev].
  rewrite <- (rev_involutive l). by apply Forall_rev.
Qed.

(** The lines of a text are all blank exactly when the text is. *)
Lemma splitlines_go_blank (n : nat) (l cur : list ascii) :
  (length l <= n)%nat ->
  Forall (fun line => Py.strip line = "") (Py.splitlines_go cur l)
  <-> Forall (fun c => Py.is_strip_space c = true) cur
      /\ Forall (fun c => Py.is_strip_space c = true) l.
Proof.
  revert l cur. induction n as [|n IH]; intros [|c r] cur Hn; cbn in Hn; try lia.
  - cbn. destruct cur as [|x cur]; [by split; [intros _; split|intros _]; constructor|].
    rewrite Forall_singleton, strip_blank, chars_str, Forall_rev_iff. 
    split; [by intros H; split|by intros [H _]].
  - cbn. destruct cur as [|x cur]; [by split; [intros _; split|intros _]; constructor|].
    rewrite Forall_singleton, strip_blank, chars_str, Forall_rev_iff. 
    split; [by intros H; split|by intros [H _]].
  - cbn [Py.splitlines_go]. destruct (Py.is_linebreak c) eqn:Hc.
    + rewrite Forall_cons, strip_blank, chars_str, Forall_rev_iff.
      pose proof (linebreak_is_space c Hc) as Hs.
      destruct (splitlines_after c r) as [->|(r' & -> & ->)].
      * rewrite IH by lia. rewrite Forall_cons, Forall_nil. tauto.
      * rewrite IH by (cbn in Hn; lia). rewrite !Forall_cons, Forall_nil.
        assert (Py.is_strip_space "010" = true) by done. tauto.
    + rewrite IH by lia. rewrite !Forall_cons. tauto.
Qed.

Lemma filter_nil_iff {A} (f : A -> bool) (l : list A) :
  List.filter f l = [] <-> Forall (fun x => f x = false) l.
Proof.
  induction l as [|x l IH]; cbn; [by split; [constructor|]|].
  rewrite Forall_cons. destruct (f x); [by split; [|intros [? _]]|].
  rewrite IH. tauto.
Qed.

Lemma prompts_list_nil (prompt : string) :
  prompts_list true prompt = [] <-> Py.strip prompt = "".
Proof.
  unfold prompts_list.
  rewrite filter_nil_iff, Forall_map, strip_blank. unfold Py.splitlines.
  transitivity (Forall (fun line => Py.strip line = "")
                  (Py.splitlines_go [] (Py.chars prompt))).
  - apply Forall_iff. intros line. cbn. rewrite bool_decide_eq_false.
    split; [apply dec_stable|by intros ? ?].
  - rewrite (splitlines_go_blank (length (Py.chars prompt))) by done.
    rewrite Forall_nil. tauto.
Qed.

(** X10. In multi-line mode the prompts of a call are the lines of the
    prompt box with the blanks around them removed, the blank lines
    left out: no prompt is empty and none has blanks around it, and a
    box that holds nothing but blanks and line breaks gives no prompt
    at all.  In single-line mode there is always exactly one prompt,
    the text of the box without the blanks around it, even when that is
    empty. *)
Theorem prompts_list_multi_line (prompt : string) :
  (forall p, p ∈ prompts_list true prompt -> p <> "" /\ Py.strip p = p)
  /\ (prompts_list true prompt = [] <-> Py.strip prompt = "")
  /\ prompts_list false prompt = [Py.strip prompt].
Proof.
  split; [|split; [apply prompts_list_nil|done]].
  unfold prompts_list.
  intros p [Hin Hp]%list_elem_of_In%filter_In. split.
  - by apply bool_decide_eq_true in Hp.
  - apply in_map_iff in Hin as (line & <- & _). apply strip_idem.
Qed.

(** ** A call with nothing to generate *)



(** ** The cache after an exception *)

(** X12. An exception that escapes [generate_videos] or
    [batch_process_videos] never empties the cache: when it is raised
    before the configuration check the cache is as it was, and when it
    is raised later the pipeline of the call stays loaded under the
    configuration of the call, for the next call to use. *)
Theorem exceptions_keep_the_pipeline :
  (forall a w e,
     (generate_videos a w).1 = Raises e ->
     same_cache w (generate_videos a w).2
     \/ exists model_choice pipe,
          gen_model_choice (Gen.model_choice_radio a) = Some model_choice
          /\ loaded_pipeline (py (generate_videos a w).2) = Some pipe
          /\ loaded_pipeline_config (py (generate_videos a w).2)
             = gen_current_config a model_choice)
  /\ (forall a w e,
        (batch_process_videos a w).1 = Raises e ->
        exists model_choice pipe,
          batch_model_choice (Batch.model_choice_radio a) = Some model_choice
          /\ loaded_pipeline (py (batch_process_videos a w).2) = Some pipe
          /\ loaded_pipeline_config (py (batch_process_videos a w).2)
             = batch_current_config a model_choice).
Proof.
  split.
  - intros a w e He. pose proof (generate_videos_run a w) as H.
    unfold gen_call_post in H. rewrite He in H.
    destruct (gen_model_choice (Gen.model_choice_radio a)) as [model_choice|];
      [|by destruct H].
    destruct H as (t & _ & [(e' & _ & _ & Hc & _)
                           |(pipe & loads & rest & _ & _ & _ & _ & s & _ & Hc)]).
    + by left.
    + right. exists model_choice, pipe. split; [done|]. split; apply Hc.
  - intros a w e He. pose proof (batch_process_videos_run a w) as H.
    unfold batch_call_post in H. rewrite He in H.
    destruct (batch_model_choice (Batch.model_choice_radio a)) as [model_choice|].
    + destruct H as (pipe & loads & rest & _ & _ & _ & _ & _ & _ & Hc).
      by exists model_choice, pipe.
    + by destruct H as ([log [=]] & _).
Qed.

(** A regular file where the outputs directory should be makes the
    first generation fail when it asks for a file name. *)
Lemma exceptions_keep_the_pipeline_witness :
  let r := generate_videos (gen_inputs_for MODEL_14B_TEXT None 1)
             (fresh_world [("outputs", File Binary)]) in
  r.1 = Raises OSError
  /\ (same_cache (fresh_world [("outputs", File Binary)]) r.2
      \/ exists model_choice pipe,
           gen_model_choice MODEL_14B_TEXT = Some model_choice
           /\ loaded_pipeline (py r.2) = Some pipe
           /\ loaded_pipeline_config (py r.2)
              = gen_current_config (gen_inputs_for MODEL_14B_TEXT None 1) model_choice).
Proof.
  split; [vm_compute; reflexivity|].
  apply (proj1 exceptions_keep_the_pipeline (gen_inputs_for MODEL_14B_TEXT None 1)
           (fresh_world [("outputs", File Binary)]) OSError).
  vm_compute. reflexivity.
Defined.

(** ** Cropping a picture twice *)

Lemma SFcompare_refl (s : bool) (m : positive) (e : Z) :
  SFcompare (S754_finite s m e) (S754_finite s m e) = Some Eq.
Proof.
  cbn. rewrite Z.compare_refl.
  destruct s; by rewrite ?Pos.compare_cont_refl, ?Pos.compare_refl.
Qed.

Lemma ltb_irrefl (x : spec_float) : F64.is_finite x = true -> F64.ltb x x = false.
Proof.
  destruct x as [[]| | |s m e]; try done. intros _.
  unfold F64.ltb, SFltb. by rewrite SFcompare_refl.
Qed.

Lemma int_truediv_is_finite (a b : Z) (q : spec_float) :
  F64.int_truediv a b = Ok q -> F64.is_finite q = true.
Proof.
  unfold F64.int_truediv. destruct (b =? 0); [done|].
  destruct (F64.is_finite (SFdiv _ _ _ _)) eqn:E; [|done]. by intros [= <-].
Qed.

(** X13. Cropping is idempotent: a picture that [auto_crop_image] has
    brought to a target size is not cropped when it is brought to the
    same size again, only resized, for whatever picture and target the
    first call accepted. *)
Theorem auto_crop_image_twice (image cropped : Image) (target_width target_height : Z) :
  auto_crop_image image target_width target_height = Ok cropped ->
  size cropped = (target_width, target_height)
  /\ auto_crop_image cropped target_width target_height
     = Ok (Resize target_width target_height cropped).
Proof.
  unfold auto_crop_image at 1. destruct (size image) as [w h].
  destruct (F64.int_truediv target_width target_height) as [target_ratio|] eqn:Ht;
    [|done].
  cbn [mbind exc_bind].
  destruct (F64.int_truediv w h) as [current_ratio|]; [|done]. cbn [mbind exc_bind].
  match goal with |- context [mbind _ ?m] => destruct m as [band|]; [|done] end.
  cbn [mbind exc_bind]. unfold resize at 1.
  destruct ((target_width <? 1) || (target_height <? 1)) eqn:Hpos; [done|].
  intros [= <-]. split; [done|].
  unfold auto_crop_image. cbn [size]. rewrite Ht. cbn [mbind exc_bind].
  rewrite (ltb_irrefl target_ratio) by (by eapply int_truediv_is_finite).
  cbn [mbind exc_bind]. unfold resize. by rewrite Hpos.
Qed.

Lemma auto_crop_image_twice_witness :
  exists cropped,
    auto_crop_image (Picture "cat" 1920 1080) 640 640 = Ok cropped
    /\ size cropped = (640, 640)
    /\ auto_crop_image cropped 640 640 = Ok (Resize 640 640 cropped).
Proof.
  eexists. split; [vm_compute; reflexivity|].
  apply (auto_crop_image_twice (Picture "cat" 1920 1080)). vm_compute. reflexivity.
Defined.

(** ** What the pipeline is called with *)

Lemma calls_satisfy_Forall (P : call_args -> Prop) (t : list event) :
  Forall (fun e => match e with EvGenerate _ args => P args | _ => True end) t ->
  calls_satisfy P t.
Proof. intros H pipe args Hin. rewrite Forall_forall in H. exact (H _ Hin). Qed.

Section Exact.
Context {R S : Type}.

Lemma wp_emit_fs (e : event) (Q : ctl R S unit -> world -> Prop) (w : world) :
  (forall w', evolves [e] w w' -> fs (io w') = fs (io w) -> Q (Normal tt) w') ->
  wp (emit e) Q w.
Proof. intros H. apply H; [|done]. by apply evolves_io. Qed.

Lemma wp_time_time_fs (Q : ctl R S spec_float -> world -> Prop) (w : world) :
  (forall t w', evolves [] w w' -> fs (io w') = fs (io w) -> Q (Normal t) w') ->
  wp time_time Q w.
Proof.
  intros H. unfold wp, time_time. mstep.
  destruct (clock (env w)); cbn; apply H; try done;
    [apply evolves_refl|apply evolves_env].
Qed.

Lemma wp_read_text_content (p : string) (Q : ctl R S string -> world -> Prop)
    (w : world) :
  Q (Raises OSError) w ->
  (forall s, fs_lookup p (fs (io w)) = Some (File (Text s)) -> Q (Normal s) w) ->
  wp (read_text p) Q w.
Proof.
  intros H1 H2. unfold wp, read_text. mstep.
  destruct (fs_lookup p (fs (io w))) as [[|[]]|]; cbn; auto.
Qed.

End Exact.

(** X14. In an iteration of the batch, the pipeline is called with the
    prompt of the image file: the stripped text of the file
    [<base>.txt] of the input folder as it is when the iteration
    starts, or the prompt of the prompt box when that file is missing
    or blank.  Every call is tiled and carries the negative prompt,
    the steps, the frames and the resolution of the call, an input
    image, and neither CFG scale nor sigma shift, which the batch does
    not take. *)
Theorem batch_iteration_arguments (a : Batch.inputs) (target_width target_height : Z)
    (image_file log_text : string) (w : world) :
  let r := batch_iteration a target_width target_height image_file log_text w in
  exists body,
    trace (io r.2)
    = trace (io w) ++ EvBatchPoll image_file (cancel_batch_flag (py w)) :: body
    /\ calls_satisfy
         (batch_call_args a target_width target_height (batch_prompt a image_file w))
         body.
Proof.
  intros r.
  assert (H : wp (batch_iteration a target_width target_height image_file log_text)
                (fun _ w' =>
                   exists body,
                     evolves (EvBatchPoll image_file (cancel_batch_flag (py w)) :: body)
                       w w'
                     /\ Forall (fun e => match e with
                                         | EvGenerate _ args =>
                                             batch_call_args a target_width target_height
                                               (batch_prompt a image_file w) args
                                         | _ => True
                                         end) body) w).
  2:{ unfold wp in H. fold r in H. destruct H as (body & Hev & Hf).
      exists body. split; [apply Hev|by apply calls_satisfy_Forall]. }
  unfold batch_iteration. apply wp_bind, wp_get_world. cbn [after].
  apply wp_bind, wp_emit_fs. intros w1 Hacc Hfs1. cbn [after].
  destruct (cancel_batch_flag (py w)) eqn:Hflag.
  { wp_auto. exists []. split; [done|constructor]. }
  apply wp_bind, wp_time_time_fs. intros iter_start w2 Hev Hfs2. cbn [after].
  ev_merge. rewrite Hfs1 in Hfs2.
  unfold batch_prompt.
  destruct (Py.splitext image_file) as [base ext] eqn:Hsplit. cbn [fst].
  apply wp_bind, wp_os_path_exists. cbn [after]. rewrite Hfs2.
  eapply wp_bind, wp_mono.
  { instantiate (1 := fun c w3 =>
      evolves [EvBatchPoll image_file false] w w3
      /\ match c with
         | Normal (prompt_content, _) =>
             prompt_content
             = match fs_lookup (Py.join (Batch.folder_path a) (base +:+ ".txt"))
                       (fs (io w)) with
               | Some (File (Text text)) =>
                   if bool_decide (Py.strip text = "") then Batch.default_prompt a
                   else Py.strip text
               | _ => Batch.default_prompt a
               end
         | Raises _ => True
         | _ => False
         end).
    destruct (fs_lookup (Py.join (Batch.folder_path a) (base +:+ ".txt")) (fs (io w)))
      as [nd|] eqn:Hp.
    - rewrite bool_decide_eq_true_2 by done. cbn [negb].
      apply wp_bind, wp_read_text_content; [done|].
      intros text Htext. rewrite Hfs2, Hp in Htext. injection Htext as ->.
      cbn [after]. case_bool_decide as Hb; wp_auto; by rewrite ?Hb.
    - rewrite bool_decide_eq_false_2 by (by intros [? [=]]). cbn [negb].
      wp_auto. done. }
  intros c w3 [Hacc3 Hc].
  repeat match goal with
         | H : evolves _ w ?x |- _ => tryif unify x w3 then fail else clear H
         end.
  destruct c as [[prompt_content log]| | | |e]; try done; cbn [after].
  2:{ exists []. split; [done|constructor]. }
  subst prompt_content. rename Hacc3 into Hacc.
  wp_auto.
  all: eexists; split; [eassumption|].
  all: repeat constructor.
  all: cbn; repeat split; eauto.
Qed.

Lemma grows_refl (P : event -> Prop) (w : world) : grows P w w.
Proof. exists []. by rewrite app_nil_r. Qed.

Lemma grows_trans (P : event -> Prop) (w0 w1 w2 : world) :
  grows P w0 w1 -> grows P w1 w2 -> grows P w0 w2.
Proof.
  intros (t1 & H1 & F1) (t2 & H2 & F2). exists (t1 ++ t2).
  split; [by rewrite H2, H1, app_assoc|by apply Forall_app].
Qed.

Lemma grows_evolves (P : event -> Prop) (t : list event) (w w' : world) :
  evolves t w w' -> Forall P t -> grows P w w'.
Proof. intros H F. exists t. split; [apply H|done]. Qed.

Lemma grows_same (P : event -> Prop) (w0 w w' : world) :
  trace (io w') = trace (io w) -> grows P w0 w -> grows P w0 w'.
Proof. intros E (t & Ht & F). exists t. by rewrite E. Qed.

Lemma grows_impl (P Q : event -> Prop) (w w' : world) :
  (forall e, P e -> Q e) -> grows P w w' -> grows Q w w'.
Proof. intros H (t & Ht & F). exists t. split; [done|]. by eapply Forall_impl. Qed.

Lemma wp_for_each_grows {R S S' A} (P : event -> Prop) (l : list A)
    (body : A -> S' -> M R S' S') (s : S') (w : world) :
  (forall x s w1, wp (body x s) (fun _ w2 => grows P w1 w2) w1) ->
  wp (for_each (S := S) l body s) (fun _ w2 => grows P w w2) w.
Proof.
  intros Hbody. revert s. generalize (grows_refl P w). generalize w at 2 4 as w1.
  induction l as [|x l IH]; intros w1 Hg s; [by apply wp_for_each_nil|].
  apply wp_for_each_cons. eapply wp_mono; [apply Hbody|].
  intros c w2 Hg2. pose proof (grows_trans _ _ _ _ Hg Hg2) as Hg3.
  destruct c; cbn [after_iteration]; try done; by apply IH.
Qed.

Lemma generate_iteration_calls (a : Gen.inputs) (v : Gen.frame_vars) (p : string)
    (loc : Gen.locals) (w : world) :
  wp (generate_iteration a v p loc)
    (fun _ w' => grows (on_calls (gen_iteration_args a v p)) w w') w.
Proof.
  unfold generate_iteration. pose proof (evolves_refl w) as Hacc.
  wp_auto.
  all: eapply grows_same; [eassumption || reflexivity|].
  all: try (eapply grows_same; [eassumption|]).
  all: eapply grows_evolves; [eassumption|].
  all: repeat match goal with |- Forall _ _ => constructor end.
  all: unfold on_calls, gen_iteration_args; cbn.
  all: repeat match goal with
       | H : bool_decide (_ = _) = true |- _ => apply bool_decide_eq_true_1 in H
       | H : bool_decide (_ = _) = false |- _ => apply bool_decide_eq_false_1 in H
       end.
  all: repeat match goal with
       | |- _ /\ _ => split
       | |- is_Some None -> _ => by intros [? [=]]
       | |- is_Some (Some _) -> _ => intros _
       | |- _ = _ -> _ => intros ?
       end; try done; try congruence; eauto.
Qed.

Lemma gen_model_choice_radio (radio model_choice : string) :
  gen_model_choice radio = Some model_choice ->
  (model_choice = "1.3B" -> radio = MODEL_1_3B)
  /\ (is_image_model model_choice = true ->
      radio = MODEL_14B_IMAGE_720P \/ radio = MODEL_14B_IMAGE_480P).
Proof.
  unfold gen_model_choice. repeat case_bool_decide; intros [= <-]; split; try done; auto.
Qed.

Lemma generate_videos_calls (a : Gen.inputs) (w : world) :
  wp (generate_videos a) (fun _ w' => grows (on_calls (gen_call_args a)) w w') w.
Proof.
  unfold generate_videos. do 2 wp_step.
  remember (set_py (with_cancel_flag false) w) as w1 eqn:Ew1.
  assert (Hio : trace (io w1) = trace (io w)) by (by subst).
  clear Ew1. pose proof (evolves_refl w1) as Hacc.
  do 2 wp_op.
  (* the model *)
  wp_step. eapply wp_mono.
  { instantiate (1 := fun c w2 =>
      w2 = w' /\ match gen_model_choice (Gen.model_choice_radio a) with
                 | Some model_choice => exists d, c = Normal (model_choice, d)
                 | None => c = Returns ("", ERR_INVALID_MODEL, "")
                 end).
    unfold gen_model_choice. repeat case_bool_decide; wp_step; eauto. }
  intros c w2 [-> Hm].
  assert (Hstart : forall wx, evolves [] w' wx -> grows (on_calls (gen_call_args a)) w wx).
  { intros wx Hx. eapply grows_same; [|apply grows_refl].
    rewrite (ev_trace _ _ _ Hx), (ev_trace _ _ _ Hacc0), !app_nil_r. done. }
  destruct (gen_model_choice (Gen.model_choice_radio a)) as [model_choice|] eqn:Emc.
  2: { subst c. cbn [after]. apply Hstart, evolves_refl. }
  destruct Hm as [d ->]. cbn [after].
  destruct (gen_model_choice_known _ _ Emc) as [Hknown _].
  destruct (gen_model_choice_radio _ _ Emc) as [Hsmall Himage].
  clear Hacc0 H0 Hio w1. pose proof (evolves_refl w') as Hacc.
  (* the frame count *)
  wp_step. eapply wp_mono.
  { instantiate (1 := fun c w2 =>
      exists n, c = Normal n /\ evolves [] w' w2
                /\ n <= Gen.num_frames a
                /\ (n = Gen.num_frames a
                    \/ model_choice = "1.3B" /\ is_Some (Gen.input_video a))).
    destruct (bool_decide (model_choice = "1.3B")) eqn:Hb;
      [apply bool_decide_eq_true_1 in Hb|];
      destruct (Gen.input_video a) eqn:Hv; wp_auto;
      eexists; (split; [reflexivity|]); (split; [eassumption|]); split; try lia; eauto. }
  intros c w2 (n & -> & Hacc1 & Hn & Hn'). cbn [after]. clear Hacc.
  (* the crop of the input video *)
  wp_step. eapply wp_mono.
  { instantiate (1 := fun c w3 =>
      evolves [] w' w3
      /\ match c with
         | Normal (input_video, _) =>
             (is_Some input_video -> is_Some (Gen.input_video a))
             /\ (model_choice = "1.3B" -> is_Some (Gen.input_video a) ->
                 is_Some input_video)
         | Raises _ => True
         | _ => False
         end).
    rename Hacc1 into Hacc.
    destruct (Gen.auto_crop a); [|wp_auto; by split].
    destruct (bool_decide (model_choice = "1.3B")) eqn:Hb;
      destruct (Gen.input_video a) eqn:Hv; wp_auto; try (by split);
      try (split; [done|]; split; [done|]; intros _ [? [=]]).
    all: apply wp_auto_crop_video; intros ? w3 Hev; ev_merge; cbn [after];
      wp_auto; (split; [done|]); try done; by split. }
  intros c w3 [Hacc2 Hc]. clear Hacc1 w2.
  destruct c as [[input_video original_image]| | | |e]; try done; cbn [after];
    [|by apply Hstart].
  destruct Hc as [Hiv Hiv'].
  (* the cache *)
  wp_step. eapply wp_mono.
  { instantiate (1 := fun c w4 => c = Normal tt /\ grows (on_calls (gen_call_args a)) w w4).
    apply wp_reload_if_changed; [done|..].
    - intros _. split; [done|]. by apply Hstart.
    - intros _ pipe w4 Ht _ _ _. split; [done|].
      eapply grows_trans; [by apply Hstart|]. exists [EvLoad pipe].
      split; [done|]. by repeat constructor. }
  intros c w4 [-> Hg4]. cbn [after]. clear Hacc2 Hstart.
  (* the loops *)
  wp_step.
  set (v := {| Gen.model_choice := model_choice;
               Gen.target_width := Gen.width a;
               Gen.target_height := Gen.height a;
               Gen.effective_num_frames := n;
               Gen.input_video_now := input_video;
               Gen.original_image := original_image;
               Gen.vram_value := Gen.num_persistent_input a;
               Gen.overall_start_time := now;
               Gen.total_iterations :=
                 Z.of_nat (length (prompts_list (Gen.multi_line a) (Gen.prompt a)))
                 * Gen.num_generations a |}).
  assert (Hiter : forall p, p ∈ prompts_list (Gen.multi_line a) (Gen.prompt a) ->
            forall e, on_calls (gen_iteration_args a v p) e ->
                      on_calls (gen_call_args a) e).
  { intros p Hp [] He; try done. unfold on_calls, gen_call_args, gen_iteration_args in *.
    destruct He as (H1 & H2 & H3 & H4 & H5 & H6 & H7 & H8 & H9 & H10 & H11 & H12 & H13).
    cbn [v Gen.model_choice Gen.target_width Gen.target_height
         Gen.effective_num_frames Gen.input_video_now] in *.
    rewrite H1. repeat split; try done; try lia.
    - intros Hnone. destruct Hn' as [->|[Hm Hs]]; [done|].
      specialize (H12 Hm). rewrite Hnone in H12. specialize (Hiv' Hm Hs).
      rewrite <- H12 in Hiv'. by destruct Hiv' as [? [=]].
    - by apply H10.
    - by apply Himage, H10.
    - apply Hiv. destruct (H11 H) as [_ <-]. done.
    - by apply Hsmall, H11. }
  eapply wp_mono.
  { instantiate (1 := fun _ wl => grows (on_calls (gen_call_args a)) w4 wl).
    assert (Hall : forall l wa loc,
              (forall p, p ∈ l -> p ∈ prompts_list (Gen.multi_line a) (Gen.prompt a)) ->
              wp (for_each (S := Empty_set) l
                    (fun p loc =>
                       for_each (range (Gen.num_generations a))
                         (fun i loc => generate_iteration a v p loc) loc) loc)
                (fun _ wl => grows (on_calls (gen_call_args a)) wa wl) wa).
    { induction l as [|p l IH]; intros wa loc Hl; [apply wp_for_each_nil, grows_refl|].
      apply wp_for_each_cons. eapply wp_mono.
      { apply (wp_for_each_grows (on_calls (gen_call_args a))).
        intros i s wb. eapply wp_mono; [apply generate_iteration_calls|].
        intros c wc Hc. eapply grows_impl; [|exact Hc].
        apply Hiter, Hl. by left. }
      intros c wb Hb. destruct c; cbn [after_iteration]; try done.
      all: eapply wp_mono;
        [apply IH; intros q Hq; apply Hl; by right
        |intros c' wc Hc; by eapply grows_trans]. }
    apply Hall. auto. }
  intros c wl Hgl. pose proof (grows_trans _ _ _ _ Hg4 Hgl) as Hg. clear Hg4 Hgl w4.
  assert (Hend : forall t wz, evolves t wl wz -> Forall (on_calls (gen_call_args a)) t ->
                              grows (on_calls (gen_call_args a)) w wz).
  { intros t wz Hev Hf. eapply grows_trans; [exact Hg|]. by eapply grows_evolves. }
  destruct c as [loc|r| | |e]; cbn [after]; try done.
  pose proof (evolves_refl wl) as Hacc.
  wp_auto.
  all: try rewrite div_sixty.
  all: wp_auto.
  all: eapply grows_same; [eassumption || reflexivity|].
  all: try (eapply grows_same; [eassumption|]).
  all: eapply Hend; [eassumption|].
  all: by repeat match goal with |- Forall _ _ => constructor end.
Qed.

(** X15. Every call of the pipeline made by [generate_videos] carries
    one of the prompts of the call, the negative prompt, the steps, the
    tiling choice, the CFG scale and the sigma shift of the interface,
    and the width and the height of the two sliders, whatever the
    aspect ratio selected.  It asks for at most the number of frames of
    the slider, and for exactly that number unless an input video is
    passed.  An input image is passed only when an image-to-video model
    is selected and an image was given; an input video, together with
    the denoising strength, only when the 1.3B model is selected and a
    video was given. *)
Theorem generate_videos_arguments (a : Gen.inputs) (w : world) :
  exists t,
    trace (io (generate_videos a w).2) = trace (io w) ++ t
    /\ calls_satisfy (gen_call_args a) t.
Proof.
  destruct (generate_videos_calls a w) as (t & Ht & Hf).
  exists t. split; [done|]. by apply calls_satisfy_Forall.
Qed.

(** ** Instances *)

Lemma reload_when_a_setting_changes_witness :
  exists pipe',
    trace (io (reload_if_changed (R := unit) (S := unit) "" ""
                 "1.3B" "torch.bfloat16" "12000000000" None 0%Qc loaded_world).2)
    = [EvLoad pipe'].
Proof.
  destruct (reload_when_a_setting_changes (R := unit) (S := unit) "" ""
              default_settings rescaled_settings _ loaded_world
              eq_refl eq_refl eq_refl) as [_ H].
  destruct H as (pipe' & _ & Ht & _); [discriminate|].
  by exists pipe'.
Defined.

Lemma get_next_filename_advances_witness :
  (two_names (R := unit) (S := unit) ".mp4" (Some Binary) (fresh_world outputs_files)).1
  = Normal ("outputs/00008.mp4", "outputs/00009.mp4").
Proof.
  exact (proj1 (proj2 (get_next_filename_advances (R := unit) (S := unit) ".mp4" Binary
                         (fresh_world outputs_files) eq_refl eq_refl))).
Defined.


Example blank_prompt_single_line :
  let r := run (generate_videos blank_single_inputs) (fresh_world []) in
  exists pipe args,
    trace (io r.2)
    = [EvLoad pipe; EvPoll false; EvGenerate pipe args; EvSaveVideo "outputs/00001.mp4"]
    /\ arg_prompt args = "".
Proof. vm_compute. by eexists _, _. Qed.

(** ** The file a video is cropped from *)

Lemma split_last_dot_spec (rl acc r e : list ascii) :
  Py.split_last_dot rl acc = Some (r, e) ->
  exists skipped,
    rl = skipped ++ "."%char :: r
    /\ e = "."%char :: rev skipped ++ acc
    /\ Forall (fun x => Py.is_sep x = false /\ Py.is_dot x = false) skipped.
Proof.
  revert acc. induction rl as [|c rl IH]; intros acc; cbn [Py.split_last_dot];
    [intros [=]|].
  destruct (Py.is_sep c) eqn:Hs; [done|]. destruct (Py.is_dot c) eqn:Hd.
  - intros [= <- <-]. exists [].
    unfold Py.is_dot in Hd. apply bool_decide_eq_true in Hd. subst c.
    split; [done|]. split; [done|constructor].
  - intros (skipped & -> & -> & Hf)%IH. exists (c :: skipped). split; [done|].
    split; [|by constructor]. cbn. by rewrite <- app_assoc.
Qed.

(** A path is its root followed by its extension, and an extension is
    empty or a dot followed by characters that are neither dots nor
    separators. *)
Lemma splitext_parts (p : string) :
  Py.chars p = Py.chars (Py.splitext p).1 ++ Py.chars (Py.splitext p).2
  /\ ((Py.splitext p).2 = "" /\ (Py.splitext p).1 = p
      \/ exists l, Py.chars (Py.splitext p).2 = "."%char :: l
                   /\ Forall (fun x => Py.is_sep x = false /\ Py.is_dot x = false) l).
Proof.
  unfold Py.splitext.
  destruct (Py.split_last_dot (rev (Py.chars p)) []) as [[r e]|] eqn:E;
    [|cbn; split; [by rewrite app_nil_r|by left]].
  destruct (Py.has_non_dot_before_sep r);
    [|cbn; split; [by rewrite app_nil_r|by left]].
  apply split_last_dot_spec in E as (skipped & Hrev & -> & Hf).
  rewrite app_nil_r. cbn [fst snd]. rewrite !chars_str. split.
  - rewrite <- (rev_involutive (Py.chars p)), Hrev, rev_app_distr. cbn.
    by rewrite <- app_assoc.
  - right. exists (rev skipped). split; [done|]. by apply Forall_rev.
Qed.

Lemma norm_path_prefix (p : string) :
  exists tail, Py.chars p = Py.chars (norm_path p) ++ tail.
Proof.
  unfold norm_path.
  destruct (lstrip_with_suffix Py.is_sep (rev (Py.chars p))) as [pre Hpre].
  destruct (rev (Py.lstrip_with Py.is_sep (rev (Py.chars p)))) as [|c l] eqn:E.
  - case_bool_decide as Hp; [subst; by exists []|].
    apply (f_equal (@rev ascii)) in E. rewrite rev_involutive in E. cbn in E.
    rewrite E, app_nil_r in Hpre.
    pose proof (lstrip_with_nil Py.is_sep _ E) as Hall.
    destruct (Py.chars p) as [|c l] eqn:Ep.
    + exfalso. apply Hp, chars_inj. by rewrite Ep.
    + exists l. cbn. f_equal. apply Forall_rev in Hall. rewrite rev_involutive in Hall.
      apply Forall_inv in Hall. unfold Py.is_sep in Hall.
      by apply bool_decide_eq_true in Hall.
  - exists (rev pre). rewrite chars_str, <- E, <- rev_app_distr, <- Hpre.
    by rewrite rev_involutive.
Qed.

(** The file written by [auto_crop_video] is never the file it reads:
    the two paths name different entries. *)
Lemma cropped_path_differs (video_path : string) :
  norm_path ((Py.splitext video_path).1 +:+ "_cropped.mp4") <> norm_path video_path.
Proof.
  destruct (splitext_parts video_path) as [Hparts Hext].
  destruct (Py.splitext video_path) as [base ext]. cbn [fst snd] in *.
  assert (Hout : norm_path (base +:+ "_cropped.mp4") = base +:+ "_cropped.mp4").
  { destruct (last_not_sep (Py.chars base) (Py.chars "_cropped.mp4"))
      as (c & l & Hrev & Hc); [done|by repeat constructor|].
    eapply norm_path_id; [|exact Hc]. by rewrite chars_app. }
  rewrite Hout. intros E.
  destruct (norm_path_prefix video_path) as [tail Htail].
  rewrite <- E, chars_app in Htail.
  destruct Hext as [[He Hb]|(l & Hl & Hf)].
  - rewrite Hb in Htail. apply (f_equal (@length ascii)) in Htail.
    rewrite !length_app in Htail. cbn in Htail. lia.
  - rewrite Hparts, Hl, <- app_assoc in Htail.
    apply app_inv_head in Htail. discriminate Htail.
Qed.

Lemma assoc_set_other {V} (k k' : string) (v : V) (l : list (string * V)) :
  k <> k' -> assoc k (assoc_set k' v l) = assoc k l.
Proof.
  intros Hk. induction l as [|[k0 v0] l IH]; cbn.
  - by rewrite bool_decide_eq_false_2.
  - repeat case_bool_decide; cbn; repeat case_bool_decide; subst; try done.
Qed.

Lemma only_writes_same (path : string) (w w' : world) :
  fs (io w') = fs (io w) -> only_writes path w w'.
Proof. intros E p _. by rewrite E. Qed.

Lemma only_writes_trans (path : string) (w0 w1 w2 : world) :
  only_writes path w0 w1 -> only_writes path w1 w2 -> only_writes path w0 w2.
Proof. intros H1 H2 p Hp. by rewrite H2, H1. Qed.

Section Writes.
Context {R S : Type}.

Lemma wp_print_writes (path s : string) (Q : ctl R S unit -> world -> Prop)
    (w0 w : world) :
  only_writes path w0 w ->
  (forall w', only_writes path w0 w' -> Q (Normal tt) w') ->
  wp (print s) Q w.
Proof. intros H0 H. apply H. intros p Hp. by rewrite <- (H0 p Hp). Qed.

Lemma wp_write_file_writes (path : string) (c : content)
    (Q : ctl R S unit -> world -> Prop) (w0 w : world) :
  only_writes path w0 w ->
  Q (Raises OSError) w ->
  (forall w', only_writes path w0 w' -> Q (Normal tt) w') ->
  wp (write_file path c) Q w.
Proof.
  intros H0 H1 H2. unfold wp, write_file. mstep.
  destruct (fs_lookup path (fs (io w))) as [[]|]; [done|..]; cbn; apply H2.
  all: intros p Hp; rewrite <- (H0 p Hp); cbn; unfold fs_lookup, fs_write;
    by apply assoc_set_other.
Qed.

Lemma wp_crop_frames_writes (path : string)
    (target_width target_height desired_frame_count : Z)
    (scale : spec_float) (new_width new_height : Z) (frames : list frame)
    (frame_count : Z) (written : list frame)
    (Q : ctl R S (Z * list frame) -> world -> Prop) (w0 w : world) :
  only_writes path w0 w ->
  (forall c w', only_writes path w0 w' -> Q c w') ->
  wp (crop_frames target_width target_height desired_frame_count scale
        new_width new_height frames frame_count written) Q w.
Proof.
  revert frame_count written w.
  induction frames as [|f frames IH]; intros frame_count written w Hacc H;
    cbn [crop_frames].
  - destruct (frame_count <? desired_frame_count); [|by apply wp_ret, H].
    apply wp_bind. eapply wp_print_writes; [done|]. intros w' Hw'. cbn [after].
    by apply wp_ret, H.
  - destruct (frame_count <? desired_frame_count); [|by apply wp_ret, H].
    apply wp_bind.
    destruct (F64.ltb scale F64.one).
    + apply wp_lift. destruct (cv2_resize f (new_width, new_height)) as [f'|];
        [|by apply H]. cbn [after]. destruct (shape f') as [h w1].
      apply wp_bind.
      destruct ((target_width <? w1) || (target_height <? h)).
      * apply wp_bind. eapply wp_print_writes; [done|]. intros w' Hw'. cbn [after].
        apply wp_ret. cbn [after]. by apply IH.
      * apply wp_bind, wp_lift.
        destruct (cv2_resize f' (target_width, target_height)); [|by apply H].
        cbn [after]. apply wp_bind. eapply wp_print_writes; [done|].
        intros w' Hw'. cbn [after]. apply wp_ret. cbn [after]. by apply IH.
    + apply wp_ret. cbn [after]. destruct (shape f) as [h w1].
      apply wp_bind.
      destruct ((target_width <? w1) || (target_height <? h)).
      * apply wp_bind. eapply wp_print_writes; [done|]. intros w' Hw'. cbn [after].
        apply wp_ret. cbn [after]. by apply IH.
      * apply wp_bind, wp_lift.
        destruct (cv2_resize f (target_width, target_height)); [|by apply H].
        cbn [after]. apply wp_bind. eapply wp_print_writes; [done|].
        intros w' Hw'. cbn [after]. apply wp_ret. cbn [after]. by apply IH.
Qed.

End Writes.

(** X16. [auto_crop_video] never touches the video it reads: however
    the call ends, the only entry of the file system it may have
    created or changed is [<base>_cropped.mp4], and that path never
    names the input file. *)
Theorem auto_crop_video_keeps_its_input (video_path : string)
    (target_width target_height desired_frame_count desired_fps : Z) (w : world) :
  let r := run (auto_crop_video video_path target_width target_height
                  desired_frame_count desired_fps) w in
  let out_path := (Py.splitext video_path).1 +:+ "_cropped.mp4" in
  only_writes out_path w r.2
  /\ norm_path out_path <> norm_path video_path
  /\ fs_lookup video_path (fs (io r.2)) = fs_lookup video_path (fs (io w)).
Proof.
  intros r out_path.
  assert (Hw : only_writes out_path w r.2).
  { assert (H : wp (auto_crop_video video_path target_width target_height
                      desired_frame_count desired_fps)
                  (fun _ w' => only_writes out_path w w') w).
    2:{ unfold wp in H. subst r. unfold run.
        by destruct (auto_crop_video _ _ _ _ _ w) as [[| |[]|[]|] w']. }
    unfold auto_crop_video. subst out_path.
    destruct (Py.splitext video_path) as [base ext]. cbn [fst].
    assert (H0 : only_writes (base +:+ "_cropped.mp4") w w)
      by (by apply only_writes_same).
    revert H0. generalize w at 2 4 as w1. intros w1 H0.
    repeat
      (lazymatch goal with
       | |- wp (mbind _ _) _ _ => apply wp_bind
       | |- wp (mret _) _ _ => apply wp_ret
       | |- wp (return_ _) _ _ => apply wp_return
       | |- wp get_world _ _ => apply wp_get_world
       | |- wp (cv2_VideoCapture _) _ _ => apply wp_cv2_VideoCapture; intros [v|]
       | |- wp (print _) _ _ =>
           eapply wp_print_writes; [eassumption|]; clear H0; intros ? H0
       | |- wp (write_file _ _) _ _ =>
           eapply wp_write_file_writes; [eassumption|done|]; clear H0; intros ? H0
       | |- wp (crop_frames _ _ _ _ _ _ _ _ _) _ _ =>
           eapply wp_crop_frames_writes; [eassumption|]; clear H0;
           intros [[fc wr]| | | |] ? H0; try done
       | |- wp (lift ?x) _ _ => apply wp_lift; destruct x; [|done]
       | |- wp (match ?x with _ => _ end) _ _ => destruct x
       end; cbn [after]); done. }
  split; [done|]. split; [apply cropped_path_differs|].
  apply Hw. intros E. by apply (cropped_path_differs video_path).
Qed.

(** ** The video a call returns *)

Lemma saved_videos_app (t1 t2 : list event) :
  saved_videos (t1 ++ t2) = saved_videos t1 ++ saved_videos t2.
Proof. apply omap_app. Qed.

Lemma ends_with_poll_app (t1 t2 : list event) :
  ends_with_poll (t1 ++ t2)
  = match t2 with [] => ends_with_poll t1 | _ => ends_with_poll t2 end.
Proof.
  unfold ends_with_poll. rewrite last_app.
  destruct t2 as [|e t2]; [done|].
  destruct (last (e :: t2)) eqn:E; [done|]. by apply last_None in E.
Qed.

Lemma generate_iteration_video (a : Gen.inputs) (v : Gen.frame_vars) (p : string)
    (loc : Gen.locals) (w : world) :
  wp (generate_iteration a v p loc) (gen_iteration_video w) w.
Proof.
  unfold generate_iteration. pose proof (evolves_refl w) as Hacc.
  wp_auto.
  all: unfold gen_iteration_video.
  all: eexists; split; [ev_trace|]; try done.
Qed.

Lemma gen_loop_video_seq {S S'} (w0 w1 w2 : world) (before : string)
    (loc1 : Gen.locals) (c : ctl Gen.result S' Gen.locals) :
  gen_loop_video (S := S) w0 before (Normal loc1) w1 ->
  gen_loop_video w1 (Gen.last_video_path loc1) c w2 ->
  gen_loop_video w0 before c w2.
Proof.
  intros (t1 & H1 & K1 & E1) (t2 & H2 & K2). exists (t1 ++ t2).
  split; [by rewrite H2, H1, app_assoc|].
  destruct c as [loc2|[[path log] seed]| | |e]; try done.
  - destruct K2 as [K2 E2]. split.
    + rewrite saved_videos_app.
      destruct (saved_videos t2) as [|x l] eqn:E.
      * rewrite app_nil_r. cbn in K2. destruct (last (saved_videos t1)); congruence.
      * rewrite last_app. destruct (last (x :: l)) eqn:El; [done|].
        by apply last_None in El.
    + rewrite ends_with_poll_app. by destruct t2.
  - destruct K2 as [K2 E2]. split; [done|]. rewrite ends_with_poll_app.
    by destruct t2.
Qed.

Lemma wp_for_each_video {S A} (l : list A)
    (body : A -> Gen.locals -> M Gen.result Gen.locals Gen.locals)
    (loc : Gen.locals) (w : world) :
  (forall x loc1 w1,
     wp (body x loc1) (gen_loop_video w1 (Gen.last_video_path loc1)) w1) ->
  wp (for_each (S := S) l body loc) (gen_loop_video w (Gen.last_video_path loc)) w.
Proof.
  intros Hbody.
  assert (H : forall w1 loc1,
             gen_loop_video (S := S) w (Gen.last_video_path loc) (Normal loc1) w1 ->
             wp (for_each (S := S) l body loc1)
               (gen_loop_video w (Gen.last_video_path loc)) w1).
  2:{ apply H. exists []. split; [by rewrite app_nil_r|done]. }
  induction l as [|x l IH]; intros w1 loc1 H1; [by apply wp_for_each_nil|].
  apply wp_for_each_cons. eapply wp_mono; [apply Hbody|].
  intros c w2 H2.
  destruct c as [loc2|[[path log] seed]| | |e]; cbn [after_iteration].
  - apply IH. by eapply (gen_loop_video_seq (S := S)).
  - by eapply (gen_loop_video_seq (S := S)).
  - by destruct H2 as (? & _ & []).
  - by destruct H2 as (? & _ & []).
  - by eapply (gen_loop_video_seq (S := S)).
Qed.

Lemma no_save_no_poll (t : list event) :
  Forall no_save t -> ends_with_poll t = false.
Proof.
  intros H. unfold ends_with_poll. destruct (last t) as [e|] eqn:E; [|done].
  apply last_Some in E as [l ->]. apply Forall_app in H as [_ H].
  apply Forall_inv in H. by destruct e.
Qed.

Lemma saved_videos_none (t : list event) : Forall no_save t -> saved_videos t = [].
Proof.
  induction 1 as [|e t He _ IH]; [done|]. unfold saved_videos in *. cbn.
  rewrite IH. by destruct e.
Qed.

(** X17. The video path [generate_videos] returns is read off the
    events of the call.  When they end with a poll, the call has left
    its loop from inside an iteration (a cancellation, or an image
    model without an image) and the path is empty, whatever was saved
    before.  Otherwise the path is that of the last video the call
    saved, or, when RIFE is applied, the path
    [outputs/improved_<name>] of the video interpolated from it; it is
    empty when no video was saved. *)
Theorem generate_videos_returns_last_video (a : Gen.inputs) (w : world) :
  exists t,
    trace (io (generate_videos a w).2) = trace (io w) ++ t
    /\ match (generate_videos a w).1 with
       | Returns (path, _, _) => gen_returns_video a t path
       | _ => True
       end.
Proof.
  change (wp (generate_videos a)
            (fun c w' =>
               exists t,
                 trace (io w') = trace (io w) ++ t
                 /\ match c with
                    | Returns (path, _, _) => gen_returns_video a t path
                    | _ => True
                    end) w).
  unfold generate_videos. do 2 wp_step.
  remember (set_py (with_cancel_flag false) w) as w1 eqn:Ew1.
  assert (Hio : trace (io w1) = trace (io w)) by (by subst).
  clear Ew1. pose proof (evolves_refl w1) as Hacc.
  do 2 wp_op.
  (* the model *)
  wp_step. eapply wp_mono.
  { instantiate (1 := fun c w2 =>
      w2 = w' /\ match gen_model_choice (Gen.model_choice_radio a) with
                 | Some model_choice => exists d, c = Normal (model_choice, d)
                 | None => c = Returns ("", ERR_INVALID_MODEL, "")
                 end).
    unfold gen_model_choice. repeat case_bool_decide; wp_step; eauto. }
  intros c w2 [-> Hm].
  assert (Hstart : forall wx, evolves [] w' wx -> grows no_save w wx).
  { intros wx Hx. eapply grows_same; [|apply grows_refl].
    rewrite (ev_trace _ _ _ Hx), (ev_trace _ _ _ Hacc0), !app_nil_r. done. }
  destruct (gen_model_choice (Gen.model_choice_radio a)) as [model_choice|] eqn:Emc.
  2: { subst c. cbn [after]. exists []. split; [|done].
       rewrite (ev_trace _ _ _ Hacc0), !app_nil_r. done. }
  destruct Hm as [d ->]. cbn [after].
  destruct (gen_model_choice_known _ _ Emc) as [Hknown _].
  clear Hacc0 H0 Hio w1. pose proof (evolves_refl w') as Hacc.
  (* the frame count *)
  wp_step. eapply wp_mono.
  { instantiate (1 := fun c w2 => exists n, c = Normal n /\ evolves [] w' w2).
    wp_auto; eauto. }
  intros c w2 (n & -> & Hacc1). cbn [after]. clear Hacc.
  (* the crop of the input video *)
  wp_step. eapply wp_mono.
  { instantiate (1 := fun c w3 =>
      evolves [] w' w3
      /\ match c with
         | Normal _ | Raises _ => True
         | _ => False
         end).
    rename Hacc1 into Hacc. wp_auto; try done.
    all: apply wp_auto_crop_video; intros ? w3 Hev; ev_merge; cbn [after];
      wp_auto; done. }
  intros c w3 [Hacc2 Hc]. clear Hacc1 w2.
  assert (Hraise : forall wx, grows no_save w wx ->
            exists t, trace (io wx) = trace (io w) ++ t /\ True).
  { intros wx (t & Ht & _). by exists t. }
  destruct c as [[input_video original_image]| | | |e]; try done; cbn [after];
    [|by apply Hraise, Hstart].
  (* the cache *)
  wp_step. eapply wp_mono.
  { instantiate (1 := fun c w4 => c = Normal tt /\ grows no_save w w4).
    apply wp_reload_if_changed; [done|..].
    - intros _. split; [done|]. by apply Hstart.
    - intros _ pipe w4 Ht _ _ _. split; [done|].
      eapply grows_trans; [by apply Hstart|]. exists [EvLoad pipe].
      split; [done|]. by repeat constructor. }
  intros c w4 [-> (t4 & Ht4 & Hf4)]. cbn [after]. clear Hacc2 Hstart.
  pose proof (no_save_no_poll _ Hf4) as Hp4. apply saved_videos_none in Hf4.
  (* the loops *)
  wp_step. eapply wp_mono.
  { apply (wp_for_each_video (S := Empty_set)). intros p loc1 wa.
    apply (wp_for_each_video (S := Gen.locals)). intros i loc2 wb.
    eapply wp_mono; [apply generate_iteration_video|].
    intros c wc (body & Hb & Hc3). exists body. split; [done|].
    destruct c as [loc3|[[path log] seed]| | |e]; try done.
    destruct Hc3 as [Hs He]. by rewrite Hs. }
  cbn [Gen.last_video_path].
  intros c wl (tl & Htl & Hl).
  destruct c as [loc|[[path log] seed]| | |e]; cbn [after]; try done.
  2:{ exists (t4 ++ tl). split; [by rewrite Htl, Ht4, app_assoc|].
      destruct Hl as [-> Hl]. unfold gen_returns_video.
      rewrite ends_with_poll_app. destruct tl; [done|]. by rewrite Hl. }
  2:{ exists (t4 ++ tl). split; [by rewrite Htl, Ht4, app_assoc|done]. }
  assert (Hend : forall tr wy wz path,
            evolves tr wl wy -> trace (io wz) = trace (io wy) -> Forall no_save tr ->
            (path = Gen.last_video_path loc
             /\ (Gen.pr_rife_enabled a = false \/ Gen.last_video_path loc = "")
             \/ Gen.pr_rife_enabled a = true
                /\ Gen.last_video_path loc <> ""
                /\ path = Py.join "outputs"
                            ("improved_" +:+ Py.basename (Gen.last_video_path loc))) ->
            exists t, trace (io wz) = trace (io w) ++ t /\ gen_returns_video a t path).
  { intros tr wy wz path Hev Hz Hf Hp. exists (t4 ++ tl ++ tr).
    split; [by rewrite Hz, (ev_trace _ _ _ Hev), Htl, Ht4, !app_assoc|].
    destruct Hl as [Hl Hpl]. unfold gen_returns_video.
    assert (ends_with_poll (t4 ++ tl ++ tr) = false) as ->.
    { rewrite !ends_with_poll_app. pose proof (no_save_no_poll _ Hf).
      destruct tr, tl; done. }
    rewrite !saved_videos_app, Hf4, (saved_videos_none tr Hf), app_nil_r. cbn [app].
    destruct (last (saved_videos tl)) as [saved|].
    - rewrite Hl in Hp. destruct Hp as [[-> [Hr|Hs]]|(-> & Hne & ->)].
      + by rewrite Hr.
      + rewrite (bool_decide_eq_false_2 (saved <> "")) by (by intros ?).
        by rewrite andb_false_r.
      + by rewrite bool_decide_eq_true_2.
    - rewrite Hl in Hp. by destruct Hp as [[-> _]|(_ & ? & _)]. }
  assert (Hother : forall tr wz,
            evolves tr wl wz -> exists t, trace (io wz) = trace (io w) ++ t /\ True).
  { intros tr wz Hev. exists (t4 ++ tl ++ tr).
    by rewrite (ev_trace _ _ _ Hev), Htl, Ht4, !app_assoc. }
  clear Hl Htl Ht4 Hf4 Hp4 Hraise.
  pose proof (evolves_refl wl) as Hacc.
  wp_step.
  destruct (Gen.pr_rife_enabled a && bool_decide (Gen.last_video_path loc <> ""))
    eqn:Hr.
  - apply andb_true_iff in Hr as [Hr1 Hr2]. apply bool_decide_eq_true_1 in Hr2.
    wp_auto. all: try rewrite div_sixty. all: wp_auto.
    all: try (by eapply Hother).
    all: eapply Hend; [eassumption|eassumption || reflexivity
                      |by repeat constructor|by right].
  - assert (Hr' : Gen.pr_rife_enabled a = false \/ Gen.last_video_path loc = "").
    { apply andb_false_iff in Hr as [Hr|Hr]; [by left|right].
      apply bool_decide_eq_false_1 in Hr.
      by destruct (decide (Gen.last_video_path loc = "")). }
    wp_auto. all: try rewrite div_sixty. all: wp_auto.
    all: try (by eapply Hother).
    all: eapply Hend; [eassumption|eassumption || reflexivity
                      |by repeat constructor|by left].
Qed.

(** ** Files the batch cannot read *)

Lemma reads_only_refl (w : world) : reads_only [] w w.
Proof. split; [by rewrite app_nil_r|done]. Qed.

Section ReadsOnly.
Context {R S : Type}.

Lemma wp_print_reads (t : list event) (s : string)
    (Q : ctl R S unit -> world -> Prop) (w0 w : world) :
  reads_only t w0 w ->
  (forall w', reads_only t w0 w' -> Q (Normal tt) w') ->
  wp (print s) Q w.
Proof. intros H0 H. by apply H. Qed.

Lemma wp_emit_reads (t : list event) (e : event)
    (Q : ctl R S unit -> world -> Prop) (w0 w : world) :
  reads_only t w0 w ->
  (forall w', reads_only (t ++ [e]) w0 w' -> Q (Normal tt) w') ->
  wp (emit e) Q w.
Proof.
  intros [H1 H2] H. apply H. split; cbn; [by rewrite H1, app_assoc|done].
Qed.

Lemma wp_time_time_reads (t : list event)
    (Q : ctl R S spec_float -> world -> Prop) (w0 w : world) :
  reads_only t w0 w ->
  (forall now w', reads_only t w0 w' -> Q (Normal now) w') ->
  wp time_time Q w.
Proof.
  intros H0 H. unfold wp, time_time. mstep.
  destruct (clock (env w)); cbn; by apply H.
Qed.

Lemma wp_select_seed_reads (t : list event) (use_random_seed : bool)
    (seed_input : string) (Q : ctl R S Z -> world -> Prop) (w0 w : world) :
  reads_only t w0 w ->
  (forall seed w', reads_only t w0 w' -> Q (Normal seed) w') ->
  wp (select_seed use_random_seed seed_input) Q w.
Proof.
  intros [H1 H2] H. unfold wp.
  destruct (select_seed_run (R := R) (S := S) use_random_seed seed_input w)
    as (seed & w' & -> & _ & _ & Hio & _).
  cbn. apply H. split; by rewrite Hio.
Qed.

Lemma wp_read_text_exact (p : string) (Q : ctl R S string -> world -> Prop)
    (w : world) :
  Q (match fs_lookup p (fs (io w)) with
     | Some (File (Text s)) => Normal s
     | _ => Raises OSError
     end) w ->
  wp (read_text p) Q w.
Proof.
  intros H. unfold wp, read_text. mstep.
  by destruct (fs_lookup p (fs (io w))) as [[|[]]|].
Qed.

Lemma wp_Image_open_missing (p : string) (Q : ctl R S Image -> world -> Prop)
    (w : world) :
  (forall i, fs_lookup p (fs (io w)) <> Some (File (ImageFile i))) ->
  Q (Raises OSError) w ->
  wp (Image_open p) Q w.
Proof.
  intros Hp H. unfold wp, Image_open. mstep.
  destruct (fs_lookup p (fs (io w))) as [[|[]]|]; cbn; auto. by destruct (Hp i).
Qed.

End ReadsOnly.

(** What an iteration of the batch does with files it cannot read. *)
Lemma batch_iteration_unreadable (a : Batch.inputs)
    (target_width target_height : Z) (image_file log_text : string) (w : world) :
  cancel_batch_flag (py w) = false ->
  wp (batch_iteration a target_width target_height image_file log_text)
     (fun c w' =>
        (fs_lookup (batch_prompt_path a image_file) (fs (io w)) = Some Dir ->
         c = Raises OSError /\ reads_only [EvBatchPoll image_file false] w w')
        /\ ((fs_lookup (batch_prompt_path a image_file) (fs (io w)) = None
             \/ exists text, fs_lookup (batch_prompt_path a image_file) (fs (io w))
                             = Some (File (Text text))) ->
            (forall i, fs_lookup (batch_image_path a image_file) (fs (io w))
                       <> Some (File (ImageFile i))) ->
            (exists log, c = Continues log)
            /\ reads_only [EvBatchPoll image_file false] w w')) w.
Proof.
  intros Hflag.
  unfold batch_iteration, batch_prompt_path, batch_image_path.
  destruct (Py.splitext image_file) as [base ext]. cbn [fst].
  pose proof (reads_only_refl w) as H0.
  apply wp_bind, wp_get_world. cbn [after]. rewrite Hflag.
  apply wp_bind. eapply wp_emit_reads; [exact H0|]. clear H0. intros w1 H0.
  cbn [after app] in *.
  apply wp_bind. eapply wp_time_time_reads; [exact H0|]. clear H0 w1.
  intros iter_start w1 H0. cbn [after].
  apply wp_bind, wp_os_path_exists. cbn [after].
  pose proof (proj2 H0) as Hfs.
  apply wp_bind.
  eapply wp_mono with
    (Q := fun c w2 =>
            reads_only [EvBatchPoll image_file false] w w2
            /\ match fs_lookup (Py.join (Batch.folder_path a) (base +:+ ".txt"))
                       (fs (io w)) with
               | None | Some (File (Text _)) => exists x, c = Normal x
               | _ => c = Raises OSError
               end).
  - rewrite Hfs.
    destruct (fs_lookup (Py.join (Batch.folder_path a) (base +:+ ".txt")) (fs (io w)))
      as [[|[text| | |]]|] eqn:Hp.
    all: rewrite ?bool_decide_eq_true_2 by done;
      rewrite ?bool_decide_eq_false_2 by (by intros [? [=]]); cbn [negb].
    all: try (apply wp_bind, wp_read_text_exact; rewrite Hfs, Hp; by cbn [after]).
    + apply wp_bind, wp_read_text_exact. rewrite Hfs, Hp. cbn [after].
      case_bool_decide.
      all: apply wp_bind; (eapply wp_print_reads; [exact H0|]);
        intros w2 H2; cbn [after]; apply wp_ret; split; [done|by eexists].
    + apply wp_bind; (eapply wp_print_reads; [exact H0|]);
        intros w2 H2; cbn [after]; apply wp_ret; split; [done|by eexists].
  - clear H0 Hfs w1. intros c w1 [H0 Hc].
    destruct (fs_lookup (Py.join (Batch.folder_path a) (base +:+ ".txt")) (fs (io w)))
      as [[|[text| | |]]|] eqn:Hp.
    all: try (subst c; cbn [after]; split; [done|]; by intros [|[? ?]]).
    all: destruct Hc as [[prompt_content log] ->]; cbn [after].
    all: apply wp_bind, wp_os_path_exists; cbn [after].
    all: destruct (Batch.skip_overwrite a && _).
    all: try (apply wp_bind; (eapply wp_print_reads; [exact H0|]);
              intros w2 H2; cbn [after]; apply wp_continue;
              split; [done|]; intros _ _; split; [by eexists|done]).
    all: apply wp_bind; (eapply wp_select_seed_reads; [exact H0|]);
      clear H0 w1; intros seed w1 H0; cbn [after].
    all: apply wp_bind; (eapply wp_print_reads; [exact H0|]);
      clear H0 w1; intros w1 H0; cbn [after].
    all: destruct (fs_lookup (Py.join (Batch.folder_path a) image_file) (fs (io w)))
           as [[|[| |i|]]|] eqn:Hi.
    all: try (match type of Hi with
              | _ = Some (File (ImageFile ?i)) =>
                  unfold wp; split; [done|]; intros _ Hn; by destruct (Hn i)
              end).
    all: apply wp_bind, wp_try_except, wp_bind.
    all: apply wp_Image_open_missing; [by rewrite (proj2 H0), Hi|].
    all: cbn [after]; apply wp_bind, wp_get_world; cbn [after].
    all: apply wp_bind; (eapply wp_print_reads; [exact H0|]);
      intros w2 H2; cbn [after]; apply wp_continue.
    all: split; [done|]; intros _ _; split; [by eexists|done].
Qed.

(** X18. An iteration of the batch whose prompt file cannot be read,
    because a directory stands in its place, raises [OSError]: the
    file is opened outside any [try], so the failure is not turned
    into a line of the log.  Nothing but the poll of the flag has been
    recorded, and no file has been touched. *)
Theorem batch_iteration_prompt_directory (a : Batch.inputs)
    (target_width target_height : Z) (image_file log_text : string) (w : world) :
  cancel_batch_flag (py w) = false ->
  fs_lookup (batch_prompt_path a image_file) (fs (io w)) = Some Dir ->
  let r := batch_iteration a target_width target_height image_file log_text w in
  r.1 = Raises OSError
  /\ trace (io r.2) = trace (io w) ++ [EvBatchPoll image_file false]
  /\ fs (io r.2) = fs (io w).
Proof.
  intros Hflag Hp r.
  pose proof (batch_iteration_unreadable a target_width target_height image_file
                log_text w Hflag) as [H _].
  by destruct (H Hp) as [? [? ?]].
Qed.

(** X19. An iteration of the batch whose picture cannot be opened goes
    on to the next file: whether the prompt file is missing or a text,
    the iteration ends with [continue], the pipeline is not called and
    no file is written. *)
Theorem batch_iteration_unreadable_image (a : Batch.inputs)
    (target_width target_height : Z) (image_file log_text : string) (w : world) :
  cancel_batch_flag (py w) = false ->
  (fs_lookup (batch_prompt_path a image_file) (fs (io w)) = None
   \/ exists text, fs_lookup (batch_prompt_path a image_file) (fs (io w))
                   = Some (File (Text text))) ->
  (forall i, fs_lookup (batch_image_path a image_file) (fs (io w))
             <> Some (File (ImageFile i))) ->
  let r := batch_iteration a target_width target_height image_file log_text w in
  (exists log, r.1 = Continues log)
  /\ trace (io r.2) = trace (io w) ++ [EvBatchPoll image_file false]
  /\ fs (io r.2) = fs (io w).
Proof.
  intros Hflag Hp Hi r.
  pose proof (batch_iteration_unreadable a target_width target_height image_file
                log_text w Hflag) as [_ H].
  by destruct (H Hp Hi) as [? [? ?]].
Qed.

Lemma batch_iteration_prompt_directory_witness :
  let a := batch_inputs_for MODEL_14B_IMAGE_480P "in" false in
  let w := fresh_world prompt_directory_files in
  let r := batch_iteration a 832 480 "cat.png" "" w in
  r.1 = Raises OSError
  /\ trace (io r.2) = trace (io w) ++ [EvBatchPoll "cat.png" false]
  /\ fs (io r.2) = fs (io w).
Proof.
  apply (batch_iteration_prompt_directory
           (batch_inputs_for MODEL_14B_IMAGE_480P "in" false) 832 480 "cat.png" ""
           (fresh_world prompt_directory_files)).
  - reflexivity.
  - vm_compute. reflexivity.
Defined.

Lemma batch_iteration_unreadable_image_witness :
  let a := batch_inputs_for MODEL_14B_IMAGE_480P "in" false in
  let w := fresh_world broken_picture_files in
  let r := batch_iteration a 832 480 "cat.png" "" w in
  (exists log, r.1 = Continues log)
  /\ trace (io r.2) = trace (io w) ++ [EvBatchPoll "cat.png" false]
  /\ fs (io r.2) = fs (io w).
Proof.
  apply (batch_iteration_unreadable_image
           (batch_inputs_for MODEL_14B_IMAGE_480P "in" false) 832 480 "cat.png" ""
           (fresh_world broken_picture_files)).
  - reflexivity.
  - left. vm_compute. reflexivity.
  - intros i. vm_compute. discriminate.
Defined.

(** ** The parameters file of a video *)

Lemma written_texts_app (t1 t2 : list event) :
  written_texts (t1 ++ t2) = written_texts t1 ++ written_texts t2.
Proof. apply omap_app. Qed.

Lemma sidecars_app (save_prompt : bool) (t1 t2 : list event) (missing : list string) :
  sidecars save_prompt t1 [] -> sidecars save_prompt t2 missing ->
  sidecars save_prompt (t1 ++ t2) missing.
Proof.
  unfold sidecars. destruct save_prompt; rewrite ?saved_videos_app, written_texts_app.
  - rewrite map_app, app_nil_r. intros -> ->. by rewrite app_assoc.
  - by intros -> ->.
Qed.

Lemma sidecars_none (save_prompt : bool) (t : list event) :
  Forall no_output t -> sidecars save_prompt t [].
Proof.
  intros H. assert (saved_videos t = [] /\ written_texts t = []) as [H1 H2].
  { induction H as [|e t He _ [IH1 IH2]]; [done|].
    unfold saved_videos, written_texts in *. cbn. rewrite IH1, IH2. by destruct e. }
  unfold sidecars. rewrite H1, H2. by destruct save_prompt.
Qed.

Lemma gen_sidecars_seq {R S A R' S' A'} (save_prompt : bool) (w0 w1 w2 : world)
    (c1 : ctl R S A) (c : ctl R' S' A') :
  match c1 with Raises _ => False | _ => True end ->
  gen_sidecars save_prompt w0 c1 w1 -> gen_sidecars save_prompt w1 c w2 ->
  gen_sidecars save_prompt w0 c w2.
Proof.
  intros Hc1 (t1 & H1 & K1) (t2 & H2 & K2). exists (t1 ++ t2).
  split; [by rewrite H2, H1, app_assoc|].
  assert (K1' : sidecars save_prompt t1 []) by (by destruct c1).
  destruct c; try (by apply sidecars_app).
  destruct K2 as (missing & K2 & Hm). exists missing. split; [|done].
  by apply sidecars_app.
Qed.

Lemma generate_iteration_sidecars (a : Gen.inputs) (v : Gen.frame_vars) (p : string)
    (loc : Gen.locals) (w : world) :
  wp (generate_iteration a v p loc) (gen_sidecars (Gen.save_prompt a) w) w.
Proof.
  unfold generate_iteration. pose proof (evolves_refl w) as Hacc.
  wp_auto.
  all: unfold gen_sidecars.
  all: eexists; split; [ev_trace|].
  all: unfold sidecars.
  all: repeat match goal with H : Gen.save_prompt _ = _ |- _ => rewrite H end.
  all: try done.
  all: try (by case_match).
  all: eexists; (split; [first [reflexivity|by case_match]|cbn; lia]).
Qed.

Lemma gen_sidecars_grows {R S A} (save_prompt : bool) (w w' : world) (c : ctl R S A) :
  grows no_output w w' -> gen_sidecars save_prompt w c w'.
Proof.
  intros (t & Ht & Hf). exists t. split; [done|].
  pose proof (sidecars_none save_prompt t Hf) as Hs.
  destruct c; try done. exists []. split; [done|cbn; lia].
Qed.

Lemma wp_for_each_sidecars {R S S' A} (save_prompt : bool) (l : list A)
    (body : A -> S' -> M R S' S') (s : S') (w : world) :
  (forall x s1 w1, wp (body x s1) (gen_sidecars save_prompt w1) w1) ->
  wp (for_each (S := S) l body s) (gen_sidecars save_prompt w) w.
Proof.
  intros Hbody.
  assert (H : forall w1 s1,
             gen_sidecars (R := R) (S := S) save_prompt w (Normal s1) w1 ->
             wp (for_each (S := S) l body s1) (gen_sidecars save_prompt w) w1).
  2:{ apply (H w s). apply gen_sidecars_grows, grows_refl. }
  induction l as [|x l IH]; intros w1 s1 H1; [by apply wp_for_each_nil|].
  apply wp_for_each_cons. eapply wp_mono; [apply Hbody|].
  intros c w2 H2.
  assert (Hn : forall s2 : S', gen_sidecars (R := R) (S := S) save_prompt w1 (Normal s2) w2 ->
                          gen_sidecars (R := R) (S := S) save_prompt w (Normal s2) w2).
  { intros s2 H3.
    by apply (gen_sidecars_seq save_prompt w w1 w2 (Normal s1) (Normal s2) I H1). }
  pose proof (fun (c' : ctl R S S') =>
                gen_sidecars_seq save_prompt w w1 w2 (Normal s1) c' I H1) as Hseq.
  destruct c as [s2|r|s2|s2|e]; cbn [after_iteration].
  - by apply IH, Hn.
  - by apply (Hseq (Returns r)).
  - by apply Hn.
  - by apply IH, Hn.
  - by apply (Hseq (Raises e)).
Qed.

(** X20. With [save_prompt], [generate_videos] writes for each video it
    saves a text file of the same path with the extension [.txt], in
    the order of the videos, and writes no other text file; only a
    call that ends with an exception can leave a video, the last one
    saved, without its text.  Without [save_prompt] the call writes no
    text file at all. *)
Theorem generate_videos_sidecars (a : Gen.inputs) (w : world) :
  exists t,
    trace (io (generate_videos a w).2) = trace (io w) ++ t
    /\ match (generate_videos a w).1 with
       | Raises _ =>
           exists missing,
             sidecars (Gen.save_prompt a) t missing /\ (length missing <= 1)%nat
       | _ => sidecars (Gen.save_prompt a) t []
       end.
Proof.
  change (wp (generate_videos a) (gen_sidecars (Gen.save_prompt a) w) w).
  unfold generate_videos. do 2 wp_step.
  remember (set_py (with_cancel_flag false) w) as w1 eqn:Ew1.
  assert (Hio : trace (io w1) = trace (io w)) by (by subst).
  clear Ew1. pose proof (evolves_refl w1) as Hacc.
  do 2 wp_op.
  (* the model *)
  wp_step. eapply wp_mono.
  { instantiate (1 := fun c w2 =>
      w2 = w' /\ match gen_model_choice (Gen.model_choice_radio a) with
                 | Some model_choice => exists d, c = Normal (model_choice, d)
                 | None => c = Returns ("", ERR_INVALID_MODEL, "")
                 end).
    unfold gen_model_choice. repeat case_bool_decide; wp_step; eauto. }
  intros c w2 [-> Hm].
  assert (Hstart : forall wx, evolves [] w' wx -> grows no_output w wx).
  { intros wx Hx. eapply grows_same; [|apply grows_refl].
    rewrite (ev_trace _ _ _ Hx), (ev_trace _ _ _ Hacc0), !app_nil_r. done. }
  destruct (gen_model_choice (Gen.model_choice_radio a)) as [model_choice|] eqn:Emc.
  2: { subst c. cbn [after]. apply gen_sidecars_grows, Hstart, evolves_refl. }
  destruct Hm as [d ->]. cbn [after].
  destruct (gen_model_choice_known _ _ Emc) as [Hknown _].
  clear Hacc0 H0 Hio w1. pose proof (evolves_refl w') as Hacc.
  (* the frame count *)
  wp_step. eapply wp_mono.
  { instantiate (1 := fun c w2 => exists n, c = Normal n /\ evolves [] w' w2).
    wp_auto; eauto. }
  intros c w2 (n & -> & Hacc1). cbn [after]. clear Hacc.
  (* the crop of the input video *)
  wp_step. eapply wp_mono.
  { instantiate (1 := fun c w3 =>
      evolves [] w' w3
      /\ match c with
         | Normal _ | Raises _ => True
         | _ => False
         end).
    rename Hacc1 into Hacc. wp_auto; try done.
    all: apply wp_auto_crop_video; intros ? w3 Hev; ev_merge; cbn [after];
      wp_auto; done. }
  intros c w3 [Hacc2 Hc]. clear Hacc1 w2.
  destruct c as [[input_video original_image]| | | |e]; try done; cbn [after];
    [|by apply gen_sidecars_grows, Hstart].
  (* the cache *)
  wp_step. eapply wp_mono.
  { instantiate (1 := fun c w4 => c = Normal tt /\ grows no_output w w4).
    apply wp_reload_if_changed; [done|..].
    - intros _. split; [done|]. by apply Hstart.
    - intros _ pipe w4 Ht _ _ _. split; [done|].
      eapply grows_trans; [by apply Hstart|]. exists [EvLoad pipe].
      split; [done|]. by repeat constructor. }
  intros c w4 [-> Hg4]. cbn [after]. clear Hacc2 Hstart.
  pose proof (gen_sidecars_grows (R := Gen.result) (S := Empty_set)
                (Gen.save_prompt a) w w4 (Normal tt) Hg4) as H4.
  (* the loops *)
  wp_step. eapply wp_mono.
  { apply (wp_for_each_sidecars (S := Empty_set) (Gen.save_prompt a)).
    intros p loc1 wa.
    apply (wp_for_each_sidecars (S := Gen.locals) (Gen.save_prompt a)).
    intros i loc2 wb. apply generate_iteration_sidecars. }
  intros c wl Hl.
  pose proof (gen_sidecars_seq (Gen.save_prompt a) w w4 wl (Normal tt) c I H4 Hl) as Hwl.
  destruct c as [loc|r| | |e]; cbn [after]; try done.
  assert (Hend : forall (c : ctl Gen.result Empty_set Gen.result) tr wy wz,
            evolves tr wl wy -> trace (io wz) = trace (io wy) -> Forall no_output tr ->
            gen_sidecars (Gen.save_prompt a) w c wz).
  { intros c tr wy wz Hev Hz Hf.
    eapply (gen_sidecars_seq _ w wl wz (Normal loc)); [done|exact Hwl|].
    apply gen_sidecars_grows. exists tr.
    split; [by rewrite Hz, (ev_trace _ _ _ Hev)|done]. }
  clear Hl H4 Hg4 Hwl.
  pose proof (evolves_refl wl) as Hacc.
  wp_auto. all: try rewrite div_sixty. all: wp_auto.
  all: eapply Hend; [eassumption|eassumption || reflexivity|by repeat constructor].
Qed.

(** ** The two cancel buttons *)

Section Deaf.
Context {R S : Type}.
Variable c : ui_event.

Lemma deaf_ret {A} (a : A) : deaf c (mret a : M R S A).
Proof. by intros w0 w H. Qed.

Lemma deaf_get_world : deaf c (get_world : M R S world).
Proof. by intros w0 w H. Qed.

Lemma deaf_return {A} (r : R) : deaf c (return_ r : M R S A).
Proof. by intros w0 w H. Qed.

Lemma deaf_break {A} (s : S) : deaf c (break_ s : M R S A).
Proof. by intros w0 w H. Qed.

Lemma deaf_continue {A} (s : S) : deaf c (continue_ s : M R S A).
Proof. by intros w0 w H. Qed.

Lemma deaf_raise {A} (e : exn) : deaf c (raise e : M R S A).
Proof. by intros w0 w H. Qed.

Lemma deaf_lift {A} (x : exc A) : deaf c (lift x : M R S A).
Proof. intros w0 w H. by destruct x. Qed.

Lemma deaf_bind {A B} (m : M R S A) (f : A -> M R S B) :
  deaf c m -> (forall a, deaf c (f a)) -> deaf c (m ≫= f).
Proof.
  intros Hm Hf w0 w H. specialize (Hm w0 w H). munfold.
  destruct (m w) as [[a| | | |] w1]; try done. by apply Hf.
Qed.

Lemma deaf_get_world_bind {B} (f : world -> M R S B) :
  (forall w, unheard c w -> deaf c (f w)) -> deaf c (get_world ≫= f).
Proof. intros Hf w0 w H. munfold. cbn. apply Hf; [apply H|done]. Qed.

Lemma deaf_try_except {A} (m : M R S A) (handler : exn -> M R S A) :
  deaf c m -> (forall e, deaf c (handler e)) -> deaf c (try_except m handler).
Proof.
  intros Hm Hh w0 w H. specialize (Hm w0 w H). unfold try_except.
  destruct (m w) as [[a| | | |e] w1]; try done. by apply Hh.
Qed.

Lemma deaf_call {A} (m : M A Empty_set A) : deaf c m -> deaf c (call m : M R S A).
Proof.
  intros Hm w0 w H. specialize (Hm w0 w H). unfold call.
  by destruct (m w) as [[a|r|[]|[]|e] w1].
Qed.

Lemma deaf_for_each {S' A} (l : list A) (body : A -> S' -> M R S' S') (s : S') :
  (forall x s1, deaf c (body x s1)) -> deaf c (for_each (S := S) l body s).
Proof.
  intros Hbody. revert s. induction l as [|x l IH]; intros s w0 w H; [done|].
  specialize (Hbody x s w0 w H). cbn.
  destruct (body x s w) as [[s1| |s1|s1|] w1]; try done; by apply IH.
Qed.

Lemma deaf_modify (f : world -> world) :
  (forall w, unheard c w -> unheard c (f w)) ->
  (forall w, trace (io (f w)) = trace (io w)) ->
  deaf c (modify f : M R S unit).
Proof.
  intros Hu Ht w0 w [H1 H2]. split; [by apply Hu|].
  apply (grows_same _ _ w); [apply Ht|done].
Qed.

Lemma deaf_emit (e : event) : not_cancelled c e -> deaf c (emit e : M R S unit).
Proof.
  intros He w0 w [H1 H2]. split; [done|].
  eapply grows_trans; [exact H2|]. exists [e]. split; [done|]. by constructor.
Qed.

Lemma deaf_handle_clicks (l : list ui_event) :
  Forall (fun click => click <> c) l -> deaf c (handle_clicks l : M R S unit).
Proof.
  induction 1 as [|e l He _ IH]; [apply deaf_ret|].
  cbn [handle_clicks]. apply deaf_bind; [|by intros _].
  intros w0 w [[H1 H2] H3].
  split; [|by destruct e; apply (grows_same _ _ w)].
  by destruct e, c.
Qed.

Lemma deaf_interface_runs : deaf c (interface_runs : M R S unit).
Proof.
  apply deaf_get_world_bind. intros w [_ Hw].
  unfold no_click in Hw. destruct (ui_events (env w)) as [|clicks rest];
    [apply deaf_ret|].
  apply Forall_cons in Hw as [Hc Hr].
  apply deaf_bind; [|intros _; by apply deaf_handle_clicks].
  apply deaf_modify; [|done]. by intros w1 [H1 _].
Qed.

End Deaf.

(** One step in showing a statement deaf: the rule of its first
    instruction, or the body of the function it calls. *)
Ltac deaf_head m :=
  lazymatch m with
  | ?f _ => deaf_head f
  | _ => m
  end.

Ltac deaf_quiet :=
  apply deaf_modify;
  [ let H := fresh in
    intros ? [H ?]; split; [|done];
    match goal with |- flag_of ?c _ = _ => destruct c end; exact H
  | done ].

Ltac deaf_step :=
  lazymatch goal with
  | |- deaf _ (mbind _ get_world) => apply deaf_get_world_bind; intros ? ?
  | |- deaf _ (mbind _ _) => apply deaf_bind; [|intros ?]
  | |- deaf _ (mret _) => apply deaf_ret
  | |- deaf _ get_world => apply deaf_get_world
  | |- deaf _ (return_ _) => apply deaf_return
  | |- deaf _ (break_ _) => apply deaf_break
  | |- deaf _ (continue_ _) => apply deaf_continue
  | |- deaf _ (raise _) => apply deaf_raise
  | |- deaf _ (lift _) => apply deaf_lift
  | |- deaf _ (call _) => apply deaf_call
  | |- deaf _ (try_except _ _) => apply deaf_try_except; [|intros ?]
  | |- deaf _ (for_each _ _ _) => apply deaf_for_each; intros ? ?
  | |- deaf _ interface_runs => apply deaf_interface_runs
  | |- deaf _ (modify _) => deaf_quiet
  | |- deaf _ (if ?b then _ else _) => destruct b eqn:?
  | |- deaf _ (match ?x with _ => _ end) => destruct x eqn:?
  end.

Ltac deaf_event :=
  apply deaf_emit;
  first [ exact I
        | match goal with H : unheard _ ?w |- _ => exact (proj1 H) end ].

Ltac deaf_op :=
  lazymatch goal with
  | |- deaf _ (emit _) => deaf_event
  | |- deaf _ (mbind _ _) => deaf_step
  | |- deaf _ (if _ then _ else _) => deaf_step
  | |- deaf _ (match _ with _ => _ end) => deaf_step
  | |- deaf _ ?m => first [deaf_step | let h := deaf_head m in unfold h]
  end.

Section DeafFunctions.
Context {R S : Type}.

Lemma deaf_crop_frames (c : ui_event)
    (target_width target_height desired_frame_count : Z)
    (scale : spec_float) (new_width new_height : Z)
    (frames : list frame) (frame_count : Z) (written : list frame) :
  deaf c (crop_frames (R := R) (S := S) target_width target_height
            desired_frame_count scale new_width new_height frames frame_count
            written).
Proof.
  revert frame_count written.
  induction frames as [|frame rest IH]; intros frame_count written;
    cbn [crop_frames].
  - repeat deaf_op.
  - destruct (frame_count <? desired_frame_count); [|apply deaf_ret].
    apply deaf_bind; [repeat deaf_op|]. intros frame1.
    destruct (shape frame1) as [h w].
    apply deaf_bind; [repeat deaf_op|]. intros frame2. apply IH.
Qed.

End DeafFunctions.

Lemma deaf_auto_crop_video (c : ui_event) (video_path : string)
    (target_width target_height desired_frame_count desired_fps : Z) :
  deaf c (auto_crop_video video_path target_width target_height
            desired_frame_count desired_fps).
Proof.
  unfold auto_crop_video.
  repeat lazymatch goal with
         | |- deaf _ (crop_frames _ _ _ _ _ _ _ _ _) => apply deaf_crop_frames
         | |- _ => deaf_op
         end.
Qed.

Lemma deaf_generate_iteration (a : Gen.inputs) (v : Gen.frame_vars) (p : string)
    (loc : Gen.locals) :
  deaf PressCancel (generate_iteration a v p loc).
Proof.
  unfold generate_iteration. repeat deaf_op.
Qed.

Lemma calm_after_reset {R S A} (c : ui_event) (f : world -> world) (rest : M R S A)
    (w : world) :
  unheard c (f w) -> trace (io (f w)) = trace (io w) -> deaf c rest ->
  calm c w ((modify f ≫= fun _ => rest) w).2.
Proof.
  intros Hu Ht Hd. munfold. cbn.
  destruct (Hd (f w) (f w)) as [H1 H2]; [split; [done|apply grows_refl]|].
  split; [done|]. destruct H2 as (t & H2 & Hf). exists t. by rewrite <- Ht.
Qed.

Lemma generate_videos_calm (a : Gen.inputs) (w : world) :
  no_click PressCancel (env w) ->
  calm PressCancel w (generate_videos a w).2.
Proof.
  intros Hw. unfold generate_videos. apply calm_after_reset; [done|done|].
  repeat lazymatch goal with
         | |- deaf _ (generate_iteration _ _ _ _) => apply deaf_generate_iteration
         | |- deaf _ (auto_crop_video _ _ _ _ _) => apply deaf_auto_crop_video
         | |- _ => deaf_op
         end.
Qed.

Lemma deaf_batch_iteration (a : Batch.inputs) (target_width target_height : Z)
    (image_file log_text : string) :
  deaf PressCancelBatch (batch_iteration a target_width target_height image_file
                           log_text).
Proof.
  unfold batch_iteration. repeat deaf_op.
Qed.

Lemma batch_process_videos_calm (a : Batch.inputs) (w : world) :
  no_click PressCancelBatch (env w) ->
  calm PressCancelBatch w (batch_process_videos a w).2.
Proof.
  intros Hw. unfold batch_process_videos. apply calm_after_reset; [done|done|].
  repeat lazymatch goal with
         | |- deaf _ (batch_iteration _ _ _ _ _) => apply deaf_batch_iteration
         | |- _ => deaf_op
         end.
Qed.

(** X21. [generate_videos] listens to its own button only, and only
    during the call: if no click on Cancel arrives while it runs, then
    whatever the flag held when the call began (a Cancel pressed
    earlier is forgotten) and however often Cancel Batch is pressed
    meanwhile, no poll of the call finds the flag set, and the flag is
    unset when the call ends. *)
Theorem generate_videos_hears_its_button (a : Gen.inputs) (w : world) :
  no_click PressCancel (env w) ->
  (exists t,
     trace (io (generate_videos a w).2) = trace (io w) ++ t
     /\ Forall (fun e => e <> EvPoll true) t)
  /\ cancel_flag (py (generate_videos a w).2) = false.
Proof.
  intros Hw. destruct (generate_videos_calm a w Hw) as [[Hf _] (t & Ht & Hp)].
  split; [|exact Hf]. exists t. split; [done|].
  eapply Forall_impl; [exact Hp|]. intros e He ->. discriminate He.
Qed.

(** X22. [batch_process_videos] listens to its own button only, and
    only during the call: if no click on Cancel Batch arrives while it
    runs, then whatever the flag held when the call began and however
    often Cancel is pressed meanwhile, no poll of the batch finds the
    flag set, and the flag is unset when the call ends. *)
Theorem batch_process_videos_hears_its_button (a : Batch.inputs) (w : world) :
  no_click PressCancelBatch (env w) ->
  (exists t,
     trace (io (batch_process_videos a w).2) = trace (io w) ++ t
     /\ Forall (fun e => forall image_file, e <> EvBatchPoll image_file true) t)
  /\ cancel_batch_flag (py (batch_process_videos a w).2) = false.
Proof.
  intros Hw. destruct (batch_process_videos_calm a w Hw) as [[Hf _] (t & Ht & Hp)].
  split; [|exact Hf]. exists t. split; [done|].
  eapply Forall_impl; [exact Hp|]. intros e He image_file ->. discriminate He.
Qed.

Lemma generate_videos_hears_its_button_witness :
  let a := gen_inputs_for MODEL_14B_TEXT None 2 in
  let w := clicked_world [("outputs", Dir)]
             [[PressCancelBatch]; [PressCancelBatch; PressCancelBatch]] in
  (exists t,
     trace (io (generate_videos a w).2) = trace (io w) ++ t
     /\ Forall (fun e => e <> EvPoll true) t)
  /\ cancel_flag (py (generate_videos a w).2) = false.
Proof.
  apply (generate_videos_hears_its_button (gen_inputs_for MODEL_14B_TEXT None 2)
           (clicked_world [("outputs", Dir)]
              [[PressCancelBatch]; [PressCancelBatch; PressCancelBatch]])).
  unfold no_click. cbn. repeat constructor; discriminate.
Defined.

Lemma batch_process_videos_hears_its_button_witness :
  let a := batch_inputs_for MODEL_14B_IMAGE_480P "in" false in
  let w := clicked_world batch_files [[PressCancel]; [PressCancel; PressCancel]] in
  (exists t,
     trace (io (batch_process_videos a w).2) = trace (io w) ++ t
     /\ Forall (fun e => forall image_file, e <> EvBatchPoll image_file true) t)
  /\ cancel_batch_flag (py (batch_process_videos a w).2) = false.
Proof.
  apply (batch_process_videos_hears_its_button
           (batch_inputs_for MODEL_14B_IMAGE_480P "in" false)
           (clicked_world batch_files [[PressCancel]; [PressCancel; PressCancel]])).
  unfold no_click. cbn. repeat constructor; discriminate.
Defined.

Example clicked_world_runs :
  let a := gen_inputs_for MODEL_14B_TEXT None 2 in
  let w := clicked_world [("outputs", Dir)]
             [[PressCancelBatch]; [PressCancelBatch; PressCancelBatch]] in
  List.filter (fun e => match e with EvPoll _ => true | _ => false end)
    (trace (io (generate_videos a w).2)) = [EvPoll false; EvPoll false]
  /\ cancel_batch_flag (py (generate_videos a w).2) = true.
Proof. vm_compute. done. Qed.

(** ** The parameters file of a batch video *)

Lemma batch_iteration_sidecars (a : Batch.inputs) (target_width target_height : Z)
    (image_file log_text : string) (w : world) :
  wp (batch_iteration a target_width target_height image_file log_text)
    (gen_sidecars (Batch.save_prompt a) w) w.
Proof.
  unfold batch_iteration. pose proof (evolves_refl w) as Hacc.
  wp_auto.
  all: unfold gen_sidecars.
  all: eexists; split; [ev_trace|].
  all: unfold sidecars.
  all: repeat match goal with H : Batch.save_prompt _ = _ |- _ => rewrite H end.
  all: try done.
  all: try (by case_match).
  all: try destruct (Batch.save_prompt a).
  all: first [ exists []; (split; [reflexivity|cbn; lia])
             | eexists; (split; [reflexivity|cbn; lia]) ].
Qed.

Section Emits.
Context {R S : Type}.
Variable P : event -> Prop.

Lemma emits_ret {A} (a : A) : emits P (mret a : M R S A).
Proof. intros w. apply grows_refl. Qed.

Lemma emits_get_world : emits P (get_world : M R S world).
Proof. intros w. apply grows_refl. Qed.

Lemma emits_return {A} (r : R) : emits P (return_ r : M R S A).
Proof. intros w. apply grows_refl. Qed.

Lemma emits_break {A} (s : S) : emits P (break_ s : M R S A).
Proof. intros w. apply grows_refl. Qed.

Lemma emits_continue {A} (s : S) : emits P (continue_ s : M R S A).
Proof. intros w. apply grows_refl. Qed.

Lemma emits_raise {A} (e : exn) : emits P (raise e : M R S A).
Proof. intros w. apply grows_refl. Qed.

Lemma emits_lift {A} (x : exc A) : emits P (lift x : M R S A).
Proof. intros w. destruct x; apply grows_refl. Qed.

Lemma emits_bind {A B} (m : M R S A) (f : A -> M R S B) :
  emits P m -> (forall a, emits P (f a)) -> emits P (m ≫= f).
Proof.
  intros Hm Hf w. specialize (Hm w). munfold.
  destruct (m w) as [[a| | | |] w1]; try done.
  eapply grows_trans; [exact Hm|apply Hf].
Qed.

Lemma emits_try_except {A} (m : M R S A) (handler : exn -> M R S A) :
  emits P m -> (forall e, emits P (handler e)) -> emits P (try_except m handler).
Proof.
  intros Hm Hh w. specialize (Hm w). unfold try_except.
  destruct (m w) as [[a| | | |e] w1]; try done.
  eapply grows_trans; [exact Hm|apply Hh].
Qed.

Lemma emits_call {A} (m : M A Empty_set A) : emits P m -> emits P (call m : M R S A).
Proof.
  intros Hm w. specialize (Hm w). unfold call.
  by destruct (m w) as [[a|r|[]|[]|e] w1].
Qed.

Lemma emits_modify (f : world -> world) :
  (forall w, trace (io (f w)) = trace (io w)) -> emits P (modify f : M R S unit).
Proof. intros Ht w. apply (grows_same _ _ w); [apply Ht|apply grows_refl]. Qed.

Lemma emits_emit (e : event) : P e -> emits P (emit e : M R S unit).
Proof. intros He w. exists [e]. split; [done|]. by constructor. Qed.

Lemma emits_handle_clicks (l : list ui_event) : emits P (handle_clicks l : M R S unit).
Proof.
  induction l as [|e l IH]; [apply emits_ret|].
  cbn [handle_clicks]. apply emits_bind; [|by intros _].
  intros w. apply (grows_same _ _ w); [by destruct e|apply grows_refl].
Qed.

Lemma wp_emits {A} (m : M R S A) (Q : ctl R S A -> world -> Prop) (w0 w : world) :
  emits P m -> grows P w0 w ->
  (forall c w', grows P w0 w' -> Q c w') ->
  wp m Q w.
Proof.
  intros Hm H0 H. unfold wp. apply H. eapply grows_trans; [exact H0|apply Hm].
Qed.

End Emits.

Ltac emits_op :=
  lazymatch goal with
  | |- emits _ (mbind _ _) => apply emits_bind; [|intros ?]
  | |- emits _ (mret _) => apply emits_ret
  | |- emits _ get_world => apply emits_get_world
  | |- emits _ (return_ _) => apply emits_return
  | |- emits _ (break_ _) => apply emits_break
  | |- emits _ (continue_ _) => apply emits_continue
  | |- emits _ (raise _) => apply emits_raise
  | |- emits _ (lift _) => apply emits_lift
  | |- emits _ (call _) => apply emits_call
  | |- emits _ (try_except _ _) => apply emits_try_except; [|intros ?]
  | |- emits _ (handle_clicks _) => apply emits_handle_clicks
  | |- emits _ (modify _) => apply emits_modify; done
  | |- emits _ (emit _) => apply emits_emit; exact I
  | |- emits _ (if ?b then _ else _) => destruct b eqn:?
  | |- emits _ (match ?x with _ => _ end) => destruct x eqn:?
  | |- emits _ ?m => let h := deaf_head m in unfold h
  end.

(** X23. With [save_prompt], [batch_process_videos] writes for each
    video it saves a text file of the same path with the extension
    [.txt], in the order of the videos, and writes no other text
    file; only a call that ends with an exception can leave a video,
    the last one saved, without its text.  Without [save_prompt] the
    call writes no text file at all. *)
Theorem batch_process_videos_sidecars (a : Batch.inputs) (w : world) :
  exists t,
    trace (io (batch_process_videos a w).2) = trace (io w) ++ t
    /\ match (batch_process_videos a w).1 with
       | Raises _ =>
           exists missing,
             sidecars (Batch.save_prompt a) t missing /\ (length missing <= 1)%nat
       | _ => sidecars (Batch.save_prompt a) t []
       end.
Proof.
  change (wp (batch_process_videos a) (gen_sidecars (Batch.save_prompt a) w) w).
  unfold batch_process_videos.
  pose proof (grows_refl no_output w) as H0. revert H0.
  generalize w at 2 4 as w1. intros w1 H0.
  repeat (apply wp_bind;
          eapply (wp_emits no_output); [repeat emits_op|exact H0|];
          clear H0 w1; intros c w1 H0;
          destruct c as [?| | | |]; cbn [after];
          try (by apply gen_sidecars_grows)).
  pose proof (gen_sidecars_grows (R := string) (S := Empty_set)
                (Batch.save_prompt a) w w1 (Normal tt) H0) as H1.
  apply wp_bind. eapply wp_mono.
  { apply (wp_for_each_sidecars (S := Empty_set) (Batch.save_prompt a)).
    intros image_file log_text w2. apply batch_iteration_sidecars. }
  intros c wl Hl.
  pose proof (gen_sidecars_seq (Batch.save_prompt a) w w1 wl (Normal tt) c I H1 Hl)
    as Hwl.
  (* emptying the cache and returning the log add no event *)
  destruct c as [log_text|r| | |e]; cbn [after]; done.
Qed.

(** ** The prompt file and the parameters file *)

Lemma has_non_dot_before_sep_app (r r' : list ascii) :
  Py.has_non_dot_before_sep r = true -> Py.has_non_dot_before_sep (r ++ r') = true.
Proof.
  induction r as [|c r IH]; [done|]. cbn.
  destruct (Py.is_sep c); [done|]. by destruct (Py.is_dot c).
Qed.

(** A root that [splitext] has separated from an extension holds a
    character other than a dot in its last component. *)
Lemma splitext_root_non_dot (p : string) :
  (Py.splitext p).2 <> "" ->
  Py.has_non_dot_before_sep (rev (Py.chars (Py.splitext p).1)) = true.
Proof.
  unfold Py.splitext.
  destruct (Py.split_last_dot (rev (Py.chars p)) []) as [[r e]|]; [|done].
  destruct (Py.has_non_dot_before_sep r) eqn:E; [|done].
  intros _. cbn [fst]. by rewrite chars_str, rev_involutive.
Qed.

Lemma append_assoc (a b c : string) : (a +:+ b) +:+ c = a +:+ b +:+ c.
Proof. apply chars_inj. by rewrite !chars_app, app_assoc. Qed.

(** Such a root keeps its place when another extension is put after
    it, whatever stands before it. *)
Lemma splitext_replaced (pre root : string) :
  Py.has_non_dot_before_sep (rev (Py.chars root)) = true ->
  Py.splitext (pre +:+ root +:+ ".mp4") = (pre +:+ root, ".mp4").
Proof.
  intros H. unfold Py.splitext. rewrite !chars_app, !rev_app_distr.
  change (rev (Py.chars ".mp4")) with (["4"; "p"; "m"] ++ ["."])%char.
  rewrite <- !app_assoc. cbn [app].
  pose proof (split_last_dot_app ["4"; "p"; "m"]%char
                (rev (Py.chars root) ++ rev (Py.chars pre)) []
                ltac:(by repeat constructor)) as Hs.
  cbn [app rev] in Hs. rewrite Hs. clear Hs.
  rewrite has_non_dot_before_sep_app by done. f_equal.
  apply chars_inj. by rewrite chars_str, rev_app_distr, !rev_involutive, chars_app.
Qed.

(** What [os.path.join] puts before a name that is not empty depends on
    its first character only. *)
Lemma join_prefix (d root : string) :
  root <> "" ->
  exists pre, forall suffix, Py.join d (root +:+ suffix) = pre +:+ root +:+ suffix.
Proof.
  intros Hr.
  assert (Hs : forall suffix,
             Py.startswith (root +:+ suffix) "/" = Py.startswith root "/").
  { intros suffix. unfold Py.startswith. rewrite chars_app.
    destruct root as [|c root]; [done|]. cbn.
    apply bool_decide_ext. split; intros [k Hk]; injection Hk as -> _; by eexists. }
  unfold Py.join.
  destruct (Py.startswith root "/") eqn:E.
  - exists "". intros suffix. by rewrite Hs.
  - destruct (bool_decide (d = "") || Py.endswith d "/").
    + exists d. intros suffix. by rewrite Hs.
    + exists (d +:+ "/"). intros suffix. by rewrite Hs, append_assoc.
Qed.

Lemma is_image_file_ext (f : string) :
  is_image_file f = true -> (Py.splitext f).2 <> "".
Proof.
  unfold is_image_file. intros H E. rewrite E in H. by vm_compute in H.
Qed.

(** The parameters file of the video of an image lies in the output
    folder under the name of the image with the extension [.txt]. *)
Lemma batch_sidecar_path (a : Batch.inputs) (image_file : string) :
  is_image_file image_file = true ->
  sidecar_path (batch_output_filename a image_file)
  = Py.join (Batch.batch_output_folder a) ((Py.splitext image_file).1 +:+ ".txt").
Proof.
  intros Hi%is_image_file_ext%splitext_root_non_dot.
  unfold sidecar_path, batch_output_filename.
  set (base := (Py.splitext image_file).1) in *.
  assert (Hb : base <> "").
  { intros E. rewrite E in Hi. done. }
  destruct (join_prefix (Batch.batch_output_folder a) base Hb) as [pre Hpre].
  rewrite !Hpre, splitext_replaced by done. cbn [fst]. apply append_assoc.
Qed.

Lemma batch_iteration_text (a : Batch.inputs) (target_width target_height : Z)
    (image_file log_text : string) (w : world) :
  wp (batch_iteration a target_width target_height image_file log_text)
    (fun c w' =>
       exists t,
         trace (io w') = trace (io w) ++ t
         /\ match c with
            | Normal _ =>
                written_texts t
                = if Batch.save_prompt a
                  then [sidecar_path (batch_output_filename a image_file)]
                  else []
            | _ => True
            end) w.
Proof.
  unfold batch_iteration. pose proof (evolves_refl w) as Hacc.
  wp_auto.
  all: eexists; split; [ev_trace|]; try done.
  all: unfold batch_output_filename.
  all: repeat match goal with
       | H : Batch.save_prompt _ = _ |- _ => rewrite H
       | H : Py.splitext _ = _ |- _ => rewrite H
       end.
  all: done.
Qed.

(** X24. When the batch writes its videos into the folder it reads the
    images from and [save_prompt] is set, an iteration that runs to
    its end writes exactly one text file, the parameters of the video,
    and writes it at the path of the prompt file of the image: a
    prompt file that was there is overwritten. *)
Theorem batch_parameters_replace_the_prompt (a : Batch.inputs)
    (target_width target_height : Z) (image_file log_text : string) (w : world) :
  is_image_file image_file = true ->
  Batch.save_prompt a = true ->
  Batch.batch_output_folder a = Batch.folder_path a ->
  let r := batch_iteration a target_width target_height image_file log_text w in
  (exists log, r.1 = Normal log) ->
  exists t,
    trace (io r.2) = trace (io w) ++ t
    /\ written_texts t = [batch_prompt_path a image_file].
Proof.
  intros Hi Hs Hf r [log Hr].
  pose proof (batch_iteration_text a target_width target_height image_file log_text w)
    as H.
  unfold wp in H. fold r in H. rewrite Hr in H. destruct H as (t & Ht & Hw).
  exists t. split; [done|].
  rewrite Hw, Hs, (batch_sidecar_path a image_file Hi), Hf. done.
Qed.

Lemma batch_parameters_replace_the_prompt_witness :
  exists t,
    trace (io (batch_iteration same_folder_inputs 832 480 "cat.png" ""
                 same_folder_world).2)
    = trace (io same_folder_world) ++ t
    /\ written_texts t = ["in/cat.txt"].
Proof.
  apply (batch_parameters_replace_the_prompt same_folder_inputs 832 480 "cat.png" ""
           same_folder_world).
  - reflexivity.
  - reflexivity.
  - reflexivity.
  - eexists. vm_compute. reflexivity.
Defined.

Example same_folder_prompt_lost :
  let w' := (batch_iteration same_folder_inputs 832 480 "cat.png" ""
               same_folder_world).2 in
  fs_lookup "in/cat.txt" (fs (io same_folder_world))
  = Some (File (Text "a cat on a sofa"))
  /\ match fs_lookup "in/cat.txt" (fs (io w')) with
     | Some (File (Text s)) => Py.startswith s "Prompt: a cat on a sofa"
     | _ => false
     end = true.
Proof. vm_compute. done. Qed.

(** ** Names that are always bound *)

Lemma bound_bind {A B} (x : exc A) (f : A -> exc B) :
  bound x -> (forall a, bound (f a)) -> bound (x ≫= f).
Proof. intros Hx Hf. destruct x; [apply Hf|done]. Qed.

Lemma bound_of_int (n : Z) : bound (F64.of_int n).
Proof. unfold F64.of_int. case_match; [done|]. by intros [|]. Qed.

Lemma bound_int_truediv (a b : Z) : bound (F64.int_truediv a b).
Proof. unfold F64.int_truediv. repeat case_match; try done; by intros [|]. Qed.

Lemma bound_div (x y : spec_float) : bound (F64.div x y).
Proof. unfold F64.div. case_match; [|done]. by intros [|]. Qed.

Lemma bound_to_int (x : spec_float) : bound (F64.to_int x).
Proof. destruct x; try done; by intros [|]. Qed.

Lemma bound_crop (box : Z * Z * Z * Z) (i : Image) : bound (crop box i).
Proof. destruct box as [[[x0 y0] x1] y1]. cbn. case_match; [|done]. by intros [|]. Qed.

Lemma bound_resize (sz : Z * Z) (i : Image) : bound (resize sz i).
Proof. destruct sz as [w h]. cbn. case_match; [|done]. by intros [|]. Qed.

Lemma bound_cv2_resize (f : frame) (dsize : Z * Z) : bound (cv2_resize f dsize).
Proof.
  destruct dsize as [w h]. unfold cv2_resize. destruct (shape f).
  case_match; [|done]. by intros [|].
Qed.

Lemma bound_auto_crop_image (image : Image) (target_width target_height : Z) :
  bound (auto_crop_image image target_width target_height).
Proof.
  unfold auto_crop_image. destruct (size image) as [w h].
  repeat first
    [ apply bound_bind; [|intros ?]
    | apply bound_int_truediv | apply bound_of_int | apply bound_div
    | apply bound_to_int | apply bound_crop | apply bound_resize
    | match goal with |- bound (if ?b then _ else _) => destruct b end
    | done ].
Qed.

Section Sound.
Context {R S : Type}.
Variable loaded : bool.

Lemma sound_ret {A} (a : A) : sound loaded (mret a : M R S A).
Proof. by intros w H. Qed.

Lemma sound_get_world : sound loaded (get_world : M R S world).
Proof. by intros w H. Qed.

Lemma sound_return {A} (r : R) : sound loaded (return_ r : M R S A).
Proof. by intros w H. Qed.

Lemma sound_break {A} (s : S) : sound loaded (break_ s : M R S A).
Proof. by intros w H. Qed.

Lemma sound_continue {A} (s : S) : sound loaded (continue_ s : M R S A).
Proof. by intros w H. Qed.

Lemma sound_raise {A} (e : exn) : ~ unbound_name e -> sound loaded (raise e : M R S A).
Proof. by intros He w H. Qed.

Lemma sound_lift {A} (x : exc A) : bound x -> sound loaded (lift x : M R S A).
Proof. intros Hx w H. by destruct x. Qed.

Lemma sound_bind {A B} (m : M R S A) (f : A -> M R S B) :
  sound loaded m -> (forall a, sound loaded (f a)) -> sound loaded (m ≫= f).
Proof.
  intros Hm Hf w H. specialize (Hm w H). munfold.
  destruct (m w) as [[a| | | |] w1]; try done. by apply Hf.
Qed.

Lemma sound_get_world_bind {B} (f : world -> M R S B) :
  (forall w, kept loaded w -> sound loaded (f w)) -> sound loaded (get_world ≫= f).
Proof. intros Hf w H. munfold. cbn. by apply Hf. Qed.

Lemma sound_try_except {A} (m : M R S A) (handler : exn -> M R S A) :
  sound loaded m -> (forall e, sound loaded (handler e)) ->
  sound loaded (try_except m handler).
Proof.
  intros Hm Hh w H. specialize (Hm w H). unfold try_except.
  destruct (m w) as [[a| | | |e] w1]; try done. apply Hh, Hm.
Qed.

Lemma sound_for_each {S' A} (l : list A) (body : A -> S' -> M R S' S') (s : S') :
  (forall x s1, sound loaded (body x s1)) -> sound loaded (for_each (S := S) l body s).
Proof.
  intros Hbody. revert s. induction l as [|x l IH]; intros s w H; [done|].
  specialize (Hbody x s w H). cbn.
  destruct (body x s w) as [[s1| |s1|s1|] w1]; try done; by apply IH.
Qed.

Lemma sound_modify (f : world -> world) :
  (forall w, loaded_pipeline (py (f w)) = loaded_pipeline (py w)) ->
  sound loaded (modify f : M R S unit).
Proof.
  intros Hf w H. change (kept loaded (f w)). unfold kept in *.
  destruct loaded; [|done]. by rewrite Hf.
Qed.

Lemma sound_handle_clicks (l : list ui_event) : sound loaded (handle_clicks l : M R S unit).
Proof.
  induction l as [|e l IH]; [apply sound_ret|].
  cbn [handle_clicks]. apply sound_bind; [|by intros _].
  intros w H. destruct e; cbn; unfold kept in *; by destruct loaded.
Qed.

(** Emptying the cache is the last thing done before a [return]. *)
Lemma sound_unload_return {A} (f : unit -> M R S A) :
  (forall u w, exists r, (f u w).1 = Returns r) ->
  sound loaded (unload_pipeline ≫= f).
Proof.
  intros Hf w H. unfold unload_pipeline. munfold. cbn.
  match goal with |- sound_end _ (f ?u ?w').1 _ => destruct (Hf u w') as [r ->] end.
  done.
Qed.

End Sound.

(** The pipeline is called only where it is loaded. *)
Lemma sound_pipeline_loaded {R S A} (f : world -> M R S A) (w : world) :
  kept true w ->
  (forall pipe, loaded_pipeline (py w) = Some pipe -> sound true (f w)) ->
  sound true (f w).
Proof. intros [pipe H] Hf. by apply (Hf pipe). Qed.

Ltac sound_op :=
  lazymatch goal with
  | |- sound _ (mbind _ get_world) => apply sound_get_world_bind; intros ? ?
  | |- sound _ (mbind _ unload_pipeline) =>
      apply sound_unload_return; intros; eexists; reflexivity
  | |- sound _ (mbind _ _) => apply sound_bind; [|intros ?]
  | |- sound _ (mret _) => apply sound_ret
  | |- sound _ get_world => apply sound_get_world
  | |- sound _ (return_ _) => apply sound_return
  | |- sound _ (break_ _) => apply sound_break
  | |- sound _ (continue_ _) => apply sound_continue
  | |- sound _ (raise _) => apply sound_raise; intros [|]; discriminate
  | |- sound _ (lift _) =>
      apply sound_lift;
      first [ apply bound_of_int | apply bound_int_truediv | apply bound_div
            | apply bound_to_int | apply bound_cv2_resize
            | apply bound_auto_crop_image ]
  | |- sound _ (try_except _ _) => apply sound_try_except; [|intros ?]
  | |- sound _ (for_each _ _ _) => apply sound_for_each; intros ? ?
  | |- sound _ (handle_clicks _) => apply sound_handle_clicks
  | |- sound _ (modify _) => apply sound_modify; done
  | |- sound _ (if ?b then _ else _) => destruct b eqn:?
  | |- sound _ (match ?x with _ => _ end) => destruct x eqn:?
  | |- sound _ ?m => let h := deaf_head m in unfold h
  end.

Lemma sound_print_sample {R S} (b : bool) (s : string) : sound b (print s : M R S unit).
Proof. repeat sound_op. Qed.

Lemma sound_run_pipeline {R S} (args : call_args) :
  sound true (run_pipeline args : M R S (list frame)).
Proof.
  unfold run_pipeline. apply sound_get_world_bind. intros w [pipe Hp]. rewrite Hp.
  repeat sound_op.
Qed.

Lemma sound_crop_frames {R S} (loaded : bool)
    (target_width target_height desired_frame_count : Z)
    (scale : spec_float) (new_width new_height : Z)
    (frames : list frame) (frame_count : Z) (written : list frame) :
  sound loaded (crop_frames (R := R) (S := S) target_width target_height
                  desired_frame_count scale new_width new_height frames frame_count
                  written).
Proof.
  revert frame_count written.
  induction frames as [|frame rest IH]; intros frame_count written;
    cbn [crop_frames].
  - repeat sound_op.
  - destruct (frame_count <? desired_frame_count); [|apply sound_ret].
    apply sound_bind; [repeat sound_op|]. intros frame1.
    destruct (shape frame1) as [h w].
    apply sound_bind; [repeat sound_op|]. intros frame2. apply IH.
Qed.

Lemma sound_auto_crop_video {R S} (loaded : bool) (video_path : string)
    (target_width target_height desired_frame_count desired_fps : Z) :
  sound loaded (call (auto_crop_video video_path target_width target_height
                        desired_frame_count desired_fps) : M R S string).
Proof.
  assert (Hin : sound loaded (auto_crop_video video_path target_width target_height
                                desired_frame_count desired_fps)).
  { unfold auto_crop_video.
    repeat lazymatch goal with
           | |- sound _ (crop_frames _ _ _ _ _ _ _ _ _) => apply sound_crop_frames
           | |- _ => sound_op
           end. }
  intros w H. specialize (Hin w H).
  pose proof (wp_auto_crop_video (R := R) (S := S) video_path target_width
                target_height desired_frame_count desired_fps
                (fun _ w' => loaded_pipeline (py w') = loaded_pipeline (py w)) w
                (fun _ _ Hev => ev_pipe _ _ _ Hev)
                (fun _ _ Hev => ev_pipe _ _ _ Hev)) as Hp.
  unfold wp in Hp. unfold call in *.
  destruct (auto_crop_video _ _ _ _ _ w) as [[| |[]|[]|] w']; cbn in *.
  all: unfold kept in *; destruct loaded; try done; by rewrite Hp.
Qed.

Lemma sound_generate_iteration (a : Gen.inputs) (v : Gen.frame_vars) (p : string)
    (loc : Gen.locals) :
  image_bound a v -> sound true (generate_iteration a v p loc).
Proof.
  intros Hv. unfold generate_iteration.
  repeat lazymatch goal with
         | |- sound _ (run_pipeline _) => apply sound_run_pipeline
         | |- sound _ (raise UnboundLocalError) => idtac
         | |- _ => sound_op
         end.
  exfalso.
  match goal with
  | Hm : is_image_model _ = true, Hi : Gen.input_image a = Some _,
    Ho : Gen.original_image v = None |- _ =>
      destruct (Hv Hm) as [? Hx]; [by rewrite Hi|by rewrite Ho in Hx]
  end.
Qed.

Lemma sound_batch_iteration (a : Batch.inputs) (target_width target_height : Z)
    (image_file log_text : string) :
  sound true (batch_iteration a target_width target_height image_file log_text).
Proof.
  unfold batch_iteration.
  repeat lazymatch goal with
         | |- sound _ (run_pipeline _) => apply sound_run_pipeline
         | |- _ => sound_op
         end.
Qed.

Lemma wp_sound {R S A} (loaded : bool) (m : M R S A) (Q : ctl R S A -> world -> Prop)
    (w : world) :
  sound loaded m -> kept loaded w ->
  (forall c w', sound_end loaded c w' -> Q c w') ->
  wp m Q w.
Proof. intros Hm Hw H. apply H. by apply Hm. Qed.

Lemma no_unbound_name_end {R S A} (loaded : bool) (c : ctl R S A) (w : world) :
  sound_end loaded c w -> no_unbound_name c.
Proof. destruct c; try done. by intros [? _]. Qed.

Lemma batch_process_videos_sound (a : Batch.inputs) (w : world) :
  wp (batch_process_videos a) (fun c _ => no_unbound_name c) w.
Proof.
  unfold batch_process_videos.
  apply wp_bind, wp_modify. cbn [after].
  destruct (batch_model_choice (Batch.model_choice_radio a)) as [model_choice|] eqn:Emc.
  2:{ unfold batch_model_choice in Emc. by repeat case_bool_decide. }
  assert (Hid : (if bool_decide (Batch.model_choice_radio a = MODEL_14B_IMAGE_720P)
                 then "14B_image_720p" else "14B_image_480p") = model_choice
                /\ negb (bool_decide (Batch.model_choice_radio a = MODEL_14B_IMAGE_720P)
                         || bool_decide (Batch.model_choice_radio a
                                         = MODEL_14B_IMAGE_480P)) = false).
  { unfold batch_model_choice in Emc. by repeat case_bool_decide; simplify_eq. }
  destruct Hid as [-> ->]. do 2 wp_step.
  pose proof (batch_model_choice_known _ _ Emc) as Hknown.
  wp_step. apply wp_reload_if_changed; [done|..].
  - intros Hs. cbn [after]. unfold stale in Hs. apply orb_false_iff in Hs as [Hs _].
    eapply (wp_sound true);
      [|unfold kept; destruct (loaded_pipeline _); [by eexists|done]|].
    + repeat lazymatch goal with
             | |- sound _ (batch_iteration _ _ _ _ _) => apply sound_batch_iteration
             | |- _ => sound_op
             end.
    + intros c w'. apply no_unbound_name_end.
  - intros _ pipe w' _ Hp _ _. cbn [after].
    eapply (wp_sound true); [|unfold kept; rewrite Hp; by eexists|].
    + repeat lazymatch goal with
             | |- sound _ (batch_iteration _ _ _ _ _) => apply sound_batch_iteration
             | |- _ => sound_op
             end.
    + intros c w''. apply no_unbound_name_end.
Qed.

Lemma wp_sound_value {R S A} (loaded : bool) (m : M R S A) (P : A -> Prop)
    (Q : ctl R S A -> world -> Prop) (w : world) :
  sound loaded m -> kept loaded w ->
  wp m (fun c _ => match c with Normal a => P a | _ => True end) w ->
  (forall c w', sound_end loaded c w' ->
                match c with Normal a => P a | _ => True end -> Q c w') ->
  wp m Q w.
Proof. intros Hm Hw HP H. apply H; [by apply Hm|exact HP]. Qed.

Lemma generate_videos_sound (a : Gen.inputs) (w : world) :
  wp (generate_videos a) (fun c _ => no_unbound_name c) w.
Proof.
  unfold generate_videos.
  apply wp_bind, wp_modify. cbn [after].
  generalize (set_py (with_cancel_flag false) w). clear w. intros w.
  apply wp_bind. eapply (wp_sound false); [repeat sound_op|done|].
  clear w. intros c w Hc.
  destruct c as [overall_start_time| | | |]; cbn [after];
    try exact (no_unbound_name_end _ _ _ Hc).
  clear Hc.
  (* the model *)
  apply wp_bind. eapply wp_mono.
  { instantiate (1 := fun c w2 =>
      w2 = w /\ match gen_model_choice (Gen.model_choice_radio a) with
                | Some model_choice => exists d, c = Normal (model_choice, d)
                | None => c = Returns ("", ERR_INVALID_MODEL, "")
                end).
    unfold gen_model_choice. repeat case_bool_decide; wp_step; eauto. }
  intros c w2 [-> Hm].
  destruct (gen_model_choice (Gen.model_choice_radio a)) as [model_choice|] eqn:Emc;
    [|by subst c].
  destruct Hm as [d ->]. cbn [after].
  destruct (gen_model_choice_known _ _ Emc) as [Hknown _].
  (* the frame count *)
  apply wp_bind. eapply (wp_sound false); [repeat sound_op|done|].
  clear w. intros c w Hc.
  destruct c as [effective_num_frames| | | |]; cbn [after];
    try exact (no_unbound_name_end _ _ _ Hc).
  clear Hc.
  (* the crop of the input video, and the copy of the image *)
  apply wp_bind.
  eapply (wp_sound_value false _
            (fun r => is_image_model model_choice = true ->
                      is_Some (Gen.input_image a) -> is_Some r.2)).
  { repeat lazymatch goal with
           | |- sound _ (call (auto_crop_video _ _ _ _ _)) =>
               apply sound_auto_crop_video
           | |- _ => sound_op
           end. }
  { done. }
  { pose proof (evolves_refl w) as Hacc. wp_auto; try done.
    apply wp_auto_crop_video; [done|]. intros path w3 _. cbn [after]. wp_step.
    intros Hm. apply bool_decide_eq_true_1 in Heqb0. by subst model_choice. }
  clear w. intros c w Hc Hv.
  destruct c as [[input_video original_image]| | | |]; cbn [after];
    try exact (no_unbound_name_end _ _ _ Hc).
  clear Hc. cbn [snd] in Hv.
  (* the cache *)
  apply wp_bind. apply wp_reload_if_changed; [done|..]; cbn [after].
  1: intros Hs; assert (H1 : kept true w)
       by (unfold stale in Hs; apply orb_false_iff in Hs as [Hs _]; unfold kept;
           destruct (loaded_pipeline _); [by eexists|done]).
  2: intros _ pipe w1 _ Hp _ _; assert (H1 : kept true w1)
       by (unfold kept; rewrite Hp; by eexists).
  all: eapply (wp_sound true); [|exact H1|intros c w'; apply no_unbound_name_end].
  all: cbv zeta.
  all: repeat lazymatch goal with
              | |- sound _ (generate_iteration _ _ _ _) =>
                  apply sound_generate_iteration; exact Hv
              | |- _ => sound_op
              end.
Qed.

(** X25. Neither function uses a name before it is bound: the pipeline
    is loaded whenever [generate_videos] or [batch_process_videos]
    calls it, and [original_image], which [generate_videos] assigns on
    some branches only, holds a picture whenever the loop reads it.
    No [TypeError] (calling [None]) and no [UnboundLocalError] escapes
    either function. *)
Theorem names_are_bound_when_used (a : Gen.inputs) (b : Batch.inputs) (w : world) :
  (generate_videos a w).1 <> Raises TypeError
  /\ (generate_videos a w).1 <> Raises UnboundLocalError
  /\ (batch_process_videos b w).1 <> Raises TypeError
  /\ (batch_process_videos b w).1 <> Raises UnboundLocalError.
Proof.
  pose proof (generate_videos_sound a w) as Hg.
  pose proof (batch_process_videos_sound b w) as Hb.
  unfold wp, no_unbound_name, unbound_name in *.
  repeat split; intros E; rewrite E in *; tauto.
Qed.

(** ** The runs of Practical-RIFE *)

Lemma rife_runs_app (t1 t2 : list event) :
  rife_runs (t1 ++ t2) = rife_runs t1 ++ rife_runs t2.
Proof. apply omap_app. Qed.

Lemma rife_runs_none (t : list event) : Forall no_rife t -> rife_runs t = [].
Proof.
  induction 1 as [|e t He _ IH]; [done|]. unfold rife_runs in *. cbn.
  rewrite IH. by destruct e.
Qed.

Lemma only_load_quiet (t : list event) :
  Forall only_load t ->
  rife_runs t = [] /\ saved_videos t = [] /\ ends_with_poll t = false.
Proof.
  intros H. split; [|split].
  - apply rife_runs_none. eapply Forall_impl; [exact H|]. by intros [].
  - apply saved_videos_none. eapply Forall_impl; [exact H|]. by intros [].
  - apply no_save_no_poll. eapply Forall_impl; [exact H|]. by intros [].
Qed.

Lemma emits_for_each {R S S' A} (P : event -> Prop) (l : list A)
    (body : A -> S' -> M R S' S') (s : S') :
  (forall x s1, emits P (body x s1)) -> emits P (for_each (S := S) l body s).
Proof.
  intros Hbody. revert s. induction l as [|x l IH]; intros s w; [apply grows_refl|].
  specialize (Hbody x s w). cbn.
  destruct (body x s w) as [[s1| |s1|s1|] w1]; try done;
    (eapply grows_trans; [exact Hbody|apply IH]).
Qed.

Lemma emits_crop_frames {R S} (P : event -> Prop)
    (target_width target_height desired_frame_count : Z)
    (scale : spec_float) (new_width new_height : Z)
    (frames : list frame) (frame_count : Z) (written : list frame) :
  emits P (crop_frames (R := R) (S := S) target_width target_height
             desired_frame_count scale new_width new_height frames frame_count
             written).
Proof.
  revert frame_count written.
  induction frames as [|frame rest IH]; intros frame_count written;
    cbn [crop_frames].
  - repeat emits_op.
  - destruct (frame_count <? desired_frame_count); [|apply emits_ret].
    apply emits_bind; [repeat emits_op|]. intros frame1.
    destruct (shape frame1) as [h w].
    apply emits_bind; [repeat emits_op|]. intros frame2. apply IH.
Qed.

Lemma emits_generate_iteration (a : Gen.inputs) (v : Gen.frame_vars) (p : string)
    (loc : Gen.locals) :
  emits no_rife (generate_iteration a v p loc).
Proof. unfold generate_iteration. repeat emits_op. Qed.

Lemma gen_rife_runs_before (a : Gen.inputs) (t : list event) :
  Forall only_load t -> rife_runs t = gen_rife_runs a t.
Proof.
  intros (Hr & Hs & Hp)%only_load_quiet. unfold gen_rife_runs.
  rewrite Hr, Hs. by destruct (_ && _).
Qed.

(** X26. [generate_videos] runs Practical-RIFE at most once, after its
    loops: a call that returns has run it exactly when
    [pr_rife_enabled] is set, the call did not leave its loop from
    inside an iteration (cancellation, missing image) and a video was
    saved; it then reads the last video saved, and only that one, and
    writes [outputs/improved_<name>].  Videos saved by earlier
    iterations are not interpolated. *)
Theorem generate_videos_rife_last_only (a : Gen.inputs) (w : world) :
  exists t,
    trace (io (generate_videos a w).2) = trace (io w) ++ t
    /\ match (generate_videos a w).1 with
       | Returns _ => rife_runs t = gen_rife_runs a t
       | Raises _ => (length (rife_runs t) <= 1)%nat
       | _ => True
       end.
Proof.
  change (wp (generate_videos a)
            (fun c w' =>
               exists t,
                 trace (io w') = trace (io w) ++ t
                 /\ match c with
                    | Returns _ => rife_runs t = gen_rife_runs a t
                    | Raises _ => (length (rife_runs t) <= 1)%nat
                    | _ => True
                    end) w).
  unfold generate_videos.
  assert (Hearly : forall (c : ctl Gen.result Empty_set Gen.result) w1,
            grows only_load w w1 ->
            exists t,
              trace (io w1) = trace (io w) ++ t
              /\ match c with
                 | Returns _ => rife_runs t = gen_rife_runs a t
                 | Raises _ => (length (rife_runs t) <= 1)%nat
                 | _ => True
                 end).
  { intros c w1 (t & Ht & Hf). exists t. split; [done|].
    destruct c; try done; [by apply gen_rife_runs_before|].
    apply only_load_quiet in Hf as [-> _]. cbn. lia. }
  pose proof (grows_refl only_load w) as H0. revert H0.
  generalize w at 2 4 as w1. intros w1 H0.
  repeat (try match goal with
               | |- wp (match ?x with _ => _ end) _ _ => destruct x
               end;
          apply wp_bind;
          eapply (wp_emits only_load);
          [repeat lazymatch goal with
                  | |- emits _ (crop_frames _ _ _ _ _ _ _ _ _) =>
                      apply emits_crop_frames
                  | |- _ => emits_op
                  end
          |exact H0|];
          clear H0 w1; intros c w1 H0;
          destruct c as [?|r|[]|[]|e]; cbn [after];
          [|by apply (Hearly (Returns r))|by apply (Hearly (Raises e))]).
  destruct H0 as (t0 & Ht0 & (Hr0 & Hs0 & Hp0)%only_load_quiet). clear Hearly.
  (* the loops *)
  apply wp_bind. eapply wp_mono.
  { apply wp_conj.
    - apply (wp_for_each_video (S := Empty_set)). intros p loc1 wa.
      apply (wp_for_each_video (S := Gen.locals)). intros i loc2 wb.
      eapply wp_mono; [apply generate_iteration_video|].
      intros c wc (body & Hb & Hc3). exists body. split; [done|].
      destruct c as [loc3|[[path log] seed]| | |e]; try done.
      destruct Hc3 as [Hs He]. by rewrite Hs.
    - eapply (wp_emits no_rife); [|apply grows_refl|intros c wl H; exact H].
      apply emits_for_each. intros p loc1. apply emits_for_each. intros i loc2.
      apply emits_generate_iteration. }
  cbn [Gen.last_video_path].
  intros c wl [(tl & Htl & Hl) (tl' & Htl' & Hnr%rife_runs_none)].
  assert (tl' = tl) as -> by (rewrite Htl in Htl'; by apply app_inv_head in Htl').
  clear Htl'.
  destruct c as [loc|[[path log] seed]|[]|[]|e]; cbn [after].
  2:{ exists (t0 ++ tl). split; [by rewrite Htl, Ht0, app_assoc|].
      destruct Hl as [_ Hl]. unfold gen_rife_runs.
      rewrite rife_runs_app, Hr0, Hnr, ends_with_poll_app.
      destruct tl; [done|]. by rewrite Hl, andb_false_r. }
  2:{ exists (t0 ++ tl). split; [by rewrite Htl, Ht0, app_assoc|].
      rewrite rife_runs_app, Hr0, Hnr. cbn. lia. }
  destruct Hl as [Hl Hpl].
  assert (Hend : forall (c : ctl Gen.result Empty_set Gen.result) tr wy wz,
            evolves tr wl wy -> trace (io wz) = trace (io wy) ->
            match c with
            | Returns _ =>
                if Gen.pr_rife_enabled a && bool_decide (Gen.last_video_path loc <> "")
                then exists m,
                       tr = [EvRife (Gen.last_video_path loc)
                               (Py.join "outputs"
                                  ("improved_" +:+ Py.basename (Gen.last_video_path loc)))
                               m]
                else tr = []
            | _ => (length (rife_runs tr) <= 1)%nat
            end ->
            exists t,
              trace (io wz) = trace (io w) ++ t
              /\ match c with
                 | Returns _ => rife_runs t = gen_rife_runs a t
                 | Raises _ => (length (rife_runs t) <= 1)%nat
                 | _ => True
                 end).
  { intros c tr wy wz Hev Hz Hc. exists (t0 ++ tl ++ tr).
    split; [by rewrite Hz, (ev_trace _ _ _ Hev), Htl, Ht0, !app_assoc|].
    rewrite !rife_runs_app, Hr0, Hnr. cbn [app].
    destruct c as [x|r|[]|[]|e]; try done.
    unfold gen_rife_runs.
    rewrite !saved_videos_app, Hs0. cbn [app].
    destruct (Gen.pr_rife_enabled a && bool_decide (Gen.last_video_path loc <> ""))
      eqn:Hr.
    - destruct Hc as [m ->]. apply andb_true_iff in Hr as [Hr1 Hr2].
      apply bool_decide_eq_true_1 in Hr2. rewrite Hr1.
      rewrite (saved_videos_none [_]) by (by repeat constructor).
      rewrite app_nil_r, app_assoc, ends_with_poll_app.
      change (ends_with_poll [EvRife _ _ m]) with false. cbn [andb negb].
      destruct (last (saved_videos tl)) as [v|]; [|done].
      subst v. by rewrite bool_decide_eq_true_2.
    - subst tr. rewrite !app_nil_r.
      change (rife_runs []) with (@nil (string * string)).
      assert (ends_with_poll (t0 ++ tl) = false) as ->.
      { rewrite ends_with_poll_app. by destruct tl. }
      apply andb_false_iff in Hr as [->|Hr]; [done|].
      apply bool_decide_eq_false_1 in Hr.
      destruct (Gen.pr_rife_enabled a); [|done]. cbn [andb negb].
      destruct (last (saved_videos tl)) as [v|]; [|done].
      subst v. by rewrite bool_decide_eq_false_2. }
  clear Hl Hpl Htl Ht0 Hr0 Hs0 Hp0 Hnr.
  pose proof (evolves_refl wl) as Hacc.
  apply wp_bind.
  destruct (Gen.pr_rife_enabled a && bool_decide (Gen.last_video_path loc <> ""))
    eqn:Hr.
  all: wp_auto. all: try rewrite div_sixty. all: wp_auto.
  all: first
    [ eapply (Hend (Raises OSError));
      [eassumption|eassumption || reflexivity|cbn; lia]
    | eapply (Hend (Returns ("", "", "")));
      [eassumption|eassumption || reflexivity|first [by eexists|done]] ].
Qed.

Lemma interpolated_app (a : Batch.inputs) (t1 t2 : list event)
    (missing : list (string * string)) :
  interpolated a t1 [] -> interpolated a t2 missing ->
  interpolated a (t1 ++ t2) missing.
Proof.
  unfold interpolated.
  destruct (Batch.pr_rife_enabled a); rewrite ?saved_videos_app, rife_runs_app.
  - rewrite map_app, app_nil_r. intros -> ->. by rewrite app_assoc.
  - by intros -> ->.
Qed.

Lemma batch_interpolated_seq {R S A R' S' A'} (a : Batch.inputs) (w0 w1 w2 : world)
    (c1 : ctl R S A) (c : ctl R' S' A') :
  match c1 with Raises _ => False | _ => True end ->
  batch_interpolated a w0 c1 w1 -> batch_interpolated a w1 c w2 ->
  batch_interpolated a w0 c w2.
Proof.
  intros Hc1 (t1 & H1 & K1) (t2 & H2 & K2). exists (t1 ++ t2).
  split; [by rewrite H2, H1, app_assoc|].
  assert (K1' : interpolated a t1 []) by (by destruct c1).
  destruct c; try (by apply interpolated_app).
  destruct K2 as (missing & K2 & Hm). exists missing. split; [|done].
  by apply interpolated_app.
Qed.

Lemma batch_interpolated_grows {R S A} (a : Batch.inputs) (w w' : world)
    (c : ctl R S A) :
  grows only_load w w' -> batch_interpolated a w c w'.
Proof.
  intros (t & Ht & (Hr & Hs & _)%only_load_quiet). exists t. split; [done|].
  assert (Hi : interpolated a t []).
  { unfold interpolated. rewrite Hr, Hs. by destruct (Batch.pr_rife_enabled a). }
  destruct c; try done. exists []. split; [done|cbn; lia].
Qed.

Lemma wp_for_each_interpolated {R S S' A} (a : Batch.inputs) (l : list A)
    (body : A -> S' -> M R S' S') (s : S') (w : world) :
  (forall x s1 w1, wp (body x s1) (batch_interpolated a w1) w1) ->
  wp (for_each (S := S) l body s) (batch_interpolated a w) w.
Proof.
  intros Hbody.
  assert (H : forall w1 s1,
             batch_interpolated (R := R) (S := S) a w (Normal s1) w1 ->
             wp (for_each (S := S) l body s1) (batch_interpolated a w) w1).
  2:{ apply (H w s). apply batch_interpolated_grows, grows_refl. }
  induction l as [|x l IH]; intros w1 s1 H1; [by apply wp_for_each_nil|].
  apply wp_for_each_cons. eapply wp_mono; [apply Hbody|].
  intros c w2 H2.
  assert (Hn : forall s2 : S',
             batch_interpolated (R := R) (S := S) a w1 (Normal s2) w2 ->
             batch_interpolated (R := R) (S := S) a w (Normal s2) w2).
  { intros s2 H3.
    by apply (batch_interpolated_seq a w w1 w2 (Normal s1) (Normal s2) I H1). }
  pose proof (fun (c' : ctl R S S') =>
                batch_interpolated_seq a w w1 w2 (Normal s1) c' I H1) as Hseq.
  destruct c as [s2|r|s2|s2|e]; cbn [after_iteration].
  - by apply IH, Hn.
  - by apply (Hseq (Returns r)).
  - by apply Hn.
  - by apply IH, Hn.
  - by apply (Hseq (Raises e)).
Qed.

Lemma batch_iteration_interpolated (a : Batch.inputs) (target_width target_height : Z)
    (image_file log_text : string) (w : world) :
  wp (batch_iteration a target_width target_height image_file log_text)
    (batch_interpolated a w) w.
Proof.
  unfold batch_iteration. pose proof (evolves_refl w) as Hacc.
  wp_auto.
  all: unfold batch_interpolated.
  all: eexists; split; [ev_trace|].
  all: unfold interpolated.
  all: repeat match goal with H : Batch.pr_rife_enabled _ = _ |- _ => rewrite H end.
  all: try done.
  all: try destruct (Batch.pr_rife_enabled a).
  all: first [ exists []; (split; [reflexivity|cbn; lia])
             | eexists; (split; [reflexivity|cbn; lia]) ].
Qed.

(** X27. With [pr_rife_enabled], [batch_process_videos] runs
    Practical-RIFE on every video it saves, in the order of the
    videos, each time writing [improved_<name>] into the output
    folder, and on nothing else; only a call that ends with an
    exception can leave a video, the last one saved, without its
    interpolation.  Without [pr_rife_enabled] it never runs. *)
Theorem batch_process_videos_rife_each (a : Batch.inputs) (w : world) :
  exists t,
    trace (io (batch_process_videos a w).2) = trace (io w) ++ t
    /\ match (batch_process_videos a w).1 with
       | Raises _ =>
           exists missing, interpolated a t missing /\ (length missing <= 1)%nat
       | _ => interpolated a t []
       end.
Proof.
  change (wp (batch_process_videos a) (batch_interpolated a w) w).
  unfold batch_process_videos.
  pose proof (grows_refl only_load w) as H0. revert H0.
  generalize w at 2 4 as w1. intros w1 H0.
  repeat (apply wp_bind;
          eapply (wp_emits only_load); [repeat emits_op|exact H0|];
          clear H0 w1; intros c w1 H0;
          destruct c as [?| | | |]; cbn [after];
          try (by apply batch_interpolated_grows)).
  pose proof (batch_interpolated_grows (R := string) (S := Empty_set)
                a w w1 (Normal tt) H0) as H1.
  apply wp_bind. eapply wp_mono.
  { apply (wp_for_each_interpolated (S := Empty_set) a).
    intros image_file log_text w2. apply batch_iteration_interpolated. }
  intros c wl Hl.
  pose proof (batch_interpolated_seq a w w1 wl (Normal tt) c I H1 Hl) as Hwl.
  (* emptying the cache and returning the log add no event *)
  destruct c as [log_text|r| | |e]; cbn [after]; done.
Qed.
